(** * Weapon-target assignment: the entity-component simulation of
    [src/dist/index.js]

    The development embeds the simulation core of the script: the
    component store, the static tables, the weapon assignment system, the
    damage system, the spawn helpers and, of the rendering system, the
    range circles and the targeting lines.

    Conventions of the embedding:
    - entity ids are [nat]; health and damage are [Z];
    - coordinates, ranges, accuracies and probabilities are exact
      rationals [Q] (JavaScript doubles idealised to exact arithmetic);
    - [Math.sqrt] and [Math.random] belong to the host, see [MathHost];
    - a [TypeError] (a property read on [undefined]) is the result [None];
    - a JavaScript object keyed by entity id is a [gmap nat _]; an object
      with string keys that is only read is an association list in the
      order its literal is written. *)

From Stdlib Require Import QArith Qround Qminmax Lqa String.
From stdpp Require Import gmap list option strings sorting.

Open Scope string_scope.
Open Scope list_scope.

(** ** The host *)

(** [Math_sqrt q] is the value [Math.sqrt(q)] returns; [Math_random n] is
    the value the [n]-th call of [Math.random()] returns, counting from
    0.  Nothing is assumed about either. *)
Class MathHost := {
  Math_sqrt : Q -> Q;
  Math_random : nat -> Q
}.

(** [Math.pow(a, 2)]. *)
Definition Math_pow2 (a : Q) : Q := (a * a)%Q.

(** [a < b] on numbers. *)
Definition Qlt_bool (a b : Q) : bool := negb (Qle_bool b a).

(** ** Plain JavaScript objects used as read-only tables *)

(** [obj[key]] for an object literal with string keys, on the own keys
    of the literal; [None] is [undefined].  The lookup of the script also
    finds what the literal inherits from [Object.prototype], and
    [obj_get] is that lookup for every key but the names of
    [Object_prototype_keys]: statements about a key that need not be an
    own key of the table say so. *)
Fixpoint obj_get {A : Type} (key : string) (obj : list (string * A)) : option A :=
  match obj with
  | [] => None
  | (k, v) :: rest => if bool_decide (k = key) then Some v else obj_get key rest
  end.

Arguments obj_get {A} key obj : simpl never.

(** The property names an object literal inherits from
    [Object.prototype] (ECMAScript, Annex B included).  Under such a key
    [obj[key]] is the inherited function or object, not [undefined], in
    any table that has no own key of that name, as is the case of every
    table of the script. *)
Definition Object_prototype_keys : list string :=
  [ "constructor"; "hasOwnProperty"; "isPrototypeOf"; "propertyIsEnumerable";
    "toLocaleString"; "toString"; "valueOf"; "__proto__";
    "__defineGetter__"; "__defineSetter__"; "__lookupGetter__"; "__lookupSetter__" ].

(** [arr[i]] for an array, [None] when [i] is not an index of [arr]
    (negative or past the end). *)
Definition arr_get {A : Type} (arr : list A) (i : Z) : option A :=
  if bool_decide (0 <= i)%Z then arr !! Z.to_nat i else None.

(** The own keys of an object whose keys are entity ids, in the order
    [for ... in] and [Object.values] visit them: ascending. *)
Definition Object_keys {A : Type} (m : gmap nat A) : list nat :=
  merge_sort le (map fst (map_to_list m)).

Definition Object_values {A : Type} (m : gmap nat A) : list A :=
  omap (fun k => m !! k) (Object_keys m).

(** [arr.forEach(f)] where [f] may throw: the state is threaded through
    the calls and the first [None] ends the loop. *)
Fixpoint forEach {A S : Type} (f : A -> S -> option S) (arr : list A) (s : S) : option S :=
  match arr with
  | [] => Some s
  | a :: rest => s' ← f a s; forEach f rest s'
  end.

(** ** Static tables *)

Module EntityType.
Definition AGENT : string := "agent".
Definition WEAPON : string := "weapon".
Definition TARGET_PART : string := "target-part".
Definition ENEMY : string := "enemy".
End EntityType.

Definition WeaponTypes : list string :=
  ["rifle"; "missile"; "pistol"; "laser"; "rocket"; "repeater"; "cannon"; "melee"].

Definition EnemyTypes : list string := ["infantry"; "devastator"; "tank"].

Definition EnemyPartsConfig : list (string * list string) :=
  [ ("infantry", ["head"; "body"; "arm"; "leg"]);
    ("tank", ["heat sink"; "turret"; "tread"; "armor"]);
    ("devastator", ["heavy armor"; "head"]) ].

(** [EntityStats[k].health]. *)
Definition EntityStats : list (string * Z) :=
  [ ("agent", 100%Z); ("infantry", 50%Z); ("devastator", 150%Z); ("tank", 200%Z) ].

Record WeaponStat := { damage : Z; accuracy : Q }.

Definition WeaponStats : list (string * WeaponStat) :=
  [ ("rifle", {| damage := 10; accuracy := 8 # 10 |});
    ("missile", {| damage := 30; accuracy := 6 # 10 |});
    ("pistol", {| damage := 5; accuracy := 9 # 10 |});
    ("laser", {| damage := 15; accuracy := 7 # 10 |});
    ("rocket", {| damage := 40; accuracy := 5 # 10 |});
    ("repeater", {| damage := 8; accuracy := 85 # 100 |});
    ("cannon", {| damage := 50; accuracy := 4 # 10 |});
    ("melee", {| damage := 20; accuracy := 1 |}) ].

(** A range is the two-element array [[min, max]]; index 1 is [snd]. *)
Definition WeaponRangeConfig : list (string * (Q * Q)) :=
  [ ("rifle", (30, 60)%Q); ("missile", (100, 150)%Q); ("pistol", (10, 20)%Q);
    ("laser", (50, 80)%Q); ("rocket", (70, 120)%Q); ("repeater", (40, 60)%Q);
    ("cannon", (120, 180)%Q); ("melee", (1, 1)%Q) ].

Record TargetPreferences := {
  primary : list string;
  specificTargets : option (list (string * list string))
}.

Definition WeaponTargetConfig : list (string * TargetPreferences) :=
  [ ("rifle", {| primary := ["devastator"; "infantry"];
                 specificTargets := Some [("tank", ["heat sink"])] |});
    ("missile", {| primary := ["tank"; "devastator"]; specificTargets := None |});
    ("pistol", {| primary := ["infantry"]; specificTargets := None |});
    ("laser", {| primary := ["infantry"; "devastator"];
                 specificTargets := Some [("tank", ["turret"])] |});
    ("rocket", {| primary := ["tank"];
                  specificTargets := Some [("devastator", ["heavy armor"])] |});
    ("repeater", {| primary := ["infantry"; "devastator"]; specificTargets := None |});
    ("cannon", {| primary := ["tank"]; specificTargets := None |});
    ("melee", {| primary := ["agent"; "enemy"; "target-part"]; specificTargets := None |}) ].

Definition getWeaponColor (weaponType : string) : string :=
  if bool_decide (weaponType = "rifle") then "red"
  else if bool_decide (weaponType = "missile") then "blue"
  else if bool_decide (weaponType = "pistol") then "green"
  else if bool_decide (weaponType = "laser") then "purple"
  else if bool_decide (weaponType = "rocket") then "orange"
  else if bool_decide (weaponType = "repeater") then "brown"
  else if bool_decide (weaponType = "cannon") then "black"
  else if bool_decide (weaponType = "melee") then "gray"
  else "gray".

Arguments getWeaponColor weaponType : simpl never.

(** ** Components *)

Module WeaponComponent.
Record t := new { entityId : nat; weaponType : string }.
End WeaponComponent.

Module WeaponSlotsComponent.
(** [weaponIds] has one cell per slot, [None] being [null]. *)
Record t := mk { entityId : nat; weaponIds : list (option nat) }.

(** [new WeaponSlotsComponent(entityId, numberOfSlots)]. *)
Definition new (entityId : nat) (numberOfSlots : nat) : t :=
  mk entityId (replicate numberOfSlots None).

(** The loop of [addWeapon]: the first [null] cell receives the id;
    [None] when the loop ends without finding one. *)
Fixpoint fillFirstNull (weaponId : nat) (ids : list (option nat)) : option (list (option nat)) :=
  match ids with
  | [] => None
  | None :: rest => Some (Some weaponId :: rest)
  | Some other :: rest => cons (Some other) <$> fillFirstNull weaponId rest
  end.

(** [addWeapon(weaponId)]: the component after the call and the text
    passed to [console.warn], if any. *)
Definition addWeapon (weaponId : nat) (slots : t) : t * option string :=
  match fillFirstNull weaponId (weaponIds slots) with
  | Some ids => (mk (entityId slots) ids, None)
  | None => (slots, Some "Entity has no available weapon slots.")
  end.
End WeaponSlotsComponent.

Module HealthComponent.
Record t := new { entityId : nat; value : Z }.
End HealthComponent.

Module PositionComponent.
Record t := new { entityId : nat; x : Q; y : Q }.
End PositionComponent.

Module TargetingComponent.
Record t := new { source : nat; target : nat; color : string; enabled : bool }.
End TargetingComponent.

Module EnemyTypeComponent.
Record t := new { entityId : nat; enemyType : string }.
End EnemyTypeComponent.

(** A value that is an entity id or a type name: what the property
    [parentEntityId] is compared with decides which it has to be. *)
Inductive IdOrName :=
| IsId (n : nat)
| IsName (s : string).

(** [a === b] on such values: a number never equals a string. *)
Definition strictEq (a b : IdOrName) : bool :=
  match a, b with
  | IsId n, IsId m => bool_decide (n = m)
  | IsName s, IsName r => bool_decide (s = r)
  | _, _ => false
  end.

(** The object literal [{ entityId, partType, parentEntityId }]. *)
Module TargetPartTypeComponent.
Record t := new { entityId : nat; partType : string; parentEntityId : IdOrName }.
End TargetPartTypeComponent.

(** ** Entities *)

Module Entity.
(** [components] is the entity's own object, [{}] at creation; the one
    property ever read from it is [targetPartType], [None] when the
    object does not have it. *)
Record t := mk {
  id : nat;
  type : string;
  components : option TargetPartTypeComponent.t
}.
End Entity.

#[global] Instance IdOrName_eq_dec : EqDecision IdOrName.
Proof. solve_decision. Defined.

#[global] Instance TargetPartTypeComponent_eq_dec : EqDecision TargetPartTypeComponent.t.
Proof. solve_decision. Defined.

#[global] Instance Entity_eq_dec : EqDecision Entity.t.
Proof. solve_decision. Defined.

(** ** The store *)

(** [entityComponentSystem.components]: one object per category.  The
    script creates every category but [targeting] while it loads (the
    four spawn calls at its end) and the assignment system creates
    [targeting]; a category that does not exist yet is the empty map. *)
Record Components := {
  position : gmap nat PositionComponent.t;
  health : gmap nat HealthComponent.t;
  weaponSlots : gmap nat WeaponSlotsComponent.t;
  weapon : gmap nat WeaponComponent.t;
  enemyType : gmap nat EnemyTypeComponent.t;
  targetPartType : gmap nat TargetPartTypeComponent.t;
  targeting : gmap nat TargetingComponent.t
}.

Inductive ConsoleLevel := Warn | Log.

(** The mutable state of the script: the fields of the one
    [EntityComponentSystem] instance (its two systems are fixed), the two
    targeting flags, and what the host has seen: how many times
    [Math.random] was called and what was written to the console. *)
Record World := {
  entities : list Entity.t;
  components : Components;
  nodeId : nat;
  enemyTargetingEnabled : bool;
  agentTargetingEnabled : bool;
  randomCalls : nat;
  console : list (ConsoleLevel * string)
}.

Definition set_position (f : gmap nat PositionComponent.t -> gmap nat PositionComponent.t) (c : Components) : Components :=
  {| position := f (position c); health := health c; weaponSlots := weaponSlots c;
     weapon := weapon c; enemyType := enemyType c; targetPartType := targetPartType c;
     targeting := targeting c |}.

Definition set_health (f : gmap nat HealthComponent.t -> gmap nat HealthComponent.t) (c : Components) : Components :=
  {| position := position c; health := f (health c); weaponSlots := weaponSlots c;
     weapon := weapon c; enemyType := enemyType c; targetPartType := targetPartType c;
     targeting := targeting c |}.

Definition set_weaponSlots (f : gmap nat WeaponSlotsComponent.t -> gmap nat WeaponSlotsComponent.t) (c : Components) : Components :=
  {| position := position c; health := health c; weaponSlots := f (weaponSlots c);
     weapon := weapon c; enemyType := enemyType c; targetPartType := targetPartType c;
     targeting := targeting c |}.

Definition set_weapon (f : gmap nat WeaponComponent.t -> gmap nat WeaponComponent.t) (c : Components) : Components :=
  {| position := position c; health := health c; weaponSlots := weaponSlots c;
     weapon := f (weapon c); enemyType := enemyType c; targetPartType := targetPartType c;
     targeting := targeting c |}.

Definition set_enemyType (f : gmap nat EnemyTypeComponent.t -> gmap nat EnemyTypeComponent.t) (c : Components) : Components :=
  {| position := position c; health := health c; weaponSlots := weaponSlots c;
     weapon := weapon c; enemyType := f (enemyType c); targetPartType := targetPartType c;
     targeting := targeting c |}.

Definition set_targetPartType (f : gmap nat TargetPartTypeComponent.t -> gmap nat TargetPartTypeComponent.t) (c : Components) : Components :=
  {| position := position c; health := health c; weaponSlots := weaponSlots c;
     weapon := weapon c; enemyType := enemyType c; targetPartType := f (targetPartType c);
     targeting := targeting c |}.

Definition set_targeting (f : gmap nat TargetingComponent.t -> gmap nat TargetingComponent.t) (c : Components) : Components :=
  {| position := position c; health := health c; weaponSlots := weaponSlots c;
     weapon := weapon c; enemyType := enemyType c; targetPartType := targetPartType c;
     targeting := f (targeting c) |}.

Definition set_components (f : Components -> Components) (w : World) : World :=
  {| entities := entities w; components := f (components w); nodeId := nodeId w;
     enemyTargetingEnabled := enemyTargetingEnabled w;
     agentTargetingEnabled := agentTargetingEnabled w;
     randomCalls := randomCalls w; console := console w |}.

Definition set_entities (f : list Entity.t -> list Entity.t) (w : World) : World :=
  {| entities := f (entities w); components := components w; nodeId := nodeId w;
     enemyTargetingEnabled := enemyTargetingEnabled w;
     agentTargetingEnabled := agentTargetingEnabled w;
     randomCalls := randomCalls w; console := console w |}.

Definition set_nodeId (n : nat) (w : World) : World :=
  {| entities := entities w; components := components w; nodeId := n;
     enemyTargetingEnabled := enemyTargetingEnabled w;
     agentTargetingEnabled := agentTargetingEnabled w;
     randomCalls := randomCalls w; console := console w |}.

Definition set_randomCalls (n : nat) (w : World) : World :=
  {| entities := entities w; components := components w; nodeId := nodeId w;
     enemyTargetingEnabled := enemyTargetingEnabled w;
     agentTargetingEnabled := agentTargetingEnabled w;
     randomCalls := n; console := console w |}.

Definition console_write (level : ConsoleLevel) (text : string) (w : World) : World :=
  {| entities := entities w; components := components w; nodeId := nodeId w;
     enemyTargetingEnabled := enemyTargetingEnabled w;
     agentTargetingEnabled := agentTargetingEnabled w;
     randomCalls := randomCalls w; console := console w ++ [(level, text)] |}.

(** [Math.random()]: the next sample of the host. *)
Definition random `{MathHost} (w : World) : Q * World :=
  (Math_random (randomCalls w), set_randomCalls (S (randomCalls w)) w).

(** The state [new EntityComponentSystem()] and the two [let] flags give. *)
Definition emptyComponents : Components :=
  {| position := ∅; health := ∅; weaponSlots := ∅; weapon := ∅; enemyType := ∅;
     targetPartType := ∅; targeting := ∅ |}.

Definition initialWorld : World :=
  {| entities := []; components := emptyComponents; nodeId := 0;
     enemyTargetingEnabled := true; agentTargetingEnabled := true;
     randomCalls := 0; console := [] |}.

(** ** EntityComponentSystem *)

(** [addEntity(type)]: the id returned and the store after the call. *)
Definition addEntity (type : string) (w : World) : nat * World :=
  let entity := Entity.mk (nodeId w) type None in
  (Entity.id entity, set_entities (fun es => es ++ [entity]) (set_nodeId (S (nodeId w)) w)).

(** [addComponent(name, data)]: [name] selects the category, which the
    constructor of [ComponentData] stands for; the key is
    [data.entityId]. *)
Inductive ComponentData :=
| position_data (data : PositionComponent.t)
| health_data (data : HealthComponent.t)
| weaponSlots_data (data : WeaponSlotsComponent.t)
| weapon_data (data : WeaponComponent.t)
| enemyType_data (data : EnemyTypeComponent.t)
| targetPartType_data (data : TargetPartTypeComponent.t).

Definition addComponent (d : ComponentData) (w : World) : World :=
  match d with
  | position_data data =>
      set_components (set_position (insert (PositionComponent.entityId data) data)) w
  | health_data data =>
      set_components (set_health (insert (HealthComponent.entityId data) data)) w
  | weaponSlots_data data =>
      set_components (set_weaponSlots (insert (WeaponSlotsComponent.entityId data) data)) w
  | weapon_data data =>
      set_components (set_weapon (insert (WeaponComponent.entityId data) data)) w
  | enemyType_data data =>
      set_components (set_enemyType (insert (EnemyTypeComponent.entityId data) data)) w
  | targetPartType_data data =>
      set_components (set_targetPartType (insert (TargetPartTypeComponent.entityId data) data)) w
  end.

(** ** WeaponAssignmentSystem *)

(** The test both scans apply to a candidate:
    [Object.values(components.targeting).some(link =>
       link.source === weaponId && link.target === entity.id)]. *)
Definition alreadyTargeted (c : Components) (weaponId : nat) (entity : Entity.t) : bool :=
  existsb (fun link =>
             bool_decide (TargetingComponent.source link = weaponId)
             && bool_decide (TargetingComponent.target link = Entity.id entity))
          (Object_values (targeting c)).

(** The distance the two systems compute between two positions. *)
Definition distanceBetween `{MathHost} (sourcePosition targetPosition : PositionComponent.t) : Q :=
  Math_sqrt (Math_pow2 (PositionComponent.x sourcePosition - PositionComponent.x targetPosition)
             + Math_pow2 (PositionComponent.y sourcePosition - PositionComponent.y targetPosition))%Q.

(** The body of [if (target) { ... }], the same in both scans: the link
    to record when the target is within the maximum range, [Some None]
    when it is not, [None] when a position or the range is missing. *)
Definition linkIfInRange `{MathHost} (c : Components) (weaponId : nat) (weaponType : string)
    (owner target : Entity.t) : option (option TargetingComponent.t) :=
  sourcePosition ← position c !! Entity.id owner;
  targetPosition ← position c !! Entity.id target;
  let distance := distanceBetween sourcePosition targetPosition in
  range ← obj_get weaponType WeaponRangeConfig;
  let maxRange := snd range in
  if Qle_bool distance maxRange
  then Some (Some (TargetingComponent.new weaponId (Entity.id target) (getWeaponColor weaponType) true))
  else Some None.

(** The candidate of the primary scan for one preference type. *)
Definition primaryCandidate (w : World) (weaponId : nat) (targetType : string) : option Entity.t :=
  List.find (fun entity =>
               bool_decide (Entity.type entity = targetType)
               && negb (alreadyTargeted (components w) weaponId entity))
            (entities w).

(** [for (const targetType of filteredTargetTypes) { ... }]: [Some (Some
    link)] when the loop reaches its [return], [Some None] when it runs
    to its end. *)
Fixpoint primaryScan `{MathHost} (w : World) (weaponId : nat) (weaponType : string)
    (owner : Entity.t) (filteredTargetTypes : list string) : option (option TargetingComponent.t) :=
  match filteredTargetTypes with
  | [] => Some None
  | targetType :: rest =>
      match primaryCandidate w weaponId targetType with
      | Some target =>
          found ← linkIfInRange (components w) weaponId weaponType owner target;
          match found with
          | Some link => Some (Some link)
          | None => primaryScan w weaponId weaponType owner rest
          end
      | None => primaryScan w weaponId weaponType owner rest
      end
  end.

(** The candidate of the specific scan for one opponent type and one
    part type. *)
Definition specificCandidate (w : World) (weaponId : nat) (targetType specificTargetType : string) : option Entity.t :=
  List.find (fun entity =>
               bool_decide (Entity.type entity = EntityType.TARGET_PART)
               && match Entity.components entity with
                  | Some part =>
                      bool_decide (TargetPartTypeComponent.partType part = specificTargetType)
                      && strictEq (TargetPartTypeComponent.parentEntityId part) (IsName targetType)
                  | None => false
                  end
               && negb (alreadyTargeted (components w) weaponId entity))
            (entities w).

(** [for (const specificTargetType of specificTargets) { ... }]. *)
Fixpoint specificPartScan `{MathHost} (w : World) (weaponId : nat) (weaponType : string)
    (owner : Entity.t) (targetType : string) (parts : list string) : option (option TargetingComponent.t) :=
  match parts with
  | [] => Some None
  | specificTargetType :: rest =>
      match specificCandidate w weaponId targetType specificTargetType with
      | Some target =>
          found ← linkIfInRange (components w) weaponId weaponType owner target;
          match found with
          | Some link => Some (Some link)
          | None => specificPartScan w weaponId weaponType owner targetType rest
          end
      | None => specificPartScan w weaponId weaponType owner targetType rest
      end
  end.

(** [for (const targetType in targetPreferences.specificTargets) { ... }]. *)
Fixpoint specificScan `{MathHost} (w : World) (weaponId : nat) (weaponType : string)
    (owner : Entity.t) (specific : list (string * list string)) : option (option TargetingComponent.t) :=
  match specific with
  | [] => Some None
  | (targetType, parts) :: rest =>
      found ← specificPartScan w weaponId weaponType owner targetType parts;
      match found with
      | Some link => Some (Some link)
      | None => specificScan w weaponId weaponType owner rest
      end
  end.

Definition validTargetTypes (owner : Entity.t) : list string :=
  if bool_decide (Entity.type owner = EntityType.AGENT)
  then [EntityType.ENEMY; EntityType.TARGET_PART]
  else if bool_decide (Entity.type owner = EntityType.ENEMY)
  then [EntityType.AGENT]
  else [].

Definition filteredTargetTypes (owner : Entity.t) (targetPreferences : TargetPreferences) : list string :=
  List.filter (fun type => bool_decide (type ∈ validTargetTypes owner)) (primary targetPreferences).

(** [components.targeting[weaponId] = link]. *)
Definition recordLink (weaponId : nat) (link : TargetingComponent.t) (w : World) : World :=
  set_components (set_targeting (insert weaponId link)) w.

Definition assignWeaponToTarget `{MathHost} (weaponId : nat) (owner : Entity.t) (w : World) : option World :=
  weapon ← weapon (components w) !! weaponId;
  let weaponType := WeaponComponent.weaponType weapon in
  match obj_get weaponType WeaponTargetConfig with
  | None => Some w
  | Some targetPreferences =>
      found ← primaryScan w weaponId weaponType owner (filteredTargetTypes owner targetPreferences);
      match found with
      | Some link => Some (recordLink weaponId link w)
      | None =>
          match specificTargets targetPreferences with
          | None => Some w
          | Some specific =>
              found ← specificScan w weaponId weaponType owner specific;
              match found with
              | Some link => Some (recordLink weaponId link w)
              | None => Some w
              end
          end
      end
  end.

(** [weaponIds.forEach(weaponId => { if (weaponId !== null) ... })]. *)
Definition assignSlot `{MathHost} (owner : Entity.t) (slot : option nat) (w : World) : option World :=
  match slot with
  | Some weaponId => assignWeaponToTarget weaponId owner w
  | None => Some w
  end.

Definition assignAgentWeapons `{MathHost} (agent : Entity.t) (w : World) : option World :=
  slots ← weaponSlots (components w) !! Entity.id agent;
  forEach (assignSlot agent) (WeaponSlotsComponent.weaponIds slots) w.

Definition assignEnemyWeapons `{MathHost} (enemy : Entity.t) (w : World) : option World :=
  slots ← weaponSlots (components w) !! Entity.id enemy;
  forEach (assignSlot enemy) (WeaponSlotsComponent.weaponIds slots) w.

(** The callback of [entities.forEach] in [update]. *)
Definition assignEntity `{MathHost} (entity : Entity.t) (w : World) : option World :=
  if bool_decide (Entity.type entity = EntityType.AGENT) && agentTargetingEnabled w
  then assignAgentWeapons entity w
  else if bool_decide (Entity.type entity = EntityType.ENEMY) && enemyTargetingEnabled w
  then assignEnemyWeapons entity w
  else Some w.

(** [components.targeting = {}]. *)
Definition clearTargeting (w : World) : World :=
  set_components (set_targeting (fun _ => ∅)) w.

(** [WeaponAssignmentSystem.update(entities, components)], called with
    the store's own array and object. *)
Definition WeaponAssignmentSystem_update `{MathHost} (w : World) : option World :=
  let w0 := clearTargeting w in
  forEach assignEntity (entities w0) w0.

(** ** DamageSystem *)

(** [calculateHitProbability(distance, maxRange, accuracy)]; the melee
    threshold is read from the range table at each call. *)
Definition calculateHitProbability (distance maxRange accuracy : Q) : option Q :=
  melee ← obj_get "melee" WeaponRangeConfig;
  if Qle_bool distance (snd melee) then Some 1%Q
  else
    let normalizedDistance := Qmax 0 (Qmin 1 (distance / maxRange)) in
    Some ((1 - normalizedDistance) * accuracy)%Q.

(** [entities.indexOf(entity)]: the entities of the array are distinct
    objects, and the first cell equal to [entity] holds [entity] itself
    whenever [entity] was taken from the array by [find]. *)
Fixpoint indexOf (entity : Entity.t) (arr : list Entity.t) : option nat :=
  match arr with
  | [] => None
  | e :: rest => if bool_decide (e = entity) then Some 0%nat else S <$> indexOf entity rest
  end.

(** [entities.splice(entities.indexOf(entity), 1)]: index [-1] counts
    from the end and removes the last cell. *)
Definition spliceOut (entity : Entity.t) (arr : list Entity.t) : list Entity.t :=
  match indexOf entity arr with
  | Some i => delete i arr
  | None => removelast arr
  end.

(** The loop of [killEntity] over the categories: every entry stored is
    an object, so the entry under the id is deleted wherever it exists. *)
Definition purge (entityId : nat) (c : Components) : Components :=
  {| position := delete entityId (position c);
     health := delete entityId (health c);
     weaponSlots := delete entityId (weaponSlots c);
     weapon := delete entityId (weapon c);
     enemyType := delete entityId (enemyType c);
     targetPartType := delete entityId (targetPartType c);
     targeting := delete entityId (targeting c) |}.

Definition killEntity (entity : Entity.t) (w : World) : World :=
  set_components (purge (Entity.id entity)) (set_entities (spliceOut entity) w).

(** The body of [if (weapon && target) { ... }]. *)
Definition resolveHit `{MathHost} (link : TargetingComponent.t) (weapon : WeaponComponent.t)
    (target : Entity.t) (w : World) : option World :=
  let weaponType := WeaponComponent.weaponType weapon in
  sourcePosition ← position (components w) !! TargetingComponent.source link;
  targetPosition ← position (components w) !! Entity.id target;
  let distance := distanceBetween sourcePosition targetPosition in
  range ← obj_get weaponType WeaponRangeConfig;
  let maxRange := snd range in
  weaponStats ← obj_get weaponType WeaponStats;
  hitProbability ← calculateHitProbability distance maxRange (accuracy weaponStats);
  let '(sample, w1) := random w in
  if Qlt_bool sample hitProbability then
    targetHealth ← health (components w1) !! Entity.id target;
    let value := (HealthComponent.value targetHealth - damage weaponStats)%Z in
    let w2 := set_components
                (set_health (insert (Entity.id target)
                               (HealthComponent.new (HealthComponent.entityId targetHealth) value)))
                w1 in
    if bool_decide (value <= 0)%Z then Some (killEntity target w2) else Some w2
  else Some w1.

(** One round of [for (const weaponId in components.targeting)]: a key
    deleted before its turn is not visited. *)
Definition resolveLink `{MathHost} (weaponId : nat) (w : World) : option World :=
  match targeting (components w) !! weaponId with
  | None => Some w
  | Some link =>
      if TargetingComponent.enabled link then
        match weapon (components w) !! weaponId,
              List.find (fun entity => bool_decide (Entity.id entity = TargetingComponent.target link))
                        (entities w) with
        | Some weapon, Some target => resolveHit link weapon target w
        | _, _ => Some w
        end
      else Some w
  end.

Definition DamageSystem_update `{MathHost} (w : World) : option World :=
  forEach resolveLink (Object_keys (targeting (components w))) w.

(** [EntityComponentSystem.update()]: the two systems in the order they
    were added. *)
Definition EntityComponentSystem_update `{MathHost} (w : World) : option World :=
  w1 ← WeaponAssignmentSystem_update w;
  DamageSystem_update w1.

(** ** Spawn helpers and the command surface *)

Definition addWeaponToEntity (entityId : nat) (weaponType : string) (w : World) : option World :=
  let weaponId := nodeId w in
  let w := set_nodeId (S (nodeId w)) w in
  let w := addComponent (weapon_data (WeaponComponent.new weaponId weaponType)) w in
  ownerPosition ← position (components w) !! entityId;
  let w := addComponent
             (position_data (PositionComponent.new weaponId
                               (PositionComponent.x ownerPosition + 10)
                               (PositionComponent.y ownerPosition + 10))) w in
  slots ← weaponSlots (components w) !! entityId;
  let '(slots', warning) := WeaponSlotsComponent.addWeapon weaponId slots in
  let w := set_components (set_weaponSlots (insert entityId slots')) w in
  match warning with
  | Some text => Some (console_write Warn text w)
  | None => Some w
  end.

Definition addTargetPartToEntity `{MathHost} (enemyId : nat) (partType : string) (w : World) : option World :=
  let partId := nodeId w in
  let w := set_nodeId (S (nodeId w)) w in
  let '(rx, w) := random w in
  let '(ry, w) := random w in
  let w := addComponent (position_data (PositionComponent.new partId (rx * 800) (ry * 600))) w in
  let w := addComponent (health_data (HealthComponent.new partId 10)) w in
  Some (addComponent
          (targetPartType_data (TargetPartTypeComponent.new partId partType (IsId enemyId))) w).

(** [arr[Math.floor(Math.random() * arr.length)]].  [Math.random]
    returns a sample in [[0, 1)], for which the index is one of [arr];
    for any other sample the choice is [None]. *)
Definition randomChoice `{MathHost} (arr : list string) (w : World) : option string * World :=
  let '(r, w) := random w in
  (arr_get arr (Qfloor (r * inject_Z (Z.of_nat (length arr)))), w).

(** [weaponSlots.weaponIds.some(id => id === null)]. *)
Definition hasNullSlot (entityId : nat) (w : World) : option bool :=
  slots ← weaponSlots (components w) !! entityId;
  Some (existsb (fun cell => match cell with None => true | Some _ => false end)
                (WeaponSlotsComponent.weaponIds slots)).

(** [if (cond) { addWeaponToEntity(entityId, weaponType); }] for the
    conditions of [addEnemy], all of the form
    [some-slot-is-null && extra]. *)
Definition addWeaponIfFree (entityId : nat) (extra : bool) (weaponType : string) (w : World) : option World :=
  free ← hasNullSlot entityId w;
  if free && extra then addWeaponToEntity entityId weaponType w else Some w.

Definition api_addAgent `{MathHost} (w : World) : option World :=
  let '(agentId, w) := addEntity EntityType.AGENT w in
  let '(rx, w) := random w in
  let '(ry, w) := random w in
  let w := addComponent (position_data (PositionComponent.new agentId (rx * 800) (ry * 600))) w in
  agentHealth ← obj_get "agent" EntityStats;
  let w := addComponent (health_data (HealthComponent.new agentId agentHealth)) w in
  let w := addComponent (weaponSlots_data (WeaponSlotsComponent.new agentId 7)) w in
  w ← addWeaponToEntity agentId "rifle" w;
  let '(choice, w) := randomChoice WeaponTypes w in
  randomWeaponType ← choice;
  addWeaponToEntity agentId randomWeaponType w.

Definition api_addEnemy `{MathHost} (w : World) : option World :=
  let '(choice, w) := randomChoice EnemyTypes w in
  enemyTypeChoice ← choice;
  let '(enemyId, w) := addEntity EntityType.ENEMY w in
  let '(rx, w) := random w in
  let '(ry, w) := random w in
  let w := addComponent (position_data (PositionComponent.new enemyId (rx * 800) (ry * 600))) w in
  enemyHealth ← obj_get enemyTypeChoice EntityStats;
  let w := addComponent (health_data (HealthComponent.new enemyId enemyHealth)) w in
  let w := addComponent (enemyType_data (EnemyTypeComponent.new enemyId enemyTypeChoice)) w in
  let w := addComponent (weaponSlots_data (WeaponSlotsComponent.new enemyId 2)) w in
  w ← addWeaponIfFree enemyId true "laser" w;
  w ← addWeaponIfFree enemyId (bool_decide (enemyTypeChoice = "devastator")) "rocket" w;
  w ← addWeaponIfFree enemyId (bool_decide (enemyTypeChoice = "tank")) "cannon" w;
  w ← addWeaponIfFree enemyId true "melee" w;
  let parts := default [] (obj_get enemyTypeChoice EnemyPartsConfig) in
  forEach (addTargetPartToEntity enemyId) parts w.

Definition set_enemyTargetingEnabled (b : bool) (w : World) : World :=
  {| entities := entities w; components := components w; nodeId := nodeId w;
     enemyTargetingEnabled := b;
     agentTargetingEnabled := agentTargetingEnabled w;
     randomCalls := randomCalls w; console := console w |}.

Definition set_agentTargetingEnabled (b : bool) (w : World) : World :=
  {| entities := entities w; components := components w; nodeId := nodeId w;
     enemyTargetingEnabled := enemyTargetingEnabled w;
     agentTargetingEnabled := b;
     randomCalls := randomCalls w; console := console w |}.

Definition api_toggleEnemyTargeting (w : World) : World :=
  let w := set_enemyTargetingEnabled (negb (enemyTargetingEnabled w)) w in
  console_write Log ("Enemy Targeting: " ++ (if enemyTargetingEnabled w then "ON" else "OFF"))%string w.

Definition api_toggleAgentTargeting (w : World) : World :=
  let w := set_agentTargetingEnabled (negb (agentTargetingEnabled w)) w in
  console_write Log ("Agent Targeting: " ++ (if agentTargetingEnabled w then "ON" else "OFF"))%string w.

(** The worlds the script can be in between two calls from outside: it
    starts from the empty store, and the host calls the four commands and
    the step in any order. *)
Inductive reachable `{MathHost} : World -> Prop :=
| reachable_initial : reachable initialWorld
| reachable_addAgent w w' :
    reachable w -> api_addAgent w = Some w' -> reachable w'
| reachable_addEnemy w w' :
    reachable w -> api_addEnemy w = Some w' -> reachable w'
| reachable_toggleEnemyTargeting w :
    reachable w -> reachable (api_toggleEnemyTargeting w)
| reachable_toggleAgentTargeting w :
    reachable w -> reachable (api_toggleAgentTargeting w)
| reachable_update w w' :
    reachable w -> EntityComponentSystem_update w = Some w' -> reachable w'.

(** ** Concrete hosts and worlds used in the examples *)

(** A square root that is exact on the squares of rationals and rounds
    down elsewhere. *)
Definition sqrtDown (q : Q) : Q :=
  Z.sqrt (Qnum q * Zpos (Qden q)) # Qden q.

(** The host whose [Math.random] returns the listed samples in turn, and
    0 after them. *)
Definition scriptedHost (samples : list Q) : MathHost :=
  {| Math_sqrt := sqrtDown; Math_random := fun n => nth n samples 0%Q |}.

(** ** Predicates the statements use *)

(** The world with its [targeting] category replaced. *)
Definition withTargeting (t : gmap nat TargetingComponent.t) (w : World) : World :=
  set_components (set_targeting (fun _ => t)) w.

(** The number of enabled links of a targeting category whose source is
    [weaponId]. *)
Definition enabledLinksFrom (weaponId : nat) (t : gmap nat TargetingComponent.t) : nat :=
  length (List.filter
            (fun link => bool_decide (TargetingComponent.source link = weaponId)
                         && TargetingComponent.enabled link)
            (Object_values t)).

(** Every link is stored under the id of its source. *)
Definition keyedBySource (t : gmap nat TargetingComponent.t) : Prop :=
  forall k link, t !! k = Some link -> TargetingComponent.source link = k.

(** The worlds an assignment pass started in [w0] can go through: the
    world with the category cleared, and any world a call of
    [assignWeaponToTarget] leads to from there. *)
Inductive duringPass `{MathHost} (w0 : World) : World -> Prop :=
| duringPass_cleared : duringPass w0 (clearTargeting w0)
| duringPass_call weaponId owner w w' :
    duringPass w0 w ->
    assignWeaponToTarget weaponId owner w = Some w' ->
    duringPass w0 w'.

(** [d] clamped to [[0, 1]]: [Math.max(0, Math.min(1, d))]. *)
Definition clamp01 (d : Q) : Q := Qmax 0 (Qmin 1 d).

(** What a scan returns as a link is the link from the weapon to an
    entity of the registry that the weapon does not target yet. *)
Definition linkToCandidate (w : World) (weaponId : nat) (weaponType : string)
    (link : TargetingComponent.t) : Prop :=
  exists target, target ∈ entities w
    /\ alreadyTargeted (components w) weaponId target = false
    /\ link = TargetingComponent.new weaponId (Entity.id target) (getWeaponColor weaponType) true.

(** The state every world of a pass is in: all but the targeting
    category is as in the world the pass started from, and every link
    was recorded by a call of the pass. *)
Definition recordedInPass (w0 w : World) : Prop :=
  w = withTargeting (targeting (components w)) w0
  /\ forall k link, targeting (components w) !! k = Some link ->
       TargetingComponent.source link = k
       /\ TargetingComponent.enabled link = true
       /\ is_Some (weapon (components w0) !! k)
       /\ exists target, target ∈ entities w0 /\ TargetingComponent.target link = Entity.id target.

(** Scenario E: every entity the scans of the weapon could select is
    already the target of a link of this weapon. *)
Definition onlyCandidatesTargeted (w : World) (weaponId : nat) (owner : Entity.t)
    (targetPreferences : TargetPreferences) : Prop :=
  forall entity, entity ∈ entities w ->
    Entity.type entity ∈ filteredTargetTypes owner targetPreferences
    \/ Entity.type entity = EntityType.TARGET_PART ->
    alreadyTargeted (components w) weaponId entity = true.

(** No health entry of the store is at zero or below. *)
Definition allAlive (c : Components) : Prop :=
  forall entityId h, health c !! entityId = Some h -> (0 < HealthComponent.value h)%Z.

(** No category holds an entry under the id. *)
Definition noEntry (entityId : nat) (c : Components) : Prop :=
  position c !! entityId = None
  /\ health c !! entityId = None
  /\ weaponSlots c !! entityId = None
  /\ weapon c !! entityId = None
  /\ enemyType c !! entityId = None
  /\ targetPartType c !! entityId = None
  /\ targeting c !! entityId = None.

(** What holds of the world [w'] reached from [w] once links have been
    resolved: no health entry is at zero or below; every entity still in
    the registry was in it before and, if it had a health entry, has one
    above zero; and every entity that left the registry has left it for
    good, no category holding an entry under its id. *)
Definition deadRemoved (w w' : World) : Prop :=
  allAlive (components w')
  /\ (forall entity, entity ∈ entities w' ->
        entity ∈ entities w
        /\ (is_Some (health (components w) !! Entity.id entity) ->
            exists h, health (components w') !! Entity.id entity = Some h
                      /\ (0 < HealthComponent.value h)%Z))
  /\ (forall entity, entity ∈ entities w -> entity ∉ entities w' ->
        (forall other, other ∈ entities w' -> Entity.id other <> Entity.id entity)
        /\ noEntry (Entity.id entity) (components w')).

(** The world after a hit took [dmg] from the health entry [h] of the
    target, before the test for death. *)
Definition afterHit (target : Entity.t) (h : HealthComponent.t) (dmg : Z) (w : World) : World :=
  set_components
    (set_health (insert (Entity.id target)
                   (HealthComponent.new (HealthComponent.entityId h)
                      (HealthComponent.value h - dmg)%Z)))
    (set_randomCalls (S (randomCalls w)) w).

(** The invariant of the damage loop started in [w0]. *)
Definition damageInvariant (w0 w : World) : Prop :=
  allAlive (components w)
  /\ NoDup (map Entity.id (entities w))
  /\ entities w `sublist_of` entities w0
  /\ (forall entity, entity ∈ entities w ->
        is_Some (health (components w0) !! Entity.id entity) ->
        is_Some (health (components w) !! Entity.id entity))
  /\ (forall entity, entity ∈ entities w0 -> entity ∉ entities w ->
        noEntry (Entity.id entity) (components w)).

(** No category holds an entry under an id the counter has not reached. *)
Definition keysBelow (n : nat) (c : Components) : Prop :=
  forall k, n <= k -> noEntry k c.

(** The number of slots the command surface gives an entity of a type:
    [new WeaponSlotsComponent(agentId, 7)] and
    [new WeaponSlotsComponent(enemyId, 2)]. *)
Definition slotCapacity (type : string) : nat :=
  if bool_decide (type = EntityType.AGENT) then 7 else 2.

(** The number of cells of a slots component that hold a weapon. *)
Definition usedSlots (slots : WeaponSlotsComponent.t) : nat :=
  length (List.filter (fun cell => match cell with Some _ => true | None => false end)
            (WeaponSlotsComponent.weaponIds slots)).

(** What holds of every world the script can reach. *)
Record storeInvariant (w : World) : Prop := {
  inv_types : forall entity, entity ∈ entities w ->
    (Entity.type entity = EntityType.AGENT \/ Entity.type entity = EntityType.ENEMY)
    /\ Entity.components entity = None;
  inv_ids : forall entity, entity ∈ entities w -> Entity.id entity < nodeId w;
  inv_keys : keysBelow (nodeId w) (components w);
  inv_nodup : NoDup (map Entity.id (entities w));
  inv_alive : allAlive (components w);
  inv_slots : forall k slots, weaponSlots (components w) !! k = Some slots ->
    exists entity, entity ∈ entities w /\ Entity.id entity = k
      /\ length (WeaponSlotsComponent.weaponIds slots) = slotCapacity (Entity.type entity)
}.

(** The worlds a step started in [w0] goes through: [w0] itself, the
    worlds of the assignment pass, and the worlds the damage pass is in
    after any number of rounds. *)
Inductive inStep `{MathHost} (w0 : World) : World -> Prop :=
| inStep_start : inStep w0 w0
| inStep_assignment w : duringPass w0 w -> inStep w0 w
| inStep_damage w1 keys w :
    WeaponAssignmentSystem_update w0 = Some w1 ->
    forEach resolveLink keys w1 = Some w ->
    inStep w0 w.

(** The entity is an agent or an enemy. *)
Definition agentOrEnemy (entity : Entity.t) : Prop :=
  Entity.type entity = EntityType.AGENT \/ Entity.type entity = EntityType.ENEMY.

(** The first entity of a type, in the order of the registry. *)
Definition firstOfType (w : World) (targetType : string) : option Entity.t :=
  List.find (fun entity => bool_decide (Entity.type entity = targetType)) (entities w).

(** The range test of the assignment passes for the owner, the target
    and the weapon type: both have a position, the type has a range, and
    the distance between the positions is at most the maximum range. *)
Definition inRangeOf `{MathHost} (c : Components) (owner target : Entity.t)
    (weaponType : string) : Prop :=
  exists sourcePosition targetPosition range,
    position c !! Entity.id owner = Some sourcePosition
    /\ position c !! Entity.id target = Some targetPosition
    /\ obj_get weaponType WeaponRangeConfig = Some range
    /\ Qle_bool (distanceBetween sourcePosition targetPosition) (snd range) = true.

(** The link the primary scan returns is the link to the candidate of
    the first type of the list whose candidate is in range. *)
Definition firstTypeInRange `{MathHost} (w : World) (weaponId : nat) (weaponType : string)
    (owner : Entity.t) (types : list string) (link : TargetingComponent.t) : Prop :=
  exists before targetType after target,
    types = before ++ targetType :: after
    /\ primaryCandidate w weaponId targetType = Some target
    /\ inRangeOf (components w) owner target weaponType
    /\ link = TargetingComponent.new weaponId (Entity.id target) (getWeaponColor weaponType) true
    /\ forall earlier other, earlier ∈ before ->
         primaryCandidate w weaponId earlier = Some other ->
         ~ inRangeOf (components w) owner other weaponType.

(** ** Worlds of the examples *)

(** Scenario A: one agent at the origin with its rifle and, as random
    weapon, a melee weapon; three infantry enemies, the first at
    (100, 100), the others at the origin.  Ids: agent 0, rifle 1, melee
    2; enemies 3, 10 and 17. *)
Definition scenarioA_host : MathHost :=
  scriptedHost [0; 0; 7 # 8; 0; 1 # 8; 1 # 6]%Q.

Definition scenarioA : option World :=
  w ← api_addAgent (H := scenarioA_host) initialWorld;
  w ← api_addEnemy (H := scenarioA_host) w;
  w ← api_addEnemy (H := scenarioA_host) w;
  api_addEnemy (H := scenarioA_host) w.

(** One agent with rifle and melee weapon and one infantry enemy, both
    at the origin.  Ids: agent 0, rifle 1, melee 2, enemy 3. *)
Definition duel_host : MathHost := scriptedHost [0; 0; 7 # 8]%Q.

Definition duel : option World :=
  w ← api_addAgent (H := duel_host) initialWorld;
  api_addEnemy (H := duel_host) w.

(** One agent with two rifles and one tank, every position drawn at the
    origin.  Ids: agent 0, rifles 1 and 2, tank 3, its laser 4 and
    cannon 5, its parts 6 (heat sink), 7, 8 and 9. *)
Definition tank_host : MathHost := scriptedHost [0; 0; 0; 2 # 3]%Q.

Definition tankWorld : option World :=
  w ← api_addAgent (H := tank_host) initialWorld;
  api_addEnemy (H := tank_host) w.

(** One devastator: its two slots hold a laser and a rocket.  Ids:
    enemy 0, laser 1, rocket 2, parts 3 and 4. *)
Definition devastator_host : MathHost := scriptedHost [1 # 2]%Q.

Definition devastatorWorld : option World :=
  api_addEnemy (H := devastator_host) initialWorld.

(** A store handed to the damage system: the cannon 2 of agent 0 lies on
    the infantry enemy 1 and targets it, and a second link, under 5, has
    neither weapon nor target in the store. *)
Definition cannonOnInfantry : World :=
  {| entities := [Entity.mk 0 EntityType.AGENT None; Entity.mk 1 EntityType.ENEMY None];
     components :=
       {| position := list_to_map [(0, PositionComponent.new 0 0 0);
                                   (1, PositionComponent.new 1 3 4);
                                   (2, PositionComponent.new 2 3 4)];
          health := list_to_map [(0, HealthComponent.new 0 100);
                                 (1, HealthComponent.new 1 50)];
          weaponSlots := list_to_map
                           [(0, WeaponSlotsComponent.mk 0 [Some 2; None; None; None; None; None; None]);
                            (1, WeaponSlotsComponent.new 1 2)];
          weapon := list_to_map [(2, WeaponComponent.new 2 "cannon")];
          enemyType := list_to_map [(1, EnemyTypeComponent.new 1 "infantry")];
          targetPartType := ∅;
          targeting := list_to_map [(2, TargetingComponent.new 2 1 "black" true);
                                    (5, TargetingComponent.new 5 9 "gray" true)] |};
     nodeId := 3;
     enemyTargetingEnabled := true;
     agentTargetingEnabled := true;
     randomCalls := 0;
     console := [] |}.

(** The duel store with agent 0 already the target of a link of the
    melee weapon 5 of the enemy. *)
Definition withLinkFrom (weaponId targetId : nat) (w : World) : World :=
  withTargeting {[ weaponId := TargetingComponent.new weaponId targetId "gray" true ]} w.

(** The worlds the four spawn sequences end in. *)
Definition scenarioAWorld : World := Eval vm_compute in default initialWorld scenarioA.
Definition duelWorld : World := Eval vm_compute in default initialWorld duel.
Definition tankWorldSpawned : World := Eval vm_compute in default initialWorld tankWorld.
Definition devastatorSpawned : World := Eval vm_compute in default initialWorld devastatorWorld.

(** What the two systems read without a test is there: every entity of
    the registry has a position, a health entry and slots and is no
    weapon; every weapon in a slot has a weapon entry; and every weapon
    entry has a position and a type of [WeaponTypes]. *)
Record equipped (w : World) : Prop := {
  equipped_entity : forall entity, entity ∈ entities w ->
    is_Some (position (components w) !! Entity.id entity)
    /\ is_Some (health (components w) !! Entity.id entity)
    /\ is_Some (weaponSlots (components w) !! Entity.id entity)
    /\ weapon (components w) !! Entity.id entity = None;
  equipped_slot : forall k slots weaponId,
    weaponSlots (components w) !! k = Some slots ->
    Some weaponId ∈ WeaponSlotsComponent.weaponIds slots ->
    is_Some (weapon (components w) !! weaponId);
  equipped_weapon : forall k wp,
    weapon (components w) !! k = Some wp ->
    is_Some (position (components w) !! k)
    /\ WeaponComponent.weaponType wp ∈ WeaponTypes
}.

(** The first lines of [addAgent] and [addEnemy]: a new entity with its
    position, its health and its empty slots. *)
Definition withNewEntity (type : string) (x y : Q) (base : Z) (numberOfSlots : nat)
    (w : World) : World :=
  addComponent (weaponSlots_data (WeaponSlotsComponent.new (nodeId w) numberOfSlots))
    (addComponent (health_data (HealthComponent.new (nodeId w) base))
       (addComponent (position_data (PositionComponent.new (nodeId w) x y))
          (addEntity type w).2)).


(** ** The rest of the store interface *)

(** What [getComponent] can return: the data of one of the six
    categories written through [addComponent], or a link of the
    targeting category. *)
Inductive ComponentValue :=
| data_value (d : ComponentData)
| targeting_value (link : TargetingComponent.t).

(** The name the script passes to [addComponent] with each kind of data,
    and the key the data is stored under, [data.entityId]. *)
Definition categoryOf (d : ComponentData) : string :=
  match d with
  | position_data _ => "position"
  | health_data _ => "health"
  | weaponSlots_data _ => "weaponSlots"
  | weapon_data _ => "weapon"
  | enemyType_data _ => "enemyType"
  | targetPartType_data _ => "targetPartType"
  end.

Definition keyOf (d : ComponentData) : nat :=
  match d with
  | position_data data => PositionComponent.entityId data
  | health_data data => HealthComponent.entityId data
  | weaponSlots_data data => WeaponSlotsComponent.entityId data
  | weapon_data data => WeaponComponent.entityId data
  | enemyType_data data => EnemyTypeComponent.entityId data
  | targetPartType_data data => TargetPartTypeComponent.entityId data
  end.

(** [getComponent(name, entityId)]: [None] is [undefined], for a name
    that is no category as for an id without entry. *)
Definition getComponent (name : string) (entityId : nat) (w : World) : option ComponentValue :=
  let c := components w in
  if bool_decide (name = "position")
  then (fun data => data_value (position_data data)) <$> position c !! entityId
  else if bool_decide (name = "health")
  then (fun data => data_value (health_data data)) <$> health c !! entityId
  else if bool_decide (name = "weaponSlots")
  then (fun data => data_value (weaponSlots_data data)) <$> weaponSlots c !! entityId
  else if bool_decide (name = "weapon")
  then (fun data => data_value (weapon_data data)) <$> weapon c !! entityId
  else if bool_decide (name = "enemyType")
  then (fun data => data_value (enemyType_data data)) <$> enemyType c !! entityId
  else if bool_decide (name = "targetPartType")
  then (fun data => data_value (targetPartType_data data)) <$> targetPartType c !! entityId
  else if bool_decide (name = "targeting")
  then targeting_value <$> targeting c !! entityId
  else None.

(** [removeComponent(name, entityId)]: nothing happens for a name that
    is no category. *)
Definition removeComponent (name : string) (entityId : nat) (w : World) : World :=
  if bool_decide (name = "position")
  then set_components (set_position (delete entityId)) w
  else if bool_decide (name = "health")
  then set_components (set_health (delete entityId)) w
  else if bool_decide (name = "weaponSlots")
  then set_components (set_weaponSlots (delete entityId)) w
  else if bool_decide (name = "weapon")
  then set_components (set_weapon (delete entityId)) w
  else if bool_decide (name = "enemyType")
  then set_components (set_enemyType (delete entityId)) w
  else if bool_decide (name = "targetPartType")
  then set_components (set_targetPartType (delete entityId)) w
  else if bool_decide (name = "targeting")
  then set_components (set_targeting (delete entityId)) w
  else w.


(** ** What a step can change *)

(** [w'] holds nothing [w] did not hold: the registry of [w'] is what is
    left of the registry of [w], in order; outside the targeting
    category every entry of [w'] is an entry of [w], but for the value
    of health entries, which is at most what it was; and the counter,
    the flags and the console are those of [w]. *)
Definition neverGains (w w' : World) : Prop :=
  nodeId w' = nodeId w
  /\ enemyTargetingEnabled w' = enemyTargetingEnabled w
  /\ agentTargetingEnabled w' = agentTargetingEnabled w
  /\ console w' = console w
  /\ randomCalls w <= randomCalls w'
  /\ entities w' `sublist_of` entities w
  /\ (forall name k v, name <> "health" -> name <> "targeting" ->
        getComponent name k w' = Some v -> getComponent name k w = Some v)
  /\ (forall k h', health (components w') !! k = Some h' ->
        exists h, health (components w) !! k = Some h
                  /\ HealthComponent.entityId h' = HealthComponent.entityId h
                  /\ (HealthComponent.value h' <= HealthComponent.value h)%Z).


(** ** Where links come from *)

(** The test of [update] on an entity: its class is one of the two that
    own weapons and the flag of the class is on. *)
Definition ownerEnabled (w : World) (owner : Entity.t) : bool :=
  bool_decide (Entity.type owner = EntityType.AGENT) && agentTargetingEnabled w
  || bool_decide (Entity.type owner = EntityType.ENEMY) && enemyTargetingEnabled w.

(** The link under [k] is accounted for in [w]: [k] is a weapon in a slot
    of an entity of the registry whose class is enabled, the target is an
    entity of the registry within the maximum range of the weapon type
    from that owner, and the link carries the colour of the type; it was
    found by the primary scan, which only a melee weapon can pass, or by
    the specific scan, on a target part that carries its own part
    record. *)
Definition justifiedLink `{MathHost} (w : World) (k : nat) (link : TargetingComponent.t) : Prop :=
  exists owner slots wp target,
    owner ∈ entities w
    /\ ownerEnabled w owner = true
    /\ weaponSlots (components w) !! Entity.id owner = Some slots
    /\ Some k ∈ WeaponSlotsComponent.weaponIds slots
    /\ weapon (components w) !! k = Some wp
    /\ target ∈ entities w
    /\ inRangeOf (components w) owner target (WeaponComponent.weaponType wp)
    /\ link = TargetingComponent.new k (Entity.id target)
                (getWeaponColor (WeaponComponent.weaponType wp)) true
    /\ (WeaponComponent.weaponType wp = "melee"
        /\ Entity.type target ∈ validTargetTypes owner
        \/ Entity.type target = EntityType.TARGET_PART
           /\ is_Some (Entity.components target)).

(** ** Where weapons are *)

(** Every weapon in a slot lies where [addWeaponToEntity] put it: ten to
    the right of and ten below the position of the entity that holds
    it. *)
Definition weaponsBesideOwner (w : World) : Prop :=
  forall k slots weaponId,
    weaponSlots (components w) !! k = Some slots ->
    Some weaponId ∈ WeaponSlotsComponent.weaponIds slots ->
    exists ownerPosition weaponPosition,
      position (components w) !! k = Some ownerPosition
      /\ position (components w) !! weaponId = Some weaponPosition
      /\ PositionComponent.x weaponPosition = (PositionComponent.x ownerPosition + 10)%Q
      /\ PositionComponent.y weaponPosition = (PositionComponent.y ownerPosition + 10)%Q.

(** What the theorem on steps without damage asks of the host: a square
    root of at most 1 is only returned for a number below 4 (any square
    root that is exact up to rounding does better), and no sample is
    negative. *)
Definition sqrtCoarse `{MathHost} : Prop :=
  forall q, (Math_sqrt q <= 1)%Q -> (q < 4)%Q.

Definition samplesNonNegative `{MathHost} : Prop :=
  forall n, (0 <= Math_random n)%Q.


(** ** What an enemy carries *)

(** The weapon [addEnemy] puts in the second slot of an enemy of a
    type: the four guarded calls add the laser first and then the first
    of rocket (devastator), cannon (tank) and melee that passes its
    guard, which fills the second and last slot. *)
Definition secondWeapon (enemyType : string) : string :=
  if bool_decide (enemyType = "devastator") then "rocket"
  else if bool_decide (enemyType = "tank") then "cannon"
  else "melee".

(** ** What the spawn commands leave behind *)

(** What [addAgent] leaves behind when it started in [w], drew the type
    [randomWeaponType] for the second weapon and ended in [w']. *)
Definition agentSpawned `{MathHost} (w w' : World) (randomWeaponType : string) : Prop :=
  entities w' = entities w ++ [Entity.mk (nodeId w) EntityType.AGENT None]
  /\ nodeId w' = S (S (S (nodeId w)))
  /\ randomCalls w' = S (S (S (randomCalls w)))
  /\ console w' = console w
  /\ enemyTargetingEnabled w' = enemyTargetingEnabled w
  /\ agentTargetingEnabled w' = agentTargetingEnabled w
  /\ position (components w')
     = <[S (S (nodeId w)) :=
           PositionComponent.new (S (S (nodeId w)))
             (Math_random (randomCalls w) * 800 + 10)
             (Math_random (S (randomCalls w)) * 600 + 10)]>
         (<[S (nodeId w) :=
              PositionComponent.new (S (nodeId w))
                (Math_random (randomCalls w) * 800 + 10)
                (Math_random (S (randomCalls w)) * 600 + 10)]>
            (<[nodeId w :=
                 PositionComponent.new (nodeId w)
                   (Math_random (randomCalls w) * 800)
                   (Math_random (S (randomCalls w)) * 600)]>
               (position (components w))))
  /\ health (components w')
     = <[nodeId w := HealthComponent.new (nodeId w) 100]> (health (components w))
  /\ weaponSlots (components w')
     = <[nodeId w :=
           WeaponSlotsComponent.mk (nodeId w)
             [Some (S (nodeId w)); Some (S (S (nodeId w))); None; None; None; None; None]]>
         (weaponSlots (components w))
  /\ weapon (components w')
     = <[S (S (nodeId w)) := WeaponComponent.new (S (S (nodeId w))) randomWeaponType]>
         (<[S (nodeId w) := WeaponComponent.new (S (nodeId w)) "rifle"]>
            (weapon (components w)))
  /\ enemyType (components w') = enemyType (components w)
  /\ targetPartType (components w') = targetPartType (components w)
  /\ targeting (components w') = targeting (components w).

(** What [addEnemy] leaves behind when it started in [w], drew the type
    [enemyTypeChoice], whose health is [enemyHealth] and whose parts are
    [parts], and ended in [w']. *)
Definition enemySpawned `{MathHost} (w w' : World) (enemyTypeChoice : string)
    (enemyHealth : Z) (parts : list string) : Prop :=
  entities w' = entities w ++ [Entity.mk (nodeId w) EntityType.ENEMY None]
  /\ nodeId w' = S (S (S (nodeId w))) + length parts
  /\ randomCalls w' = S (S (S (randomCalls w))) + 2 * length parts
  /\ console w' = console w
  /\ enemyTargetingEnabled w' = enemyTargetingEnabled w
  /\ agentTargetingEnabled w' = agentTargetingEnabled w
  /\ enemyType (components w')
     = <[nodeId w := EnemyTypeComponent.new (nodeId w) enemyTypeChoice]>
         (enemyType (components w))
  /\ weaponSlots (components w')
     = <[nodeId w := WeaponSlotsComponent.mk (nodeId w)
                       [Some (S (nodeId w)); Some (S (S (nodeId w)))]]>
         (weaponSlots (components w))
  /\ weapon (components w')
     = <[S (S (nodeId w)) :=
           WeaponComponent.new (S (S (nodeId w))) (secondWeapon enemyTypeChoice)]>
         (<[S (nodeId w) := WeaponComponent.new (S (nodeId w)) "laser"]>
            (weapon (components w)))
  /\ targeting (components w') = targeting (components w)
  /\ position (components w') !! nodeId w
     = Some (PositionComponent.new (nodeId w)
               (Math_random (S (randomCalls w)) * 800)
               (Math_random (S (S (randomCalls w))) * 600))
  /\ health (components w') !! nodeId w
     = Some (HealthComponent.new (nodeId w) enemyHealth)
  /\ position (components w') !! S (nodeId w)
     = Some (PositionComponent.new (S (nodeId w))
               (Math_random (S (randomCalls w)) * 800 + 10)
               (Math_random (S (S (randomCalls w))) * 600 + 10))
  /\ position (components w') !! S (S (nodeId w))
     = Some (PositionComponent.new (S (S (nodeId w)))
               (Math_random (S (randomCalls w)) * 800 + 10)
               (Math_random (S (S (randomCalls w))) * 600 + 10))
  /\ (forall i partType, parts !! i = Some partType ->
        targetPartType (components w') !! (S (S (S (nodeId w))) + i)
        = Some (TargetPartTypeComponent.new (S (S (S (nodeId w))) + i) partType
                  (IsId (nodeId w)))
        /\ health (components w') !! (S (S (S (nodeId w))) + i)
           = Some (HealthComponent.new (S (S (S (nodeId w))) + i) 10)
        /\ position (components w') !! (S (S (S (nodeId w))) + i)
           = Some (PositionComponent.new (S (S (S (nodeId w))) + i)
                     (Math_random (S (S (S (randomCalls w))) + 2 * i) * 800)
                     (Math_random (S (S (S (S (randomCalls w))) + 2 * i)) * 600)))
  /\ (forall k, k < nodeId w \/ nodeId w' <= k ->
        position (components w') !! k = position (components w) !! k
        /\ health (components w') !! k = health (components w) !! k
        /\ targetPartType (components w') !! k = targetPartType (components w) !! k).


(** ** More on the host *)

(** What [Math.random] promises: every sample lies in [[0, 1)]. *)
Definition samplesInUnit `{MathHost} : Prop :=
  forall n, (0 <= Math_random n)%Q /\ (Math_random n < 1)%Q.

(** ** The script as loaded *)

(** The last four statements of the script: [api.addAgent();
    api.addEnemy(); api.addEnemy(); api.addEnemy();], run on the empty
    store. *)
Definition startup `{MathHost} : option World :=
  w ← api_addAgent initialWorld;
  w ← api_addEnemy w;
  w ← api_addEnemy w;
  api_addEnemy w.


(** ** RenderingSystem *)

(** The rendering system talks to one object, the d3 selection [svg].
    What is modelled is the sequence of calls the two methods below make
    on it, oldest first: [svg.selectAll(selector).remove()], and
    [svg.append(tag)] followed by the chain of [attr], [style] and
    [classed] calls on the element appended, recorded with the element.
    [renderEntities], a d3 data join whose outcome depends on the
    document, is not modelled, and so neither is [update]. *)
Record SvgElement := {
  tag : string;
  attrs : list (string * Q);
  styles : list (string * string);
  classes : list string
}.

Inductive SvgCall :=
| svg_selectAll_remove (selector : string)
| svg_append (element : SvgElement).

Definition EnemyRangeConfig : list (string * (Q * Q)) :=
  [ ("infantry", (25, 50)%Q); ("devastator", (40, 80)%Q); ("tank", (60, 120)%Q) ].

(** [svg.append("circle").attr("cx", cx).attr("cy", cy).attr("r", r)
       .style("fill", "none").style("stroke", stroke)
       .style("stroke-dasharray", "3").classed("range-circle", true)]. *)
Definition rangeCircle (cx cy r : Q) (stroke : string) : SvgElement :=
  {| tag := "circle";
     attrs := [("cx", cx); ("cy", cy); ("r", r)];
     styles := [("fill", "none"); ("stroke", stroke); ("stroke-dasharray", "3")];
     classes := ["range-circle"] |}.

(** [svg.append("line").attr("x1", x1).attr("y1", y1).attr("x2", x2)
       .attr("y2", y2).style("stroke", stroke)]. *)
Definition targetingLine (x1 y1 x2 y2 : Q) (stroke : string) : SvgElement :=
  {| tag := "line";
     attrs := [("x1", x1); ("y1", y1); ("x2", x2); ("y2", y2)];
     styles := [("stroke", stroke)];
     classes := [] |}.

(** What one cell of [weaponIds] pushes on [ranges]: the two ends of
    the range of the weapon's type; nothing for [null], for an id
    without weapon entry and for a type without range. *)
Definition weaponRanges (c : Components) (slot : option nat) : list Q :=
  match slot with
  | None => []
  | Some weaponId =>
      match weapon c !! weaponId with
      | Some wp =>
          match obj_get (WeaponComponent.weaponType wp) WeaponRangeConfig with
          | Some range => [fst range; snd range]
          | None => []
          end
      | None => []
      end
  end.

(** The array [ranges] of one entity; [None] when the slots of an agent
    or the type of an enemy are missing. *)
Definition entityRanges (c : Components) (entity : Entity.t) : option (list Q) :=
  if bool_decide (Entity.type entity = EntityType.AGENT) then
    slots ← weaponSlots c !! Entity.id entity;
    Some (flat_map (weaponRanges c) (WeaponSlotsComponent.weaponIds slots))
  else if bool_decide (Entity.type entity = EntityType.ENEMY) then
    entry ← enemyType c !! Entity.id entity;
    Some (match obj_get (EnemyTypeComponent.enemyType entry) EnemyRangeConfig with
          | Some range => [fst range; snd range]
          | None => []
          end)
  else Some [].

(** The callback of [ranges.forEach]: the position of the entity is read
    for each circle. *)
Definition drawRangeCircle (c : Components) (entity : Entity.t) (range : Q)
    (svg : list SvgCall) : option (list SvgCall) :=
  entityPosition ← position c !! Entity.id entity;
  let stroke := if bool_decide (Entity.type entity = EntityType.AGENT) then "blue" else "red" in
  Some (svg ++ [svg_append (rangeCircle (PositionComponent.x entityPosition)
                              (PositionComponent.y entityPosition) range stroke)]).

(** The callback of [entities.forEach] in [renderRangeCircles]. *)
Definition drawEntityRanges (c : Components) (entity : Entity.t) (svg : list SvgCall) :
    option (list SvgCall) :=
  ranges ← entityRanges c entity;
  forEach (drawRangeCircle c entity) ranges svg.

(** [renderRangeCircles(entities, components)], from the calls made so
    far to the calls made after it. *)
Definition renderRangeCircles (w : World) (svg : list SvgCall) : option (list SvgCall) :=
  forEach (drawEntityRanges (components w)) (entities w)
    (svg ++ [svg_selectAll_remove ".range-circle"]).

(** The callback of [links.forEach] in [renderTargetingLinks]. *)
Definition drawTargetingLink (c : Components) (link : TargetingComponent.t)
    (svg : list SvgCall) : list SvgCall :=
  match position c !! TargetingComponent.source link,
        position c !! TargetingComponent.target link with
  | Some sourcePosition, Some targetPosition =>
      svg ++ [svg_append (targetingLine (PositionComponent.x sourcePosition)
                            (PositionComponent.y sourcePosition)
                            (PositionComponent.x targetPosition)
                            (PositionComponent.y targetPosition)
                            (TargetingComponent.color link))]
  | _, _ => svg
  end.

(** [renderTargetingLinks(components)]; nothing in it can throw. *)
Definition renderTargetingLinks (c : Components) (svg : list SvgCall) : list SvgCall :=
  let links := List.filter TargetingComponent.enabled (Object_values (targeting c)) in
  foldl (fun svg link => drawTargetingLink c link svg) svg links.

(** ** Predicates on what is drawn *)

(** The number of range circles an entity gets: two for each weapon an
    agent holds, two for an enemy. *)
Definition circlesFor (c : Components) (entity : Entity.t) : nat :=
  if bool_decide (Entity.type entity = EntityType.AGENT)
  then 2 * from_option usedSlots 0 (weaponSlots c !! Entity.id entity)
  else 2.

(** The radii the range table gives the cells of a slots component, in
    the order of the cells: nothing for [null], and for a weapon the two
    ends of the range of its type, the minimum first. *)
Inductive heldRadii (c : Components) : list (option nat) -> list Q -> Prop :=
| heldRadii_end : heldRadii c [] []
| heldRadii_null cells radii :
    heldRadii c cells radii -> heldRadii c (None :: cells) radii
| heldRadii_weapon weaponId wp range cells radii :
    weapon c !! weaponId = Some wp ->
    obj_get (WeaponComponent.weaponType wp) WeaponRangeConfig = Some range ->
    heldRadii c cells radii ->
    heldRadii c (Some weaponId :: cells) (fst range :: snd range :: radii).

(** The radii of the circles of an entity: for an agent those of the
    weapons in its slots, for an enemy the two ends of the range
    [EnemyRangeConfig] gives its type. *)
Definition radiiOf (c : Components) (entity : Entity.t) (radii : list Q) : Prop :=
  Entity.type entity = EntityType.AGENT
  /\ (exists slots, weaponSlots c !! Entity.id entity = Some slots
                    /\ heldRadii c (WeaponSlotsComponent.weaponIds slots) radii)
  \/ Entity.type entity = EntityType.ENEMY
     /\ (exists entry range,
           enemyType c !! Entity.id entity = Some entry
           /\ obj_get (EnemyTypeComponent.enemyType entry) EnemyRangeConfig = Some range
           /\ radii = [fst range; snd range]).

(** The calls draw one circle for each radius, in order, centred on the
    position of the entity, blue for an agent and red otherwise. *)
Definition circlesAround (c : Components) (entity : Entity.t) (radii : list Q)
    (calls : list SvgCall) : Prop :=
  exists entityPosition,
    position c !! Entity.id entity = Some entityPosition
    /\ calls = (fun radius =>
                  svg_append
                    (rangeCircle (PositionComponent.x entityPosition)
                       (PositionComponent.y entityPosition) radius
                       (if bool_decide (Entity.type entity = EntityType.AGENT)
                        then "blue" else "red"))) <$> radii.

(** The call draws the link, from the position of its source, which is
    the weapon, to the position of its target. *)
Definition lineOf (c : Components) (link : TargetingComponent.t) (call : SvgCall) : Prop :=
  exists sourcePosition targetPosition,
    position c !! TargetingComponent.source link = Some sourcePosition
    /\ position c !! TargetingComponent.target link = Some targetPosition
    /\ call = svg_append
                (targetingLine (PositionComponent.x sourcePosition)
                   (PositionComponent.y sourcePosition)
                   (PositionComponent.x targetPosition)
                   (PositionComponent.y targetPosition)
                   (TargetingComponent.color link)).

(** Every enemy of the registry has its type on record, one of
    [EnemyTypes]. *)
Definition enemiesTyped (w : World) : Prop :=
  forall entity, entity ∈ entities w -> Entity.type entity = EntityType.ENEMY ->
    exists entry, enemyType (components w) !! Entity.id entity = Some entry
                  /\ EnemyTypeComponent.enemyType entry ∈ EnemyTypes.

(** ** What a pass rebuilds *)

(** The target the store gives a weapon of type [weaponType] held by
    [owner], for the list [types] of preference types: the first entity
    of the registry of the first type of the list whose first entity lies
    within the maximum range of the weapon from the owner. *)
Definition firstInRange `{MathHost} (w : World) (owner : Entity.t) (weaponType : string)
    (types : list string) (target : Entity.t) : Prop :=
  exists before targetType after,
    types = before ++ targetType :: after
    /\ firstOfType w targetType = Some target
    /\ inRangeOf (components w) owner target weaponType
    /\ forall earlier other, earlier ∈ before ->
         firstOfType w earlier = Some other ->
         ~ inRangeOf (components w) owner other weaponType.

(** The weapon is in one cell of the slots of [owner], [owner] is in the
    registry once, and no other cell of the slots of an entity of the
    registry holds the weapon: a pass makes one call for it. *)
Definition heldOnlyBy (w : World) (weaponId : nat) (owner : Entity.t) : Prop :=
  exists before after slots cellsBefore cellsAfter,
    entities w = before ++ owner :: after
    /\ weaponSlots (components w) !! Entity.id owner = Some slots
    /\ WeaponSlotsComponent.weaponIds slots = cellsBefore ++ Some weaponId :: cellsAfter
    /\ (Some weaponId ∉ cellsBefore)
    /\ (Some weaponId ∉ cellsAfter)
    /\ forall other otherSlots, other ∈ before ++ after ->
         weaponSlots (components w) !! Entity.id other = Some otherSlots ->
         Some weaponId ∉ WeaponSlotsComponent.weaponIds otherSlots.

(** No entity of the registry carries a part record of its own: the
    specific scan has no candidate. *)
Definition noPartRecords (w : World) : Prop :=
  forall entity, entity ∈ entities w -> Entity.components entity = None.

(** Every id in a cell of a slots component is an id the counter has
    passed, and no id is in two cells, of one component or of two. *)
Definition weaponsHeldOnce (w : World) : Prop :=
  (forall k slots weaponId,
      weaponSlots (components w) !! k = Some slots ->
      Some weaponId ∈ WeaponSlotsComponent.weaponIds slots ->
      weaponId < nodeId w)
  /\ forall k1 k2 slots1 slots2 i j weaponId,
       weaponSlots (components w) !! k1 = Some slots1 ->
       weaponSlots (components w) !! k2 = Some slots2 ->
       WeaponSlotsComponent.weaponIds slots1 !! i = Some (Some weaponId) ->
       WeaponSlotsComponent.weaponIds slots2 !! j = Some (Some weaponId) ->
       k1 = k2 /\ i = j.


(** * Properties *)

(** Closed goals on lists and tables are settled by computing their
    decision. *)
Ltac by_computation := apply (bool_decide_unpack _); vm_compute; exact I.

(** ** Loops, keys and values *)

Lemma forEach_app {A S : Type} (f : A -> S -> option S) (l1 l2 : list A) (s : S) :
  forEach f (l1 ++ l2) s = s' ← forEach f l1 s; forEach f l2 s'.
Proof.
  revert s. induction l1 as [|a l1 IH]; intros s; simpl; [done|].
  destruct (f a s) as [s1|]; simpl; [apply IH | done].
Qed.

(** A property every round preserves holds when the loop ends. *)
Lemma forEach_invariant {A S : Type} (f : A -> S -> option S) (P : S -> Prop) (l : list A) :
  (forall a s s', a ∈ l -> P s -> f a s = Some s' -> P s') ->
  forall s s', P s -> forEach f l s = Some s' -> P s'.
Proof.
  induction l as [|a l IH]; intros Hstep s s' Hs Hrun; simpl in Hrun.
  - by simplify_eq.
  - destruct (f a s) as [s1|] eqn:Hf; simpl in Hrun; [|done].
    apply (IH (fun b t t' Hb => Hstep b t t' (list_elem_of_further _ _ _ Hb)) s1 s');
      [|done].
    apply (Hstep a s s1); [left | done | done].
Qed.

Lemma elem_of_Object_keys {A : Type} (m : gmap nat A) (k : nat) :
  k ∈ Object_keys m <-> is_Some (m !! k).
Proof.
  unfold Object_keys. rewrite merge_sort_Permutation.
  rewrite list_elem_of_fmap. split.
  - intros [[k' v] [-> Hin]]. apply elem_of_map_to_list in Hin. by exists v.
  - intros [v Hv]. exists (k, v). split; [done|]. by apply elem_of_map_to_list.
Qed.

Lemma NoDup_Object_keys {A : Type} (m : gmap nat A) : NoDup (Object_keys m).
Proof.
  unfold Object_keys. rewrite merge_sort_Permutation. apply NoDup_fst_map_to_list.
Qed.

Lemma elem_of_Object_values {A : Type} (m : gmap nat A) (v : A) :
  v ∈ Object_values m <-> exists k, m !! k = Some v.
Proof.
  unfold Object_values. rewrite list_elem_of_omap. split.
  - intros [k [_ Hk]]. by exists k.
  - intros [k Hk]. exists k. split; [|done]. apply elem_of_Object_keys. by exists v.
Qed.

Lemma Object_keys_empty {A : Type} : Object_keys (∅ : gmap nat A) = [].
Proof.
  apply elem_of_nil_inv. intros k Hk.
  apply elem_of_Object_keys in Hk. rewrite lookup_empty in Hk. by destruct Hk.
Qed.

Lemma alreadyTargeted_true (c : Components) (weaponId : nat) (entity : Entity.t) :
  alreadyTargeted c weaponId entity = true <->
  exists k link, targeting c !! k = Some link
                 /\ TargetingComponent.source link = weaponId
                 /\ TargetingComponent.target link = Entity.id entity.
Proof.
  unfold alreadyTargeted. rewrite existsb_exists. split.
  - intros [link [Hin Hb]]. apply list_elem_of_In, elem_of_Object_values in Hin.
    destruct Hin as [k Hk]. apply andb_true_iff in Hb as [H1 H2].
    apply bool_decide_eq_true in H1, H2. by exists k, link.
  - intros (k & link & Hk & H1 & H2). exists link. split.
    + apply list_elem_of_In, elem_of_Object_values. by exists k.
    + apply andb_true_iff. by split; apply bool_decide_eq_true.
Qed.

(** With links stored under their source, a weapon that has no link
    targets nothing yet. *)
Lemma alreadyTargeted_no_link (c : Components) (weaponId : nat) (entity : Entity.t) :
  keyedBySource (targeting c) ->
  targeting c !! weaponId = None ->
  alreadyTargeted c weaponId entity = false.
Proof.
  intros Hkey Hnone. apply not_true_is_false. intros Ht.
  apply alreadyTargeted_true in Ht as (k & link & Hk & Hsrc & _).
  apply Hkey in Hk as Hk'. congruence.
Qed.

(** ** C5: the hit probability *)

Lemma clamp01_bounds (d : Q) : (0 <= clamp01 d /\ clamp01 d <= 1)%Q.
Proof.
  unfold clamp01. split.
  - apply Q.le_max_l.
  - apply Q.max_lub; [discriminate|]. apply Q.le_min_l.
Qed.

(** C5.  [calculateHitProbability] returns exactly 1 whenever the
    distance is at most the melee threshold (the maximum range of
    "melee" in the range table, which is 1), whatever the range and the
    accuracy passed; beyond the threshold it returns
    [(1 - normalizedDistance) * accuracy], [normalizedDistance] being
    [distance / maxRange] clamped to [[0, 1]]; and for an accuracy in
    [[0, 1]] and a positive maximum range the value returned lies in
    [[0, 1]]. *)
Theorem calculateHitProbability_spec (distance maxRange accuracy : Q) :
  obj_get "melee" WeaponRangeConfig = Some (1, 1)%Q
  /\ ((distance <= 1)%Q -> calculateHitProbability distance maxRange accuracy = Some 1%Q)
  /\ (~ (distance <= 1)%Q ->
      calculateHitProbability distance maxRange accuracy
      = Some ((1 - clamp01 (distance / maxRange)) * accuracy)%Q)
  /\ ((0 <= accuracy)%Q -> (accuracy <= 1)%Q -> (0 < maxRange)%Q ->
      exists p, calculateHitProbability distance maxRange accuracy = Some p
                /\ (0 <= p)%Q /\ (p <= 1)%Q).
Proof.
  split; [reflexivity|].
  assert (Hmelee : forall d, calculateHitProbability d maxRange accuracy
            = if Qle_bool d 1 then Some 1%Q
              else Some ((1 - clamp01 (d / maxRange)) * accuracy)%Q) by reflexivity.
  split; [|split].
  - intros Hd. rewrite Hmelee. apply Qle_bool_iff in Hd. by rewrite Hd.
  - intros Hd. rewrite Hmelee. destruct (Qle_bool distance 1) eqn:Hb; [|done].
    apply Qle_bool_iff in Hb. contradiction.
  - intros Ha0 Ha1 _. rewrite Hmelee. destruct (Qle_bool distance 1).
    + exists 1%Q. repeat split; discriminate.
    + eexists. split; [reflexivity|].
      destruct (clamp01_bounds (distance / maxRange)) as [Hc0 Hc1].
      set (n := clamp01 (distance / maxRange)) in *. clearbody n.
      assert (0 <= 1 - n)%Q by lra. assert (1 - n <= 1)%Q by lra.
      split; nra.
Qed.


(** ** The assignment pass: what a call can write *)

Lemma withTargeting_id (w : World) : withTargeting (targeting (components w)) w = w.
Proof. by destruct w as [? [] ? ? ? ? ?]. Qed.

Lemma clearTargeting_withTargeting (t : gmap nat TargetingComponent.t) (w : World) :
  clearTargeting (withTargeting t w) = clearTargeting w.
Proof. by destruct w as [? [] ? ? ? ? ?]. Qed.

Lemma recordLink_withTargeting (weaponId : nat) (link : TargetingComponent.t) (w : World) :
  recordLink weaponId link w = withTargeting (<[weaponId := link]> (targeting (components w))) w.
Proof. by destruct w as [? [] ? ? ? ? ?]. Qed.

Lemma withTargeting_withTargeting (t1 t2 : gmap nat TargetingComponent.t) (w : World) :
  withTargeting t1 (withTargeting t2 w) = withTargeting t1 w.
Proof. by destruct w as [? [] ? ? ? ? ?]. Qed.

Lemma linkIfInRange_link `{MathHost} c weaponId weaponType owner target link :
  linkIfInRange c weaponId weaponType owner target = Some (Some link) ->
  link = TargetingComponent.new weaponId (Entity.id target) (getWeaponColor weaponType) true.
Proof.
  unfold linkIfInRange. intros Hrun.
  destruct (position c !! Entity.id owner); simpl in Hrun; [|done].
  destruct (position c !! Entity.id target); simpl in Hrun; [|done].
  destruct (obj_get weaponType WeaponRangeConfig); simpl in Hrun; [|done].
  destruct (Qle_bool _ _); by simplify_eq.
Qed.

Lemma primaryCandidate_Some (w : World) weaponId targetType target :
  primaryCandidate w weaponId targetType = Some target ->
  target ∈ entities w /\ Entity.type target = targetType
  /\ alreadyTargeted (components w) weaponId target = false.
Proof.
  unfold primaryCandidate. intros Hfind. apply find_some in Hfind as [Hin Hb].
  apply andb_true_iff in Hb as [Hty Hnot].
  apply bool_decide_eq_true in Hty. apply negb_true_iff in Hnot.
  split; [by apply list_elem_of_In | done].
Qed.

Lemma specificCandidate_Some (w : World) weaponId targetType specificTargetType target :
  specificCandidate w weaponId targetType specificTargetType = Some target ->
  target ∈ entities w /\ Entity.type target = EntityType.TARGET_PART
  /\ is_Some (Entity.components target)
  /\ alreadyTargeted (components w) weaponId target = false.
Proof.
  unfold specificCandidate. intros Hfind. apply find_some in Hfind as [Hin Hb].
  apply andb_true_iff in Hb as [Hb Hnot]. apply andb_true_iff in Hb as [Hty Hpart].
  apply bool_decide_eq_true in Hty. apply negb_true_iff in Hnot.
  split; [by apply list_elem_of_In|]. split; [done|]. split; [|done].
  by destruct (Entity.components target).
Qed.

Lemma primaryScan_link `{MathHost} w weaponId weaponType owner types link :
  primaryScan w weaponId weaponType owner types = Some (Some link) ->
  linkToCandidate w weaponId weaponType link.
Proof.
  induction types as [|targetType rest IH]; simpl; [done|].
  destruct (primaryCandidate w weaponId targetType) as [target|] eqn:Hcand; [|done].
  destruct (linkIfInRange _ _ _ _ _) as [[found|]|] eqn:Hrange; simpl; [| done | done].
  intros ?; simplify_eq. apply linkIfInRange_link in Hrange.
  apply primaryCandidate_Some in Hcand as (Hin & _ & Hnot). by exists target.
Qed.

Lemma specificPartScan_link `{MathHost} w weaponId weaponType owner targetType parts link :
  specificPartScan w weaponId weaponType owner targetType parts = Some (Some link) ->
  linkToCandidate w weaponId weaponType link.
Proof.
  induction parts as [|part rest IH]; simpl; [done|].
  destruct (specificCandidate w weaponId targetType part) as [target|] eqn:Hcand; [|done].
  destruct (linkIfInRange _ _ _ _ _) as [[found|]|] eqn:Hrange; simpl; [| done | done].
  intros ?; simplify_eq. apply linkIfInRange_link in Hrange.
  apply specificCandidate_Some in Hcand as (Hin & _ & _ & Hnot). by exists target.
Qed.

Lemma specificScan_link `{MathHost} w weaponId weaponType owner specific link :
  specificScan w weaponId weaponType owner specific = Some (Some link) ->
  linkToCandidate w weaponId weaponType link.
Proof.
  induction specific as [|[targetType parts] rest IH]; simpl; [done|].
  destruct (specificPartScan _ _ _ _ _ _) as [[found|]|] eqn:Hparts; simpl; [| done | done].
  intros ?; simplify_eq. by eapply specificPartScan_link.
Qed.

(** A call leaves the world as it is or records one link, under the
    id of the weapon, to a candidate of the registry. *)
Lemma assignWeaponToTarget_result `{MathHost} weaponId owner w w' :
  assignWeaponToTarget weaponId owner w = Some w' ->
  w' = w
  \/ exists wp link,
       weapon (components w) !! weaponId = Some wp
       /\ linkToCandidate w weaponId (WeaponComponent.weaponType wp) link
       /\ w' = recordLink weaponId link w.
Proof.
  unfold assignWeaponToTarget. intros Hrun.
  destruct (weapon (components w) !! weaponId) as [wp|] eqn:Hwp; simpl in Hrun; [|done].
  destruct (obj_get _ WeaponTargetConfig) as [prefs|]; [|left; by simplify_eq].
  destruct (primaryScan _ _ _ _ _) as [[link|]|] eqn:Hprimary; simpl in Hrun; [| |done].
  { right. exists wp, link. simplify_eq. split; [done|]. split; [|done].
    by eapply primaryScan_link. }
  destruct (specificTargets prefs) as [specific|]; [|left; by simplify_eq].
  destruct (specificScan _ _ _ _ _) as [[link|]|] eqn:Hspecific; simpl in Hrun; [| |done].
  - right. exists wp, link. simplify_eq. split; [done|]. split; [|done].
    by eapply specificScan_link.
  - left. by simplify_eq.
Qed.

(** The frame of a call: nothing but the targeting category changes. *)
Lemma assignWeaponToTarget_frame `{MathHost} weaponId owner w w' :
  assignWeaponToTarget weaponId owner w = Some w' ->
  w' = withTargeting (targeting (components w')) w.
Proof.
  intros Hrun. apply assignWeaponToTarget_result in Hrun as [->|(wp & link & _ & _ & ->)].
  - by rewrite withTargeting_id.
  - rewrite recordLink_withTargeting. by destruct w as [? [] ? ? ? ? ?].
Qed.

Lemma assignWeaponToTarget_keyedBySource `{MathHost} weaponId owner w w' :
  keyedBySource (targeting (components w)) ->
  assignWeaponToTarget weaponId owner w = Some w' ->
  keyedBySource (targeting (components w')).
Proof.
  intros Hkey Hrun.
  apply assignWeaponToTarget_result in Hrun as [->|(wp & link & _ & Hlink & ->)]; [done|].
  destruct Hlink as (target & _ & _ & ->).
  intros k link. destruct w as [? [] ? ? ? ? ?]; simpl in *.
  destruct (decide (k = weaponId)) as [->|Hne].
  - rewrite lookup_insert_eq. by intros [= <-].
  - rewrite lookup_insert_ne by done. apply Hkey.
Qed.

Lemma duringPass_recordedInPass `{MathHost} w0 w :
  duringPass w0 w -> recordedInPass w0 w.
Proof.
  induction 1 as [|weaponId owner w w' _ [Hframe Hlinks] Hcall].
  - split.
    + by destruct w0 as [? [] ? ? ? ? ?].
    + intros k link. destruct w0 as [? [] ? ? ? ? ?]; simpl. by rewrite lookup_empty.
  - apply assignWeaponToTarget_result in Hcall as [->|(wp & link & Hwp & Hlink & ->)]; [done|].
    destruct Hlink as (target & Hin & _ & ->). split.
    + rewrite recordLink_withTargeting. rewrite Hframe at 2.
      rewrite withTargeting_withTargeting. by destruct w0 as [? [] ? ? ? ? ?].
    + assert (Hw0 : entities w = entities w0 /\ weapon (components w) = weapon (components w0)).
      { rewrite Hframe. by destruct w0 as [? [] ? ? ? ? ?]. }
      destruct Hw0 as [Hents Hweapons].
      intros k link. rewrite recordLink_withTargeting.
      destruct w as [? [] ? ? ? ? ?]; simpl in *.
      destruct (decide (k = weaponId)) as [->|Hne].
      * rewrite lookup_insert_eq. intros [= <-]. simpl. subst.
        repeat split; eauto.
      * rewrite lookup_insert_ne by done. apply Hlinks.
Qed.

Lemma recordedInPass_frame (w0 w : World) :
  recordedInPass w0 w ->
  entities w = entities w0
  /\ position (components w) = position (components w0)
  /\ weapon (components w) = weapon (components w0)
  /\ weaponSlots (components w) = weaponSlots (components w0)
  /\ agentTargetingEnabled w = agentTargetingEnabled w0
  /\ enemyTargetingEnabled w = enemyTargetingEnabled w0.
Proof. intros [-> _]. by destruct w0 as [? [] ? ? ? ? ?]. Qed.

Lemma forEach_assignSlot_duringPass `{MathHost} w0 owner slots w w' :
  duringPass w0 w -> forEach (assignSlot owner) slots w = Some w' -> duringPass w0 w'.
Proof.
  apply forEach_invariant. intros [weaponId|] s s' _ Hs; simpl.
  - intros Hcall. by eapply duringPass_call.
  - by intros [= <-].
Qed.

Lemma assignEntity_duringPass `{MathHost} w0 entity w w' :
  duringPass w0 w -> assignEntity entity w = Some w' -> duringPass w0 w'.
Proof.
  intros Hw. unfold assignEntity, assignAgentWeapons, assignEnemyWeapons.
  destruct (_ && _).
  { destruct (weaponSlots (components w) !! Entity.id entity); simpl; [|done].
    by apply forEach_assignSlot_duringPass. }
  destruct (_ && _).
  { destruct (weaponSlots (components w) !! Entity.id entity); simpl; [|done].
    by apply forEach_assignSlot_duringPass. }
  by intros [= <-].
Qed.

(** The world a pass ends in is one of the worlds of the pass. *)
Lemma WeaponAssignmentSystem_update_duringPass `{MathHost} w w' :
  WeaponAssignmentSystem_update w = Some w' -> duringPass w w'.
Proof.
  unfold WeaponAssignmentSystem_update.
  apply forEach_invariant; [|constructor].
  intros entity s s' _. apply assignEntity_duringPass.
Qed.

Lemma WeaponAssignmentSystem_update_stale `{MathHost} (w : World) stale :
  WeaponAssignmentSystem_update (withTargeting stale w) = WeaponAssignmentSystem_update w.
Proof.
  unfold WeaponAssignmentSystem_update. rewrite clearTargeting_withTargeting.
  by destruct w as [? [] ? ? ? ? ?].
Qed.


(** ** The damage pass *)

Lemma find_id_Some (l : list Entity.t) (targetId : nat) (target : Entity.t) :
  List.find (fun entity => bool_decide (Entity.id entity = targetId)) l = Some target ->
  target ∈ l /\ Entity.id target = targetId.
Proof.
  intros Hfind. apply find_some in Hfind as [Hin Hid].
  apply bool_decide_eq_true in Hid. split; [by apply list_elem_of_In | done].
Qed.

Lemma find_id_None (l : list Entity.t) (targetId : nat) :
  (forall entity, entity ∈ l -> Entity.id entity <> targetId) ->
  List.find (fun entity => bool_decide (Entity.id entity = targetId)) l = None.
Proof.
  intros Hall. destruct (List.find _ l) as [target|] eqn:Hfind; [|done].
  apply find_id_Some in Hfind as [Hin Hid]. by apply Hall in Hin.
Qed.

(** ** C7: links whose weapon or target is gone *)

(** C7.  A link of the targeting category, stored under the id of its
    source, whose source weapon has no weapon entry any more or whose
    target is no entity of the registry any more is passed over: its
    round changes nothing in the world, health or otherwise, and the
    loop goes on with the remaining keys from that same world. *)
Theorem missing_link_skipped `{MathHost} (w : World) (weaponId : nat)
    (link : TargetingComponent.t) (rest : list nat) :
  targeting (components w) !! weaponId = Some link ->
  TargetingComponent.source link = weaponId ->
  weapon (components w) !! TargetingComponent.source link = None
  \/ (forall entity, entity ∈ entities w ->
        Entity.id entity <> TargetingComponent.target link) ->
  resolveLink weaponId w = Some w
  /\ forEach resolveLink (weaponId :: rest) w = forEach resolveLink rest w.
Proof.
  intros Hlink Hsrc Hgone.
  assert (Hround : resolveLink weaponId w = Some w).
  { unfold resolveLink. rewrite Hlink.
    destruct (TargetingComponent.enabled link); [|done].
    destruct Hgone as [Hweapon|Htarget].
    - rewrite Hsrc in Hweapon. by rewrite Hweapon.
    - rewrite (find_id_None _ _ Htarget). by destruct (weapon (components w) !! weaponId). }
  split; [done|]. simpl. by rewrite Hround.
Qed.

(** ** The damage pass: what a round can change *)

Lemma resolveHit_cases `{MathHost} link wp target w w' :
  resolveHit link wp target w = Some w' ->
  is_Some (position (components w) !! Entity.id target)
  /\ (w' = set_randomCalls (S (randomCalls w)) w
      \/ exists h dmg,
           health (components w) !! Entity.id target = Some h
           /\ ((0 < HealthComponent.value h - dmg)%Z /\ w' = afterHit target h dmg w
               \/ (HealthComponent.value h - dmg <= 0)%Z
                  /\ w' = killEntity target (afterHit target h dmg w))).
Proof.
  unfold resolveHit. intros Hrun.
  destruct (position (components w) !! TargetingComponent.source link);
    simpl in Hrun; [|done].
  destruct (position (components w) !! Entity.id target) as [tp|];
    simpl in Hrun; [|done].
  split; [by exists tp|].
  destruct (obj_get _ WeaponRangeConfig); simpl in Hrun; [|done].
  destruct (obj_get _ WeaponStats) as [stats|]; simpl in Hrun; [|done].
  destruct (calculateHitProbability _ _ _) as [prob|]; simpl in Hrun; [|done].
  destruct (Qlt_bool _ prob); [|left; by simplify_eq].
  destruct (health (components w) !! Entity.id target) as [h|] eqn:Hh;
    simpl in Hrun; [|done].
  right. exists h, (damage stats). split; [done|].
  case_bool_decide; simplify_eq; [right | left]; (split; [lia | done]).
Qed.

(** A round either leaves registry and categories as they are, or
    hits an entity of the registry that has a position. *)
Lemma resolveLink_cases `{MathHost} weaponId w w' :
  resolveLink weaponId w = Some w' ->
  (w' = w \/ w' = set_randomCalls (S (randomCalls w)) w)
  \/ exists target h dmg,
       target ∈ entities w
       /\ is_Some (position (components w) !! Entity.id target)
       /\ health (components w) !! Entity.id target = Some h
       /\ ((0 < HealthComponent.value h - dmg)%Z /\ w' = afterHit target h dmg w
           \/ (HealthComponent.value h - dmg <= 0)%Z
              /\ w' = killEntity target (afterHit target h dmg w)).
Proof.
  unfold resolveLink. intros Hrun.
  destruct (targeting (components w) !! weaponId) as [link|]; [|left; left; by simplify_eq].
  destruct (TargetingComponent.enabled link); [|left; left; by simplify_eq].
  destruct (weapon (components w) !! weaponId) as [wp|]; [|left; left; by simplify_eq].
  destruct (List.find _ (entities w)) as [target|] eqn:Hfind; [|left; left; by simplify_eq].
  apply find_id_Some in Hfind as [Hin _].
  apply resolveHit_cases in Hrun as [Hpos [->|(h & dmg & Hh & Hcase)]].
  - left. by right.
  - right. by exists target, h, dmg.
Qed.

Lemma spliceOut_cons (target e : Entity.t) (l : list Entity.t) :
  target ∈ e :: l ->
  spliceOut target (e :: l) = if bool_decide (e = target) then l else e :: spliceOut target l.
Proof.
  intros Hin. unfold spliceOut. simpl. case_bool_decide as He; [done|].
  apply elem_of_cons in Hin as [->|Hin]; [done|].
  assert (Hidx : is_Some (indexOf target l)).
  { clear He. induction l as [|e' l IH]; [by apply elem_of_nil in Hin|].
    simpl. case_bool_decide; [by eexists|].
    apply elem_of_cons in Hin as [->|Hin]; [done|].
    destruct (IH Hin) as [i ->]. by eexists. }
  destruct Hidx as [i ->]. done.
Qed.

Lemma spliceOut_subseteq (target : Entity.t) (l : list Entity.t) :
  spliceOut target l ⊆ l.
Proof.
  unfold spliceOut. destruct (indexOf target l) as [i|].
  - apply sublist_subseteq, sublist_delete.
  - intros e He. apply list_elem_of_In. apply list_elem_of_In in He.
    clear -He. induction l as [|a [|b l] IH]; simpl in *; [done | done |].
    destruct He as [->|He]; [by left | right; by apply IH].
Qed.

Lemma spliceOut_sublist (target : Entity.t) (l : list Entity.t) :
  target ∈ l -> spliceOut target l `sublist_of` l.
Proof.
  induction l as [|e l IH]; intros Hin; [by apply elem_of_nil in Hin|].
  rewrite spliceOut_cons by done. case_bool_decide as He.
  - by apply sublist_cons.
  - apply sublist_skip, IH. apply elem_of_cons in Hin as [->|Hin]; done.
Qed.

(** Taking the target out keeps every other entity. *)
Lemma spliceOut_other (target e : Entity.t) (l : list Entity.t) :
  target ∈ l -> e ∈ l -> e <> target -> e ∈ spliceOut target l.
Proof.
  induction l as [|a l IH]; intros Ht He Hne; [by apply elem_of_nil in Ht|].
  rewrite spliceOut_cons by done. case_bool_decide as Ha.
  - subst a. apply elem_of_cons in He as [->|He]; done.
  - apply elem_of_cons in Ht as [->|Ht]; [done|].
    apply elem_of_cons in He as [->|He]; [left | right; by apply IH].
Qed.

(** With ids that are unique, the id of the target is gone with it. *)
Lemma spliceOut_id_gone (target : Entity.t) (l : list Entity.t) :
  NoDup (map Entity.id l) -> target ∈ l ->
  forall other, other ∈ spliceOut target l -> Entity.id other <> Entity.id target.
Proof.
  induction l as [|a l IH]; intros Hnodup Ht other Hother; [by apply elem_of_nil in Ht|].
  simpl in Hnodup. apply NoDup_cons in Hnodup as [Hnotin Hnodup].
  rewrite spliceOut_cons in Hother by done. case_bool_decide as Ha.
  - subst a. intros Hid. apply Hnotin. rewrite <- Hid.
    apply list_elem_of_fmap. by exists other.
  - apply elem_of_cons in Ht as [->|Ht]; [done|].
    apply elem_of_cons in Hother as [->|Hother]; [|by apply IH].
    intros Hid. apply Hnotin. rewrite Hid. apply list_elem_of_fmap. by exists target.
Qed.

Lemma noEntry_purge (entityId : nat) (c : Components) : noEntry entityId (purge entityId c).
Proof. unfold noEntry, purge. simpl. by rewrite !lookup_delete_eq. Qed.

Lemma noEntry_purge_other (entityId other : nat) (c : Components) :
  noEntry entityId c -> noEntry entityId (purge other c).
Proof.
  unfold noEntry, purge. simpl. intros (?&?&?&?&?&?&?).
  destruct (decide (other = entityId)) as [->|Hne].
  - by rewrite !lookup_delete_eq.
  - by rewrite !lookup_delete_ne.
Qed.


Lemma NoDup_map_id_inj (l : list Entity.t) (a b : Entity.t) :
  NoDup (map Entity.id l) -> a ∈ l -> b ∈ l -> Entity.id a = Entity.id b -> a = b.
Proof.
  induction l as [|e l IH]; intros Hnodup Ha Hb Hid; [by apply elem_of_nil in Ha|].
  simpl in Hnodup. apply NoDup_cons in Hnodup as [Hnotin Hnodup].
  apply elem_of_cons in Ha as [->|Ha]; apply elem_of_cons in Hb as [->|Hb]; try done.
  - exfalso. apply Hnotin. rewrite Hid. apply list_elem_of_fmap. by exists b.
  - exfalso. apply Hnotin. rewrite <- Hid. apply list_elem_of_fmap. by exists a.
  - by apply IH.
Qed.

Lemma noEntry_afterHit target h dmg w entityId :
  Entity.id target <> entityId ->
  noEntry entityId (components w) ->
  noEntry entityId (components (afterHit target h dmg w)).
Proof.
  intros Hne. unfold noEntry, afterHit. destruct w as [? [] ? ? ? ? ?]; simpl.
  by rewrite lookup_insert_ne.
Qed.

Lemma damageInvariant_step `{MathHost} w0 weaponId w w' :
  damageInvariant w0 w -> resolveLink weaponId w = Some w' -> damageInvariant w0 w'.
Proof.
  intros (Halive & Hnodup & Hsub & Hkeep & Hgone) Hrun.
  apply resolveLink_cases in Hrun
    as [[->| ->]|(target & h & dmg & Hin & Hpos & Hh & Hcase)]; [done | by destruct w |].
  assert (Hfresh : forall entity, entity ∈ entities w0 -> entity ∉ entities w ->
                     Entity.id target <> Entity.id entity).
  { intros entity H0 Hout Hid. destruct (Hgone entity H0 Hout) as [Hnone _].
    rewrite <- Hid in Hnone. rewrite Hnone in Hpos. by destruct Hpos. }
  destruct Hcase as [[Hpositive ->]|[Hdead ->]].
  - (* the target survives the hit *)
    assert (Hents : entities (afterHit target h dmg w) = entities w) by by destruct w.
    assert (Hhealth : health (components (afterHit target h dmg w))
              = <[Entity.id target :=
                    HealthComponent.new (HealthComponent.entityId h)
                      (HealthComponent.value h - dmg)%Z]> (health (components w)))
      by by destruct w as [? [] ? ? ? ? ?].
    unfold damageInvariant. rewrite Hents.
    split; [|split; [done|split; [done|split]]].
    + intros k hk. rewrite Hhealth.
      destruct (decide (Entity.id target = k)) as [->|Hne].
      * rewrite lookup_insert_eq. by intros [= <-].
      * rewrite lookup_insert_ne by done. apply Halive.
    + intros entity He H0. rewrite Hhealth.
      destruct (decide (Entity.id target = Entity.id entity)) as [->|Hne].
      * rewrite lookup_insert_eq. by eexists.
      * rewrite lookup_insert_ne by done. by apply Hkeep.
    + intros entity H0 Hout. apply noEntry_afterHit; [by apply Hfresh | by apply Hgone].
  - (* the target dies and is removed *)
    assert (Hents : entities (killEntity target (afterHit target h dmg w))
              = spliceOut target (entities w)) by by destruct w.
    assert (Hcomps : components (killEntity target (afterHit target h dmg w))
              = purge (Entity.id target) (components (afterHit target h dmg w)))
      by by destruct w.
    assert (Hhealth : forall k, k <> Entity.id target ->
              health (purge (Entity.id target) (components (afterHit target h dmg w))) !! k
              = health (components w) !! k).
    { intros k Hne. destruct w as [? [] ? ? ? ? ?]; simpl.
      rewrite lookup_delete_ne by done. by rewrite lookup_insert_ne. }
    unfold damageInvariant. rewrite Hents, Hcomps.
    split; [|split; [|split; [|split]]].
    + intros k hk. destruct (decide (k = Entity.id target)) as [->|Hne].
      * destruct w as [? [] ? ? ? ? ?]; simpl. by rewrite lookup_delete_eq.
      * rewrite Hhealth by done. apply Halive.
    + eapply sublist_NoDup; [exact Hnodup|].
      apply (fmap_sublist Entity.id). by apply spliceOut_sublist.
    + etrans; [by apply spliceOut_sublist | done].
    + intros entity He H0.
      rewrite Hhealth by (by eapply spliceOut_id_gone).
      apply Hkeep; [|done]. by eapply spliceOut_subseteq.
    + intros entity H0 Hout.
      destruct (decide (Entity.id entity = Entity.id target)) as [->|Hne];
        [apply noEntry_purge|].
      apply noEntry_purge_other, noEntry_afterHit; [done|].
      apply Hgone; [done|]. intros He. apply Hout.
      apply spliceOut_other; [done | done |]. by intros ->.
Qed.

Lemma damageInvariant_start (w : World) :
  allAlive (components w) -> NoDup (map Entity.id (entities w)) -> damageInvariant w w.
Proof.
  intros Halive Hnodup. split; [done|]. split; [done|]. split; [done|].
  split; [done|]. intros entity Hin Hout. done.
Qed.

Lemma damageInvariant_deadRemoved (w0 w : World) :
  NoDup (map Entity.id (entities w0)) -> damageInvariant w0 w -> deadRemoved w0 w.
Proof.
  intros Hnodup0 (Halive & Hnodup & Hsub & Hkeep & Hgone).
  apply sublist_subseteq in Hsub as Hsubset.
  split; [done|]. split.
  - intros entity He. split; [by apply Hsubset|].
    intros H0. destruct (Hkeep entity He H0) as [h Hh].
    exists h. split; [done|]. by eapply Halive.
  - intros entity H0 Hout. split; [|by apply Hgone].
    intros other Hother Hid. apply Hout.
    by rewrite <- (NoDup_map_id_inj _ other entity Hnodup0 (Hsubset _ Hother) H0 Hid).
Qed.


(** ** The invariant of the store *)

Lemma keysBelow_mono (n m : nat) (c : Components) :
  n <= m -> keysBelow n c -> keysBelow m c.
Proof. intros Hle Hkeys k Hk. apply Hkeys. lia. Qed.

Ltac open_world w :=
  destruct w as [?ents [?pos ?hp ?sl ?wp ?et ?tp ?tg] ?n ?fe ?fa ?rc ?con]; simpl in *.

Ltac keys_insert Hkeys :=
  let k := fresh "k" in
  let Hk := fresh "Hk" in
  intros k Hk; specialize (Hkeys k Hk); unfold noEntry in *; simpl in *;
  rewrite ?lookup_insert_ne by lia; tauto.

Lemma storeInvariant_initial : storeInvariant initialWorld.
Proof.
  split; simpl.
  - intros entity Hin. by apply elem_of_nil in Hin.
  - intros entity Hin. by apply elem_of_nil in Hin.
  - intros k _. unfold noEntry. simpl. by rewrite !lookup_empty.
  - constructor.
  - intros k h. simpl. by rewrite lookup_empty.
  - intros k slots. by rewrite lookup_empty.
Qed.

Lemma storeInvariant_addEntity (type : string) (w : World) :
  type = EntityType.AGENT \/ type = EntityType.ENEMY ->
  storeInvariant w ->
  storeInvariant (addEntity type w).2.
Proof.
  intros Hty [Htypes Hids Hkeys Hnodup Halive Hslots]. open_world w. split; simpl.
  - intros entity [Hin| ->%list_elem_of_singleton]%elem_of_app; [by apply Htypes | done].
  - intros entity [Hin| ->%list_elem_of_singleton]%elem_of_app; simpl; [|lia].
    apply Hids in Hin. lia.
  - eapply keysBelow_mono; [|done]. lia.
  - rewrite map_app. simpl. apply NoDup_app. split; [done|]. split; [|apply NoDup_singleton].
    intros k Hk ->%list_elem_of_singleton.
    apply list_elem_of_fmap in Hk as [entity [-> Hin]]. apply Hids in Hin. lia.
  - done.
  - intros k slots Hk. destruct (Hslots k slots Hk) as (entity & Hin & Hid & Hlen).
    exists entity. split; [|done]. apply elem_of_app. by left.
Qed.

Lemma storeInvariant_set_randomCalls (m : nat) (w : World) :
  storeInvariant w -> storeInvariant (set_randomCalls m w).
Proof. intros []. by split. Qed.

Lemma storeInvariant_set_nodeId (w : World) :
  storeInvariant w -> storeInvariant (set_nodeId (S (nodeId w)) w).
Proof.
  intros [Htypes Hids Hkeys Hnodup Halive Hslots]. split; simpl; try done.
  - intros entity Hin. apply Hids in Hin. lia.
  - eapply keysBelow_mono; [|done]. lia.
Qed.

Lemma storeInvariant_console_write (level : ConsoleLevel) (text : string) (w : World) :
  storeInvariant w -> storeInvariant (console_write level text w).
Proof. intros []. by split. Qed.

Lemma storeInvariant_toggleEnemyTargeting (w : World) :
  storeInvariant w -> storeInvariant (api_toggleEnemyTargeting w).
Proof. intros []. by split. Qed.

Lemma storeInvariant_toggleAgentTargeting (w : World) :
  storeInvariant w -> storeInvariant (api_toggleAgentTargeting w).
Proof. intros []. by split. Qed.

Lemma storeInvariant_add_position (data : PositionComponent.t) (w : World) :
  PositionComponent.entityId data < nodeId w ->
  storeInvariant w -> storeInvariant (addComponent (position_data data) w).
Proof.
  intros Hlt [Htypes Hids Hkeys Hnodup Halive Hslots]. open_world w.
  split; simpl; try done. keys_insert Hkeys.
Qed.

Lemma storeInvariant_add_health (data : HealthComponent.t) (w : World) :
  HealthComponent.entityId data < nodeId w ->
  (0 < HealthComponent.value data)%Z ->
  storeInvariant w -> storeInvariant (addComponent (health_data data) w).
Proof.
  intros Hlt Hpos [Htypes Hids Hkeys Hnodup Halive Hslots]. open_world w.
  split; simpl; try done.
  - keys_insert Hkeys.
  - unfold allAlive in *. simpl in *. intros k h.
    destruct (decide (HealthComponent.entityId data = k)) as [->|Hne].
    + rewrite lookup_insert_eq. by intros [= <-].
    + rewrite lookup_insert_ne by done. apply Halive.
Qed.

Lemma storeInvariant_add_weapon (data : WeaponComponent.t) (w : World) :
  WeaponComponent.entityId data < nodeId w ->
  storeInvariant w -> storeInvariant (addComponent (weapon_data data) w).
Proof.
  intros Hlt [Htypes Hids Hkeys Hnodup Halive Hslots]. open_world w.
  split; simpl; try done. keys_insert Hkeys.
Qed.

Lemma storeInvariant_add_enemyType (data : EnemyTypeComponent.t) (w : World) :
  EnemyTypeComponent.entityId data < nodeId w ->
  storeInvariant w -> storeInvariant (addComponent (enemyType_data data) w).
Proof.
  intros Hlt [Htypes Hids Hkeys Hnodup Halive Hslots]. open_world w.
  split; simpl; try done. keys_insert Hkeys.
Qed.

Lemma storeInvariant_add_targetPartType (data : TargetPartTypeComponent.t) (w : World) :
  TargetPartTypeComponent.entityId data < nodeId w ->
  storeInvariant w -> storeInvariant (addComponent (targetPartType_data data) w).
Proof.
  intros Hlt [Htypes Hids Hkeys Hnodup Halive Hslots]. open_world w.
  split; simpl; try done. keys_insert Hkeys.
Qed.

(** Storing a slots component under the id of an entity of the
    registry, with as many cells as the type of the entity has slots. *)
Lemma storeInvariant_set_slots (entityId : nat) (slots : WeaponSlotsComponent.t)
    (entity : Entity.t) (w : World) :
  entity ∈ entities w -> Entity.id entity = entityId ->
  length (WeaponSlotsComponent.weaponIds slots) = slotCapacity (Entity.type entity) ->
  storeInvariant w ->
  storeInvariant (set_components (set_weaponSlots (insert entityId slots)) w).
Proof.
  intros Hin Hid Hlen [Htypes Hids Hkeys Hnodup Halive Hslots].
  assert (entityId < nodeId w) by (rewrite <- Hid; by apply Hids).
  open_world w. split; simpl; try done.
  - keys_insert Hkeys.
  - intros k s. destruct (decide (entityId = k)) as [->|Hne].
    + rewrite lookup_insert_eq. intros [= <-]. by exists entity.
    + rewrite lookup_insert_ne by done. apply Hslots.
Qed.

Lemma storeInvariant_add_weaponSlots (data : WeaponSlotsComponent.t) (entity : Entity.t)
    (w : World) :
  entity ∈ entities w -> Entity.id entity = WeaponSlotsComponent.entityId data ->
  length (WeaponSlotsComponent.weaponIds data) = slotCapacity (Entity.type entity) ->
  storeInvariant w -> storeInvariant (addComponent (weaponSlots_data data) w).
Proof. apply storeInvariant_set_slots. Qed.


(** ** The spawn helpers *)

Lemma fillFirstNull_length (weaponId : nat) (ids ids' : list (option nat)) :
  WeaponSlotsComponent.fillFirstNull weaponId ids = Some ids' -> length ids' = length ids.
Proof.
  revert ids'. induction ids as [|[other|] rest IH]; intros ids'; simpl; [done| |].
  - destruct (WeaponSlotsComponent.fillFirstNull weaponId rest) as [r|]; simpl; [|done].
    intros [= <-]. simpl. f_equal. by apply IH.
  - by intros [= <-].
Qed.

(** The loop finds no cell exactly when no cell is [null]. *)
Lemma fillFirstNull_None (weaponId : nat) (ids : list (option nat)) :
  WeaponSlotsComponent.fillFirstNull weaponId ids = None <-> None ∉ ids.
Proof.
  induction ids as [|[other|] rest IH]; simpl.
  - split; [intros _; apply not_elem_of_nil | done].
  - rewrite not_elem_of_cons. rewrite <- IH.
    destruct (WeaponSlotsComponent.fillFirstNull weaponId rest); simpl.
    + split; [done|]. by intros [_ Hrest].
    + split; [|done]. by intros _.
  - split; [done|]. intros Hnot. exfalso. apply Hnot. left.
Qed.

Lemma addWeapon_length (weaponId : nat) (slots : WeaponSlotsComponent.t) :
  length (WeaponSlotsComponent.weaponIds (WeaponSlotsComponent.addWeapon weaponId slots).1)
  = length (WeaponSlotsComponent.weaponIds slots).
Proof.
  unfold WeaponSlotsComponent.addWeapon.
  destruct (WeaponSlotsComponent.fillFirstNull _ _) as [ids|] eqn:Hfill; simpl; [|done].
  by eapply fillFirstNull_length.
Qed.

(** What a call of [addWeaponToEntity] that does not throw does. *)
Lemma addWeaponToEntity_Some (entityId : nat) (weaponType : string) (w w' : World) :
  addWeaponToEntity entityId weaponType w = Some w' ->
  exists ownerPosition slots,
    position (components w) !! entityId = Some ownerPosition
    /\ weaponSlots (components w) !! entityId = Some slots
    /\ w' = let w1 :=
              set_components
                (set_weaponSlots
                   (insert entityId (WeaponSlotsComponent.addWeapon (nodeId w) slots).1))
                (addComponent
                   (position_data (PositionComponent.new (nodeId w)
                                     (PositionComponent.x ownerPosition + 10)
                                     (PositionComponent.y ownerPosition + 10)))
                   (addComponent (weapon_data (WeaponComponent.new (nodeId w) weaponType))
                      (set_nodeId (S (nodeId w)) w))) in
            match (WeaponSlotsComponent.addWeapon (nodeId w) slots).2 with
            | Some text => console_write Warn text w1
            | None => w1
            end.
Proof.
  unfold addWeaponToEntity. open_world w. intros Hrun.
  destruct (pos !! entityId) as [ownerPosition|]; simpl in Hrun; [|done].
  destruct (sl !! entityId) as [slots|]; simpl in Hrun; [|done].
  exists ownerPosition, slots. split; [done|]. split; [done|].
  destruct (WeaponSlotsComponent.addWeapon n slots) as [slots' [text|]]; by simplify_eq.
Qed.

Lemma storeInvariant_addWeaponToEntity (entityId : nat) (weaponType : string) (w w' : World) :
  storeInvariant w ->
  addWeaponToEntity entityId weaponType w = Some w' ->
  storeInvariant w'.
Proof.
  intros Hinv Hrun.
  apply addWeaponToEntity_Some in Hrun as (ownerPosition & slots & Hpos & Hslots & ->).
  destruct (inv_slots w Hinv entityId slots Hslots) as (entity & Hin & Hid & Hlen).
  cbv zeta.
  assert (Hw1 : storeInvariant
            (set_components
               (set_weaponSlots
                  (insert entityId (WeaponSlotsComponent.addWeapon (nodeId w) slots).1))
               (addComponent
                  (position_data (PositionComponent.new (nodeId w)
                                    (PositionComponent.x ownerPosition + 10)
                                    (PositionComponent.y ownerPosition + 10)))
                  (addComponent (weapon_data (WeaponComponent.new (nodeId w) weaponType))
                     (set_nodeId (S (nodeId w)) w))))).
  { apply (storeInvariant_set_slots entityId _ entity); [by destruct w | done | |].
    { by rewrite addWeapon_length. }
    apply storeInvariant_add_position; [destruct w; simpl; lia|].
    apply storeInvariant_add_weapon; [destruct w; simpl; lia|].
    by apply storeInvariant_set_nodeId. }
  destruct (WeaponSlotsComponent.addWeapon (nodeId w) slots).2; [|done].
  by apply storeInvariant_console_write.
Qed.

(** A call of [addTargetPartToEntity] never throws; this is the world it
    leaves. *)
Lemma addTargetPartToEntity_Some `{MathHost} (enemyId : nat) (partType : string) (w : World) :
  addTargetPartToEntity enemyId partType w
  = Some (addComponent
            (targetPartType_data (TargetPartTypeComponent.new (nodeId w) partType (IsId enemyId)))
            (addComponent (health_data (HealthComponent.new (nodeId w) 10))
               (addComponent
                  (position_data (PositionComponent.new (nodeId w)
                                    (Math_random (randomCalls w) * 800)
                                    (Math_random (S (randomCalls w)) * 600)))
                  (set_randomCalls (S (S (randomCalls w))) (set_nodeId (S (nodeId w)) w))))).
Proof. by destruct w. Qed.

Lemma storeInvariant_addTargetPartToEntity `{MathHost} (enemyId : nat) (partType : string)
    (w w' : World) :
  storeInvariant w ->
  addTargetPartToEntity enemyId partType w = Some w' ->
  storeInvariant w'.
Proof.
  intros Hinv. rewrite addTargetPartToEntity_Some. intros [= <-].
  apply storeInvariant_add_targetPartType; [destruct w; simpl; lia|].
  apply storeInvariant_add_health; [destruct w; simpl; lia | done |].
  apply storeInvariant_add_position; [destruct w; simpl; lia|].
  by apply storeInvariant_set_randomCalls, storeInvariant_set_nodeId.
Qed.

Lemma storeInvariant_addWeaponIfFree (entityId : nat) (extra : bool) (weaponType : string)
    (w w' : World) :
  storeInvariant w ->
  addWeaponIfFree entityId extra weaponType w = Some w' ->
  storeInvariant w'.
Proof.
  intros Hinv. unfold addWeaponIfFree.
  destruct (hasNullSlot entityId w) as [free|]; simpl; [|done].
  destruct (free && extra); [by apply storeInvariant_addWeaponToEntity|].
  by intros [= <-].
Qed.

Lemma storeInvariant_addAgent `{MathHost} (w w' : World) :
  storeInvariant w -> api_addAgent w = Some w' -> storeInvariant w'.
Proof.
  intros Hinv. unfold api_addAgent, randomChoice.
  change (obj_get "agent" EntityStats) with (Some 100%Z).
  set (created := addEntity EntityType.AGENT w).
  assert (Hcreated : storeInvariant created.2)
    by (apply storeInvariant_addEntity; [by left | done]).
  assert (Hagent : Entity.mk (nodeId w) EntityType.AGENT None ∈ entities created.2).
  { destruct w; simpl. apply elem_of_app. right. left. }
  assert (Hid : created.1 = nodeId w /\ nodeId created.2 = S (nodeId w)) by by destruct w.
  destruct created as [agentId w0]. simpl in Hcreated, Hagent, Hid.
  destruct Hid as [-> Hnode]. unfold random. cbv beta iota zeta.
  cbn [mbind option_bind].
  set (w1 := addComponent _ (addComponent _ (addComponent _ _))).
  assert (Hw1 : storeInvariant w1).
  { apply (storeInvariant_add_weaponSlots _ (Entity.mk (nodeId w) EntityType.AGENT None));
      [by destruct w0 | done | done |].
    apply storeInvariant_add_health; [destruct w0; simpl in *; lia | done |].
    apply storeInvariant_add_position; [destruct w0; simpl in *; lia|].
    by do 2 apply storeInvariant_set_randomCalls. }
  clearbody w1.
  destruct (addWeaponToEntity (nodeId w) "rifle" w1) as [w2|] eqn:Hrifle; simpl; [|done].
  apply storeInvariant_addWeaponToEntity in Hrifle; [|done].
  destruct (arr_get WeaponTypes _) as [randomWeaponType|]; simpl; [|done].
  intros Hrandom. eapply storeInvariant_addWeaponToEntity; [|exact Hrandom].
  by apply storeInvariant_set_randomCalls.
Qed.

Lemma EntityStats_positive (key : string) (base : Z) :
  obj_get key EntityStats = Some base -> (0 < base)%Z.
Proof.
  unfold obj_get, EntityStats. repeat case_bool_decide; intros; simplify_eq; lia.
Qed.

Lemma storeInvariant_addEnemy `{MathHost} (w w' : World) :
  storeInvariant w -> api_addEnemy w = Some w' -> storeInvariant w'.
Proof.
  intros Hinv. unfold api_addEnemy, randomChoice, random. cbv beta iota zeta.
  destruct (arr_get EnemyTypes _) as [enemyTypeChoice|]; [|done].
  cbn [mbind option_bind].
  set (wr := set_randomCalls (S (randomCalls w)) w).
  assert (Hwr : storeInvariant wr) by by apply storeInvariant_set_randomCalls.
  set (created := addEntity EntityType.ENEMY wr).
  assert (Hcreated : storeInvariant created.2)
    by (apply storeInvariant_addEntity; [by right | done]).
  assert (Henemy : Entity.mk (nodeId w) EntityType.ENEMY None ∈ entities created.2).
  { destruct w; simpl. apply elem_of_app. right. left. }
  assert (Hid : created.1 = nodeId w /\ nodeId created.2 = S (nodeId w)) by by destruct w.
  clearbody created. destruct created as [enemyId w0]. simpl in Hcreated, Henemy, Hid.
  destruct Hid as [-> Hnode]. cbv beta iota zeta.
  destruct (obj_get enemyTypeChoice EntityStats) as [enemyHealth|] eqn:Hstats; [|done].
  apply EntityStats_positive in Hstats.
  cbn [mbind option_bind].
  set (w1 := addComponent (weaponSlots_data _) _).
  assert (Hw1 : storeInvariant w1).
  { apply (storeInvariant_add_weaponSlots _ (Entity.mk (nodeId w) EntityType.ENEMY None));
      [by destruct w0 | done | done |].
    apply storeInvariant_add_enemyType; [destruct w0; simpl in *; lia|].
    apply storeInvariant_add_health; [destruct w0; simpl in *; lia | done |].
    apply storeInvariant_add_position; [destruct w0; simpl in *; lia|].
    by do 2 apply storeInvariant_set_randomCalls. }
  clearbody w1.
  destruct (addWeaponIfFree (nodeId w) true "laser" w1) as [w2|] eqn:H2; [|done].
  apply storeInvariant_addWeaponIfFree in H2; [|done]. cbn [mbind option_bind].
  destruct (addWeaponIfFree (nodeId w) _ "rocket" w2) as [w3|] eqn:H3; [|done].
  apply storeInvariant_addWeaponIfFree in H3; [|done]. cbn [mbind option_bind].
  destruct (addWeaponIfFree (nodeId w) _ "cannon" w3) as [w4|] eqn:H4; [|done].
  apply storeInvariant_addWeaponIfFree in H4; [|done]. cbn [mbind option_bind].
  destruct (addWeaponIfFree (nodeId w) true "melee" w4) as [w5|] eqn:H5; [|done].
  apply storeInvariant_addWeaponIfFree in H5; [|done]. cbn [mbind option_bind].
  apply forEach_invariant; [|done].
  intros partType s s' _. apply storeInvariant_addTargetPartToEntity.
Qed.


(** ** The two systems keep the invariant *)

Lemma storeInvariant_recordedInPass (w0 w : World) :
  storeInvariant w0 -> recordedInPass w0 w -> storeInvariant w.
Proof.
  intros [Htypes Hids Hkeys Hnodup Halive Hslots] [-> Hlinks].
  set (t := targeting (components w)) in *. clearbody t.
  assert (Hweapons : forall k link, t !! k = Some link -> is_Some (weapon (components w0) !! k)).
  { intros k link Hk. specialize (Hlinks k link). destruct w0 as [? [] ? ? ? ? ?].
    simpl in *. by apply Hlinks. }
  clear Hlinks. open_world w0. split; simpl; try done.
  intros k Hk. specialize (Hkeys k Hk). unfold noEntry in *. simpl in *.
  destruct Hkeys as (?&?&?&Hweapon&?&?&?). repeat split; try done.
  destruct (t !! k) as [link|] eqn:Hlink; [|done].
  apply Hweapons in Hlink. rewrite Hweapon in Hlink. by destruct Hlink.
Qed.

Lemma storeInvariant_assignment `{MathHost} (w w' : World) :
  storeInvariant w -> WeaponAssignmentSystem_update w = Some w' -> storeInvariant w'.
Proof.
  intros Hinv Hrun. apply (storeInvariant_recordedInPass w); [done|].
  by apply duringPass_recordedInPass, WeaponAssignmentSystem_update_duringPass.
Qed.

Lemma storeInvariant_resolveLink `{MathHost} (weaponId : nat) (w w' : World) :
  storeInvariant w -> resolveLink weaponId w = Some w' -> storeInvariant w'.
Proof.
  intros Hinv Hrun.
  assert (Hdamage : damageInvariant w w')
    by (eapply damageInvariant_step; [|done];
        apply damageInvariant_start; [apply Hinv | apply Hinv]).
  destruct Hdamage as (Halive' & Hnodup' & Hsub & _ & _).
  apply sublist_subseteq in Hsub.
  destruct Hinv as [Htypes Hids Hkeys Hnodup Halive Hslots].
  apply resolveLink_cases in Hrun
    as [[->| ->]|(target & h & dmg & Hin & Hpos & Hh & Hcase)];
    [by split | by split |].
  assert (Hlt : Entity.id target < nodeId w) by by apply Hids.
  destruct Hcase as [[Hpositive ->]|[Hdead ->]].
  - open_world w. split; simpl; try done. keys_insert Hkeys.
  - split.
    + intros entity He. apply Htypes. apply Hsub, He.
    + intros entity He. apply Hsub, Hids in He. by destruct w.
    + intros k Hk.
      assert (Hk' : nodeId w <= k) by by destruct w.
      assert (Hcomps : components (killEntity target (afterHit target h dmg w))
                = purge (Entity.id target) (components (afterHit target h dmg w)))
        by by destruct w.
      rewrite Hcomps. apply noEntry_purge_other, noEntry_afterHit; [lia|].
      by apply Hkeys.
    + done.
    + done.
    + intros k slots Hk.
      assert (Hold : weaponSlots (components w) !! k = Some slots /\ k <> Entity.id target).
      { destruct w as [? [] ? ? ? ? ?]; simpl in *.
        apply lookup_delete_Some in Hk as [? ?]. done. }
      destruct Hold as [Hold Hne].
      destruct (Hslots k slots Hold) as (entity & He & Hid & Hlen).
      exists entity. split; [|done].
      assert (Hents : entities (killEntity target (afterHit target h dmg w))
                = spliceOut target (entities w)) by by destruct w.
      rewrite Hents. apply spliceOut_other; [done | done |]. intros ->. by apply Hne.
Qed.

Lemma storeInvariant_damage `{MathHost} (w w' : World) :
  storeInvariant w -> DamageSystem_update w = Some w' -> storeInvariant w'.
Proof.
  unfold DamageSystem_update. intros Hinv. apply forEach_invariant; [|done].
  intros weaponId s s' _. apply storeInvariant_resolveLink.
Qed.

(** Every world the script can reach satisfies the invariant. *)
Lemma reachable_storeInvariant `{MathHost} (w : World) :
  reachable w -> storeInvariant w.
Proof.
  induction 1 as [|w w' _ IH Hadd|w w' _ IH Hadd|w _ IH|w _ IH|w w' _ IH Hstep].
  - apply storeInvariant_initial.
  - by eapply storeInvariant_addAgent.
  - by eapply storeInvariant_addEnemy.
  - by apply storeInvariant_toggleEnemyTargeting.
  - by apply storeInvariant_toggleAgentTargeting.
  - unfold EntityComponentSystem_update in Hstep.
    destruct (WeaponAssignmentSystem_update w) as [w1|] eqn:Hassign; simpl in Hstep; [|done].
    eapply storeInvariant_damage; [|done]. by eapply storeInvariant_assignment.
Qed.

(** So does every world a step goes through. *)
Lemma inStep_storeInvariant `{MathHost} (w0 w : World) :
  reachable w0 -> inStep w0 w -> storeInvariant w.
Proof.
  intros Hinv%reachable_storeInvariant Hstep.
  destruct Hstep as [|w Hpass|w1 keys w Hassign Hrounds].
  - done.
  - by apply (storeInvariant_recordedInPass w0), duringPass_recordedInPass.
  - apply storeInvariant_assignment in Hassign; [|done].
    revert Hrounds. apply forEach_invariant; [|done].
    intros weaponId s s' _. apply storeInvariant_resolveLink.
Qed.


(** ** No read of a missing entry in a reachable world *)

Lemma equipped_initial : equipped initialWorld.
Proof.
  split; simpl.
  - intros entity Hin. by apply elem_of_nil in Hin.
  - intros k slots weaponId. by rewrite lookup_empty.
  - intros k wp. by rewrite lookup_empty.
Qed.

Lemma is_Some_insert {A : Type} (m : gmap nat A) (i j : nat) (x : A) :
  is_Some (m !! j) -> is_Some (<[i := x]> m !! j).
Proof.
  intros Hj. destruct (decide (i = j)) as [->|Hne].
  - rewrite lookup_insert_eq. by eexists.
  - by rewrite lookup_insert_ne.
Qed.

Lemma storeInvariant_withNewEntity (type : string) (x y : Q) (base : Z) (w : World) :
  type = EntityType.AGENT \/ type = EntityType.ENEMY ->
  (0 < base)%Z ->
  storeInvariant w ->
  storeInvariant (withNewEntity type x y base (slotCapacity type) w).
Proof.
  intros Hty Hbase Hinv. unfold withNewEntity.
  apply (storeInvariant_add_weaponSlots _ (Entity.mk (nodeId w) type None)).
  - destruct w; simpl. apply elem_of_app. right. left.
  - done.
  - simpl. by rewrite length_replicate.
  - apply storeInvariant_add_health; [destruct w; simpl; lia | done |].
    apply storeInvariant_add_position; [destruct w; simpl; lia|].
    by apply storeInvariant_addEntity.
Qed.

Lemma equipped_withNewEntity (type : string) (x y : Q) (base : Z) (numberOfSlots : nat)
    (w : World) :
  storeInvariant w -> equipped w ->
  equipped (withNewEntity type x y base numberOfSlots w).
Proof.
  intros [_ Hids Hkeys _ _ _] [Hentity Hslot Hweapon]. unfold withNewEntity.
  pose proof (Hkeys (nodeId w) (le_n _)) as (_ & _ & _ & Hfresh & _).
  open_world w. split; simpl.
  - intros entity [Hin| ->%list_elem_of_singleton]%elem_of_app.
    + destruct (Hentity entity Hin) as (?&?&?&?).
      repeat split; try done; by apply is_Some_insert.
    + simpl. rewrite !lookup_insert_eq. eauto.
  - intros k slots weaponId Hk Hcell.
    destruct (decide (n = k)) as [->|Hne].
    + rewrite lookup_insert_eq in Hk. simplify_eq. simpl in Hcell.
      by apply elem_of_replicate in Hcell as [? _].
    + rewrite lookup_insert_ne in Hk by done. by eapply Hslot.
  - intros k weaponEntry Hk. destruct (Hweapon k weaponEntry Hk) as [? ?].
    split; [by apply is_Some_insert | done].
Qed.

Lemma equipped_set_randomCalls (m : nat) (w : World) :
  equipped w -> equipped (set_randomCalls m w).
Proof. intros []. by split. Qed.

Lemma equipped_console_write (level : ConsoleLevel) (text : string) (w : World) :
  equipped w -> equipped (console_write level text w).
Proof. intros []. by split. Qed.

Lemma equipped_add_enemyType (data : EnemyTypeComponent.t) (w : World) :
  equipped w -> equipped (addComponent (enemyType_data data) w).
Proof. intros []. open_world w. by split. Qed.

Lemma fillFirstNull_cells (weaponId other : nat) (ids ids' : list (option nat)) :
  WeaponSlotsComponent.fillFirstNull weaponId ids = Some ids' ->
  Some other ∈ ids' -> other = weaponId \/ Some other ∈ ids.
Proof.
  revert ids'. induction ids as [|[cell|] rest IH]; intros ids'; simpl; [done| |].
  - destruct (WeaponSlotsComponent.fillFirstNull weaponId rest) as [r|]; simpl; [|done].
    intros [= <-] [Heq|Hin]%elem_of_cons.
    + right. rewrite Heq. left.
    + destruct (IH r eq_refl Hin) as [?|?]; [by left|]. right. by right.
  - intros [= <-] [Heq|Hin]%elem_of_cons; [left; congruence|]. right. by right.
Qed.

Lemma addWeapon_cells (weaponId other : nat) (slots : WeaponSlotsComponent.t) :
  Some other ∈ WeaponSlotsComponent.weaponIds (WeaponSlotsComponent.addWeapon weaponId slots).1 ->
  other = weaponId \/ Some other ∈ WeaponSlotsComponent.weaponIds slots.
Proof.
  unfold WeaponSlotsComponent.addWeapon.
  destruct (WeaponSlotsComponent.fillFirstNull _ _) as [ids|] eqn:Hfill; simpl; [|by right].
  by apply fillFirstNull_cells.
Qed.

Lemma equipped_addWeaponToEntity (entityId : nat) (weaponType : string) (w w' : World) :
  storeInvariant w -> equipped w ->
  weaponType ∈ WeaponTypes ->
  addWeaponToEntity entityId weaponType w = Some w' ->
  equipped w'.
Proof.
  intros [_ Hids _ _ _ _] [Hentity Hslot Hweapon] Hty Hrun.
  apply addWeaponToEntity_Some in Hrun as (ownerPosition & slots & Hpos & Hslots & ->).
  cbv zeta.
  assert (Hw1 : equipped
            (set_components
               (set_weaponSlots
                  (insert entityId (WeaponSlotsComponent.addWeapon (nodeId w) slots).1))
               (addComponent
                  (position_data (PositionComponent.new (nodeId w)
                                    (PositionComponent.x ownerPosition + 10)
                                    (PositionComponent.y ownerPosition + 10)))
                  (addComponent (weapon_data (WeaponComponent.new (nodeId w) weaponType))
                     (set_nodeId (S (nodeId w)) w))))).
  { pose proof (fun other => addWeapon_cells (nodeId w) other slots) as Hcells.
    set (slots' := (WeaponSlotsComponent.addWeapon (nodeId w) slots).1) in *.
    clearbody slots'. open_world w. split; simpl.
    - intros entity Hin. destruct (Hentity entity Hin) as (?&?&?&?).
      apply Hids in Hin.
      repeat split; try done; try by apply is_Some_insert.
      rewrite lookup_insert_ne by lia. done.
    - intros k s weaponId Hk Hcell. destruct (decide (entityId = k)) as [->|Hne].
      + rewrite lookup_insert_eq in Hk. simplify_eq.
        destruct (Hcells weaponId Hcell) as [->|Hold].
        * rewrite lookup_insert_eq. by eexists.
        * apply is_Some_insert. by eapply Hslot.
      + rewrite lookup_insert_ne in Hk by done. apply is_Some_insert. by eapply Hslot.
    - intros k weaponEntry. destruct (decide (n = k)) as [->|Hne].
      + rewrite !lookup_insert_eq. intros [= <-]. split; [by eexists | done].
      + rewrite lookup_insert_ne by done. intros Hk.
        destruct (Hweapon k weaponEntry Hk) as [? ?].
        split; [by apply is_Some_insert | done]. }
  destruct (WeaponSlotsComponent.addWeapon (nodeId w) slots).2; [|done].
  by apply equipped_console_write.
Qed.

Lemma equipped_addTargetPartToEntity `{MathHost} (enemyId : nat) (partType : string)
    (w w' : World) :
  equipped w -> addTargetPartToEntity enemyId partType w = Some w' -> equipped w'.
Proof.
  intros [Hentity Hslot Hweapon]. rewrite addTargetPartToEntity_Some. intros [= <-].
  open_world w. split; simpl.
  - intros entity Hin. destruct (Hentity entity Hin) as (?&?&?&?).
    repeat split; try done; by apply is_Some_insert.
  - done.
  - intros k weaponEntry Hk. destruct (Hweapon k weaponEntry Hk) as [? ?].
    split; [by apply is_Some_insert | done].
Qed.

Lemma equipped_addWeaponIfFree (entityId : nat) (extra : bool) (weaponType : string)
    (w w' : World) :
  storeInvariant w -> equipped w ->
  weaponType ∈ WeaponTypes ->
  addWeaponIfFree entityId extra weaponType w = Some w' ->
  equipped w'.
Proof.
  intros Hinv Heq Hty. unfold addWeaponIfFree.
  destruct (hasNullSlot entityId w) as [free|]; simpl; [|done].
  destruct (free && extra); [by apply equipped_addWeaponToEntity|].
  by intros [= <-].
Qed.

Lemma arr_get_elem {A : Type} (arr : list A) (i : Z) (a : A) :
  arr_get arr i = Some a -> a ∈ arr.
Proof.
  unfold arr_get. case_bool_decide; [|done]. intros Hi.
  apply list_elem_of_lookup. by eexists.
Qed.

(** [addAgent], with its first lines folded into [withNewEntity]. *)
Lemma api_addAgent_shape `{MathHost} (w : World) :
  api_addAgent w
  = (w2 ← addWeaponToEntity (nodeId w) "rifle"
            (withNewEntity EntityType.AGENT
               (Math_random (randomCalls w) * 800) (Math_random (S (randomCalls w)) * 600)
               100 7 (set_randomCalls (S (S (randomCalls w))) w));
     randomWeaponType ← arr_get WeaponTypes
                          (Qfloor (Math_random (randomCalls w2)
                                   * inject_Z (Z.of_nat (length WeaponTypes))));
     addWeaponToEntity (nodeId w) randomWeaponType
       (set_randomCalls (S (randomCalls w2)) w2)).
Proof. by destruct w. Qed.

(** [addEnemy], likewise. *)
Lemma api_addEnemy_shape `{MathHost} (w : World) :
  api_addEnemy w
  = (enemyTypeChoice ← arr_get EnemyTypes
                         (Qfloor (Math_random (randomCalls w)
                                  * inject_Z (Z.of_nat (length EnemyTypes))));
     enemyHealth ← obj_get enemyTypeChoice EntityStats;
     let shell :=
       addComponent (enemyType_data (EnemyTypeComponent.new (nodeId w) enemyTypeChoice))
         (withNewEntity EntityType.ENEMY
            (Math_random (S (randomCalls w)) * 800)
            (Math_random (S (S (randomCalls w))) * 600)
            enemyHealth 2 (set_randomCalls (S (S (S (randomCalls w)))) w)) in
     w1 ← addWeaponIfFree (nodeId w) true "laser" shell;
     w2 ← addWeaponIfFree (nodeId w) (bool_decide (enemyTypeChoice = "devastator")) "rocket" w1;
     w3 ← addWeaponIfFree (nodeId w) (bool_decide (enemyTypeChoice = "tank")) "cannon" w2;
     w4 ← addWeaponIfFree (nodeId w) true "melee" w3;
     forEach (addTargetPartToEntity (nodeId w))
       (default [] (obj_get enemyTypeChoice EnemyPartsConfig)) w4).
Proof.
  unfold api_addEnemy, randomChoice, random. destruct w as [? c ? ? ? ? ?].
  cbv beta iota zeta. simpl randomCalls.
  destruct (arr_get EnemyTypes _) as [enemyTypeChoice|]; [|done].
  cbn [mbind option_bind].
  destruct (obj_get enemyTypeChoice EntityStats) as [enemyHealth|]; [|done].
  reflexivity.
Qed.

Lemma spawned_addAgent `{MathHost} (w w' : World) :
  storeInvariant w -> equipped w -> api_addAgent w = Some w' -> equipped w'.
Proof.
  intros Hinv Heq. rewrite api_addAgent_shape.
  set (shell := withNewEntity _ _ _ _ _ _).
  assert (Hshell : storeInvariant shell /\ equipped shell).
  { split.
    - apply (storeInvariant_withNewEntity EntityType.AGENT); [by left | done |].
      by apply storeInvariant_set_randomCalls.
    - apply equipped_withNewEntity;
        [by apply storeInvariant_set_randomCalls | by apply equipped_set_randomCalls]. }
  clearbody shell. destruct Hshell as [Hinv1 Heq1].
  destruct (addWeaponToEntity (nodeId w) "rifle" shell) as [w2|] eqn:Hrifle; [|done].
  cbn [mbind option_bind].
  destruct (arr_get WeaponTypes _) as [randomWeaponType|] eqn:Hchoice; [|done].
  cbn [mbind option_bind]. apply arr_get_elem in Hchoice.
  apply equipped_addWeaponToEntity; [| |done].
  - apply storeInvariant_set_randomCalls. by eapply storeInvariant_addWeaponToEntity.
  - apply equipped_set_randomCalls.
    eapply equipped_addWeaponToEntity; [exact Hinv1 | exact Heq1 | | exact Hrifle].
    by_computation.
Qed.

Lemma spawned_addEnemy `{MathHost} (w w' : World) :
  storeInvariant w -> equipped w -> api_addEnemy w = Some w' -> equipped w'.
Proof.
  intros Hinv Heq. rewrite api_addEnemy_shape.
  destruct (arr_get EnemyTypes _) as [enemyTypeChoice|]; [|done].
  cbn [mbind option_bind].
  destruct (obj_get enemyTypeChoice EntityStats) as [enemyHealth|] eqn:Hstats; [|done].
  apply EntityStats_positive in Hstats.
  cbn [mbind option_bind]. cbv zeta.
  set (shell := addComponent (enemyType_data _) _).
  assert (Hshell : storeInvariant shell /\ equipped shell).
  { split.
    - apply storeInvariant_add_enemyType; [destruct w; simpl; lia|].
      apply (storeInvariant_withNewEntity EntityType.ENEMY); [by right | done |].
      by apply storeInvariant_set_randomCalls.
    - apply equipped_add_enemyType, equipped_withNewEntity;
        [by apply storeInvariant_set_randomCalls | by apply equipped_set_randomCalls]. }
  clearbody shell. destruct Hshell as [Hinv1 Heq1].
  destruct (addWeaponIfFree (nodeId w) true "laser" shell) as [w1|] eqn:H1; [|done].
  apply equipped_addWeaponIfFree in H1 as Heq2; [|done|done|by_computation].
  apply storeInvariant_addWeaponIfFree in H1 as Hinv2; [|done].
  cbn [mbind option_bind].
  destruct (addWeaponIfFree (nodeId w) _ "rocket" w1) as [w2|] eqn:H2; [|done].
  apply equipped_addWeaponIfFree in H2 as Heq3; [|done|done|by_computation].
  apply storeInvariant_addWeaponIfFree in H2 as Hinv3; [|done].
  cbn [mbind option_bind].
  destruct (addWeaponIfFree (nodeId w) _ "cannon" w2) as [w3|] eqn:H3; [|done].
  apply equipped_addWeaponIfFree in H3 as Heq4; [|done|done|by_computation].
  apply storeInvariant_addWeaponIfFree in H3 as Hinv4; [|done].
  cbn [mbind option_bind].
  destruct (addWeaponIfFree (nodeId w) true "melee" w3) as [w4|] eqn:H4; [|done].
  apply equipped_addWeaponIfFree in H4 as Heq5; [|done|done|by_computation].
  cbn [mbind option_bind].
  apply forEach_invariant; [|done].
  intros partType s s' _. apply equipped_addTargetPartToEntity.
Qed.

Lemma equipped_recordedInPass (w0 w : World) :
  equipped w0 -> recordedInPass w0 w -> equipped w.
Proof. intros [] [-> _]. destruct w0 as [? [] ? ? ? ? ?]. by split. Qed.

Lemma equipped_resolveLink `{MathHost} (weaponId : nat) (w w' : World) :
  storeInvariant w -> equipped w -> resolveLink weaponId w = Some w' -> equipped w'.
Proof.
  intros Hinv [Hentity Hslot Hweapon] Hrun.
  apply resolveLink_cases in Hrun
    as [[->| ->]|(target & h & dmg & Hin & Hpos & Hh & Hcase)];
    [by split | by split |].
  destruct Hcase as [[Hpositive ->]|[Hdead ->]].
  - open_world w. split; simpl; [|done|done].
    intros entity He. destruct (Hentity entity He) as (?&?&?&?).
    repeat split; try done. by apply is_Some_insert.
  - destruct (Hentity target Hin) as (_ & _ & _ & Hnoweapon).
    pose proof (spliceOut_id_gone target (entities w) (inv_nodup w Hinv) Hin) as Hother.
    pose proof (spliceOut_subseteq target (entities w)) as Hsub.
    open_world w. split; simpl.
    + intros entity He. specialize (Hother entity He).
      destruct (Hentity entity (Hsub _ He)) as (?&?&?&?).
      rewrite !lookup_delete_ne by done. rewrite lookup_insert_ne by done. done.
    + intros k slots j Hk Hcell. apply lookup_delete_Some in Hk as [Hne Hk].
      pose proof (Hslot k slots j Hk Hcell) as Hj.
      rewrite lookup_delete_ne; [done|]. intros <-. rewrite Hnoweapon in Hj. by destruct Hj.
    + intros k weaponEntry Hk. apply lookup_delete_Some in Hk as [Hne Hk].
      destruct (Hweapon k weaponEntry Hk) as [? ?]. by rewrite lookup_delete_ne.
Qed.

(** Every world the script can reach is equipped. *)
Lemma reachable_equipped `{MathHost} (w : World) : reachable w -> equipped w.
Proof.
  induction 1 as [|w w' Hw IH Hadd|w w' Hw IH Hadd|w _ IH|w _ IH|w w' Hw IH Hstep].
  - apply equipped_initial.
  - eapply spawned_addAgent; [by apply reachable_storeInvariant | done | done].
  - eapply spawned_addEnemy; [by apply reachable_storeInvariant | done | done].
  - destruct IH. by split.
  - destruct IH. by split.
  - apply reachable_storeInvariant in Hw.
    unfold EntityComponentSystem_update in Hstep.
    destruct (WeaponAssignmentSystem_update w) as [w1|] eqn:Hassign; simpl in Hstep; [|done].
    assert (Hw1 : storeInvariant w1 /\ equipped w1).
    { split; [by eapply storeInvariant_assignment|].
      apply (equipped_recordedInPass w); [done|].
      by apply duringPass_recordedInPass, WeaponAssignmentSystem_update_duringPass. }
    revert Hstep. unfold DamageSystem_update.
    generalize (Object_keys (targeting (components w1))). intros keys Hrun.
    assert (Hend : storeInvariant w' /\ equipped w'); [|by destruct Hend].
    revert Hrun.
    apply (forEach_invariant _ (fun s => storeInvariant s /\ equipped s)); [|done].
    intros weaponId s s' _ [Hs1 Hs2] Hround.
    split; [by eapply storeInvariant_resolveLink | by eapply equipped_resolveLink].
Qed.


(** ** The step of a reachable world does not throw *)

Lemma forEach_total {A S : Type} (f : A -> S -> option S) (P : S -> Prop) (l : list A) :
  (forall a s, a ∈ l -> P s -> exists s', f a s = Some s' /\ P s') ->
  forall s, P s -> exists s', forEach f l s = Some s' /\ P s'.
Proof.
  induction l as [|a l IH]; intros Hstep s Hs; simpl; [by exists s|].
  destruct (Hstep a s) as (s1 & Hf & Hs1); [left | done |].
  rewrite Hf. simpl. apply IH; [|done].
  intros b t Hb. apply Hstep. by right.
Qed.

(** The tables have a line for every type of [WeaponTypes]. *)
Lemma WeaponTypes_tables (weaponType : string) :
  weaponType ∈ WeaponTypes ->
  is_Some (obj_get weaponType WeaponRangeConfig)
  /\ is_Some (obj_get weaponType WeaponStats)
  /\ is_Some (obj_get weaponType WeaponTargetConfig).
Proof.
  unfold WeaponTypes. intros Hin.
  repeat (apply elem_of_cons in Hin as [->|Hin]; [by repeat split; eexists|]).
  by apply elem_of_nil in Hin.
Qed.

Lemma linkIfInRange_total `{MathHost} c weaponId weaponType owner target :
  is_Some (position c !! Entity.id owner) ->
  is_Some (position c !! Entity.id target) ->
  is_Some (obj_get weaponType WeaponRangeConfig) ->
  is_Some (linkIfInRange c weaponId weaponType owner target).
Proof.
  intros [sp Hsp] [tp Htp] [range Hrange]. unfold linkIfInRange.
  rewrite Hsp. simpl. rewrite Htp. simpl. rewrite Hrange. simpl.
  destruct (Qle_bool _ _); by eexists.
Qed.

Lemma primaryScan_total `{MathHost} w weaponId weaponType owner types :
  (forall target, target ∈ entities w -> is_Some (position (components w) !! Entity.id target)) ->
  owner ∈ entities w ->
  is_Some (obj_get weaponType WeaponRangeConfig) ->
  is_Some (primaryScan w weaponId weaponType owner types).
Proof.
  intros Hpos Howner Hrange. induction types as [|t rest IH]; simpl; [by eexists|].
  destruct (primaryCandidate w weaponId t) as [target|] eqn:Hcand; [|done].
  apply primaryCandidate_Some in Hcand as [Hin _].
  destruct (linkIfInRange_total (components w) weaponId weaponType owner target
              (Hpos _ Howner) (Hpos _ Hin) Hrange) as [[link|] ->]; simpl;
    [by eexists | done].
Qed.

Lemma specificScan_total `{MathHost} w weaponId weaponType owner specific :
  (forall target, target ∈ entities w -> is_Some (position (components w) !! Entity.id target)) ->
  owner ∈ entities w ->
  is_Some (obj_get weaponType WeaponRangeConfig) ->
  is_Some (specificScan w weaponId weaponType owner specific).
Proof.
  intros Hpos Howner Hrange.
  assert (Hparts : forall targetType parts,
            is_Some (specificPartScan w weaponId weaponType owner targetType parts)).
  { intros targetType parts. induction parts as [|part rest IH]; simpl; [by eexists|].
    destruct (specificCandidate w weaponId targetType part) as [target|] eqn:Hcand; [|done].
    apply specificCandidate_Some in Hcand as [Hin _].
    destruct (linkIfInRange_total (components w) weaponId weaponType owner target
                (Hpos _ Howner) (Hpos _ Hin) Hrange) as [[link|] ->]; simpl;
      [by eexists | done]. }
  induction specific as [|[targetType parts] rest IH]; simpl; [by eexists|].
  destruct (Hparts targetType parts) as [[link|] ->]; simpl; [by eexists | done].
Qed.

Lemma assignWeaponToTarget_total `{MathHost} weaponId owner w :
  equipped w -> owner ∈ entities w ->
  is_Some (weapon (components w) !! weaponId) ->
  is_Some (assignWeaponToTarget weaponId owner w).
Proof.
  intros [Hentity _ Hweapon] Howner [wp Hwp]. unfold assignWeaponToTarget.
  rewrite Hwp. simpl.
  destruct (Hweapon weaponId wp Hwp) as [_ Hty].
  apply WeaponTypes_tables in Hty as (Hrange & _ & _).
  assert (Hpos : forall target, target ∈ entities w ->
                   is_Some (position (components w) !! Entity.id target)).
  { intros target Hin. by destruct (Hentity target Hin) as [? _]. }
  destruct (obj_get _ WeaponTargetConfig) as [prefs|]; [|by eexists].
  destruct (primaryScan_total w weaponId (WeaponComponent.weaponType wp) owner
              (filteredTargetTypes owner prefs) Hpos Howner Hrange) as [[link|] ->];
    simpl; [by eexists|].
  destruct (specificTargets prefs) as [specific|]; [|by eexists].
  destruct (specificScan_total w weaponId (WeaponComponent.weaponType wp) owner
              specific Hpos Howner Hrange) as [[link|] ->]; simpl; by eexists.
Qed.

Lemma forEach_assignSlot_total `{MathHost} w0 owner slots w :
  equipped w0 -> owner ∈ entities w0 ->
  weaponSlots (components w0) !! Entity.id owner = Some slots ->
  duringPass w0 w ->
  exists w', forEach (assignSlot owner) (WeaponSlotsComponent.weaponIds slots) w = Some w'
             /\ duringPass w0 w'.
Proof.
  intros Heq Howner Hslots. apply forEach_total.
  intros [weaponId|] s Hcell Hs; simpl; [|by exists s].
  pose proof (duringPass_recordedInPass _ _ Hs) as Hrec.
  destruct (recordedInPass_frame _ _ Hrec) as (Hents & _ & Hweapons & _).
  destruct (assignWeaponToTarget_total weaponId owner s) as [s' Hcall].
  - by apply (equipped_recordedInPass w0).
  - by rewrite Hents.
  - rewrite Hweapons. by eapply (equipped_slot w0).
  - exists s'. split; [done|]. by eapply duringPass_call.
Qed.

(** The assignment pass of an equipped store returns. *)
Lemma WeaponAssignmentSystem_update_total `{MathHost} (w : World) :
  equipped w -> exists w', WeaponAssignmentSystem_update w = Some w'.
Proof.
  intros Heq. unfold WeaponAssignmentSystem_update.
  destruct (forEach_total assignEntity (duringPass w) (entities (clearTargeting w)))
    with (s := clearTargeting w) as (w' & Hrun & _); [|constructor|by exists w'].
  intros entity s Hin Hs.
  assert (Hin' : entity ∈ entities w) by by destruct w.
  pose proof (duringPass_recordedInPass _ _ Hs) as Hrec.
  destruct (recordedInPass_frame _ _ Hrec) as (_ & _ & _ & Hsl & _).
  destruct (equipped_entity w Heq entity Hin') as (_ & _ & [slots Hslots] & _).
  unfold assignEntity, assignAgentWeapons, assignEnemyWeapons.
  rewrite Hsl, Hslots. simpl.
  destruct (_ && _); [by eapply forEach_assignSlot_total|].
  destruct (_ && _); [by eapply forEach_assignSlot_total|].
  by exists s.
Qed.

Lemma calculateHitProbability_total (distance maxRange accuracy : Q) :
  is_Some (calculateHitProbability distance maxRange accuracy).
Proof.
  unfold calculateHitProbability.
  change (obj_get "melee" WeaponRangeConfig) with (Some (1, 1)%Q). simpl.
  destruct (Qle_bool distance 1); by eexists.
Qed.

Lemma resolveLink_targeting `{MathHost} weaponId w w' k link :
  resolveLink weaponId w = Some w' ->
  targeting (components w') !! k = Some link ->
  targeting (components w) !! k = Some link.
Proof.
  intros Hrun Hk.
  apply resolveLink_cases in Hrun
    as [[->| ->]|(target & h & dmg & _ & _ & _ & [[_ ->]|[_ ->]])].
  - done.
  - by destruct w.
  - by destruct w as [? [] ? ? ? ? ?].
  - destruct w as [? [] ? ? ? ? ?]; simpl in *.
    by apply lookup_delete_Some in Hk as [_ ?].
Qed.

Lemma resolveLink_total `{MathHost} weaponId w :
  equipped w -> keyedBySource (targeting (components w)) ->
  is_Some (resolveLink weaponId w).
Proof.
  intros [Hentity _ Hweapon] Hkey. unfold resolveLink.
  destruct (targeting (components w) !! weaponId) as [link|] eqn:Hlink; [|by eexists].
  destruct (TargetingComponent.enabled link); [|by eexists].
  destruct (weapon (components w) !! weaponId) as [wp|] eqn:Hwp; [|by eexists].
  destruct (List.find _ (entities w)) as [target|] eqn:Hfind; [|by eexists].
  apply find_id_Some in Hfind as [Hin _].
  destruct (Hweapon weaponId wp Hwp) as [[sp Hsp] Hty].
  apply WeaponTypes_tables in Hty as ([range Hrange] & [stats Hstats] & _).
  destruct (Hentity target Hin) as ([tp Htp] & [h Hh] & _).
  unfold resolveHit. rewrite (Hkey _ _ Hlink), Hsp. simpl. rewrite Htp. simpl.
  rewrite Hrange. simpl. rewrite Hstats. simpl.
  destruct (calculateHitProbability_total (distanceBetween sp tp) range.2 (accuracy stats))
    as [prob ->]. simpl.
  destruct (Qlt_bool _ prob); [|by eexists].
  replace (health (components (set_randomCalls (S (randomCalls w)) w)) !! Entity.id target)
    with (Some h) by by destruct w.
  simpl. case_bool_decide; by eexists.
Qed.

(** The damage pass returns on an equipped store whose links sit under
    their sources. *)
Lemma DamageSystem_update_total `{MathHost} (w : World) :
  storeInvariant w -> equipped w -> keyedBySource (targeting (components w)) ->
  exists w', DamageSystem_update w = Some w'.
Proof.
  intros Hinv Heq Hkey. unfold DamageSystem_update.
  destruct (forEach_total resolveLink
              (fun s => storeInvariant s /\ equipped s
                        /\ keyedBySource (targeting (components s)))
              (Object_keys (targeting (components w)))) with (s := w)
    as (w' & Hrun & _); [|done|by exists w'].
  intros weaponId s _ (Hs1 & Hs2 & Hs3).
  destruct (resolveLink_total weaponId s Hs2 Hs3) as [s' Hround].
  exists s'. split; [done|]. split; [by eapply storeInvariant_resolveLink|].
  split; [by eapply equipped_resolveLink|].
  intros k link Hk. apply Hs3. by eapply resolveLink_targeting.
Qed.

(** A step of a reachable world returns. *)
Lemma EntityComponentSystem_update_total `{MathHost} (w : World) :
  reachable w -> exists w', EntityComponentSystem_update w = Some w'.
Proof.
  intros Hreach. pose proof (reachable_storeInvariant w Hreach) as Hinv.
  pose proof (reachable_equipped w Hreach) as Heq.
  destruct (WeaponAssignmentSystem_update_total w Heq) as [w1 Hassign].
  unfold EntityComponentSystem_update. rewrite Hassign. simpl.
  pose proof (duringPass_recordedInPass _ _
                (WeaponAssignmentSystem_update_duringPass _ _ Hassign)) as Hrec.
  apply DamageSystem_update_total.
  - by eapply storeInvariant_assignment.
  - by apply (equipped_recordedInPass w).
  - intros k link Hk. destruct Hrec as [_ Hlinks]. by apply Hlinks in Hk as [? _].
Qed.


(** ** C9: idempotence of the pass *)

(** C9.  A second pass run on the world the first pass ended in, with
    nothing changed in between, ends in that same world: the targeting
    category after the second run is the one after the first.  On a
    reachable store both runs do end. *)
Theorem assignment_idempotent `{MathHost} (w : World) :
  (forall w1, WeaponAssignmentSystem_update w = Some w1 ->
     WeaponAssignmentSystem_update w1 = Some w1
     /\ forall w2, WeaponAssignmentSystem_update w1 = Some w2 ->
          targeting (components w2) = targeting (components w1))
  /\ (reachable w ->
      exists w1, WeaponAssignmentSystem_update w = Some w1
                 /\ WeaponAssignmentSystem_update w1 = Some w1).
Proof.
  assert (Hagain : forall w1, WeaponAssignmentSystem_update w = Some w1 ->
                     WeaponAssignmentSystem_update w1 = Some w1).
  { intros w1 Hrun. pose proof Hrun as Hrec.
    apply WeaponAssignmentSystem_update_duringPass, duringPass_recordedInPass in Hrec.
    destruct Hrec as [Hframe _]. rewrite Hframe at 1.
    by rewrite WeaponAssignmentSystem_update_stale. }
  split.
  - intros w1 Hrun. split; [by apply Hagain|].
    intros w2 Hw2. rewrite (Hagain w1 Hrun) in Hw2. congruence.
  - intros Hreach.
    destruct (WeaponAssignmentSystem_update_total w (reachable_equipped w Hreach))
      as [w1 Hrun].
    exists w1. split; [done | by apply Hagain].
Qed.

(** ** C6: one target per weapon *)

Lemma filter_omap_nil {K A : Type} (f : A -> bool) (g : K -> option A) (l : list K) :
  (forall k v, k ∈ l -> g k = Some v -> f v = false) ->
  List.filter f (omap g l) = [].
Proof.
  induction l as [|k l IH]; intros Hall; simpl; [done|].
  destruct (g k) as [v|] eqn:Hg; simpl.
  - rewrite (Hall k v) by (done || left). apply IH.
    intros k' v' Hin. apply Hall. by right.
  - apply IH. intros k' v' Hin. apply Hall. by right.
Qed.

Lemma filter_omap_at_most_one {K A : Type} (f : A -> bool) (g : K -> option A)
    (k0 : K) (l : list K) :
  NoDup l ->
  (forall k v, k ∈ l -> g k = Some v -> f v = true -> k = k0) ->
  length (List.filter f (omap g l)) <= 1.
Proof.
  induction 1 as [|k l Hnotin Hnodup IH]; intros Hall; simpl; [lia|].
  assert (Hrest : forall k' v, k' ∈ l -> g k' = Some v -> f v = true -> k' = k0).
  { intros k' v Hin. apply Hall. by right. }
  destruct (g k) as [v|] eqn:Hg; simpl; [|by apply IH].
  destruct (f v) eqn:Hf; [|by apply IH].
  assert (k = k0) as -> by (apply (Hall k v); [left | done | done]).
  rewrite filter_omap_nil; [simpl; lia|].
  intros k' v' Hin Hg'. apply not_true_is_false. intros Hf'.
  apply Hnotin. by rewrite <- (Hrest k' v' Hin Hg' Hf').
Qed.

Lemma keyedBySource_at_most_one (t : gmap nat TargetingComponent.t) (weaponId : nat) :
  keyedBySource t -> enabledLinksFrom weaponId t <= 1.
Proof.
  intros Hkey. unfold enabledLinksFrom, Object_values.
  apply (filter_omap_at_most_one _ _ weaponId); [apply NoDup_Object_keys|].
  intros k link _ Hk Hf. apply andb_true_iff in Hf as [Hsrc _].
  apply bool_decide_eq_true in Hsrc. apply Hkey in Hk. congruence.
Qed.

Lemma primaryScan_all_targeted `{MathHost} w weaponId weaponType owner types :
  (forall entity, entity ∈ entities w -> Entity.type entity ∈ types ->
     alreadyTargeted (components w) weaponId entity = true) ->
  primaryScan w weaponId weaponType owner types = Some None.
Proof.
  induction types as [|targetType rest IH]; intros Hall; simpl; [done|].
  destruct (primaryCandidate w weaponId targetType) as [target|] eqn:Hcand.
  - apply primaryCandidate_Some in Hcand as (Hin & Hty & Hnot).
    rewrite Hall in Hnot; [done | done |]. rewrite Hty. left.
  - apply IH. intros entity Hin Hty. apply Hall; [done|]. by right.
Qed.

Lemma specificScan_all_targeted `{MathHost} w weaponId weaponType owner specific :
  (forall entity, entity ∈ entities w -> Entity.type entity = EntityType.TARGET_PART ->
     alreadyTargeted (components w) weaponId entity = true) ->
  specificScan w weaponId weaponType owner specific = Some None.
Proof.
  intros Hall.
  assert (Hparts : forall targetType parts,
            specificPartScan w weaponId weaponType owner targetType parts = Some None).
  { intros targetType parts. induction parts as [|part rest IH]; simpl; [done|].
    destruct (specificCandidate w weaponId targetType part) as [target|] eqn:Hcand; [|done].
    apply specificCandidate_Some in Hcand as (Hin & Hty & _ & Hnot).
    by rewrite Hall in Hnot. }
  induction specific as [|[targetType parts] rest IH]; simpl; [done|].
  by rewrite Hparts.
Qed.

(** C6.  In every world of an assignment pass, the world it ends in
    included, each weapon id is the source of at most one enabled link;
    and a call for a weapon whose every candidate is already the target
    of a link of that weapon (Scenario E) records nothing and leaves the
    store as it is. *)
Theorem one_target_per_weapon `{MathHost} (w0 : World) :
  (forall w, duringPass w0 w ->
     forall weaponId, enabledLinksFrom weaponId (targeting (components w)) <= 1)
  /\ (forall w', WeaponAssignmentSystem_update w0 = Some w' -> duringPass w0 w')
  /\ (forall weaponId owner wp targetPreferences,
        weapon (components w0) !! weaponId = Some wp ->
        obj_get (WeaponComponent.weaponType wp) WeaponTargetConfig = Some targetPreferences ->
        onlyCandidatesTargeted w0 weaponId owner targetPreferences ->
        assignWeaponToTarget weaponId owner w0 = Some w0).
Proof.
  split; [|split].
  - intros w Hw weaponId. apply keyedBySource_at_most_one.
    apply duringPass_recordedInPass in Hw as [_ Hlinks].
    intros k link Hk. by apply Hlinks in Hk as [? _].
  - apply WeaponAssignmentSystem_update_duringPass.
  - intros weaponId owner wp prefs Hwp Hprefs Hall.
    unfold assignWeaponToTarget. rewrite Hwp. simpl. rewrite Hprefs.
    rewrite primaryScan_all_targeted; simpl.
    + destruct (specificTargets prefs) as [specific|]; [|done].
      rewrite specificScan_all_targeted; [done|].
      intros entity Hin Hty. apply Hall; [done|]. by right.
    + intros entity Hin Hty. apply Hall; [done|]. by left.
Qed.


(** ** C4: the dead leave the store at once *)

(** C4.  Start the damage loop in a store whose health entries are all
    above zero and whose entity ids are unique, as they are whenever the
    damage pass of a step of a reachable world starts, a pass that then
    does end.  After any number
    of rounds, so before each next link is looked at and when the pass
    is over, a target whose health a hit took to zero or below is gone:
    no health entry is at zero or below, the entities left in the
    registry have kept a health entry above zero, and for each entity
    that left the registry no entity of that id is left and no category
    holds an entry under its id. *)
Theorem dead_entities_removed `{MathHost} :
  (forall w, allAlive (components w) -> NoDup (map Entity.id (entities w)) ->
     (forall keys w', forEach resolveLink keys w = Some w' -> deadRemoved w w')
     /\ (forall w', DamageSystem_update w = Some w' -> deadRemoved w w'))
  /\ (forall w0 w1, reachable w0 -> WeaponAssignmentSystem_update w0 = Some w1 ->
        allAlive (components w1) /\ NoDup (map Entity.id (entities w1)))
  /\ (forall w0, reachable w0 ->
        exists w1 w2, WeaponAssignmentSystem_update w0 = Some w1
                      /\ DamageSystem_update w1 = Some w2
                      /\ deadRemoved w1 w2).
Proof.
  assert (Hloop : forall w, allAlive (components w) -> NoDup (map Entity.id (entities w)) ->
            forall keys w', forEach resolveLink keys w = Some w' -> deadRemoved w w').
  { intros w Halive Hnodup keys w' Hrun. apply damageInvariant_deadRemoved; [done|].
    revert Hrun. apply forEach_invariant; [|by apply damageInvariant_start].
    intros weaponId s s' _. apply damageInvariant_step. }
  assert (Hstart : forall w0 w1, reachable w0 -> WeaponAssignmentSystem_update w0 = Some w1 ->
            allAlive (components w1) /\ NoDup (map Entity.id (entities w1))).
  { intros w0 w1 Hreach Hassign. apply reachable_storeInvariant in Hreach.
    apply storeInvariant_assignment in Hassign; [|done]. split; apply Hassign. }
  split; [|split; [done|]].
  - intros w Halive Hnodup. split; [by apply Hloop|].
    intros w'. by apply Hloop.
  - intros w0 Hreach.
    destruct (EntityComponentSystem_update_total w0 Hreach) as [w2 Hstep].
    unfold EntityComponentSystem_update in Hstep.
    destruct (WeaponAssignmentSystem_update w0) as [w1|] eqn:Hassign; simpl in Hstep; [|done].
    exists w1, w2. split; [done|]. split; [done|].
    destruct (Hstart w0 w1 Hreach Hassign) as [Halive Hnodup].
    exact (Hloop w1 Halive Hnodup (Object_keys (targeting (components w1))) w2 Hstep).
Qed.


(** ** C10: the registry holds agents and enemies only *)

Lemma addWeaponToEntity_attaches (entityId : nat) (weaponType : string) (w w' : World) :
  addWeaponToEntity entityId weaponType w = Some w' ->
  entities w' = entities w
  /\ nodeId w' = S (nodeId w)
  /\ weapon (components w') !! nodeId w = Some (WeaponComponent.new (nodeId w) weaponType)
  /\ is_Some (position (components w') !! nodeId w).
Proof.
  intros Hrun.
  apply addWeaponToEntity_Some in Hrun as (ownerPosition & slots & _ & _ & ->).
  cbv zeta. destruct (WeaponSlotsComponent.addWeapon (nodeId w) slots).2;
    open_world w; rewrite !lookup_insert_eq; eauto.
Qed.

Lemma addTargetPartToEntity_attaches `{MathHost} (enemyId : nat) (partType : string)
    (w w' : World) :
  addTargetPartToEntity enemyId partType w = Some w' ->
  entities w' = entities w
  /\ nodeId w' = S (nodeId w)
  /\ targetPartType (components w') !! nodeId w
     = Some (TargetPartTypeComponent.new (nodeId w) partType (IsId enemyId))
  /\ health (components w') !! nodeId w = Some (HealthComponent.new (nodeId w) 10)
  /\ is_Some (position (components w') !! nodeId w).
Proof.
  rewrite addTargetPartToEntity_Some. intros [= <-].
  open_world w. rewrite !lookup_insert_eq. eauto.
Qed.

(** C10.  [addWeaponToEntity] and [addTargetPartToEntity] take the next
    id of the counter, which no entity and no entry uses yet, store
    their components under it and leave the registry as it is.  Hence in
    every world a step of a reachable world goes through every entity of
    the registry is an agent or an enemy, and so is whatever the primary
    scan, the specific scan or the target lookup of the damage pass finds
    in it. *)
Theorem registry_holds_agents_and_enemies `{MathHost} :
  (forall entityId weaponType w w',
      addWeaponToEntity entityId weaponType w = Some w' ->
      entities w' = entities w
      /\ nodeId w' = S (nodeId w)
      /\ weapon (components w') !! nodeId w = Some (WeaponComponent.new (nodeId w) weaponType)
      /\ is_Some (position (components w') !! nodeId w))
  /\ (forall enemyId partType w w',
        addTargetPartToEntity enemyId partType w = Some w' ->
        entities w' = entities w
        /\ nodeId w' = S (nodeId w)
        /\ targetPartType (components w') !! nodeId w
           = Some (TargetPartTypeComponent.new (nodeId w) partType (IsId enemyId))
        /\ health (components w') !! nodeId w = Some (HealthComponent.new (nodeId w) 10)
        /\ is_Some (position (components w') !! nodeId w))
  /\ (forall w0 w, reachable w0 -> inStep w0 w ->
        noEntry (nodeId w) (components w)
        /\ (forall entity, entity ∈ entities w ->
              Entity.id entity < nodeId w /\ agentOrEnemy entity)
        /\ (forall weaponId targetType target,
              primaryCandidate w weaponId targetType = Some target -> agentOrEnemy target)
        /\ (forall weaponId targetType specificTargetType target,
              specificCandidate w weaponId targetType specificTargetType = Some target ->
              agentOrEnemy target)
        /\ (forall targetId target,
              List.find (fun entity => bool_decide (Entity.id entity = targetId)) (entities w)
              = Some target ->
              agentOrEnemy target)).
Proof.
  split; [exact addWeaponToEntity_attaches|]. split; [exact addTargetPartToEntity_attaches|].
  intros w0 w Hreach Hstep.
  destruct (inStep_storeInvariant w0 w Hreach Hstep) as [Htypes Hids Hkeys _ _ _].
  split; [by apply Hkeys|]. split; [|split; [|split]].
  - intros entity Hin. split; [by apply Hids | by apply Htypes].
  - intros weaponId targetType target Hfound.
    apply primaryCandidate_Some in Hfound as [Hin _]. by apply Htypes.
  - intros weaponId targetType specificTargetType target Hfound.
    apply specificCandidate_Some in Hfound as [Hin _]. by apply Htypes.
  - intros targetId target Hfound. apply find_id_Some in Hfound as [Hin _]. by apply Htypes.
Qed.


(** ** Slots and their capacity *)

Lemma usedSlots_le_length (slots : WeaponSlotsComponent.t) :
  usedSlots slots <= length (WeaponSlotsComponent.weaponIds slots).
Proof.
  unfold usedSlots. induction (WeaponSlotsComponent.weaponIds slots) as [|[k|] rest IH];
    simpl; lia.
Qed.

Lemma addWeapon_full (weaponId : nat) (slots : WeaponSlotsComponent.t) :
  None ∉ WeaponSlotsComponent.weaponIds slots ->
  WeaponSlotsComponent.addWeapon weaponId slots
  = (slots, Some "Entity has no available weapon slots.").
Proof.
  intros Hfull. unfold WeaponSlotsComponent.addWeapon.
  by rewrite (proj2 (fillFirstNull_None weaponId _) Hfull).
Qed.

(** In every world the script can reach, a slots component belongs to
    an entity of the registry and has the capacity of its class, 7 cells
    for an agent and 2 for an enemy, of which it uses no more. *)
Lemma usedSlots_within_capacity `{MathHost} (w : World) (k : nat)
    (slots : WeaponSlotsComponent.t) :
  reachable w ->
  weaponSlots (components w) !! k = Some slots ->
  exists entity,
    entity ∈ entities w /\ Entity.id entity = k
    /\ length (WeaponSlotsComponent.weaponIds slots) = slotCapacity (Entity.type entity)
    /\ usedSlots slots <= slotCapacity (Entity.type entity).
Proof.
  intros Hreach Hk.
  destruct (inv_slots w (reachable_storeInvariant w Hreach) k slots Hk)
    as (entity & Hin & Hid & Hlen).
  exists entity. split; [done|]. split; [done|]. split; [done|].
  rewrite <- Hlen. apply usedSlots_le_length.
Qed.


(** ** The primary scan *)

Lemma elem_of_filteredTargetTypes (owner : Entity.t) (targetPreferences : TargetPreferences)
    (targetType : string) :
  targetType ∈ filteredTargetTypes owner targetPreferences
  <-> targetType ∈ primary targetPreferences /\ targetType ∈ validTargetTypes owner.
Proof.
  unfold filteredTargetTypes. rewrite list_elem_of_In, filter_In, <- list_elem_of_In.
  by rewrite bool_decide_eq_true.
Qed.

Lemma primaryCandidate_untargeted (w : World) (weaponId : nat) (targetType : string) :
  (forall entity, alreadyTargeted (components w) weaponId entity = false) ->
  primaryCandidate w weaponId targetType = firstOfType w targetType.
Proof.
  intros Hfree. unfold primaryCandidate, firstOfType.
  induction (entities w) as [|e l IH]; simpl; [done|].
  rewrite Hfree, IH. simpl. by rewrite andb_true_r.
Qed.

Lemma linkIfInRange_inRangeOf `{MathHost} c weaponId weaponType owner target :
  inRangeOf c owner target weaponType ->
  linkIfInRange c weaponId weaponType owner target
  = Some (Some (TargetingComponent.new weaponId (Entity.id target)
                  (getWeaponColor weaponType) true)).
Proof.
  intros (sp & tp & range & Hsp & Htp & Hrange & Hle).
  unfold linkIfInRange. rewrite Hsp. simpl. rewrite Htp. simpl. rewrite Hrange. simpl.
  by rewrite Hle.
Qed.

Lemma forEach_assignEntity_duringPass `{MathHost} w0 ents w w' :
  duringPass w0 w -> forEach assignEntity ents w = Some w' -> duringPass w0 w'.
Proof.
  apply forEach_invariant. intros entity s s' _. apply assignEntity_duringPass.
Qed.

Lemma linkIfInRange_Some_Some `{MathHost} c weaponId weaponType owner target link :
  linkIfInRange c weaponId weaponType owner target = Some (Some link) ->
  inRangeOf c owner target weaponType.
Proof.
  unfold linkIfInRange, inRangeOf. intros Hrun.
  destruct (position c !! Entity.id owner) as [sp|]; simpl in Hrun; [|done].
  destruct (position c !! Entity.id target) as [tp|]; simpl in Hrun; [|done].
  destruct (obj_get weaponType WeaponRangeConfig) as [range|]; simpl in Hrun; [|done].
  destruct (Qle_bool _ _) eqn:Hle; [|done]. by exists sp, tp, range.
Qed.

Lemma linkIfInRange_Some_None `{MathHost} c weaponId weaponType owner target :
  linkIfInRange c weaponId weaponType owner target = Some None ->
  ~ inRangeOf c owner target weaponType.
Proof.
  intros Hrun Hrange. by rewrite (linkIfInRange_inRangeOf _ _ _ _ _ Hrange) in Hrun.
Qed.

Lemma primaryScan_order `{MathHost} w weaponId weaponType owner types link :
  primaryScan w weaponId weaponType owner types = Some (Some link) ->
  firstTypeInRange w weaponId weaponType owner types link.
Proof.
  unfold firstTypeInRange. induction types as [|t rest IH]; simpl; [done|].
  assert (Hlater : primaryScan w weaponId weaponType owner rest = Some (Some link) ->
            (forall other, primaryCandidate w weaponId t = Some other ->
               ~ inRangeOf (components w) owner other weaponType) ->
            exists before targetType after target,
              t :: rest = before ++ targetType :: after
              /\ primaryCandidate w weaponId targetType = Some target
              /\ inRangeOf (components w) owner target weaponType
              /\ link = TargetingComponent.new weaponId (Entity.id target)
                          (getWeaponColor weaponType) true
              /\ forall earlier other, earlier ∈ before ->
                   primaryCandidate w weaponId earlier = Some other ->
                   ~ inRangeOf (components w) owner other weaponType).
  { intros Hrest Hhead.
    destruct (IH Hrest) as (before & ty & after & target & -> & Hcand & Hrange & -> & Hbefore).
    exists (t :: before), ty, after, target. repeat split; try done.
    intros earlier other [->|Hin]%elem_of_cons; [apply Hhead | by apply Hbefore]. }
  destruct (primaryCandidate w weaponId t) as [target|] eqn:Hcand; [|intros; by apply Hlater].
  destruct (linkIfInRange _ _ _ _ _) as [[found|]|] eqn:Hlink; simpl; [| |done].
  - intros [= ->]. exists [], t, rest, target.
    split; [done|]. split; [done|]. split; [by eapply linkIfInRange_Some_Some|].
    split; [by eapply linkIfInRange_link|].
    intros earlier other Hin. by apply elem_of_nil in Hin.
  - intros Hrest. apply Hlater; [done|]. intros other [= <-].
    by eapply linkIfInRange_Some_None.
Qed.


(** ** C2: the specific scan *)

(** In a store the script can reach no entity passes the test of the
    specific scan: the registry holds no target part, and the own
    [components] object of every entity is empty. *)
Lemma specificCandidate_reachable (w : World) weaponId targetType specificTargetType :
  storeInvariant w ->
  specificCandidate w weaponId targetType specificTargetType = None.
Proof.
  intros Hinv.
  destruct (specificCandidate w weaponId targetType specificTargetType) as [target|] eqn:Hfound;
    [|done].
  apply specificCandidate_Some in Hfound as (Hin & _ & [part Hpart] & _).
  destruct (inv_types w Hinv target Hin) as [_ Hnone]. congruence.
Qed.

(** So the specific scan of a step of a reachable world never returns a
    link. *)
Lemma specificScan_reachable `{MathHost} (w0 w : World) weaponId weaponType owner specific :
  reachable w0 -> inStep w0 w ->
  specificScan w weaponId weaponType owner specific = Some None.
Proof.
  intros Hreach Hstep. pose proof (inStep_storeInvariant w0 w Hreach Hstep) as Hinv.
  assert (Hparts : forall targetType parts,
            specificPartScan w weaponId weaponType owner targetType parts = Some None).
  { intros targetType parts. induction parts as [|part rest IH]; simpl; [done|].
    by rewrite specificCandidate_reachable. }
  induction specific as [|[targetType parts] rest IH]; simpl; [done|].
  by rewrite Hparts.
Qed.


(** ** The examples *)


Lemma scenarioA_spawned : scenarioA = Some scenarioAWorld.
Proof. vm_compute. reflexivity. Qed.

Lemma duel_spawned : duel = Some duelWorld.
Proof. vm_compute. reflexivity. Qed.

Lemma tankWorld_spawned : tankWorld = Some tankWorldSpawned.
Proof. vm_compute. reflexivity. Qed.

Lemma devastatorWorld_spawned : devastatorWorld = Some devastatorSpawned.
Proof. vm_compute. reflexivity. Qed.

Lemma duelWorld_reachable : reachable (H := duel_host) duelWorld.
Proof.
  eapply (reachable_addEnemy (default initialWorld (api_addAgent (H := duel_host) initialWorld))).
  - eapply reachable_addAgent; [apply reachable_initial|]. vm_compute. reflexivity.
  - vm_compute. reflexivity.
Defined.

Lemma devastatorSpawned_reachable : reachable (H := devastator_host) devastatorSpawned.
Proof.
  eapply reachable_addEnemy; [apply reachable_initial|]. vm_compute. reflexivity.
Defined.

Lemma allAlive_check (c : Components) :
  forallb (fun h => (0 <? HealthComponent.value h)%Z) (Object_values (health c)) = true ->
  allAlive c.
Proof.
  intros Hall k h Hk. rewrite forallb_forall in Hall.
  apply Z.ltb_lt, Hall, list_elem_of_In, elem_of_Object_values. by exists k.
Qed.

(** C2 at the failing input.  In the store of one agent with two rifles
    and one tank, all drawn at the origin, the rifle 1 gets no primary
    target, its type names the heat sink of a tank as specific target,
    the part 6 is the heat sink of the tank 3 and lies at distance 0 of
    the agent, within the range of 60; and yet the pass records no link
    at all. *)
Theorem heat_sink_in_range_not_targeted :
  exists w' agentPosition partPosition,
    WeaponAssignmentSystem_update (H := tank_host) tankWorldSpawned = Some w'
    /\ weapon (components tankWorldSpawned) !! 1 = Some (WeaponComponent.new 1 "rifle")
    /\ (specificTargets <$> obj_get "rifle" WeaponTargetConfig)
       = Some (Some [("tank", ["heat sink"])])
    /\ enemyType (components tankWorldSpawned) !! 3 = Some (EnemyTypeComponent.new 3 "tank")
    /\ targetPartType (components tankWorldSpawned) !! 6
       = Some (TargetPartTypeComponent.new 6 "heat sink" (IsId 3))
    /\ position (components tankWorldSpawned) !! 0 = Some agentPosition
    /\ position (components tankWorldSpawned) !! 6 = Some partPosition
    /\ Qle_bool (distanceBetween (H := tank_host) agentPosition partPosition) 60 = true
    /\ targeting (components w') = ∅.
Proof.
  exists (default tankWorldSpawned
            (WeaponAssignmentSystem_update (H := tank_host) tankWorldSpawned)),
         (PositionComponent.new 0 0 0), (PositionComponent.new 6 0 0).
  repeat split; vm_compute; reflexivity.
Qed.

(** The pass run twice on the duel. *)
Lemma assignment_idempotent_witness :
  WeaponAssignmentSystem_update (H := duel_host)
    (default duelWorld (WeaponAssignmentSystem_update (H := duel_host) duelWorld))
  = Some (default duelWorld (WeaponAssignmentSystem_update (H := duel_host) duelWorld))
  /\ exists w1, WeaponAssignmentSystem_update (H := duel_host) duelWorld = Some w1
                /\ WeaponAssignmentSystem_update (H := duel_host) w1 = Some w1.
Proof.
  destruct (assignment_idempotent (H := duel_host) duelWorld) as [Hagain Hends].
  split; [|exact (Hends duelWorld_reachable)].
  apply Hagain. vm_compute. reflexivity.
Defined.

(** Scenario E on the duel: the melee weapon 2 already targets the one
    enemy, 3; the call for it changes nothing. *)
Lemma one_target_per_weapon_witness :
  enabledLinksFrom 2
    (targeting (components
       (default duelWorld (WeaponAssignmentSystem_update (H := duel_host) duelWorld)))) <= 1
  /\ assignWeaponToTarget (H := duel_host) 2 (Entity.mk 0 EntityType.AGENT None)
       (withLinkFrom 2 3 duelWorld)
     = Some (withLinkFrom 2 3 duelWorld).
Proof.
  split.
  - destruct (one_target_per_weapon (H := duel_host) duelWorld) as (Hduring & Hend & _).
    apply Hduring, Hend. vm_compute. reflexivity.
  - destruct (one_target_per_weapon (H := duel_host) (withLinkFrom 2 3 duelWorld))
      as (_ & _ & Hsame).
    apply (Hsame 2 _ (WeaponComponent.new 2 "melee")
             {| primary := ["agent"; "enemy"; "target-part"]; specificTargets := None |});
      [vm_compute; reflexivity | vm_compute; reflexivity |].
    intros entity Hin Hty.
    apply list_elem_of_In in Hin. vm_compute in Hin.
    destruct Hin as [<-|[<-|[]]]; [|vm_compute; reflexivity].
    exfalso. destruct Hty as [Hty|Hty]; [|discriminate Hty].
    apply list_elem_of_In in Hty. vm_compute in Hty. destruct Hty as [Hty|[Hty|[]]];
      discriminate Hty.
Defined.

(** The link under 5 of [cannonOnInfantry] has no weapon in the store. *)
Lemma missing_link_skipped_witness :
  resolveLink (H := duel_host) 5 cannonOnInfantry = Some cannonOnInfantry
  /\ forEach (resolveLink (H := duel_host)) [5; 2] cannonOnInfantry
     = forEach (resolveLink (H := duel_host)) [2] cannonOnInfantry.
Proof.
  apply (missing_link_skipped (H := duel_host) cannonOnInfantry 5
           (TargetingComponent.new 5 9 "gray" true) [2]).
  - vm_compute. reflexivity.
  - reflexivity.
  - left. vm_compute. reflexivity.
Defined.

(** The cannon takes the 50 points of the infantry enemy 1 at distance
    0: the enemy is removed and nothing is left under its id. *)
Lemma dead_entities_removed_witness :
  DamageSystem_update (H := duel_host) cannonOnInfantry
  = Some (default cannonOnInfantry (DamageSystem_update (H := duel_host) cannonOnInfantry))
  /\ entities (default cannonOnInfantry (DamageSystem_update (H := duel_host) cannonOnInfantry))
     = [Entity.mk 0 EntityType.AGENT None]
  /\ deadRemoved cannonOnInfantry
       (default cannonOnInfantry (DamageSystem_update (H := duel_host) cannonOnInfantry))
  /\ exists w1 w2, WeaponAssignmentSystem_update (H := duel_host) duelWorld = Some w1
                   /\ DamageSystem_update (H := duel_host) w1 = Some w2
                   /\ deadRemoved w1 w2.
Proof.
  destruct (dead_entities_removed (H := duel_host)) as (Hpass & _ & Hstep).
  split; [vm_compute; reflexivity|]. split; [vm_compute; reflexivity|].
  split; [|exact (Hstep duelWorld duelWorld_reachable)].
  apply (proj2 (Hpass cannonOnInfantry
                  ltac:(apply allAlive_check; vm_compute; reflexivity)
                  ltac:(by_computation))).
  vm_compute. reflexivity.
Defined.

(** The probability at half a unit, and at half the range of a rifle. *)
Lemma calculateHitProbability_spec_witness :
  calculateHitProbability (1 # 2) 60 (8 # 10) = Some 1%Q
  /\ calculateHitProbability 30 60 (8 # 10)
     = Some ((1 - clamp01 (30 / 60)) * (8 # 10))%Q
  /\ exists p, calculateHitProbability 30 60 (8 # 10) = Some p /\ (0 <= p)%Q /\ (p <= 1)%Q.
Proof.
  destruct (calculateHitProbability_spec (1 # 2) 60 (8 # 10)) as (_ & Hmelee & _ & _).
  destruct (calculateHitProbability_spec 30 60 (8 # 10)) as (_ & _ & Hfar & Hbound).
  split; [apply Hmelee; lra|]. split; [apply Hfar; lra|]. apply Hbound; lra.
Defined.

(** The registry of the duel, and a pistol added to its agent. *)
Lemma registry_holds_agents_and_enemies_witness :
  (exists w', addWeaponToEntity 0 "pistol" duelWorld = Some w'
     /\ entities w' = entities duelWorld /\ nodeId w' = 11)
  /\ agentOrEnemy (Entity.mk 3 EntityType.ENEMY None).
Proof.
  destruct (registry_holds_agents_and_enemies (H := duel_host)) as (Hweapon & _ & Hstep).
  split.
  - exists (default duelWorld (addWeaponToEntity 0 "pistol" duelWorld)).
    split; [vm_compute; reflexivity|].
    destruct (Hweapon 0 "pistol" duelWorld
                (default duelWorld (addWeaponToEntity 0 "pistol" duelWorld)))
      as (Hents & Hnode & _); [vm_compute; reflexivity|].
    split; [exact Hents | exact Hnode].
  - destruct (Hstep duelWorld duelWorld duelWorld_reachable (inStep_start duelWorld))
      as (_ & Hregistry & _).
    apply Hregistry. by_computation.
Defined.


(** * Further properties *)

(** ** The store interface *)

Ltac store_cases :=
  unfold getComponent, removeComponent; simpl;
  repeat (case_bool_decide; simplify_eq; simpl; try done).

(** X1.  Reading back what was added: after [addComponent], the data is
    what [getComponent] returns under its category and key, replacing
    what was there, and every other entry reads as before. *)
Theorem getComponent_addComponent (d : ComponentData) (w : World) :
  getComponent (categoryOf d) (keyOf d) (addComponent d w) = Some (data_value d)
  /\ forall name entityId,
       name <> categoryOf d \/ entityId <> keyOf d ->
       getComponent name entityId (addComponent d w) = getComponent name entityId w.
Proof.
  split.
  - destruct d; open_world w; unfold getComponent; simpl; by rewrite lookup_insert_eq.
  - intros name entityId Hother.
    destruct d; open_world w; store_cases;
      destruct Hother as [?|?]; try done; by rewrite lookup_insert_ne.
Qed.

(** X2.  [removeComponent] deletes one entry and nothing else: the entry
    reads as [undefined] afterwards, every other entry reads as before,
    the registry is untouched, and removing an entry that is not there,
    or from a name that is no category, leaves the store as it is. *)
Theorem removeComponent_spec (name : string) (entityId : nat) (w : World) :
  getComponent name entityId (removeComponent name entityId w) = None
  /\ (forall name' entityId',
        name' <> name \/ entityId' <> entityId ->
        getComponent name' entityId' (removeComponent name entityId w)
        = getComponent name' entityId' w)
  /\ entities (removeComponent name entityId w) = entities w
  /\ (getComponent name entityId w = None -> removeComponent name entityId w = w).
Proof.
  split; [|split; [|split]].
  - open_world w. store_cases; by rewrite lookup_delete_eq.
  - intros name' entityId' Hother. open_world w.
    unfold removeComponent; repeat (case_bool_decide; simplify_eq); simpl;
      unfold getComponent; simpl;
      repeat (case_bool_decide; simplify_eq; simpl; try done);
      destruct Hother as [?|?]; try done; by rewrite lookup_delete_ne.
  - unfold removeComponent. repeat case_bool_decide; by destruct w.
  - open_world w. unfold getComponent, removeComponent. simpl.
    repeat (case_bool_decide; simplify_eq; simpl; try done);
      intros Hnone%fmap_None; try done;
      unfold set_components, set_position, set_health, set_weaponSlots, set_weapon,
        set_enemyType, set_targetPartType, set_targeting; simpl;
      by rewrite delete_id.
Qed.

Lemma getComponent_addComponent_witness :
  getComponent "health" 3 (addComponent (health_data (HealthComponent.new 3 50)) initialWorld)
  = Some (data_value (health_data (HealthComponent.new 3 50)))
  /\ getComponent "position" 3
       (addComponent (health_data (HealthComponent.new 3 50)) initialWorld)
     = getComponent "position" 3 initialWorld.
Proof.
  pose proof (getComponent_addComponent (health_data (HealthComponent.new 3 50)) initialWorld)
    as [Hread Hframe].
  split; [exact Hread|].
  apply Hframe. left. discriminate.
Defined.

Lemma removeComponent_spec_witness :
  getComponent "weapon" 1 (removeComponent "weapon" 1 duelWorld) = None
  /\ getComponent "weapon" 2 (removeComponent "weapon" 1 duelWorld)
     = getComponent "weapon" 2 duelWorld
  /\ removeComponent "weapon" 7 duelWorld = duelWorld.
Proof.
  pose proof (removeComponent_spec "weapon" 1 duelWorld) as (Hgone & Hframe & _ & _).
  pose proof (removeComponent_spec "weapon" 7 duelWorld) as (_ & _ & _ & Habsent).
  split; [exact Hgone|split].
  - apply Hframe. right. discriminate.
  - apply Habsent. vm_compute. reflexivity.
Defined.


(** ** Weapon slots *)

Lemma fillFirstNull_app (weaponId : nat) (before after : list (option nat)) :
  None ∉ before ->
  WeaponSlotsComponent.fillFirstNull weaponId (before ++ None :: after)
  = Some (before ++ Some weaponId :: after).
Proof.
  induction before as [|cell before IH]; intros Hbefore; [done|].
  apply not_elem_of_cons in Hbefore as [Hcell Hbefore].
  destruct cell as [other|]; [|done].
  simpl. by rewrite IH.
Qed.

Lemma usedSlots_app_cons (entityId : nat) (before after : list (option nat)) (cell : option nat) :
  usedSlots (WeaponSlotsComponent.mk entityId (before ++ cell :: after))
  = usedSlots (WeaponSlotsComponent.mk entityId before)
    + (if cell is Some _ then 1 else 0)
    + usedSlots (WeaponSlotsComponent.mk entityId after).
Proof.
  unfold usedSlots. simpl. rewrite List.filter_app, length_app. simpl.
  destruct cell; simpl; lia.
Qed.

(** X3.  [addWeapon] writes the id into the first empty cell and touches
    no other: the cells before it and after it stay as they are, one
    more slot is in use, and no warning is written; and the call warns
    exactly when no cell is empty. *)
Theorem addWeapon_first_free (weaponId : nat) (slots : WeaponSlotsComponent.t) :
  (forall before after,
      WeaponSlotsComponent.weaponIds slots = before ++ None :: after ->
      None ∉ before ->
      WeaponSlotsComponent.addWeapon weaponId slots
      = (WeaponSlotsComponent.mk (WeaponSlotsComponent.entityId slots)
           (before ++ Some weaponId :: after), None))
  /\ (None ∈ WeaponSlotsComponent.weaponIds slots ->
      usedSlots (WeaponSlotsComponent.addWeapon weaponId slots).1 = S (usedSlots slots))
  /\ ((WeaponSlotsComponent.addWeapon weaponId slots).2 = None
      <-> None ∈ WeaponSlotsComponent.weaponIds slots).
Proof.
  assert (Hfirst : forall before after,
             WeaponSlotsComponent.weaponIds slots = before ++ None :: after ->
             None ∉ before ->
             WeaponSlotsComponent.addWeapon weaponId slots
             = (WeaponSlotsComponent.mk (WeaponSlotsComponent.entityId slots)
                  (before ++ Some weaponId :: after), None)).
  { intros before after Hcells Hbefore. unfold WeaponSlotsComponent.addWeapon.
    by rewrite Hcells, fillFirstNull_app. }
  split; [exact Hfirst|split].
  - intros Hfree.
    apply list_elem_of_split_l in Hfree as (before & after & Hcells & Hbefore).
    rewrite (Hfirst before after Hcells Hbefore). simpl.
    destruct slots as [entityId cells]. simpl in Hcells. subst cells.
    clear Hfirst. simpl. rewrite !usedSlots_app_cons. cbv beta iota. lia.
  - split.
    + intros Hquiet. destruct (decide (None ∈ WeaponSlotsComponent.weaponIds slots)) as [|Hfull];
        [done|].
      by rewrite addWeapon_full in Hquiet.
    + intros Hfree.
      apply list_elem_of_split_l in Hfree as (before & after & Hcells & Hbefore).
      by rewrite (Hfirst before after Hcells Hbefore).
Qed.

Lemma addWeapon_first_free_witness :
  WeaponSlotsComponent.addWeapon 9 (WeaponSlotsComponent.mk 0 [Some 4; None; Some 6; None])
  = (WeaponSlotsComponent.mk 0 [Some 4; Some 9; Some 6; None], None)
  /\ usedSlots (WeaponSlotsComponent.addWeapon 9
                  (WeaponSlotsComponent.mk 0 [Some 4; None; Some 6; None])).1 = 3.
Proof.
  pose proof (addWeapon_first_free 9 (WeaponSlotsComponent.mk 0 [Some 4; None; Some 6; None]))
    as (Hfirst & Hused & _).
  split.
  - apply (Hfirst [Some 4] [Some 6; None]); [reflexivity|].
    intros Hin. apply list_elem_of_singleton in Hin. discriminate.
  - apply Hused. simpl. apply list_elem_of_further, list_elem_of_here.
Defined.

Lemma foldl_addWeapon_cells (entityId : nat) (ids held : list nat) (free : nat) :
  foldl (fun slots weaponId => (WeaponSlotsComponent.addWeapon weaponId slots).1)
    (WeaponSlotsComponent.mk entityId (map Some held ++ replicate free None)) ids
  = WeaponSlotsComponent.mk entityId
      (map Some (held ++ take free ids) ++ replicate (free - length ids) None).
Proof.
  revert held free. induction ids as [|weaponId ids IH]; intros held free.
  - simpl. by rewrite take_nil, app_nil_r, Nat.sub_0_r.
  - destruct free as [|free].
    + cbn [foldl]. rewrite addWeapon_full.
      * cbn [fst]. rewrite (IH held 0). by rewrite !take_0.
      * cbn [WeaponSlotsComponent.weaponIds replicate]. rewrite app_nil_r.
        intros (? & ? & _)%list_elem_of_fmap. done.
    + cbn [foldl replicate]. unfold WeaponSlotsComponent.addWeapon at 2.
      cbn [WeaponSlotsComponent.weaponIds WeaponSlotsComponent.entityId].
      rewrite fillFirstNull_app.
      * cbn [fst]. replace (map Some held ++ Some weaponId :: replicate free None)
          with (map Some (held ++ [weaponId]) ++ replicate free None)
          by (by rewrite map_app, <- app_assoc).
        rewrite (IH (held ++ [weaponId]) free).
        cbn [take length Nat.sub]. by rewrite <- app_assoc.
      * intros (? & ? & _)%list_elem_of_fmap. done.
Qed.

(** X4.  Slots fill in call order and overflow is dropped: after any
    sequence of [addWeapon] calls on a fresh component of [n] slots, the
    cells hold the first [n] ids of the sequence, in order, followed by
    the cells still empty. *)
Theorem slots_fill_in_call_order (entityId numberOfSlots : nat) (ids : list nat) :
  foldl (fun slots weaponId => (WeaponSlotsComponent.addWeapon weaponId slots).1)
    (WeaponSlotsComponent.new entityId numberOfSlots) ids
  = WeaponSlotsComponent.mk entityId
      (map Some (take numberOfSlots ids) ++ replicate (numberOfSlots - length ids) None).
Proof.
  exact (foldl_addWeapon_cells entityId ids [] numberOfSlots).
Qed.


(** ** Removing an entity *)

Lemma indexOf_first (entity : Entity.t) (before after : list Entity.t) :
  entity ∉ before -> indexOf entity (before ++ entity :: after) = Some (length before).
Proof.
  induction before as [|e before IH]; intros Hbefore; simpl.
  - by rewrite bool_decide_eq_true_2.
  - apply not_elem_of_cons in Hbefore as [Hne Hbefore].
    rewrite bool_decide_eq_false_2 by done. by rewrite IH.
Qed.

Lemma indexOf_None (entity : Entity.t) (l : list Entity.t) :
  entity ∉ l -> indexOf entity l = None.
Proof.
  induction l as [|e l IH]; intros Hl; [done|].
  apply not_elem_of_cons in Hl as [Hne Hl]. simpl.
  rewrite bool_decide_eq_false_2 by done. by rewrite IH.
Qed.

Lemma getComponent_purge (name : string) (entityId k : nat) (w : World) :
  getComponent name k (set_components (purge entityId) w)
  = if bool_decide (k = entityId) then None else getComponent name k w.
Proof.
  open_world w. unfold getComponent. simpl.
  destruct (decide (k = entityId)) as [->|Hk].
  - rewrite (bool_decide_eq_true_2 (entityId = entityId)) by done.
    repeat case_bool_decide; try done; by rewrite lookup_delete_eq.
  - rewrite (bool_decide_eq_false_2 (k = entityId)) by done.
    repeat case_bool_decide; try done; by rewrite lookup_delete_ne.
Qed.

(** X5.  Killing an entity of the registry removes its first occurrence
    and keeps the others in order; every category loses the entry under
    its id and keeps every other entry; the counter, the flags, the
    random stream and the console are untouched. *)
Theorem killEntity_member (entity : Entity.t) (w : World) (before after : list Entity.t) :
  entities w = before ++ entity :: after ->
  entity ∉ before ->
  entities (killEntity entity w) = before ++ after
  /\ (forall name, getComponent name (Entity.id entity) (killEntity entity w) = None)
  /\ (forall name k, k <> Entity.id entity ->
        getComponent name k (killEntity entity w) = getComponent name k w)
  /\ nodeId (killEntity entity w) = nodeId w
  /\ enemyTargetingEnabled (killEntity entity w) = enemyTargetingEnabled w
  /\ agentTargetingEnabled (killEntity entity w) = agentTargetingEnabled w
  /\ randomCalls (killEntity entity w) = randomCalls w
  /\ console (killEntity entity w) = console w.
Proof.
  intros Hentities Hfirst. split; [|split; [|split]].
  - unfold killEntity. simpl. unfold spliceOut.
    rewrite Hentities, indexOf_first by done. apply delete_middle.
  - intros name. unfold killEntity. rewrite getComponent_purge.
    by rewrite bool_decide_eq_true_2.
  - intros name k Hk. unfold killEntity. rewrite getComponent_purge.
    rewrite bool_decide_eq_false_2 by done. by destruct w.
  - by destruct w.
Qed.

Lemma killEntity_member_witness :
  entities (killEntity (Entity.mk 0 EntityType.AGENT None) duelWorld)
  = [Entity.mk 3 EntityType.ENEMY None]
  /\ getComponent "health" 0 (killEntity (Entity.mk 0 EntityType.AGENT None) duelWorld) = None
  /\ getComponent "health" 3 (killEntity (Entity.mk 0 EntityType.AGENT None) duelWorld)
     = getComponent "health" 3 duelWorld.
Proof.
  pose proof (killEntity_member (Entity.mk 0 EntityType.AGENT None) duelWorld
                [] [Entity.mk 3 EntityType.ENEMY None] eq_refl (not_elem_of_nil _))
    as (Hentities & Hgone & Hframe & _).
  split; [exact Hentities|split].
  - apply Hgone.
  - apply Hframe. discriminate.
Defined.

(** X6.  Killing an entity that is not in the registry: [indexOf] gives
    -1 and [splice(-1, 1)] removes the last entity of the registry,
    whichever it is, while the entries purged are those under the id of
    the entity passed in. *)
Theorem killEntity_not_member (entity : Entity.t) (w : World) :
  entity ∉ entities w ->
  entities (killEntity entity w) = removelast (entities w)
  /\ (forall name, getComponent name (Entity.id entity) (killEntity entity w) = None)
  /\ (forall name k, k <> Entity.id entity ->
        getComponent name k (killEntity entity w) = getComponent name k w).
Proof.
  intros Hout. split; [|split].
  - unfold killEntity. simpl. unfold spliceOut. by rewrite indexOf_None.
  - intros name. unfold killEntity. rewrite getComponent_purge.
    by rewrite bool_decide_eq_true_2.
  - intros name k Hk. unfold killEntity. rewrite getComponent_purge.
    rewrite bool_decide_eq_false_2 by done. by destruct w.
Qed.

Lemma killEntity_not_member_witness :
  entities (killEntity (Entity.mk 9 EntityType.ENEMY None) duelWorld)
  = [Entity.mk 0 EntityType.AGENT None]
  /\ getComponent "health" 3 (killEntity (Entity.mk 9 EntityType.ENEMY None) duelWorld)
     = getComponent "health" 3 duelWorld.
Proof.
  assert (Hout : Entity.mk 9 EntityType.ENEMY None ∉ entities duelWorld).
  { by_computation. }
  pose proof (killEntity_not_member (Entity.mk 9 EntityType.ENEMY None) duelWorld Hout)
    as (Hentities & _ & Hframe).
  split; [exact Hentities|].
  apply Hframe. discriminate.
Defined.


(** ** Resolving one link *)

Lemma Qlt_bool_true (a b : Q) : (a < b)%Q -> Qlt_bool a b = true.
Proof.
  intros Hlt. unfold Qlt_bool. apply negb_true_iff.
  destruct (Qle_bool b a) eqn:Hle; [|done].
  apply Qle_bool_iff in Hle. lra.
Qed.

Lemma Qlt_bool_false (a b : Q) : (b <= a)%Q -> Qlt_bool a b = false.
Proof.
  intros Hle. unfold Qlt_bool. apply negb_false_iff. by apply Qle_bool_iff.
Qed.

Lemma Qle_bool_false (a b : Q) : (b < a)%Q -> Qle_bool a b = false.
Proof.
  intros Hlt. destruct (Qle_bool a b) eqn:Hle; [|done].
  apply Qle_bool_iff in Hle. lra.
Qed.

Lemma WeaponRangeConfig_max (weaponType : string) (range : Q * Q) :
  obj_get weaponType WeaponRangeConfig = Some range -> (1 <= snd range)%Q.
Proof.
  unfold obj_get, WeaponRangeConfig.
  repeat (case_bool_decide; [intros [= <-]; simpl; lra|]). done.
Qed.

(** The probability past the maximum range and past the melee
    threshold is zero. *)
Lemma calculateHitProbability_out_of_range (distance maxRange accuracy : Q) :
  (1 < distance)%Q -> (1 <= maxRange)%Q -> (maxRange <= distance)%Q ->
  exists p, calculateHitProbability distance maxRange accuracy = Some p /\ (p == 0)%Q.
Proof.
  intros Hfar Hrange Hout. unfold calculateHitProbability.
  change (obj_get "melee" WeaponRangeConfig) with (Some (1, 1)%Q).
  cbn [mbind option_bind snd].
  rewrite Qle_bool_false by done.
  eexists. split; [reflexivity|].
  assert (Hratio : (1 <= distance / maxRange)%Q).
  { apply Qle_shift_div_l; lra. }
  rewrite (Q.min_l 1 (distance / maxRange)) by done.
  rewrite (Q.max_r 0 1) by lra. lra.
Qed.

(** X7.  At one unit or less every weapon hits: when the source of an
    enabled link lies within distance 1 of its target, the hit lands for
    any sample below 1 whatever the type, the accuracy and the range of
    the weapon; the health of the target goes down by the damage of the
    weapon type, and the target is killed when nothing is left. *)
Theorem point_blank_always_hits `{MathHost} (weaponId : nat) (w : World)
    (link : TargetingComponent.t) (wp : WeaponComponent.t) (target : Entity.t)
    (sourcePosition targetPosition : PositionComponent.t) (range : Q * Q)
    (weaponStats : WeaponStat) (targetHealth : HealthComponent.t) :
  targeting (components w) !! weaponId = Some link ->
  TargetingComponent.enabled link = true ->
  weapon (components w) !! weaponId = Some wp ->
  List.find (fun entity => bool_decide (Entity.id entity = TargetingComponent.target link))
    (entities w) = Some target ->
  position (components w) !! TargetingComponent.source link = Some sourcePosition ->
  position (components w) !! Entity.id target = Some targetPosition ->
  obj_get (WeaponComponent.weaponType wp) WeaponRangeConfig = Some range ->
  obj_get (WeaponComponent.weaponType wp) WeaponStats = Some weaponStats ->
  health (components w) !! Entity.id target = Some targetHealth ->
  (distanceBetween sourcePosition targetPosition <= 1)%Q ->
  (Math_random (randomCalls w) < 1)%Q ->
  resolveLink weaponId w
  = Some (if bool_decide (HealthComponent.value targetHealth - damage weaponStats <= 0)%Z
          then killEntity target (afterHit target targetHealth (damage weaponStats) w)
          else afterHit target targetHealth (damage weaponStats) w).
Proof.
  intros Hlink Henabled Hweapon Hfind Hsource Htarget Hrange Hstats Hhealth Hnear Hsample.
  unfold resolveLink. rewrite Hlink, Henabled, Hweapon, Hfind.
  unfold resolveHit. rewrite Hsource, Htarget. cbn [mbind option_bind].
  rewrite Hrange, Hstats. cbn [mbind option_bind].
  unfold calculateHitProbability.
  change (obj_get "melee" WeaponRangeConfig) with (Some (1, 1)%Q).
  cbn [mbind option_bind snd].
  replace (Qle_bool (distanceBetween sourcePosition targetPosition) 1) with true
    by (symmetry; by apply Qle_bool_iff).
  cbn [mbind option_bind]. unfold random. cbv beta iota zeta.
  rewrite Qlt_bool_true by done.
  replace (health (components (set_randomCalls (S (randomCalls w)) w)))
    with (health (components w)) by (by destruct w).
  rewrite Hhealth. cbn [mbind option_bind]. by case_bool_decide.
Qed.

Lemma point_blank_always_hits_witness :
  resolveLink (H := duel_host) 2 cannonOnInfantry
  = Some (killEntity (Entity.mk 1 EntityType.ENEMY None)
            (afterHit (Entity.mk 1 EntityType.ENEMY None) (HealthComponent.new 1 50) 50
               cannonOnInfantry)).
Proof.
  apply (point_blank_always_hits (H := duel_host) 2 cannonOnInfantry
           (TargetingComponent.new 2 1 "black" true) (WeaponComponent.new 2 "cannon")
           (Entity.mk 1 EntityType.ENEMY None)
           (PositionComponent.new 2 3 4) (PositionComponent.new 1 3 4)
           (120, 180)%Q {| damage := 50; accuracy := 4 # 10 |} (HealthComponent.new 1 50));
    vm_compute; congruence.
Defined.

Lemma resolveLink_out_of_range `{MathHost} (weaponId : nat) (w : World)
    (link : TargetingComponent.t) (wp : WeaponComponent.t) (target : Entity.t)
    (sourcePosition targetPosition : PositionComponent.t) (range : Q * Q)
    (weaponStats : WeaponStat) :
  targeting (components w) !! weaponId = Some link ->
  TargetingComponent.enabled link = true ->
  weapon (components w) !! weaponId = Some wp ->
  List.find (fun entity => bool_decide (Entity.id entity = TargetingComponent.target link))
    (entities w) = Some target ->
  position (components w) !! TargetingComponent.source link = Some sourcePosition ->
  position (components w) !! Entity.id target = Some targetPosition ->
  obj_get (WeaponComponent.weaponType wp) WeaponRangeConfig = Some range ->
  obj_get (WeaponComponent.weaponType wp) WeaponStats = Some weaponStats ->
  (1 < distanceBetween sourcePosition targetPosition)%Q ->
  (snd range <= distanceBetween sourcePosition targetPosition)%Q ->
  (0 <= Math_random (randomCalls w))%Q ->
  resolveLink weaponId w = Some (set_randomCalls (S (randomCalls w)) w).
Proof.
  intros Hlink Henabled Hweapon Hfind Hsource Htarget Hrange Hstats Hfar Hout Hsample.
  unfold resolveLink. rewrite Hlink, Henabled, Hweapon, Hfind.
  unfold resolveHit. rewrite Hsource, Htarget. cbn [mbind option_bind].
  rewrite Hrange, Hstats. cbn [mbind option_bind].
  destruct (calculateHitProbability_out_of_range
              (distanceBetween sourcePosition targetPosition) (snd range)
              (accuracy weaponStats) Hfar (WeaponRangeConfig_max _ _ Hrange) Hout)
    as (p & -> & Hzero).
  cbn [mbind option_bind]. unfold random. cbv beta iota zeta.
  rewrite Qlt_bool_false by lra. reflexivity.
Qed.

(** X8.  At or past its maximum range no weapon hits: when the source of
    an enabled link is farther than 1 from the target and at least the
    maximum range of the weapon type away, no sample from 0 upwards
    lands the hit; the round only consumes the sample. *)
Theorem out_of_range_never_hits `{MathHost} (weaponId : nat) (w : World)
    (link : TargetingComponent.t) (wp : WeaponComponent.t) (target : Entity.t)
    (sourcePosition targetPosition : PositionComponent.t) (range : Q * Q)
    (weaponStats : WeaponStat) :
  targeting (components w) !! weaponId = Some link ->
  TargetingComponent.enabled link = true ->
  weapon (components w) !! weaponId = Some wp ->
  List.find (fun entity => bool_decide (Entity.id entity = TargetingComponent.target link))
    (entities w) = Some target ->
  position (components w) !! TargetingComponent.source link = Some sourcePosition ->
  position (components w) !! Entity.id target = Some targetPosition ->
  obj_get (WeaponComponent.weaponType wp) WeaponRangeConfig = Some range ->
  obj_get (WeaponComponent.weaponType wp) WeaponStats = Some weaponStats ->
  (1 < distanceBetween sourcePosition targetPosition)%Q ->
  (snd range <= distanceBetween sourcePosition targetPosition)%Q ->
  (0 <= Math_random (randomCalls w))%Q ->
  resolveLink weaponId w = Some (set_randomCalls (S (randomCalls w)) w).
Proof.
  intros Hlink Henabled Hweapon Hfind Hsource Htarget Hrange Hstats Hfar Hout Hsample.
  by eapply resolveLink_out_of_range.
Qed.

Lemma out_of_range_never_hits_witness :
  resolveLink (H := duel_host) 2 (withLinkFrom 2 3 duelWorld)
  = Some (set_randomCalls (S (randomCalls (withLinkFrom 2 3 duelWorld)))
            (withLinkFrom 2 3 duelWorld)).
Proof.
  apply (out_of_range_never_hits (H := duel_host) 2 (withLinkFrom 2 3 duelWorld)
           (TargetingComponent.new 2 3 "gray" true) (WeaponComponent.new 2 "melee")
           (Entity.mk 3 EntityType.ENEMY None)
           (PositionComponent.new 2 (0 * 800 + 10) (0 * 600 + 10))
           (PositionComponent.new 3 (0 * 800) (0 * 600))
           (1, 1)%Q {| damage := 20; accuracy := 1 |});
    vm_compute; congruence.
Defined.


(** ** What a step can change *)

Lemma WeaponStats_damage (weaponType : string) (weaponStats : WeaponStat) :
  obj_get weaponType WeaponStats = Some weaponStats -> (0 < damage weaponStats)%Z.
Proof.
  unfold obj_get, WeaponStats.
  repeat (case_bool_decide; [intros [= <-]; simpl; lia|]). done.
Qed.

Lemma resolveLink_damage_cases `{MathHost} weaponId w w' :
  resolveLink weaponId w = Some w' ->
  (w' = w \/ w' = set_randomCalls (S (randomCalls w)) w)
  \/ exists target h dmg,
       target ∈ entities w
       /\ health (components w) !! Entity.id target = Some h
       /\ (0 < dmg)%Z
       /\ (w' = afterHit target h dmg w \/ w' = killEntity target (afterHit target h dmg w)).
Proof.
  unfold resolveLink. intros Hrun.
  destruct (targeting (components w) !! weaponId) as [link|]; [|left; left; by simplify_eq].
  destruct (TargetingComponent.enabled link); [|left; left; by simplify_eq].
  destruct (weapon (components w) !! weaponId) as [wp|]; [|left; left; by simplify_eq].
  destruct (List.find _ (entities w)) as [target|] eqn:Hfind; [|left; left; by simplify_eq].
  apply find_id_Some in Hfind as [Hin _].
  unfold resolveHit in Hrun.
  destruct (position (components w) !! TargetingComponent.source link);
    simpl in Hrun; [|done].
  destruct (position (components w) !! Entity.id target); simpl in Hrun; [|done].
  destruct (obj_get _ WeaponRangeConfig); simpl in Hrun; [|done].
  destruct (obj_get _ WeaponStats) as [stats|] eqn:Hstats; simpl in Hrun; [|done].
  destruct (calculateHitProbability _ _ _) as [prob|]; simpl in Hrun; [|done].
  destruct (Qlt_bool _ prob); [|left; right; by simplify_eq].
  destruct (health (components w) !! Entity.id target) as [h|] eqn:Hh;
    simpl in Hrun; [|done].
  right. exists target, h, (damage stats).
  split; [done|split; [done|split; [by eapply WeaponStats_damage|]]].
  case_bool_decide; simplify_eq; [by right | by left].
Qed.

Lemma neverGains_refl (w : World) : neverGains w w.
Proof.
  unfold neverGains. repeat split; try done.
  intros k h' Hk. exists h'. split; [done|]. split; [done|lia].
Qed.

Lemma neverGains_trans (w1 w2 w3 : World) :
  neverGains w1 w2 -> neverGains w2 w3 -> neverGains w1 w3.
Proof.
  intros (Hn & He & Ha & Hc & Hr & Hents & Hcomp & Hhealth)
         (Hn' & He' & Ha' & Hc' & Hr' & Hents' & Hcomp' & Hhealth').
  unfold neverGains.
  split; [congruence|]. split; [congruence|]. split; [congruence|]. split; [congruence|].
  split; [lia|]. split; [by etrans|]. split.
  - intros name k v Hname Hname' Hv. by apply Hcomp, Hcomp'.
  - intros k h3 Hk. destruct (Hhealth' k h3 Hk) as (h2 & Hk2 & Hid2 & Hle2).
    destruct (Hhealth k h2 Hk2) as (h1 & Hk1 & Hid1 & Hle1).
    exists h1. split; [done|]. split; [congruence|lia].
Qed.

Lemma getComponent_set_randomCalls (name : string) (k m : nat) (w : World) :
  getComponent name k (set_randomCalls m w) = getComponent name k w.
Proof. by destruct w. Qed.

Lemma getComponent_afterHit (name : string) (k : nat) target h dmg (w : World) :
  name <> "health" ->
  getComponent name k (afterHit target h dmg w) = getComponent name k w.
Proof.
  intros Hname. open_world w. unfold getComponent. simpl.
  by repeat case_bool_decide.
Qed.

Lemma neverGains_set_randomCalls (w : World) :
  neverGains w (set_randomCalls (S (randomCalls w)) w).
Proof.
  unfold neverGains. destruct w; simpl. repeat split; try done; try lia.
  intros k h' Hk. exists h'. split; [done|]. split; [done|lia].
Qed.

Lemma neverGains_afterHit target h dmg (w : World) :
  health (components w) !! Entity.id target = Some h -> (0 < dmg)%Z ->
  neverGains w (afterHit target h dmg w).
Proof.
  intros Hh Hdmg. unfold neverGains.
  split; [by destruct w|]. split; [by destruct w|]. split; [by destruct w|].
  split; [by destruct w|]. split; [destruct w; simpl; lia|].
  split; [by destruct w|]. split.
  - intros name k v Hname _. by rewrite getComponent_afterHit.
  - intros k h' Hk. open_world w.
    destruct (decide (k = Entity.id target)) as [->|Hne].
    + rewrite lookup_insert_eq in Hk. injection Hk as <-.
      exists h. split; [done|]. simpl. split; [done|lia].
    + rewrite lookup_insert_ne in Hk by done.
      exists h'. split; [done|]. split; [done|lia].
Qed.

Lemma neverGains_killEntity (target : Entity.t) (w : World) :
  target ∈ entities w -> neverGains w (killEntity target w).
Proof.
  intros Hin. unfold neverGains.
  split; [by destruct w|]. split; [by destruct w|]. split; [by destruct w|].
  split; [by destruct w|]. split; [by destruct w|].
  split; [destruct w; simpl in *; by apply spliceOut_sublist|]. split.
  - intros name k v _ _. unfold killEntity. rewrite getComponent_purge.
    case_bool_decide; [done|]. by destruct w.
  - intros k h' Hk. open_world w.
    apply lookup_delete_Some in Hk as [_ Hk].
    exists h'. split; [done|]. split; [done|lia].
Qed.

Lemma neverGains_resolveLink `{MathHost} weaponId w w' :
  resolveLink weaponId w = Some w' ->
  neverGains w w' /\ randomCalls w' <= S (randomCalls w).
Proof.
  intros Hrun.
  apply resolveLink_damage_cases in Hrun
    as [[->| ->]|(target & h & dmg & Hin & Hh & Hdmg & [->| ->])].
  - split; [apply neverGains_refl|lia].
  - split; [apply neverGains_set_randomCalls|by destruct w].
  - split; [by apply neverGains_afterHit|by destruct w].
  - split; [|by destruct w].
    eapply neverGains_trans; [by apply neverGains_afterHit|].
    apply neverGains_killEntity. by destruct w.
Qed.

Lemma neverGains_forEach_resolveLink `{MathHost} keys w w' :
  forEach resolveLink keys w = Some w' ->
  neverGains w w'
  /\ randomCalls w' <= randomCalls w + length keys
  /\ (forall k link, targeting (components w') !! k = Some link ->
        targeting (components w) !! k = Some link).
Proof.
  revert w. induction keys as [|weaponId keys IH]; intros w Hrun; simpl in Hrun.
  - simplify_eq. split; [apply neverGains_refl|]. split; [simpl; lia|done].
  - destruct (resolveLink weaponId w) as [w1|] eqn:Hstep; simpl in Hrun; [|done].
    destruct (IH w1 Hrun) as (Hrest & Hcount & Hlinks).
    destruct (neverGains_resolveLink _ _ _ Hstep) as [Hfirst Hone].
    split; [by eapply neverGains_trans|]. split; [simpl; lia|].
    intros k link Hk. eapply resolveLink_targeting; [exact Hstep|]. by apply Hlinks.
Qed.

Lemma length_Object_keys {A : Type} (m : gmap nat A) : length (Object_keys m) = size m.
Proof.
  unfold Object_keys. rewrite merge_sort_Permutation.
  rewrite length_map. apply length_map_to_list.
Qed.

Lemma neverGains_withTargeting (t : gmap nat TargetingComponent.t) (w : World) :
  neverGains w (withTargeting t w).
Proof.
  unfold neverGains. open_world w. repeat split; try done.
  - intros name k v Hname Hname'. unfold getComponent. simpl.
    by repeat case_bool_decide.
  - intros k h' Hk. exists h'. split; [done|]. split; [done|lia].
Qed.

(** X9.  A step only takes away.  The damage pass never adds an entity
    or an entry and never raises a health value: the registry it leaves
    is a sublist of the one it found, every entry it leaves was there
    before, health values only go down, and the counter, the flags and
    the console stay as they were; it draws at most one sample per link.
    The whole step does the same but for the targeting category, which
    the assignment pass rebuilds. *)
Theorem step_only_takes_away `{MathHost} (w w' : World) :
  (DamageSystem_update w = Some w' ->
   neverGains w w'
   /\ (forall k link, targeting (components w') !! k = Some link ->
         targeting (components w) !! k = Some link)
   /\ randomCalls w' <= randomCalls w + size (targeting (components w)))
  /\ (EntityComponentSystem_update w = Some w' -> neverGains w w').
Proof.
  split.
  - intros Hrun. unfold DamageSystem_update in Hrun.
    apply neverGains_forEach_resolveLink in Hrun as (Hgain & Hcount & Hlinks).
    rewrite length_Object_keys in Hcount. done.
  - intros Hrun. unfold EntityComponentSystem_update in Hrun.
    destruct (WeaponAssignmentSystem_update w) as [w1|] eqn:Hassign; simpl in Hrun; [|done].
    apply WeaponAssignmentSystem_update_duringPass, duringPass_recordedInPass in Hassign
      as [Hframe _].
    apply neverGains_forEach_resolveLink in Hrun as (Hgain & _ & _).
    eapply neverGains_trans; [|exact Hgain].
    rewrite Hframe. apply neverGains_withTargeting.
Qed.

Lemma step_only_takes_away_witness :
  neverGains cannonOnInfantry
    (default cannonOnInfantry (DamageSystem_update (H := duel_host) cannonOnInfantry))
  /\ neverGains duelWorld
       (default duelWorld (EntityComponentSystem_update (H := duel_host) duelWorld)).
Proof.
  split.
  - refine (proj1 (proj1 (step_only_takes_away (H := duel_host) cannonOnInfantry _) _)).
    vm_compute. reflexivity.
  - refine (proj2 (step_only_takes_away (H := duel_host) duelWorld _) _).
    vm_compute. reflexivity.
Defined.


(** ** Where links come from *)

Lemma primary_valid_melee (weaponType : string) (targetPreferences : TargetPreferences)
    (owner : Entity.t) (targetType : string) :
  obj_get weaponType WeaponTargetConfig = Some targetPreferences ->
  targetType ∈ filteredTargetTypes owner targetPreferences ->
  weaponType = "melee".
Proof.
  intros Hprefs Htype.
  apply elem_of_filteredTargetTypes in Htype as [Hprimary Hvalid].
  assert (Hclass : targetType = EntityType.ENEMY \/ targetType = EntityType.TARGET_PART
                   \/ targetType = EntityType.AGENT).
  { unfold validTargetTypes in Hvalid.
    repeat case_bool_decide;
      repeat (apply elem_of_cons in Hvalid as [->|Hvalid]; [by auto|]);
      by apply elem_of_nil in Hvalid. }
  revert Hprefs Hprimary. unfold obj_get, WeaponTargetConfig.
  repeat case_bool_decide; intros [= <-]; try done; intros Hprimary; exfalso;
    apply (bool_decide_eq_true_2 _) in Hprimary;
    destruct Hclass as [->|[->| ->]]; vm_compute in Hprimary; discriminate.
Qed.

Lemma inRangeOf_position `{MathHost} (c c' : Components) owner target weaponType :
  position c' = position c ->
  inRangeOf c owner target weaponType -> inRangeOf c' owner target weaponType.
Proof. unfold inRangeOf. by intros ->. Qed.

Lemma specificPartScan_inRange `{MathHost} w weaponId weaponType owner targetType parts link :
  specificPartScan w weaponId weaponType owner targetType parts = Some (Some link) ->
  exists target,
    target ∈ entities w
    /\ Entity.type target = EntityType.TARGET_PART
    /\ is_Some (Entity.components target)
    /\ inRangeOf (components w) owner target weaponType
    /\ link = TargetingComponent.new weaponId (Entity.id target) (getWeaponColor weaponType) true.
Proof.
  induction parts as [|part parts IH]; simpl; [done|].
  destruct (specificCandidate w weaponId targetType part) as [target|] eqn:Hcand; [|exact IH].
  destruct (linkIfInRange (components w) weaponId weaponType owner target)
    as [[found|]|] eqn:Hrange; simpl; [|exact IH|done].
  intros [= ->]. exists target.
  apply specificCandidate_Some in Hcand as (Hin & Htype & Hcomp & _).
  split; [done|]. split; [done|]. split; [done|].
  split; [by eapply linkIfInRange_Some_Some|by eapply linkIfInRange_link].
Qed.

Lemma specificScan_inRange `{MathHost} w weaponId weaponType owner specific link :
  specificScan w weaponId weaponType owner specific = Some (Some link) ->
  exists target,
    target ∈ entities w
    /\ Entity.type target = EntityType.TARGET_PART
    /\ is_Some (Entity.components target)
    /\ inRangeOf (components w) owner target weaponType
    /\ link = TargetingComponent.new weaponId (Entity.id target) (getWeaponColor weaponType) true.
Proof.
  induction specific as [|[targetType parts] specific IH]; simpl; [done|].
  destruct (specificPartScan w weaponId weaponType owner targetType parts)
    as [[found|]|] eqn:Hparts; simpl; [|exact IH|done].
  intros [= ->]. by eapply specificPartScan_inRange.
Qed.

(** What a call that records a link has found. *)
Lemma assignWeaponToTarget_found `{MathHost} weaponId owner w w' :
  assignWeaponToTarget weaponId owner w = Some w' ->
  w' = w
  \/ exists wp target,
       weapon (components w) !! weaponId = Some wp
       /\ target ∈ entities w
       /\ inRangeOf (components w) owner target (WeaponComponent.weaponType wp)
       /\ w' = recordLink weaponId
                 (TargetingComponent.new weaponId (Entity.id target)
                    (getWeaponColor (WeaponComponent.weaponType wp)) true) w
       /\ (WeaponComponent.weaponType wp = "melee"
           /\ Entity.type target ∈ validTargetTypes owner
           \/ Entity.type target = EntityType.TARGET_PART
              /\ is_Some (Entity.components target)).
Proof.
  unfold assignWeaponToTarget. intros Hrun.
  destruct (weapon (components w) !! weaponId) as [wp|] eqn:Hwp; simpl in Hrun; [|done].
  destruct (obj_get _ WeaponTargetConfig) as [prefs|] eqn:Hprefs; [|left; by simplify_eq].
  destruct (primaryScan w weaponId _ owner _) as [[link|]|] eqn:Hprimary;
    simpl in Hrun; [| |done].
  - right. injection Hrun as <-.
    apply primaryScan_order in Hprimary
      as (before & targetType & after & target & Htypes & Hcand & Hrange & -> & _).
    apply primaryCandidate_Some in Hcand as (Hin & Htype & _).
    assert (Hfiltered : targetType ∈ filteredTargetTypes owner prefs).
    { rewrite Htypes. apply elem_of_app. right. apply list_elem_of_here. }
    exists wp, target. split; [done|]. split; [done|]. split; [done|]. split; [done|].
    left. split; [by eapply primary_valid_melee|].
    rewrite Htype. by apply elem_of_filteredTargetTypes in Hfiltered as [_ ?].
  - destruct (specificTargets prefs) as [specific|]; [|left; by simplify_eq].
    destruct (specificScan w weaponId _ owner specific) as [[link|]|] eqn:Hspecific;
      simpl in Hrun; [|left; by simplify_eq|done].
    right. injection Hrun as <-.
    apply specificScan_inRange in Hspecific as (target & Hin & Htype & Hcomp & Hrange & ->).
    exists wp, target. split; [done|]. split; [done|]. split; [done|]. split; [done|].
    by right.
Qed.

Lemma justifiedLink_call `{MathHost} w0 owner slots weaponId w w' :
  owner ∈ entities w0 ->
  ownerEnabled w0 owner = true ->
  weaponSlots (components w0) !! Entity.id owner = Some slots ->
  Some weaponId ∈ WeaponSlotsComponent.weaponIds slots ->
  duringPass w0 w ->
  (forall k link, targeting (components w) !! k = Some link -> justifiedLink w0 k link) ->
  assignWeaponToTarget weaponId owner w = Some w' ->
  forall k link, targeting (components w') !! k = Some link -> justifiedLink w0 k link.
Proof.
  intros Howner Henabled Hslots Hslot Hpass Hjust Hrun k link Hk.
  apply duringPass_recordedInPass, recordedInPass_frame in Hpass
    as (Hents & Hpos & Hweapon & _).
  apply assignWeaponToTarget_found in Hrun
    as [->|(wp & target & Hwp & Hin & Hrange & -> & Hkind)]; [by apply Hjust|].
  rewrite recordLink_withTargeting in Hk.
  assert (Hk' : <[weaponId := TargetingComponent.new weaponId (Entity.id target)
                   (getWeaponColor (WeaponComponent.weaponType wp)) true]>
                  (targeting (components w)) !! k = Some link).
  { by destruct w as [? [] ? ? ? ? ?]. }
  destruct (decide (k = weaponId)) as [->|Hne].
  - rewrite lookup_insert_eq in Hk'. injection Hk' as <-.
    exists owner, slots, wp, target.
    split; [done|]. split; [done|]. split; [done|]. split; [done|].
    split; [by rewrite <- Hweapon|]. split; [by rewrite <- Hents|].
    split; [by eapply inRangeOf_position|]. done.
  - rewrite lookup_insert_ne in Hk' by done. by apply Hjust.
Qed.

Lemma justifiedLink_slots `{MathHost} w0 owner slots w w' :
  owner ∈ entities w0 ->
  ownerEnabled w0 owner = true ->
  weaponSlots (components w0) !! Entity.id owner = Some slots ->
  duringPass w0 w
  /\ (forall k link, targeting (components w) !! k = Some link -> justifiedLink w0 k link) ->
  forEach (assignSlot owner) (WeaponSlotsComponent.weaponIds slots) w = Some w' ->
  duringPass w0 w'
  /\ (forall k link, targeting (components w') !! k = Some link -> justifiedLink w0 k link).
Proof.
  intros Howner Henabled Hslots Hstart Hrun.
  refine (forEach_invariant (assignSlot owner)
            (fun s => duringPass w0 s
                      /\ forall k link, targeting (components s) !! k = Some link ->
                           justifiedLink w0 k link)
            _ _ w w' Hstart Hrun).
  intros [weaponId|] s s' Hslot [Hpass Hjust] Hstep; simpl in Hstep; [|by simplify_eq].
  split; [by eapply duringPass_call|].
  by eapply justifiedLink_call.
Qed.

Lemma justifiedLink_entity `{MathHost} w0 entity w w' :
  entity ∈ entities w0 ->
  duringPass w0 w
  /\ (forall k link, targeting (components w) !! k = Some link -> justifiedLink w0 k link) ->
  assignEntity entity w = Some w' ->
  duringPass w0 w'
  /\ (forall k link, targeting (components w') !! k = Some link -> justifiedLink w0 k link).
Proof.
  intros Hin [Hpass Hjust] Hrun.
  pose proof (recordedInPass_frame _ _ (duringPass_recordedInPass _ _ Hpass))
    as (_ & _ & _ & Hslots & Hagent & Henemy).
  unfold assignEntity in Hrun. rewrite Hagent, Henemy in Hrun.
  destruct (bool_decide (Entity.type entity = EntityType.AGENT) && agentTargetingEnabled w0)
    eqn:Hfirst.
  - unfold assignAgentWeapons in Hrun. rewrite Hslots in Hrun.
    destruct (weaponSlots (components w0) !! Entity.id entity) as [slots|] eqn:Hentry;
      simpl in Hrun; [|done].
    eapply justifiedLink_slots; [exact Hin| |exact Hentry|by split|exact Hrun].
    unfold ownerEnabled. by rewrite Hfirst.
  - destruct (bool_decide (Entity.type entity = EntityType.ENEMY) && enemyTargetingEnabled w0)
      eqn:Hsecond; [|by simplify_eq].
    unfold assignEnemyWeapons in Hrun. rewrite Hslots in Hrun.
    destruct (weaponSlots (components w0) !! Entity.id entity) as [slots|] eqn:Hentry;
      simpl in Hrun; [|done].
    eapply justifiedLink_slots; [exact Hin| |exact Hentry|by split|exact Hrun].
    unfold ownerEnabled. rewrite Hsecond. by rewrite orb_true_r.
Qed.

Lemma WeaponAssignmentSystem_update_justified `{MathHost} (w w' : World) :
  WeaponAssignmentSystem_update w = Some w' ->
  forall k link, targeting (components w') !! k = Some link -> justifiedLink w k link.
Proof.
  unfold WeaponAssignmentSystem_update. intros Hrun.
  refine (proj2 (forEach_invariant assignEntity
            (fun s => duringPass w s
                      /\ forall k link, targeting (components s) !! k = Some link ->
                           justifiedLink w k link)
            _ _ (clearTargeting w) w' _ Hrun)).
  - intros entity s s' Hin Hstart Hstep.
    eapply justifiedLink_entity; [|exact Hstart|exact Hstep]. by destruct w.
  - split; [constructor|]. intros k link Hk. by destruct w as [? [] ? ? ? ? ?].
Qed.

(** X10.  Every link has a reason.  After an assignment pass, each link
    of the targeting category is stored under the id of a weapon that
    sits in a slot of an entity of the registry whose class is enabled;
    its target is an entity of the registry within the maximum range of
    the weapon type from that owner, and its colour is the colour of the
    type.  If the primary scan found the target, the weapon is a melee
    weapon and the target is of a class the owner may attack; otherwise
    the target is a target part that carries its own part record. *)
Theorem every_link_has_a_reason `{MathHost} (w w' : World) (k : nat)
    (link : TargetingComponent.t) :
  WeaponAssignmentSystem_update w = Some w' ->
  targeting (components w') !! k = Some link ->
  justifiedLink w k link.
Proof.
  intros Hrun Hk. by eapply WeaponAssignmentSystem_update_justified.
Qed.

Lemma every_link_has_a_reason_witness :
  justifiedLink (H := duel_host) duelWorld 2 (TargetingComponent.new 2 3 "gray" true).
Proof.
  apply (every_link_has_a_reason (H := duel_host) duelWorld
           (default duelWorld (WeaponAssignmentSystem_update (H := duel_host) duelWorld))).
  - vm_compute. reflexivity.
  - vm_compute. reflexivity.
Defined.

Lemma forEach_assignEntity_disabled `{MathHost} (ents : list Entity.t) (w : World) :
  agentTargetingEnabled w = false ->
  enemyTargetingEnabled w = false ->
  forEach assignEntity ents w = Some w.
Proof.
  intros Hagent Henemy. induction ents as [|entity ents IH]; [done|].
  cbn [forEach].
  replace (assignEntity entity w) with (Some w);
    [exact IH|unfold assignEntity; by rewrite Hagent, Henemy, !andb_false_r].
Qed.

(** X11.  With both flags off a step does nothing but clear the links:
    whatever the store holds, no scan runs, no sample is drawn, nothing
    is read that could be missing, and the step returns the store with
    an empty targeting category. *)
Theorem both_flags_off_step_clears `{MathHost} (w : World) :
  agentTargetingEnabled w = false ->
  enemyTargetingEnabled w = false ->
  EntityComponentSystem_update w = Some (clearTargeting w).
Proof.
  intros Hagent Henemy.
  unfold EntityComponentSystem_update, WeaponAssignmentSystem_update.
  rewrite forEach_assignEntity_disabled by (by destruct w).
  cbn [mbind option_bind]. unfold DamageSystem_update.
  replace (targeting (components (clearTargeting w))) with (∅ : gmap nat TargetingComponent.t)
    by (by destruct w as [? [] ? ? ? ? ?]).
  by rewrite Object_keys_empty.
Qed.

Lemma both_flags_off_step_clears_witness :
  EntityComponentSystem_update (H := duel_host)
    (api_toggleAgentTargeting (api_toggleEnemyTargeting duelWorld))
  = Some (clearTargeting (api_toggleAgentTargeting (api_toggleEnemyTargeting duelWorld))).
Proof.
  apply (both_flags_off_step_clears (H := duel_host)); reflexivity.
Defined.


(** ** Where weapons are *)

Lemma weaponsBesideOwner_frame (w w' : World) :
  position (components w') = position (components w) ->
  weaponSlots (components w') = weaponSlots (components w) ->
  weaponsBesideOwner w -> weaponsBesideOwner w'.
Proof. unfold weaponsBesideOwner. by intros -> ->. Qed.

Lemma weaponsBesideOwner_add_position (data : PositionComponent.t) (w : World) :
  position (components w) !! PositionComponent.entityId data = None ->
  weaponsBesideOwner w ->
  weaponsBesideOwner (addComponent (position_data data) w).
Proof.
  intros Hfresh Hbeside k slots weaponId Hk Hcell.
  destruct (Hbeside k slots weaponId) as (op & wpos & Hop & Hwpos & Hx & Hy);
    [by destruct w as [? [] ? ? ? ? ?]|done|].
  exists op, wpos. open_world w.
  rewrite !lookup_insert_ne by congruence. done.
Qed.

Lemma weaponsBesideOwner_add_empty_slots (entityId numberOfSlots : nat) (w : World) :
  weaponsBesideOwner w ->
  weaponsBesideOwner
    (addComponent (weaponSlots_data (WeaponSlotsComponent.new entityId numberOfSlots)) w).
Proof.
  intros Hbeside k slots weaponId Hk Hcell. unfold weaponsBesideOwner in Hbeside. open_world w.
  destruct (decide (entityId = k)) as [->|Hne].
  - rewrite lookup_insert_eq in Hk. simplify_eq. simpl in Hcell.
    by apply elem_of_replicate in Hcell as [? _].
  - rewrite lookup_insert_ne in Hk by done. by eapply Hbeside.
Qed.

Lemma weaponsBesideOwner_withNewEntity (type : string) (x y : Q) (base : Z)
    (numberOfSlots : nat) (w : World) :
  storeInvariant w -> weaponsBesideOwner w ->
  weaponsBesideOwner (withNewEntity type x y base numberOfSlots w).
Proof.
  intros Hinv Hbeside. unfold withNewEntity.
  pose proof (inv_keys w Hinv (nodeId w) (le_n _)) as (Hfresh & _).
  apply weaponsBesideOwner_add_empty_slots.
  eapply weaponsBesideOwner_frame; [| |apply weaponsBesideOwner_add_position].
  - by destruct w as [? [] ? ? ? ? ?].
  - by destruct w as [? [] ? ? ? ? ?].
  - by destruct w as [? [] ? ? ? ? ?].
  - eapply weaponsBesideOwner_frame; [| |exact Hbeside]; by destruct w.
Qed.

Lemma weaponsBesideOwner_addWeaponToEntity (entityId : nat) (weaponType : string)
    (w w' : World) :
  storeInvariant w -> weaponsBesideOwner w ->
  addWeaponToEntity entityId weaponType w = Some w' ->
  weaponsBesideOwner w'.
Proof.
  intros Hinv Hbeside Hrun.
  pose proof (inv_keys w Hinv (nodeId w) (le_n _)) as (Hfresh & _).
  apply addWeaponToEntity_Some in Hrun as (ownerPosition & slots & Hpos & Hslots & ->).
  cbv zeta.
  assert (Hw1 : weaponsBesideOwner
            (set_components
               (set_weaponSlots
                  (insert entityId (WeaponSlotsComponent.addWeapon (nodeId w) slots).1))
               (addComponent
                  (position_data (PositionComponent.new (nodeId w)
                                    (PositionComponent.x ownerPosition + 10)
                                    (PositionComponent.y ownerPosition + 10)))
                  (addComponent (weapon_data (WeaponComponent.new (nodeId w) weaponType))
                     (set_nodeId (S (nodeId w)) w))))).
  { pose proof (fun other => addWeapon_cells (nodeId w) other slots) as Hcells.
    set (slots' := (WeaponSlotsComponent.addWeapon (nodeId w) slots).1) in *.
    clearbody slots'.
    assert (Hne : entityId <> nodeId w) by (intros ->; congruence).
    intros k s weaponId Hk Hcell. unfold weaponsBesideOwner in Hbeside. open_world w.
    destruct (decide (entityId = k)) as [<-|Hother].
    - rewrite lookup_insert_eq in Hk. simplify_eq.
      rewrite (lookup_insert_ne _ n entityId) by done.
      destruct (Hcells weaponId Hcell) as [->|Hold].
      + exists ownerPosition. eexists. rewrite lookup_insert_eq. done.
      + destruct (Hbeside entityId slots weaponId Hslots Hold)
          as (op & wpos & Hop & Hwpos & Hx & Hy).
        exists op, wpos. rewrite lookup_insert_ne by congruence. done.
    - rewrite lookup_insert_ne in Hk by done.
      destruct (Hbeside k s weaponId Hk Hcell) as (op & wpos & Hop & Hwpos & Hx & Hy).
      exists op, wpos. rewrite !lookup_insert_ne by congruence. done. }
  destruct (WeaponSlotsComponent.addWeapon (nodeId w) slots).2; [|done].
  eapply weaponsBesideOwner_frame; [| |exact Hw1]; done.
Qed.

Lemma weaponsBesideOwner_addWeaponIfFree (entityId : nat) (extra : bool)
    (weaponType : string) (w w' : World) :
  storeInvariant w -> weaponsBesideOwner w ->
  addWeaponIfFree entityId extra weaponType w = Some w' ->
  weaponsBesideOwner w'.
Proof.
  intros Hinv Hbeside. unfold addWeaponIfFree.
  destruct (hasNullSlot entityId w) as [free|]; simpl; [|done].
  destruct (free && extra); [|by intros [= <-]].
  by apply weaponsBesideOwner_addWeaponToEntity.
Qed.

Lemma weaponsBesideOwner_addTargetPartToEntity `{MathHost} (enemyId : nat)
    (partType : string) (w w' : World) :
  storeInvariant w -> weaponsBesideOwner w ->
  addTargetPartToEntity enemyId partType w = Some w' ->
  weaponsBesideOwner w'.
Proof.
  intros Hinv Hbeside. rewrite addTargetPartToEntity_Some. intros [= <-].
  pose proof (inv_keys w Hinv (nodeId w) (le_n _)) as (Hfresh & _).
  eapply weaponsBesideOwner_frame;
    [| |apply (weaponsBesideOwner_add_position
                 (PositionComponent.new (nodeId w)
                    (Math_random (randomCalls w) * 800)
                    (Math_random (S (randomCalls w)) * 600))
                 (set_randomCalls (S (S (randomCalls w))) (set_nodeId (S (nodeId w)) w)))].
  - by destruct w as [? [] ? ? ? ? ?].
  - by destruct w as [? [] ? ? ? ? ?].
  - by destruct w as [? [] ? ? ? ? ?].
  - eapply weaponsBesideOwner_frame; [| |exact Hbeside]; by destruct w.
Qed.

Lemma weaponsBesideOwner_addAgent `{MathHost} (w w' : World) :
  storeInvariant w -> weaponsBesideOwner w -> api_addAgent w = Some w' ->
  weaponsBesideOwner w'.
Proof.
  intros Hinv Hbeside. rewrite api_addAgent_shape.
  set (shell := withNewEntity _ _ _ _ _ _).
  assert (Hshell : storeInvariant shell /\ weaponsBesideOwner shell).
  { split.
    - apply (storeInvariant_withNewEntity EntityType.AGENT); [by left | done |].
      by apply storeInvariant_set_randomCalls.
    - apply weaponsBesideOwner_withNewEntity; [by apply storeInvariant_set_randomCalls|].
      eapply weaponsBesideOwner_frame; [| |exact Hbeside]; by destruct w. }
  clearbody shell. destruct Hshell as [Hinv1 Hbeside1].
  destruct (addWeaponToEntity (nodeId w) "rifle" shell) as [w2|] eqn:Hrifle; [|done].
  cbn [mbind option_bind].
  destruct (arr_get WeaponTypes _) as [randomWeaponType|] eqn:Hchoice; [|done].
  cbn [mbind option_bind].
  apply weaponsBesideOwner_addWeaponToEntity.
  - apply storeInvariant_set_randomCalls. by eapply storeInvariant_addWeaponToEntity.
  - eapply weaponsBesideOwner_frame;
      [| |eapply weaponsBesideOwner_addWeaponToEntity; [exact Hinv1|exact Hbeside1|exact Hrifle]];
      by destruct w2.
Qed.

Lemma weaponsBesideOwner_addEnemy `{MathHost} (w w' : World) :
  storeInvariant w -> weaponsBesideOwner w -> api_addEnemy w = Some w' ->
  weaponsBesideOwner w'.
Proof.
  intros Hinv Hbeside. rewrite api_addEnemy_shape.
  destruct (arr_get EnemyTypes _) as [enemyTypeChoice|]; [|done].
  cbn [mbind option_bind].
  destruct (obj_get enemyTypeChoice EntityStats) as [enemyHealth|] eqn:Hstats; [|done].
  apply EntityStats_positive in Hstats.
  cbn [mbind option_bind]. cbv zeta.
  set (shell := addComponent (enemyType_data _) _).
  assert (Hshell : storeInvariant shell /\ weaponsBesideOwner shell).
  { split.
    - apply storeInvariant_add_enemyType; [destruct w; simpl; lia|].
      apply (storeInvariant_withNewEntity EntityType.ENEMY); [by right | done |].
      by apply storeInvariant_set_randomCalls.
    - eapply weaponsBesideOwner_frame;
        [| |apply (weaponsBesideOwner_withNewEntity EntityType.ENEMY
                     (Math_random (S (randomCalls w)) * 800)
                     (Math_random (S (S (randomCalls w))) * 600)
                     enemyHealth 2 (set_randomCalls (S (S (S (randomCalls w)))) w))].
      + by destruct w as [? [] ? ? ? ? ?].
      + by destruct w as [? [] ? ? ? ? ?].
      + by apply storeInvariant_set_randomCalls.
      + eapply weaponsBesideOwner_frame; [| |exact Hbeside]; by destruct w. }
  clearbody shell. destruct Hshell as [Hinv1 Hbeside1].
  destruct (addWeaponIfFree (nodeId w) true "laser" shell) as [w1|] eqn:H1; [|done].
  apply weaponsBesideOwner_addWeaponIfFree in H1 as Hbeside2; [|done|done].
  apply storeInvariant_addWeaponIfFree in H1 as Hinv2; [|done].
  cbn [mbind option_bind].
  destruct (addWeaponIfFree (nodeId w) _ "rocket" w1) as [w2|] eqn:H2; [|done].
  apply weaponsBesideOwner_addWeaponIfFree in H2 as Hbeside3; [|done|done].
  apply storeInvariant_addWeaponIfFree in H2 as Hinv3; [|done].
  cbn [mbind option_bind].
  destruct (addWeaponIfFree (nodeId w) _ "cannon" w2) as [w3|] eqn:H3; [|done].
  apply weaponsBesideOwner_addWeaponIfFree in H3 as Hbeside4; [|done|done].
  apply storeInvariant_addWeaponIfFree in H3 as Hinv4; [|done].
  cbn [mbind option_bind].
  destruct (addWeaponIfFree (nodeId w) true "melee" w3) as [w4|] eqn:H4; [|done].
  apply weaponsBesideOwner_addWeaponIfFree in H4 as Hbeside5; [|done|done].
  apply storeInvariant_addWeaponIfFree in H4 as Hinv5; [|done].
  cbn [mbind option_bind]. intros Hparts.
  assert (Hend : storeInvariant w' /\ weaponsBesideOwner w'); [|by destruct Hend].
  revert Hparts.
  apply (forEach_invariant _ (fun s => storeInvariant s /\ weaponsBesideOwner s)); [|done].
  intros partType s s' _ [Hs1 Hs2] Hpart.
  split; [by eapply storeInvariant_addTargetPartToEntity
         |by eapply weaponsBesideOwner_addTargetPartToEntity].
Qed.

Lemma weaponsBesideOwner_resolveLink `{MathHost} (weaponId : nat) (w w' : World) :
  equipped w -> weaponsBesideOwner w -> resolveLink weaponId w = Some w' ->
  weaponsBesideOwner w'.
Proof.
  intros [Hentity Hslot Hweapon] Hbeside Hrun.
  apply resolveLink_cases in Hrun
    as [[->| ->]|(target & h & dmg & Hin & Hpos & Hh & Hcase)];
    [done | by destruct w |].
  destruct Hcase as [[Hpositive ->]|[Hdead ->]].
  - eapply weaponsBesideOwner_frame; [| |exact Hbeside]; by destruct w as [? [] ? ? ? ? ?].
  - destruct (Hentity target Hin) as (_ & _ & _ & Hnoweapon).
    intros k slots j Hk Hcell. unfold weaponsBesideOwner in Hbeside. open_world w.
    apply lookup_delete_Some in Hk as [Hne Hk].
    destruct (Hbeside k slots j Hk Hcell) as (op & wpos & Hop & Hwpos & Hx & Hy).
    exists op, wpos. rewrite lookup_delete_ne by done.
    rewrite lookup_delete_ne; [done|].
    intros <-. destruct (Hslot k slots (Entity.id target) Hk Hcell) as [? Hsome]. congruence.
Qed.

Lemma reachable_weaponsBesideOwner `{MathHost} (w : World) :
  reachable w -> weaponsBesideOwner w.
Proof.
  induction 1 as [|w w' Hw IH Hadd|w w' Hw IH Hadd|w _ IH|w _ IH|w w' Hw IH Hstep].
  - intros k slots weaponId Hk. simpl in Hk. by rewrite lookup_empty in Hk.
  - eapply weaponsBesideOwner_addAgent; [by apply reachable_storeInvariant | done | done].
  - eapply weaponsBesideOwner_addEnemy; [by apply reachable_storeInvariant | done | done].
  - eapply weaponsBesideOwner_frame; [| |exact IH]; by destruct w.
  - eapply weaponsBesideOwner_frame; [| |exact IH]; by destruct w.
  - pose proof (reachable_storeInvariant _ Hw) as Hinv.
    pose proof (reachable_equipped _ Hw) as Heq.
    unfold EntityComponentSystem_update in Hstep.
    destruct (WeaponAssignmentSystem_update w) as [w1|] eqn:Hassign; simpl in Hstep; [|done].
    pose proof (duringPass_recordedInPass _ _
                  (WeaponAssignmentSystem_update_duringPass _ _ Hassign)) as Hpass.
    assert (Hw1 : storeInvariant w1 /\ equipped w1 /\ weaponsBesideOwner w1).
    { split; [by eapply storeInvariant_assignment|].
      split; [by apply (equipped_recordedInPass w)|].
      apply recordedInPass_frame in Hpass as (_ & Hpos & _ & Hslots & _).
      by eapply weaponsBesideOwner_frame. }
    revert Hstep. unfold DamageSystem_update.
    generalize (Object_keys (targeting (components w1))). intros keys Hrun.
    assert (Hend : storeInvariant w' /\ equipped w' /\ weaponsBesideOwner w');
      [|by destruct Hend as (_ & _ & ?)].
    revert Hrun.
    apply (forEach_invariant _
             (fun s => storeInvariant s /\ equipped s /\ weaponsBesideOwner s)); [|done].
    intros weaponId s s' _ (Hs1 & Hs2 & Hs3) Hround.
    split; [by eapply storeInvariant_resolveLink|].
    split; [by eapply equipped_resolveLink|by eapply weaponsBesideOwner_resolveLink].
Qed.


(** ** What the script can reach *)

Lemma justifiedLink_reachable `{MathHost} (w : World) (k : nat) (link : TargetingComponent.t) :
  storeInvariant w ->
  justifiedLink w k link ->
  exists owner target slots wp ownerPosition targetPosition,
    owner ∈ entities w /\ target ∈ entities w
    /\ weaponSlots (components w) !! Entity.id owner = Some slots
    /\ Some k ∈ WeaponSlotsComponent.weaponIds slots
    /\ weapon (components w) !! k = Some wp
    /\ WeaponComponent.weaponType wp = "melee"
    /\ link = TargetingComponent.new k (Entity.id target) "gray" true
    /\ (Entity.type owner = EntityType.AGENT /\ agentTargetingEnabled w = true
        /\ Entity.type target = EntityType.ENEMY
        \/ Entity.type owner = EntityType.ENEMY /\ enemyTargetingEnabled w = true
           /\ Entity.type target = EntityType.AGENT)
    /\ position (components w) !! Entity.id owner = Some ownerPosition
    /\ position (components w) !! Entity.id target = Some targetPosition
    /\ (distanceBetween ownerPosition targetPosition <= 1)%Q.
Proof.
  intros Hinv (owner & slots & wp & target & Howner & Henabled & Hslots & Hcell & Hwp
               & Htarget & Hrange & -> & Hkind).
  destruct (inv_types w Hinv target Htarget) as [Hclass Hnone].
  destruct Hkind as [[Hmelee Hvalid]|[_ Hsome]];
    [|rewrite Hnone in Hsome; by destruct Hsome].
  rewrite Hmelee in Hrange.
  destruct Hrange as (ownerPosition & targetPosition & range & Hop & Htp & Hr & Hle).
  injection Hr as <-. apply Qle_bool_iff in Hle.
  exists owner, target, slots, wp, ownerPosition, targetPosition.
  split; [done|]. split; [done|]. split; [done|]. split; [done|]. split; [done|].
  split; [done|]. split; [by rewrite Hmelee|]. split; [|done].
  unfold ownerEnabled in Henabled. unfold validTargetTypes in Hvalid.
  destruct (inv_types w Hinv owner Howner) as [[Hagent|Henemy] _].
  - left. rewrite Hagent in *. split; [done|].
    rewrite bool_decide_eq_true_2 in Henabled, Hvalid by done.
    rewrite (bool_decide_eq_false_2 (EntityType.AGENT = EntityType.ENEMY)) in Henabled by done.
    split; [by destruct (agentTargetingEnabled w)|].
    apply elem_of_cons in Hvalid as [?|Hvalid]; [done|].
    apply list_elem_of_singleton in Hvalid.
    destruct Hclass as [Hc|Hc]; [rewrite Hc in Hvalid; discriminate|done].
  - right. rewrite Henemy in *. split; [done|].
    rewrite (bool_decide_eq_false_2 (EntityType.ENEMY = EntityType.AGENT)) in Henabled, Hvalid
      by done.
    rewrite bool_decide_eq_true_2 in Henabled, Hvalid by done.
    split; [by destruct (enemyTargetingEnabled w)|].
    by apply list_elem_of_singleton in Hvalid.
Qed.

(** X12.  In the worlds the script can reach only melee weapons ever
    get a link.  After an assignment pass every link goes from a melee
    weapon in a slot of an agent or enemy whose class is enabled to an
    entity of the other class, and the two entities are at most 1 apart;
    the seven other weapon types never acquire a target, their
    preference lists naming enemy types where the pass looks for entity
    classes. *)
Theorem reachable_links_are_melee `{MathHost} (w w' : World) (k : nat)
    (link : TargetingComponent.t) :
  reachable w ->
  WeaponAssignmentSystem_update w = Some w' ->
  targeting (components w') !! k = Some link ->
  exists owner target slots wp ownerPosition targetPosition,
    owner ∈ entities w /\ target ∈ entities w
    /\ weaponSlots (components w) !! Entity.id owner = Some slots
    /\ Some k ∈ WeaponSlotsComponent.weaponIds slots
    /\ weapon (components w) !! k = Some wp
    /\ WeaponComponent.weaponType wp = "melee"
    /\ link = TargetingComponent.new k (Entity.id target) "gray" true
    /\ (Entity.type owner = EntityType.AGENT /\ agentTargetingEnabled w = true
        /\ Entity.type target = EntityType.ENEMY
        \/ Entity.type owner = EntityType.ENEMY /\ enemyTargetingEnabled w = true
           /\ Entity.type target = EntityType.AGENT)
    /\ position (components w) !! Entity.id owner = Some ownerPosition
    /\ position (components w) !! Entity.id target = Some targetPosition
    /\ (distanceBetween ownerPosition targetPosition <= 1)%Q.
Proof.
  intros Hreach Hrun Hk.
  apply justifiedLink_reachable; [by apply reachable_storeInvariant|].
  by eapply WeaponAssignmentSystem_update_justified.
Qed.

Lemma reachable_links_are_melee_witness :
  exists owner target slots wp ownerPosition targetPosition,
    owner ∈ entities duelWorld /\ target ∈ entities duelWorld
    /\ weaponSlots (components duelWorld) !! Entity.id owner = Some slots
    /\ Some 2 ∈ WeaponSlotsComponent.weaponIds slots
    /\ weapon (components duelWorld) !! 2 = Some wp
    /\ WeaponComponent.weaponType wp = "melee"
    /\ TargetingComponent.new 2 3 "gray" true
       = TargetingComponent.new 2 (Entity.id target) "gray" true
    /\ (Entity.type owner = EntityType.AGENT /\ agentTargetingEnabled duelWorld = true
        /\ Entity.type target = EntityType.ENEMY
        \/ Entity.type owner = EntityType.ENEMY /\ enemyTargetingEnabled duelWorld = true
           /\ Entity.type target = EntityType.AGENT)
    /\ position (components duelWorld) !! Entity.id owner = Some ownerPosition
    /\ position (components duelWorld) !! Entity.id target = Some targetPosition
    /\ (distanceBetween (H := duel_host) ownerPosition targetPosition <= 1)%Q.
Proof.
  apply (reachable_links_are_melee (H := duel_host) duelWorld
           (default duelWorld (WeaponAssignmentSystem_update (H := duel_host) duelWorld))
           2 (TargetingComponent.new 2 3 "gray" true)).
  - exact duelWorld_reachable.
  - vm_compute. reflexivity.
  - vm_compute. reflexivity.
Defined.

Lemma find_id_found (l : list Entity.t) (target : Entity.t) :
  target ∈ l ->
  exists found,
    List.find (fun entity => bool_decide (Entity.id entity = Entity.id target)) l = Some found
    /\ Entity.id found = Entity.id target.
Proof.
  intros Hin.
  destruct (List.find _ l) as [found|] eqn:Hfind.
  - exists found. split; [done|]. by apply find_id_Some in Hfind as [_ ?].
  - apply list_elem_of_In in Hin.
    pose proof (List.find_none _ _ Hfind target Hin) as Hno. simpl in Hno.
    by rewrite bool_decide_eq_true_2 in Hno.
Qed.

(** A weapon ten to the right of and ten below an owner that is at most
    1 from the target is farther than 1 from the target. *)
Lemma weapon_out_of_reach `{MathHost} (ownerPosition weaponPosition targetPosition : PositionComponent.t) :
  sqrtCoarse ->
  PositionComponent.x weaponPosition = (PositionComponent.x ownerPosition + 10)%Q ->
  PositionComponent.y weaponPosition = (PositionComponent.y ownerPosition + 10)%Q ->
  (distanceBetween ownerPosition targetPosition <= 1)%Q ->
  (1 < distanceBetween weaponPosition targetPosition)%Q.
Proof.
  intros Hsqrt Hx Hy Hnear. unfold distanceBetween in *. rewrite Hx, Hy.
  apply Hsqrt in Hnear. unfold Math_pow2 in *.
  destruct (Qlt_le_dec 1
              (Math_sqrt
                 ((PositionComponent.x ownerPosition + 10 - PositionComponent.x targetPosition)
                  * (PositionComponent.x ownerPosition + 10 - PositionComponent.x targetPosition)
                  + (PositionComponent.y ownerPosition + 10 - PositionComponent.y targetPosition)
                    * (PositionComponent.y ownerPosition + 10
                       - PositionComponent.y targetPosition))))
    as [Hfar|Hclose]; [done|].
  apply Hsqrt in Hclose. exfalso.
  set (a := (PositionComponent.x ownerPosition - PositionComponent.x targetPosition)%Q) in *.
  set (b := (PositionComponent.y ownerPosition - PositionComponent.y targetPosition)%Q) in *.
  assert (Ha : (-2 < a)%Q) by nra.
  assert (Hb : (-2 < b)%Q) by nra.
  assert (Hclose' : ((a + 10) * (a + 10) + (b + 10) * (b + 10) < 4)%Q).
  { unfold a, b. lra. }
  nra.
Qed.

Lemma resolveLink_reachable_miss `{MathHost} (w w1 : World) (m k : nat)
    (link : TargetingComponent.t) :
  sqrtCoarse -> samplesNonNegative ->
  storeInvariant w -> weaponsBesideOwner w ->
  recordedInPass w w1 ->
  justifiedLink w k link ->
  targeting (components w1) !! k = Some link ->
  resolveLink k (set_randomCalls m w1) = Some (set_randomCalls (S m) w1).
Proof.
  intros Hsqrt Hsamples Hinv Hbeside Hpass Hjust Hk.
  apply recordedInPass_frame in Hpass as (Hents & Hpos & Hweapon & _).
  destruct (justifiedLink_reachable w k link Hinv Hjust)
    as (owner & target & slots & wp & op & tp & Howner & Htarget & Hslots & Hcell & Hwp
        & Hmelee & -> & _ & Hop & Htp & Hnear).
  destruct (Hbeside _ _ _ Hslots Hcell) as (op' & wpos & Hop' & Hwpos & Hx & Hy).
  assert (op' = op) as -> by congruence.
  destruct (find_id_found (entities w) target Htarget) as (found & Hfind & Hfound).
  pose proof (weapon_out_of_reach op wpos tp Hsqrt Hx Hy Hnear) as Hfar.
  rewrite (resolveLink_out_of_range k (set_randomCalls m w1)
             (TargetingComponent.new k (Entity.id target) "gray" true) wp found wpos tp
             (1, 1)%Q {| damage := 20; accuracy := 1 |}).
  - by destruct w1.
  - by destruct w1.
  - done.
  - destruct w1 as [? [] ? ? ? ? ?]; simpl in *. by rewrite Hweapon.
  - destruct w1; simpl in *. by rewrite Hents.
  - destruct w1 as [? [] ? ? ? ? ?]; simpl in *. by rewrite Hpos.
  - destruct w1 as [? [] ? ? ? ? ?]; simpl in *. by rewrite Hpos, Hfound.
  - by rewrite Hmelee.
  - by rewrite Hmelee.
  - done.
  - simpl. lra.
  - apply Hsamples.
Qed.

Lemma forEach_resolveLink_reachable_miss `{MathHost} (w w1 : World) (keys : list nat) (m : nat) :
  sqrtCoarse -> samplesNonNegative ->
  storeInvariant w -> weaponsBesideOwner w ->
  recordedInPass w w1 ->
  (forall k link, targeting (components w1) !! k = Some link -> justifiedLink w k link) ->
  (forall k, k ∈ keys -> is_Some (targeting (components w1) !! k)) ->
  forEach resolveLink keys (set_randomCalls m w1)
  = Some (set_randomCalls (m + length keys) w1).
Proof.
  intros Hsqrt Hsamples Hinv Hbeside Hpass Hjust. revert m.
  induction keys as [|k keys IH]; intros m Hkeys.
  - simpl. by rewrite Nat.add_0_r.
  - cbn [forEach]. destruct (Hkeys k (list_elem_of_here _ _)) as [link Hk].
    rewrite (resolveLink_reachable_miss w w1 m k link) by eauto.
    cbn [mbind option_bind]. rewrite IH.
    + simpl. by rewrite Nat.add_succ_r.
    + intros k' Hin. apply Hkeys. by apply list_elem_of_further.
Qed.

(** X13.  In the worlds the script can reach no step ever does damage.
    Links only go from melee weapons to targets at most 1 from the
    owner, while the damage pass measures from the position of the
    weapon, which lies ten to the right of and ten below the owner: the
    target is out of the weapon's range of 1 and the hit probability is
    0.  So, for a host whose square root is not off by a factor of two
    and whose samples are not negative, a step leaves the registry and
    every entry but the links as they were, and the damage pass only
    consumes one sample per link. *)
Theorem reachable_step_never_damages `{MathHost} (w w' : World) :
  sqrtCoarse -> samplesNonNegative ->
  reachable w ->
  EntityComponentSystem_update w = Some w' ->
  (exists w1, WeaponAssignmentSystem_update w = Some w1
     /\ w' = set_randomCalls (randomCalls w + size (targeting (components w1))) w1)
  /\ w' = set_randomCalls (randomCalls w') (withTargeting (targeting (components w')) w)
  /\ entities w' = entities w
  /\ health (components w') = health (components w).
Proof.
  intros Hsqrt Hsamples Hreach Hstep.
  pose proof (reachable_storeInvariant _ Hreach) as Hinv.
  pose proof (reachable_weaponsBesideOwner _ Hreach) as Hbeside.
  unfold EntityComponentSystem_update in Hstep.
  destruct (WeaponAssignmentSystem_update w) as [w1|] eqn:Hassign; simpl in Hstep; [|done].
  pose proof (duringPass_recordedInPass _ _
                (WeaponAssignmentSystem_update_duringPass _ _ Hassign)) as Hpass.
  unfold DamageSystem_update in Hstep.
  replace w1 with (set_randomCalls (randomCalls w1) w1) in Hstep at 2 by (by destruct w1).
  rewrite (forEach_resolveLink_reachable_miss w w1) in Hstep; try done.
  - injection Hstep as <-. rewrite length_Object_keys.
    destruct Hpass as [Hframe _].
    assert (Hcalls : randomCalls w1 = randomCalls w) by (rewrite Hframe; by destruct w).
    rewrite Hcalls. split; [by exists w1|].
    clear -Hframe.
    remember (targeting (components w1)) as t eqn:Ht in Hframe. clear Ht.
    subst w1. by destruct w as [? [] ? ? ? ? ?].
  - intros k link Hk. by eapply WeaponAssignmentSystem_update_justified.
  - intros k Hin. by apply elem_of_Object_keys.
Qed.

Lemma sqrtDown_coarse (q : Q) : (sqrtDown q <= 1)%Q -> (q < 4)%Q.
Proof.
  destruct q as [num den]. unfold sqrtDown, Qle, Qlt. simpl. intros Hle.
  destruct (Z_lt_le_dec num 0) as [Hneg|Hpos]; [lia|].
  assert (Hden : (1 <= Z.pos den)%Z) by lia.
  destruct (Z.sqrt_spec (num * Z.pos den)) as [_ Hupper]; [nia|].
  set (s := Z.sqrt (num * Z.pos den)) in *.
  assert (Hs : (0 <= s)%Z) by apply Z.sqrt_nonneg.
  assert (Hsd : (s <= Z.pos den)%Z) by lia.
  assert (Hsq : (Z.succ s * Z.succ s <= (Z.pos den + 1) * (Z.pos den + 1))%Z) by nia.
  assert (Hfour : ((Z.pos den + 1) * (Z.pos den + 1) <= 4 * Z.pos den * Z.pos den)%Z) by nia.
  assert (Hnd : (num * Z.pos den < 4 * Z.pos den * Z.pos den)%Z) by lia.
  nia.
Qed.

Lemma reachable_step_never_damages_witness :
  entities (default duelWorld (EntityComponentSystem_update (H := duel_host) duelWorld))
  = entities duelWorld
  /\ health (components
       (default duelWorld (EntityComponentSystem_update (H := duel_host) duelWorld)))
     = health (components duelWorld).
Proof.
  assert (Hsqrt : sqrtCoarse (H := duel_host)).
  { intros q. apply sqrtDown_coarse. }
  assert (Hsamples : samplesNonNegative (H := duel_host)).
  { intros [|[|[|[|n]]]]; simpl; try discriminate. }
  pose proof (reachable_step_never_damages (H := duel_host) duelWorld
                (default duelWorld (EntityComponentSystem_update (H := duel_host) duelWorld))
                Hsqrt Hsamples duelWorld_reachable) as Hstep.
  destruct Hstep as (_ & _ & Hentities & Hhealth).
  - vm_compute. reflexivity.
  - split; [exact Hentities|exact Hhealth].
Defined.


(** ** Spawning *)

Lemma addWeaponToEntity_free (entityId : nat) (weaponType : string) (w : World)
    (ownerPosition : PositionComponent.t) (slots : WeaponSlotsComponent.t)
    (before after : list (option nat)) :
  position (components w) !! entityId = Some ownerPosition ->
  weaponSlots (components w) !! entityId = Some slots ->
  WeaponSlotsComponent.weaponIds slots = before ++ None :: after ->
  None ∉ before ->
  exists w',
    addWeaponToEntity entityId weaponType w = Some w'
    /\ entities w' = entities w
    /\ nodeId w' = S (nodeId w)
    /\ randomCalls w' = randomCalls w
    /\ console w' = console w
    /\ enemyTargetingEnabled w' = enemyTargetingEnabled w
    /\ agentTargetingEnabled w' = agentTargetingEnabled w
    /\ weapon (components w')
       = <[nodeId w := WeaponComponent.new (nodeId w) weaponType]> (weapon (components w))
    /\ position (components w')
       = <[nodeId w := PositionComponent.new (nodeId w)
                         (PositionComponent.x ownerPosition + 10)
                         (PositionComponent.y ownerPosition + 10)]> (position (components w))
    /\ weaponSlots (components w')
       = <[entityId := WeaponSlotsComponent.mk (WeaponSlotsComponent.entityId slots)
                         (before ++ Some (nodeId w) :: after)]> (weaponSlots (components w))
    /\ health (components w') = health (components w)
    /\ enemyType (components w') = enemyType (components w)
    /\ targetPartType (components w') = targetPartType (components w)
    /\ targeting (components w') = targeting (components w).
Proof.
  intros Hpos Hslots Hcells Hbefore.
  unfold addWeaponToEntity. open_world w.
  rewrite Hpos. cbn [mbind option_bind]. simpl. rewrite Hslots. cbn [mbind option_bind].
  unfold WeaponSlotsComponent.addWeapon. rewrite Hcells, fillFirstNull_app by done.
  eexists. split; [reflexivity|]. simpl. repeat split.
Qed.

Lemma addWeaponToEntity_None (entityId : nat) (weaponType : string) (w : World) :
  addWeaponToEntity entityId weaponType w = None
  <-> position (components w) !! entityId = None
      \/ weaponSlots (components w) !! entityId = None.
Proof.
  unfold addWeaponToEntity. open_world w.
  destruct (pos !! entityId) as [ownerPosition|]; simpl; [|by split; [left|]].
  destruct (sl !! entityId) as [slots|]; simpl; [|by split; [right|]].
  destruct (WeaponSlotsComponent.addWeapon n slots) as [slots' [text|]];
    (split; [done|by intros [?|?]]).
Qed.

(** X14.  What [addWeaponToEntity] does.  The call throws exactly when
    the entity has no position or no slots.  When the entity has a free
    slot, the call takes the next id for the weapon, stores the weapon
    entry of the type under it, puts the weapon ten to the right of and
    ten below its owner, writes the id into the first free slot, and
    changes nothing else: no entity is registered, no warning is
    written, no sample is drawn. *)
Theorem addWeaponToEntity_outcomes (entityId : nat) (weaponType : string) (w : World) :
  (addWeaponToEntity entityId weaponType w = None
   <-> position (components w) !! entityId = None
       \/ weaponSlots (components w) !! entityId = None)
  /\ (forall ownerPosition slots before after,
        position (components w) !! entityId = Some ownerPosition ->
        weaponSlots (components w) !! entityId = Some slots ->
        WeaponSlotsComponent.weaponIds slots = before ++ None :: after ->
        None ∉ before ->
        exists w',
          addWeaponToEntity entityId weaponType w = Some w'
          /\ entities w' = entities w
          /\ nodeId w' = S (nodeId w)
          /\ randomCalls w' = randomCalls w
          /\ console w' = console w
          /\ enemyTargetingEnabled w' = enemyTargetingEnabled w
          /\ agentTargetingEnabled w' = agentTargetingEnabled w
          /\ weapon (components w')
             = <[nodeId w := WeaponComponent.new (nodeId w) weaponType]> (weapon (components w))
          /\ position (components w')
             = <[nodeId w := PositionComponent.new (nodeId w)
                               (PositionComponent.x ownerPosition + 10)
                               (PositionComponent.y ownerPosition + 10)]>
                 (position (components w))
          /\ weaponSlots (components w')
             = <[entityId := WeaponSlotsComponent.mk (WeaponSlotsComponent.entityId slots)
                               (before ++ Some (nodeId w) :: after)]>
                 (weaponSlots (components w))
          /\ health (components w') = health (components w)
          /\ enemyType (components w') = enemyType (components w)
          /\ targetPartType (components w') = targetPartType (components w)
          /\ targeting (components w') = targeting (components w)).
Proof.
  split; [apply addWeaponToEntity_None|].
  intros ownerPosition slots before after. apply addWeaponToEntity_free.
Qed.

Lemma addWeaponToEntity_outcomes_witness :
  addWeaponToEntity 6 "pistol" duelWorld = None
  /\ exists w', addWeaponToEntity 0 "pistol" duelWorld = Some w'
       /\ nodeId w' = S (nodeId duelWorld)
       /\ weaponSlots (components w')
          = <[0 := WeaponSlotsComponent.mk 0
                     ([Some 1; Some 2] ++ Some (nodeId duelWorld) :: [None; None; None; None])]>
              (weaponSlots (components duelWorld)).
Proof.
  split.
  - apply (proj1 (addWeaponToEntity_outcomes 6 "pistol" duelWorld)).
    right. vm_compute. reflexivity.
  - destruct (proj2 (addWeaponToEntity_outcomes 0 "pistol" duelWorld)
                (PositionComponent.new 0 0 0)
                (WeaponSlotsComponent.mk 0 [Some 1; Some 2; None; None; None; None; None])
                [Some 1; Some 2] [None; None; None; None])
      as (w' & Hrun & _ & Hnode & _ & _ & _ & _ & _ & _ & Hslots & _).
    + vm_compute. reflexivity.
    + vm_compute. reflexivity.
    + reflexivity.
    + by_computation.
    + exists w'. split; [exact Hrun|]. split; [exact Hnode|exact Hslots].
Defined.

Lemma arr_get_in_range {A : Type} (arr : list A) (i : Z) :
  (0 <= i < Z.of_nat (length arr))%Z -> is_Some (arr_get arr i).
Proof.
  intros [Hlow Hhigh]. unfold arr_get. rewrite bool_decide_eq_true_2 by done.
  apply lookup_lt_is_Some. lia.
Qed.

(** [Math.floor(r * n)] is an index of an array of [n] cells when [r]
    is in [[0, 1)]. *)
Lemma floor_index (r : Q) (n : nat) :
  (0 <= r)%Q -> (r < 1)%Q ->
  (0 <= Qfloor (r * inject_Z (Z.of_nat n)) < Z.of_nat n \/ n = 0%nat)%Z.
Proof.
  intros Hlow Hhigh. destruct n as [|n]; [by right|left].
  assert (Hn : (0 < inject_Z (Z.of_nat (S n)))%Q).
  { replace 0%Q with (inject_Z 0) by done. rewrite <- Zlt_Qlt. lia. }
  split.
  - replace 0%Z with (Qfloor 0) by done. apply Qfloor_resp_le. nra.
  - rewrite Zlt_Qlt. eapply Qle_lt_trans; [apply Qfloor_le|]. nra.
Qed.

Lemma randomChoice_in_range `{MathHost} (arr : list string) (r : Q) :
  arr <> [] -> (0 <= r)%Q -> (r < 1)%Q ->
  exists choice, arr_get arr (Qfloor (r * inject_Z (Z.of_nat (length arr)))) = Some choice
                 /\ choice ∈ arr.
Proof.
  intros Harr Hlow Hhigh.
  destruct (floor_index r (length arr) Hlow Hhigh) as [Hindex|Hnil];
    [|by destruct arr].
  destruct (arr_get_in_range arr _ Hindex) as [choice Hchoice].
  exists choice. split; [done|by eapply arr_get_elem].
Qed.

Lemma withNewEntity_projections (type : string) (x y : Q) (base : Z) (numberOfSlots : nat)
    (w : World) :
  let w' := withNewEntity type x y base numberOfSlots w in
  entities w' = entities w ++ [Entity.mk (nodeId w) type None]
  /\ nodeId w' = S (nodeId w)
  /\ randomCalls w' = randomCalls w
  /\ console w' = console w
  /\ enemyTargetingEnabled w' = enemyTargetingEnabled w
  /\ agentTargetingEnabled w' = agentTargetingEnabled w
  /\ position (components w')
     = <[nodeId w := PositionComponent.new (nodeId w) x y]> (position (components w))
  /\ health (components w')
     = <[nodeId w := HealthComponent.new (nodeId w) base]> (health (components w))
  /\ weaponSlots (components w')
     = <[nodeId w := WeaponSlotsComponent.new (nodeId w) numberOfSlots]>
         (weaponSlots (components w))
  /\ weapon (components w') = weapon (components w)
  /\ enemyType (components w') = enemyType (components w)
  /\ targetPartType (components w') = targetPartType (components w)
  /\ targeting (components w') = targeting (components w).
Proof. destruct w as [? [] ? ? ? ? ?]. simpl. repeat split. Qed.

Lemma api_addAgent_chosen `{MathHost} (w : World) (randomWeaponType : string) :
  arr_get WeaponTypes
    (Qfloor (Math_random (S (S (randomCalls w)))
             * inject_Z (Z.of_nat (length WeaponTypes)))) = Some randomWeaponType ->
  exists w', api_addAgent w = Some w' /\ agentSpawned w w' randomWeaponType.
Proof.
  intros Hchoice. rewrite api_addAgent_shape.
  set (x := (Math_random (randomCalls w) * 800)%Q).
  set (y := (Math_random (S (randomCalls w)) * 600)%Q).
  set (n := nodeId w).
  pose proof (withNewEntity_projections EntityType.AGENT x y 100 7
                (set_randomCalls (S (S (randomCalls w))) w)) as Hshell.
  cbv zeta in Hshell.
  replace (nodeId (set_randomCalls (S (S (randomCalls w))) w)) with n in Hshell
    by (by destruct w).
  replace (nodeId w) with n by done.
  set (shell := withNewEntity EntityType.AGENT x y 100 7
                  (set_randomCalls (S (S (randomCalls w))) w)) in *.
  clearbody shell.
  destruct Hshell as (He1 & Hn1 & Hrc1 & Hcon1 & Hfe1 & Hfa1 & Hpos1 & Hhp1 & Hsl1
                      & Hwp1 & Het1 & Htp1 & Htg1).
  destruct (addWeaponToEntity_free n "rifle" shell (PositionComponent.new n x y)
              (WeaponSlotsComponent.new n 7) [] (replicate 6 None))
    as (w2 & Hrun2 & He2 & Hn2 & Hrc2 & Hcon2 & Hfe2 & Hfa2 & Hwp2 & Hpos2 & Hsl2
        & Hhp2 & Het2 & Htp2 & Htg2).
  { rewrite Hpos1. apply lookup_insert_eq. }
  { rewrite Hsl1. apply lookup_insert_eq. }
  { reflexivity. }
  { apply not_elem_of_nil. }
  rewrite Hrun2. cbn [mbind option_bind].
  rewrite Hrc2, Hrc1. simpl randomCalls at 1.
  replace (randomCalls (set_randomCalls (S (S (randomCalls w))) w))
    with (S (S (randomCalls w))) by (by destruct w).
  rewrite Hchoice. cbn [mbind option_bind].
  rewrite Hn1 in Hn2, Hwp2, Hpos2, Hsl2. simpl in Hpos2, Hsl2.
  destruct (addWeaponToEntity_free n randomWeaponType
              (set_randomCalls (S (S (S (randomCalls w)))) w2)
              (PositionComponent.new n x y)
              (WeaponSlotsComponent.mk n (Some (S n) :: replicate 6 None))
              [Some (S n)] (replicate 5 None))
    as (w3 & Hrun3 & He3 & Hn3 & Hrc3 & Hcon3 & Hfe3 & Hfa3 & Hwp3 & Hpos3 & Hsl3
        & Hhp3 & Het3 & Htp3 & Htg3).
  { replace (position (components (set_randomCalls (S (S (S (randomCalls w)))) w2)))
      with (position (components w2)) by (by destruct w2).
    rewrite Hpos2, lookup_insert_ne by lia. rewrite Hpos1. apply lookup_insert_eq. }
  { replace (weaponSlots (components (set_randomCalls (S (S (S (randomCalls w)))) w2)))
      with (weaponSlots (components w2)) by (by destruct w2).
    rewrite Hsl2. apply lookup_insert_eq. }
  { reflexivity. }
  { intros Hin. apply list_elem_of_singleton in Hin. discriminate. }
  exists w3. split; [exact Hrun3|].
  unfold agentSpawned.
  replace (entities (set_randomCalls (S (S (S (randomCalls w)))) w2))
    with (entities w2) in He3 by (by destruct w2).
  replace (nodeId (set_randomCalls (S (S (S (randomCalls w)))) w2))
    with (nodeId w2) in * by (by destruct w2).
  replace (randomCalls (set_randomCalls (S (S (S (randomCalls w)))) w2))
    with (S (S (S (randomCalls w)))) in Hrc3 by (by destruct w2).
  replace (console (set_randomCalls (S (S (S (randomCalls w)))) w2))
    with (console w2) in Hcon3 by (by destruct w2).
  replace (enemyTargetingEnabled (set_randomCalls (S (S (S (randomCalls w)))) w2))
    with (enemyTargetingEnabled w2) in Hfe3 by (by destruct w2).
  replace (agentTargetingEnabled (set_randomCalls (S (S (S (randomCalls w)))) w2))
    with (agentTargetingEnabled w2) in Hfa3 by (by destruct w2).
  replace (components (set_randomCalls (S (S (S (randomCalls w)))) w2))
    with (components w2) in * by (by destruct w2).
  rewrite Hn2 in *.
  split; [by rewrite He3, He2, He1; destruct w|].
  split; [done|]. split; [done|].
  split; [by rewrite Hcon3, Hcon2, Hcon1; destruct w|].
  split; [by rewrite Hfe3, Hfe2, Hfe1; destruct w|].
  split; [by rewrite Hfa3, Hfa2, Hfa1; destruct w|].
  split; [by rewrite Hpos3, Hpos2, Hpos1; destruct w as [? [] ? ? ? ? ?]|].
  split; [by rewrite Hhp3, Hhp2, Hhp1; destruct w as [? [] ? ? ? ? ?]|].
  split.
  { rewrite Hsl3, Hsl2, Hsl1. rewrite !insert_insert_eq.
    by destruct w as [? [] ? ? ? ? ?]. }
  split; [by rewrite Hwp3, Hwp2, Hwp1; destruct w as [? [] ? ? ? ? ?]|].
  split; [by rewrite Het3, Het2, Het1; destruct w as [? [] ? ? ? ? ?]|].
  split; [by rewrite Htp3, Htp2, Htp1; destruct w as [? [] ? ? ? ? ?]|].
  by rewrite Htg3, Htg2, Htg1; destruct w as [? [] ? ? ? ? ?].
Qed.

Lemma api_addAgent_effect `{MathHost} (w : World) :
  (0 <= Math_random (S (S (randomCalls w))))%Q ->
  (Math_random (S (S (randomCalls w))) < 1)%Q ->
  exists w' randomWeaponType,
    api_addAgent w = Some w'
    /\ arr_get WeaponTypes
         (Qfloor (Math_random (S (S (randomCalls w)))
                  * inject_Z (Z.of_nat (length WeaponTypes)))) = Some randomWeaponType
    /\ agentSpawned w w' randomWeaponType.
Proof.
  intros Hlow Hhigh.
  destruct (randomChoice_in_range WeaponTypes (Math_random (S (S (randomCalls w)))))
    as (randomWeaponType & Hchoice & _); [done|done|done|].
  destruct (api_addAgent_chosen w randomWeaponType Hchoice) as (w' & Hrun & Hspawned).
  by exists w', randomWeaponType.
Qed.

(** X15.  What [addAgent] builds.  Whenever the sample that picks the
    second weapon lies in [[0, 1)], the command succeeds in any store:
    it registers one agent under the next id [n], at the position drawn
    by the first two samples, with health 100 and seven slots, the first
    two of which hold a rifle [n + 1] and a weapon [n + 2] of the type
    picked by the third sample, both ten to the right of and ten below
    the agent; three ids and three samples are used, no warning is
    written, and nothing else changes. *)
Theorem api_addAgent_postcondition `{MathHost} (w : World) :
  (0 <= Math_random (S (S (randomCalls w))))%Q ->
  (Math_random (S (S (randomCalls w))) < 1)%Q ->
  exists w' randomWeaponType,
    api_addAgent w = Some w'
    /\ arr_get WeaponTypes
         (Qfloor (Math_random (S (S (randomCalls w)))
                  * inject_Z (Z.of_nat (length WeaponTypes)))) = Some randomWeaponType
    /\ agentSpawned w w' randomWeaponType.
Proof. apply api_addAgent_effect. Qed.


Lemma api_addAgent_postcondition_witness :
  exists w', api_addAgent (H := duel_host) initialWorld = Some w'
    /\ nodeId w' = 3
    /\ weaponSlots (components w') !! 0
       = Some (WeaponSlotsComponent.mk 0 [Some 1; Some 2; None; None; None; None; None])
    /\ weapon (components w') !! 2 = Some (WeaponComponent.new 2 "melee").
Proof.
  destruct (api_addAgent_postcondition (H := duel_host) initialWorld)
    as (w' & randomWeaponType & Hrun & Hchoice & _ & Hnode & _ & _ & _ & _ & _ & _
        & Hslots & Hweapon & _).
  - vm_compute. discriminate.
  - vm_compute. reflexivity.
  - exists w'. split; [exact Hrun|]. split; [exact Hnode|].
    split; [rewrite Hslots; apply lookup_insert_eq|].
    rewrite Hweapon, lookup_insert_eq. vm_compute in Hchoice.
    injection Hchoice as <-. reflexivity.
Defined.

Lemma hasNullSlot_free (entityId : nat) (w : World) (slots : WeaponSlotsComponent.t)
    (before after : list (option nat)) :
  weaponSlots (components w) !! entityId = Some slots ->
  WeaponSlotsComponent.weaponIds slots = before ++ None :: after ->
  hasNullSlot entityId w = Some true.
Proof.
  intros Hslots Hcells. unfold hasNullSlot. rewrite Hslots. cbn [mbind option_bind].
  rewrite Hcells, existsb_app. simpl. by rewrite orb_true_r.
Qed.

Lemma hasNullSlot_full (entityId : nat) (w : World) (slots : WeaponSlotsComponent.t) :
  weaponSlots (components w) !! entityId = Some slots ->
  None ∉ WeaponSlotsComponent.weaponIds slots ->
  hasNullSlot entityId w = Some false.
Proof.
  intros Hslots Hfull. unfold hasNullSlot. rewrite Hslots. cbn [mbind option_bind].
  f_equal. apply not_true_is_false. intros (cell & Hin & Hnull)%existsb_exists.
  destruct cell; [done|]. by apply list_elem_of_In in Hin.
Qed.

Lemma addWeaponIfFree_add (entityId : nat) (weaponType : string) (w : World)
    (slots : WeaponSlotsComponent.t) (before after : list (option nat)) :
  weaponSlots (components w) !! entityId = Some slots ->
  WeaponSlotsComponent.weaponIds slots = before ++ None :: after ->
  addWeaponIfFree entityId true weaponType w = addWeaponToEntity entityId weaponType w.
Proof.
  intros Hslots Hcells. unfold addWeaponIfFree.
  by rewrite (hasNullSlot_free _ _ _ _ _ Hslots Hcells).
Qed.

Lemma addWeaponIfFree_skip_extra (entityId : nat) (weaponType : string) (w : World) :
  is_Some (weaponSlots (components w) !! entityId) ->
  addWeaponIfFree entityId false weaponType w = Some w.
Proof.
  intros [slots Hslots]. unfold addWeaponIfFree, hasNullSlot. rewrite Hslots.
  cbn [mbind option_bind]. by rewrite andb_false_r.
Qed.

Lemma addWeaponIfFree_skip_full (entityId : nat) (extra : bool) (weaponType : string)
    (w : World) (slots : WeaponSlotsComponent.t) :
  weaponSlots (components w) !! entityId = Some slots ->
  None ∉ WeaponSlotsComponent.weaponIds slots ->
  addWeaponIfFree entityId extra weaponType w = Some w.
Proof.
  intros Hslots Hfull. unfold addWeaponIfFree.
  by rewrite (hasNullSlot_full _ _ _ Hslots Hfull).
Qed.

(** The three guarded calls after the laser add exactly one weapon. *)
Lemma enemy_second_weapon (enemyTypeChoice : string) (entityId held : nat) (w : World)
    (ownerPosition : PositionComponent.t) :
  position (components w) !! entityId = Some ownerPosition ->
  weaponSlots (components w) !! entityId
  = Some (WeaponSlotsComponent.mk entityId [Some held; None]) ->
  (w2 ← addWeaponIfFree entityId (bool_decide (enemyTypeChoice = "devastator")) "rocket" w;
   w3 ← addWeaponIfFree entityId (bool_decide (enemyTypeChoice = "tank")) "cannon" w2;
   addWeaponIfFree entityId true "melee" w3)
  = addWeaponToEntity entityId (secondWeapon enemyTypeChoice) w.
Proof.
  intros Hpos Hslots. unfold secondWeapon.
  assert (Hfull : forall weaponType w',
             addWeaponToEntity entityId weaponType w = Some w' ->
             weaponSlots (components w') !! entityId
             = Some (WeaponSlotsComponent.mk entityId [Some held; Some (nodeId w)])).
  { intros weaponType w' Hrun.
    destruct (addWeaponToEntity_free entityId weaponType w ownerPosition _
                [Some held] [] Hpos Hslots eq_refl)
      as (w'' & Hrun' & _ & _ & _ & _ & _ & _ & _ & _ & Hsl & _).
    { intros Hin. apply list_elem_of_singleton in Hin. discriminate. }
    assert (w'' = w') as -> by congruence.
    rewrite Hsl. apply lookup_insert_eq. }
  assert (Hno : forall a b : nat, None ∉ [Some a; Some b]).
  { intros a b Hin. repeat (apply elem_of_cons in Hin as [Hin|Hin]; [discriminate|]).
    by apply elem_of_nil in Hin. }
  destruct (decide (enemyTypeChoice = "devastator")) as [->|Hdev].
  - rewrite (bool_decide_eq_true_2 ("devastator" = "devastator")) by done.
    rewrite (bool_decide_eq_false_2 ("devastator" = "tank")) by done.
    rewrite (addWeaponIfFree_add _ _ _ _ [Some held] [] Hslots eq_refl).
    destruct (addWeaponToEntity entityId "rocket" w) as [w2|] eqn:Hrun; [|done].
    cbn [mbind option_bind]. specialize (Hfull _ _ Hrun).
    rewrite addWeaponIfFree_skip_extra by (by rewrite Hfull). cbn [mbind option_bind].
    by rewrite (addWeaponIfFree_skip_full _ _ _ _ _ Hfull (Hno _ _)).
  - rewrite (bool_decide_eq_false_2 (enemyTypeChoice = "devastator")) by done.
    rewrite addWeaponIfFree_skip_extra by (by rewrite Hslots). cbn [mbind option_bind].
    destruct (decide (enemyTypeChoice = "tank")) as [->|Htank].
    + rewrite (bool_decide_eq_true_2 ("tank" = "tank")) by done.
      rewrite (addWeaponIfFree_add _ _ _ _ [Some held] [] Hslots eq_refl).
      destruct (addWeaponToEntity entityId "cannon" w) as [w2|] eqn:Hrun; [|done].
      cbn [mbind option_bind]. specialize (Hfull _ _ Hrun).
      by rewrite (addWeaponIfFree_skip_full _ _ _ _ _ Hfull (Hno _ _)).
    + rewrite (bool_decide_eq_false_2 (enemyTypeChoice = "tank")) by done.
      rewrite addWeaponIfFree_skip_extra by (by rewrite Hslots). cbn [mbind option_bind].
      by rewrite (addWeaponIfFree_add _ _ _ _ [Some held] [] Hslots eq_refl).
Qed.

Lemma addTargetPartToEntity_projections `{MathHost} (enemyId : nat) (partType : string)
    (w : World) :
  exists w',
    addTargetPartToEntity enemyId partType w = Some w'
    /\ entities w' = entities w
    /\ nodeId w' = S (nodeId w)
    /\ randomCalls w' = S (S (randomCalls w))
    /\ console w' = console w
    /\ enemyTargetingEnabled w' = enemyTargetingEnabled w
    /\ agentTargetingEnabled w' = agentTargetingEnabled w
    /\ position (components w')
       = <[nodeId w := PositionComponent.new (nodeId w)
                         (Math_random (randomCalls w) * 800)
                         (Math_random (S (randomCalls w)) * 600)]> (position (components w))
    /\ health (components w')
       = <[nodeId w := HealthComponent.new (nodeId w) 10]> (health (components w))
    /\ targetPartType (components w')
       = <[nodeId w := TargetPartTypeComponent.new (nodeId w) partType (IsId enemyId)]>
           (targetPartType (components w))
    /\ weaponSlots (components w') = weaponSlots (components w)
    /\ weapon (components w') = weapon (components w)
    /\ enemyType (components w') = enemyType (components w)
    /\ targeting (components w') = targeting (components w).
Proof.
  rewrite addTargetPartToEntity_Some. eexists. split; [reflexivity|].
  destruct w as [? [] ? ? ? ? ?]. simpl. repeat split.
Qed.

(** The parts loop: consecutive ids and pairs of samples, in the order
    of the list. *)
Lemma forEach_addTargetPartToEntity `{MathHost} (enemyId : nat) (parts : list string)
    (w : World) :
  exists w',
    forEach (addTargetPartToEntity enemyId) parts w = Some w'
    /\ entities w' = entities w
    /\ nodeId w' = nodeId w + length parts
    /\ randomCalls w' = randomCalls w + 2 * length parts
    /\ console w' = console w
    /\ enemyTargetingEnabled w' = enemyTargetingEnabled w
    /\ agentTargetingEnabled w' = agentTargetingEnabled w
    /\ weaponSlots (components w') = weaponSlots (components w)
    /\ weapon (components w') = weapon (components w)
    /\ enemyType (components w') = enemyType (components w)
    /\ targeting (components w') = targeting (components w)
    /\ (forall i partType, parts !! i = Some partType ->
          targetPartType (components w') !! (nodeId w + i)
          = Some (TargetPartTypeComponent.new (nodeId w + i) partType (IsId enemyId))
          /\ health (components w') !! (nodeId w + i)
             = Some (HealthComponent.new (nodeId w + i) 10)
          /\ position (components w') !! (nodeId w + i)
             = Some (PositionComponent.new (nodeId w + i)
                       (Math_random (randomCalls w + 2 * i) * 800)
                       (Math_random (S (randomCalls w + 2 * i)) * 600)))
    /\ (forall k, k < nodeId w \/ nodeId w + length parts <= k ->
          targetPartType (components w') !! k = targetPartType (components w) !! k
          /\ health (components w') !! k = health (components w) !! k
          /\ position (components w') !! k = position (components w) !! k).
Proof.
  revert w. induction parts as [|partType parts IH]; intros w.
  - exists w. simpl. rewrite !Nat.add_0_r. repeat split; try done.
    all: intros i other Hi; by rewrite lookup_nil in Hi.
  - destruct (addTargetPartToEntity_projections enemyId partType w)
      as (w1 & Hrun1 & He1 & Hn1 & Hrc1 & Hcon1 & Hfe1 & Hfa1 & Hpos1 & Hhp1 & Htp1
          & Hsl1 & Hwp1 & Het1 & Htg1).
    destruct (IH w1)
      as (w' & Hrun & He & Hn & Hrc & Hcon & Hfe & Hfa & Hsl & Hwp & Het & Htg
          & Hparts & Hframe).
    exists w'. cbn [forEach]. rewrite Hrun1. cbn [mbind option_bind].
    split; [exact Hrun|]. split; [congruence|].
    split; [rewrite Hn, Hn1; simpl; lia|]. split; [rewrite Hrc, Hrc1; simpl; lia|].
    split; [congruence|]. split; [congruence|]. split; [congruence|].
    split; [congruence|]. split; [congruence|]. split; [congruence|].
    split; [congruence|]. split.
    + intros [|i] other Hi; simpl in Hi.
      * injection Hi as <-.
        replace (randomCalls w + 2 * 0) with (randomCalls w) by lia.
        replace (nodeId w + 0) with (nodeId w) by lia.
        destruct (Hframe (nodeId w)) as (-> & -> & ->); [left; lia|].
        rewrite Htp1, Hhp1, Hpos1, !lookup_insert_eq. done.
      * destruct (Hparts i other Hi) as (Hpart & Hhealth & Hposition).
        rewrite Hn1, Hrc1 in *.
        replace (nodeId w + S i) with (S (nodeId w) + i) by lia.
        replace (randomCalls w + 2 * S i) with (S (S (randomCalls w)) + 2 * i) by lia.
        done.
    + intros k Hk.
      destruct (Hframe k) as (-> & -> & ->); [rewrite Hn1; simpl in Hk; lia|].
      rewrite Htp1, Hhp1, Hpos1, !lookup_insert_ne by (simpl in Hk; lia). done.
Qed.

Lemma enemy_second_weapon_then (enemyTypeChoice : string) (entityId held : nat) (w : World)
    (ownerPosition : PositionComponent.t) (rest : World -> option World) :
  position (components w) !! entityId = Some ownerPosition ->
  weaponSlots (components w) !! entityId
  = Some (WeaponSlotsComponent.mk entityId [Some held; None]) ->
  (w2 ← addWeaponIfFree entityId (bool_decide (enemyTypeChoice = "devastator")) "rocket" w;
   w3 ← addWeaponIfFree entityId (bool_decide (enemyTypeChoice = "tank")) "cannon" w2;
   w4 ← addWeaponIfFree entityId true "melee" w3;
   rest w4)
  = (w4 ← addWeaponToEntity entityId (secondWeapon enemyTypeChoice) w; rest w4).
Proof.
  intros Hpos Hslots.
  rewrite <- (enemy_second_weapon enemyTypeChoice entityId held w ownerPosition Hpos Hslots).
  destruct (addWeaponIfFree entityId _ "rocket" w) as [w2|]; [|done].
  cbn [mbind option_bind].
  by destruct (addWeaponIfFree entityId _ "cannon" w2) as [w3|].
Qed.

Lemma EnemyTypes_tables (enemyTypeChoice : string) :
  enemyTypeChoice ∈ EnemyTypes ->
  exists enemyHealth parts,
    obj_get enemyTypeChoice EntityStats = Some enemyHealth
    /\ obj_get enemyTypeChoice EnemyPartsConfig = Some parts.
Proof.
  intros Hin. unfold EnemyTypes in Hin.
  repeat (apply elem_of_cons in Hin as [->|Hin]; [by eexists _, _|]).
  by apply elem_of_nil in Hin.
Qed.

Lemma api_addEnemy_chosen `{MathHost} (w : World) (enemyTypeChoice : string) :
  arr_get EnemyTypes
    (Qfloor (Math_random (randomCalls w) * inject_Z (Z.of_nat (length EnemyTypes))))
  = Some enemyTypeChoice ->
  exists w' enemyHealth parts,
    api_addEnemy w = Some w'
    /\ obj_get enemyTypeChoice EntityStats = Some enemyHealth
    /\ obj_get enemyTypeChoice EnemyPartsConfig = Some parts
    /\ enemySpawned w w' enemyTypeChoice enemyHealth parts.
Proof.
  intros Hchoice. rewrite api_addEnemy_shape.
  pose proof (arr_get_elem _ _ _ Hchoice) as Hin.
  destruct (EnemyTypes_tables enemyTypeChoice Hin) as (enemyHealth & parts & Hstats & Hparts).
  rewrite Hchoice. cbn [mbind option_bind]. rewrite Hstats. cbn [mbind option_bind].
  cbv zeta. rewrite Hparts. cbn [default].
  set (x := (Math_random (S (randomCalls w)) * 800)%Q).
  set (y := (Math_random (S (S (randomCalls w))) * 600)%Q).
  set (n := nodeId w).
  pose proof (withNewEntity_projections EntityType.ENEMY x y enemyHealth 2
                (set_randomCalls (S (S (S (randomCalls w)))) w)) as Hshell.
  cbv zeta in Hshell.
  replace (nodeId (set_randomCalls (S (S (S (randomCalls w)))) w)) with n in Hshell
    by (by destruct w).
  replace (nodeId w) with n by done.
  set (shell0 := withNewEntity EntityType.ENEMY x y enemyHealth 2
                   (set_randomCalls (S (S (S (randomCalls w)))) w)) in *.
  clearbody shell0.
  destruct Hshell as (He0 & Hn0 & Hrc0 & Hcon0 & Hfe0 & Hfa0 & Hpos0 & Hhp0 & Hsl0
                      & Hwp0 & Het0 & Htp0 & Htg0).
  set (shell := addComponent (enemyType_data (EnemyTypeComponent.new n enemyTypeChoice))
                  shell0).
  assert (Hshell : entities shell = entities shell0 /\ nodeId shell = nodeId shell0
                   /\ randomCalls shell = randomCalls shell0 /\ console shell = console shell0
                   /\ enemyTargetingEnabled shell = enemyTargetingEnabled shell0
                   /\ agentTargetingEnabled shell = agentTargetingEnabled shell0
                   /\ position (components shell) = position (components shell0)
                   /\ health (components shell) = health (components shell0)
                   /\ weaponSlots (components shell) = weaponSlots (components shell0)
                   /\ weapon (components shell) = weapon (components shell0)
                   /\ enemyType (components shell)
                      = <[n := EnemyTypeComponent.new n enemyTypeChoice]>
                          (enemyType (components shell0))
                   /\ targetPartType (components shell) = targetPartType (components shell0)
                   /\ targeting (components shell) = targeting (components shell0)).
  { unfold shell. destruct shell0 as [? [] ? ? ? ? ?]. simpl. repeat split. }
  clearbody shell.
  destruct Hshell as (He & Hn & Hrc & Hcon & Hfe & Hfa & Hpos & Hhp & Hsl & Hwp & Het
                      & Htp & Htg).
  rewrite (addWeaponIfFree_add n "laser" shell (WeaponSlotsComponent.new n 2)
             [] [None]);
    [|rewrite Hsl, Hsl0; apply lookup_insert_eq|reflexivity].
  destruct (addWeaponToEntity_free n "laser" shell (PositionComponent.new n x y)
              (WeaponSlotsComponent.new n 2) [] [None])
    as (w1 & Hrun1 & He1 & Hn1 & Hrc1 & Hcon1 & Hfe1 & Hfa1 & Hwp1 & Hpos1 & Hsl1
        & Hhp1 & Het1 & Htp1 & Htg1).
  { rewrite Hpos, Hpos0. apply lookup_insert_eq. }
  { rewrite Hsl, Hsl0. apply lookup_insert_eq. }
  { reflexivity. }
  { apply not_elem_of_nil. }
  rewrite Hrun1. cbn [mbind option_bind].
  rewrite Hn, Hn0 in Hn1, Hwp1, Hpos1, Hsl1. simpl in Hpos1, Hsl1.
  rewrite (enemy_second_weapon_then enemyTypeChoice n (S n) w1 (PositionComponent.new n x y));
    [|rewrite Hpos1, lookup_insert_ne by lia; rewrite Hpos, Hpos0; apply lookup_insert_eq
     |rewrite Hsl1; apply lookup_insert_eq].
  destruct (addWeaponToEntity_free n (secondWeapon enemyTypeChoice) w1
              (PositionComponent.new n x y)
              (WeaponSlotsComponent.mk n [Some (S n); None]) [Some (S n)] [])
    as (w2 & Hrun2 & He2 & Hn2 & Hrc2 & Hcon2 & Hfe2 & Hfa2 & Hwp2 & Hpos2 & Hsl2
        & Hhp2 & Het2 & Htp2 & Htg2).
  { rewrite Hpos1, lookup_insert_ne by lia. rewrite Hpos, Hpos0. apply lookup_insert_eq. }
  { rewrite Hsl1. apply lookup_insert_eq. }
  { reflexivity. }
  { intros Hcell. apply list_elem_of_singleton in Hcell. discriminate. }
  rewrite Hrun2. cbn [mbind option_bind].
  rewrite Hn1 in Hn2, Hwp2, Hpos2, Hsl2. simpl in Hpos2, Hsl2.
  destruct (forEach_addTargetPartToEntity n parts w2)
    as (w' & Hrun & He' & Hn' & Hrc' & Hcon' & Hfe' & Hfa' & Hsl' & Hwp' & Het' & Htg'
        & Hpart & Hframe).
  rewrite Hn2 in Hn', Hpart, Hframe.
  assert (Hcalls : randomCalls w2 = S (S (S (randomCalls w)))).
  { rewrite Hrc2, Hrc1, Hrc, Hrc0. by destruct w. }
  rewrite Hcalls in Hrc', Hpart.
  exists w', enemyHealth, parts.
  split; [exact Hrun|]. split; [done|]. split; [done|].
  unfold enemySpawned. fold n.
  split; [rewrite He', He2, He1, He, He0; by destruct w|].
  split; [done|]. split; [done|].
  split; [rewrite Hcon', Hcon2, Hcon1, Hcon, Hcon0; by destruct w|].
  split; [rewrite Hfe', Hfe2, Hfe1, Hfe, Hfe0; by destruct w|].
  split; [rewrite Hfa', Hfa2, Hfa1, Hfa, Hfa0; by destruct w|].
  split; [rewrite Het', Het2, Het1, Het, Het0; by destruct w as [? [] ? ? ? ? ?]|].
  split.
  { rewrite Hsl', Hsl2, Hsl1, Hsl, Hsl0, !insert_insert_eq.
    by destruct w as [? [] ? ? ? ? ?]. }
  split; [rewrite Hwp', Hwp2, Hwp1, Hwp, Hwp0; by destruct w as [? [] ? ? ? ? ?]|].
  split; [rewrite Htg', Htg2, Htg1, Htg, Htg0; by destruct w as [? [] ? ? ? ? ?]|].
  destruct (Hframe n) as (_ & Hhealth_n & Hposition_n); [left; lia|].
  destruct (Hframe (S n)) as (_ & _ & Hposition_1); [left; lia|].
  destruct (Hframe (S (S n))) as (_ & _ & Hposition_2); [left; lia|].
  split.
  { rewrite Hposition_n, Hpos2, lookup_insert_ne by lia.
    rewrite Hpos1, lookup_insert_ne by lia. rewrite Hpos, Hpos0. apply lookup_insert_eq. }
  split.
  { rewrite Hhealth_n, Hhp2, Hhp1, Hhp, Hhp0. apply lookup_insert_eq. }
  split.
  { rewrite Hposition_1, Hpos2, lookup_insert_ne by lia.
    rewrite Hpos1. apply lookup_insert_eq. }
  split.
  { rewrite Hposition_2, Hpos2. apply lookup_insert_eq. }
  split; [exact Hpart|].
  intros k Hk. rewrite Hn' in Hk.
  destruct (Hframe k) as (Htp_k & Hhp_k & Hpos_k); [lia|].
  rewrite Htp_k, Hhp_k, Hpos_k.
  rewrite Hpos2, Hpos1, Hpos, Hpos0, Hhp2, Hhp1, Hhp, Hhp0, Htp2, Htp1, Htp, Htp0.
  rewrite !lookup_insert_ne by lia. by destruct w as [? [] ? ? ? ? ?].
Qed.

Lemma api_addEnemy_effect `{MathHost} (w : World) :
  (0 <= Math_random (randomCalls w))%Q ->
  (Math_random (randomCalls w) < 1)%Q ->
  exists w' enemyTypeChoice enemyHealth parts,
    api_addEnemy w = Some w'
    /\ arr_get EnemyTypes
         (Qfloor (Math_random (randomCalls w) * inject_Z (Z.of_nat (length EnemyTypes))))
       = Some enemyTypeChoice
    /\ obj_get enemyTypeChoice EntityStats = Some enemyHealth
    /\ obj_get enemyTypeChoice EnemyPartsConfig = Some parts
    /\ enemySpawned w w' enemyTypeChoice enemyHealth parts.
Proof.
  intros Hlow Hhigh.
  destruct (randomChoice_in_range EnemyTypes (Math_random (randomCalls w)))
    as (enemyTypeChoice & Hchoice & _); [done|done|done|].
  destruct (api_addEnemy_chosen w enemyTypeChoice Hchoice)
    as (w' & enemyHealth & parts & Hrun & Hstats & Hparts & Hspawned).
  by exists w', enemyTypeChoice, enemyHealth, parts.
Qed.

(** X16.  What [addEnemy] builds.  Whenever the sample that picks the
    type lies in [[0, 1)], the command succeeds in any store: it
    registers one enemy under the next id [n], of the type picked by
    the first sample, at the position drawn by the next two, with the
    health of its type and two slots; the slots hold a laser [n + 1] and
    a second weapon [n + 2], which is a rocket for a devastator, a
    cannon for a tank and a melee weapon otherwise, both ten to the right
    of and ten below the enemy; the parts of the type follow under the
    next ids, in the order of the table, each with health 10, the id of
    the enemy as parent and a position of its own drawn by two samples.
    No warning is written, and no entry under an id below [n] or past
    the last part changes. *)
Theorem api_addEnemy_postcondition `{MathHost} (w : World) :
  (0 <= Math_random (randomCalls w))%Q ->
  (Math_random (randomCalls w) < 1)%Q ->
  exists w' enemyTypeChoice enemyHealth parts,
    api_addEnemy w = Some w'
    /\ arr_get EnemyTypes
         (Qfloor (Math_random (randomCalls w) * inject_Z (Z.of_nat (length EnemyTypes))))
       = Some enemyTypeChoice
    /\ obj_get enemyTypeChoice EntityStats = Some enemyHealth
    /\ obj_get enemyTypeChoice EnemyPartsConfig = Some parts
    /\ enemySpawned w w' enemyTypeChoice enemyHealth parts.
Proof. apply api_addEnemy_effect. Qed.


Lemma api_addEnemy_postcondition_witness :
  exists w', api_addEnemy (H := devastator_host) initialWorld = Some w'
    /\ nodeId w' = 5
    /\ weaponSlots (components w') !! 0 = Some (WeaponSlotsComponent.mk 0 [Some 1; Some 2])
    /\ weapon (components w') !! 2 = Some (WeaponComponent.new 2 "rocket")
    /\ targetPartType (components w') !! 3
       = Some (TargetPartTypeComponent.new 3 "heavy armor" (IsId 0)).
Proof.
  destruct (api_addEnemy_postcondition (H := devastator_host) initialWorld)
    as (w' & enemyTypeChoice & enemyHealth & parts & Hrun & Hchoice & _ & Hparts & _
        & Hnode & _ & _ & _ & _ & _ & Hslots & Hweapon & _ & _ & _ & _ & _ & Hpart & _).
  - vm_compute. discriminate.
  - vm_compute. reflexivity.
  - vm_compute in Hchoice. injection Hchoice as <-.
    vm_compute in Hparts. injection Hparts as <-.
    exists w'. split; [exact Hrun|]. split; [exact Hnode|].
    split; [rewrite Hslots; apply lookup_insert_eq|].
    split; [rewrite Hweapon; apply lookup_insert_eq|].
    apply (Hpart 0 "heavy armor" eq_refl).
Defined.


(** ** The command surface as a whole *)

Lemma StronglySorted_sublist {A : Type} (R : relation A) (l1 l2 : list A) :
  l1 `sublist_of` l2 -> StronglySorted R l2 -> StronglySorted R l1.
Proof.
  induction 1 as [|x l1 l2 Hsub IH|x l1 l2 Hsub IH]; intros Hsorted; [done| |].
  - apply StronglySorted_inv in Hsorted as [Hrest Hhead].
    apply SSorted_cons; [by apply IH|].
    apply Forall_forall. intros y Hy. rewrite Forall_forall in Hhead.
    apply Hhead. by eapply sublist_subseteq.
  - apply StronglySorted_inv in Hsorted as [Hrest _]. by apply IH.
Qed.

Lemma api_addAgent_entities `{MathHost} (w w' : World) :
  api_addAgent w = Some w' ->
  entities w' = entities w ++ [Entity.mk (nodeId w) EntityType.AGENT None].
Proof.
  rewrite api_addAgent_shape.
  destruct (addWeaponToEntity (nodeId w) "rifle" _) as [w2|] eqn:Hrifle; [|done].
  cbn [mbind option_bind].
  destruct (arr_get WeaponTypes _) as [randomWeaponType|]; [|done].
  cbn [mbind option_bind]. intros Hrun.
  apply addWeaponToEntity_attaches in Hrun as [-> _].
  apply addWeaponToEntity_attaches in Hrifle as [Hents _].
  replace (entities (set_randomCalls (S (randomCalls w2)) w2)) with (entities w2)
    by (by destruct w2).
  rewrite Hents. by destruct w as [? [] ? ? ? ? ?].
Qed.

Lemma addWeaponIfFree_entities (entityId : nat) (extra : bool) (weaponType : string)
    (w w' : World) :
  addWeaponIfFree entityId extra weaponType w = Some w' -> entities w' = entities w.
Proof.
  unfold addWeaponIfFree.
  destruct (hasNullSlot entityId w) as [free|]; simpl; [|done].
  destruct (free && extra); [|by intros [= <-]].
  intros Hrun. by apply addWeaponToEntity_attaches in Hrun as [-> _].
Qed.

Lemma api_addEnemy_entities `{MathHost} (w w' : World) :
  api_addEnemy w = Some w' ->
  entities w' = entities w ++ [Entity.mk (nodeId w) EntityType.ENEMY None].
Proof.
  rewrite api_addEnemy_shape.
  destruct (arr_get EnemyTypes _) as [enemyTypeChoice|]; [|done].
  cbn [mbind option_bind].
  destruct (obj_get enemyTypeChoice EntityStats) as [enemyHealth|]; [|done].
  cbn [mbind option_bind]. cbv zeta.
  set (shell := addComponent (enemyType_data _) _).
  assert (Hshell : entities shell
                   = entities w ++ [Entity.mk (nodeId w) EntityType.ENEMY None]).
  { unfold shell. by destruct w as [? [] ? ? ? ? ?]. }
  clearbody shell.
  destruct (addWeaponIfFree (nodeId w) true "laser" shell) as [w1|] eqn:H1; [|done].
  apply addWeaponIfFree_entities in H1. cbn [mbind option_bind].
  destruct (addWeaponIfFree (nodeId w) _ "rocket" w1) as [w2|] eqn:H2; [|done].
  apply addWeaponIfFree_entities in H2. cbn [mbind option_bind].
  destruct (addWeaponIfFree (nodeId w) _ "cannon" w2) as [w3|] eqn:H3; [|done].
  apply addWeaponIfFree_entities in H3. cbn [mbind option_bind].
  destruct (addWeaponIfFree (nodeId w) true "melee" w3) as [w4|] eqn:H4; [|done].
  apply addWeaponIfFree_entities in H4. cbn [mbind option_bind].
  intros Hparts.
  assert (Hend : entities w' = entities w4); [|congruence].
  revert Hparts.
  apply (forEach_invariant _ (fun s => entities s = entities w4)); [|done].
  intros partType s s' _ Hs Hpart.
  apply addTargetPartToEntity_attaches in Hpart as [-> _]. done.
Qed.

Lemma StronglySorted_snoc_ids (ents : list Entity.t) (entity : Entity.t) :
  (forall other, other ∈ ents -> Entity.id other < Entity.id entity) ->
  StronglySorted lt (map Entity.id ents) ->
  StronglySorted lt (map Entity.id (ents ++ [entity])).
Proof.
  intros Hbelow Hsorted. rewrite map_app. apply StronglySorted_app_2; [|done|].
  - intros x1 x2 Hx1 Hx2. apply list_elem_of_singleton in Hx2 as ->.
    apply (list_elem_of_fmap (B := nat)) in Hx1 as (other & -> & Hother). by apply Hbelow.
  - simpl. repeat constructor.
Qed.

(** X17.  The registry is in creation order.  In every world the
    script can reach the ids of the registry increase strictly from
    front to back: entities are pushed with a fresh, larger id and only
    ever spliced out.  So the first entity of a class, which is the one
    the primary scan picks, is the oldest one alive. *)
Theorem registry_in_creation_order `{MathHost} (w : World) :
  reachable w -> StronglySorted lt (map Entity.id (entities w)).
Proof.
  induction 1 as [|w w' Hw IH Hadd|w w' Hw IH Hadd|w _ IH|w _ IH|w w' Hw IH Hstep].
  - constructor.
  - rewrite (api_addAgent_entities _ _ Hadd).
    apply StronglySorted_snoc_ids; [|done].
    intros other Hother. by apply (inv_ids w (reachable_storeInvariant _ Hw)).
  - rewrite (api_addEnemy_entities _ _ Hadd).
    apply StronglySorted_snoc_ids; [|done].
    intros other Hother. by apply (inv_ids w (reachable_storeInvariant _ Hw)).
  - by destruct w.
  - by destruct w.
  - unfold EntityComponentSystem_update in Hstep.
    destruct (WeaponAssignmentSystem_update w) as [w1|] eqn:Hassign; simpl in Hstep; [|done].
    apply WeaponAssignmentSystem_update_duringPass, duringPass_recordedInPass,
      recordedInPass_frame in Hassign as (Hents & _).
    apply neverGains_forEach_resolveLink in Hstep as ((_ & _ & _ & _ & _ & Hsub & _) & _).
    eapply StronglySorted_sublist; [|exact IH].
    rewrite <- Hents. by apply (fmap_sublist Entity.id).
Qed.

Lemma registry_in_creation_order_witness :
  StronglySorted lt (map Entity.id (entities duelWorld)).
Proof.
  exact (registry_in_creation_order (H := duel_host) duelWorld duelWorld_reachable).
Defined.

(** X18.  The script never throws.  With samples in [[0, 1)], from
    every world the script can reach each of the five commands returns,
    and the world it leaves is again one the script can reach. *)
Theorem reachable_commands_succeed `{MathHost} (w : World) :
  samplesInUnit ->
  reachable w ->
  (exists w', api_addAgent w = Some w' /\ reachable w')
  /\ (exists w', api_addEnemy w = Some w' /\ reachable w')
  /\ (exists w', EntityComponentSystem_update w = Some w' /\ reachable w')
  /\ reachable (api_toggleEnemyTargeting w)
  /\ reachable (api_toggleAgentTargeting w).
Proof.
  intros Hsamples Hreach.
  split; [|split; [|split; [|split]]].
  - destruct (api_addAgent_effect w) as (w' & _ & Hrun & _); [apply Hsamples..|].
    exists w'. split; [done|]. by eapply reachable_addAgent.
  - destruct (api_addEnemy_effect w) as (w' & _ & _ & _ & Hrun & _); [apply Hsamples..|].
    exists w'. split; [done|]. by eapply reachable_addEnemy.
  - destruct (EntityComponentSystem_update_total w Hreach) as [w' Hrun].
    exists w'. split; [done|]. by eapply reachable_update.
  - by apply reachable_toggleEnemyTargeting.
  - by apply reachable_toggleAgentTargeting.
Qed.

Lemma unit_samples_host : samplesInUnit (H := duel_host).
Proof.
  intros [|[|[|[|n]]]]; simpl; split; try discriminate; reflexivity.
Qed.

Lemma reachable_commands_succeed_witness :
  (exists w', api_addAgent (H := duel_host) duelWorld = Some w')
  /\ (exists w', EntityComponentSystem_update (H := duel_host) duelWorld = Some w').
Proof.
  destruct (reachable_commands_succeed (H := duel_host) duelWorld unit_samples_host
              duelWorld_reachable)
    as ((w1 & Hagent & _) & _ & (w3 & Hstep & _) & _).
  split; [by exists w1|by exists w3].
Defined.

(** X19.  The toggles flip one flag and say so.  Each toggle negates
    its own flag, leaves the other flag, the registry and every
    component alone, so that the links recorded by the last step stay in
    the store until the next step, and appends one line to the console,
    which reports the state after the flip; toggling twice restores the
    flag. *)
Theorem toggles_flip_and_report (w : World) :
  console (api_toggleEnemyTargeting w)
  = console w ++ [(Log, if enemyTargetingEnabled w
                        then "Enemy Targeting: OFF" else "Enemy Targeting: ON")]
  /\ console (api_toggleAgentTargeting w)
     = console w ++ [(Log, if agentTargetingEnabled w
                           then "Agent Targeting: OFF" else "Agent Targeting: ON")]
  /\ enemyTargetingEnabled (api_toggleEnemyTargeting w) = negb (enemyTargetingEnabled w)
  /\ agentTargetingEnabled (api_toggleAgentTargeting w) = negb (agentTargetingEnabled w)
  /\ enemyTargetingEnabled (api_toggleEnemyTargeting (api_toggleEnemyTargeting w))
     = enemyTargetingEnabled w
  /\ agentTargetingEnabled (api_toggleAgentTargeting (api_toggleAgentTargeting w))
     = agentTargetingEnabled w
  /\ agentTargetingEnabled (api_toggleEnemyTargeting w) = agentTargetingEnabled w
  /\ enemyTargetingEnabled (api_toggleAgentTargeting w) = enemyTargetingEnabled w
  /\ components (api_toggleEnemyTargeting w) = components w
  /\ components (api_toggleAgentTargeting w) = components w
  /\ entities (api_toggleEnemyTargeting w) = entities w
  /\ entities (api_toggleAgentTargeting w) = entities w.
Proof.
  destruct w as [ents c n [] [] rc con]; repeat split.
Qed.

(** ** Colours and probabilities *)

(** X20.  The colour of a link tells the type of its weapon, among the
    types of [WeaponTypes]: no two of them share a colour.  A type
    outside the table gets the colour of the melee weapon. *)
Theorem getWeaponColor_identifies_type :
  (forall a b, a ∈ WeaponTypes -> b ∈ WeaponTypes ->
     getWeaponColor a = getWeaponColor b -> a = b)
  /\ (forall weaponType, weaponType ∉ WeaponTypes ->
        getWeaponColor weaponType = getWeaponColor "melee").
Proof.
  split.
  - intros a b Ha Hb. unfold WeaponTypes in Ha, Hb.
    repeat (apply elem_of_cons in Ha as [->|Ha]);
      try (by apply elem_of_nil in Ha);
      repeat (apply elem_of_cons in Hb as [->|Hb]);
      try (by apply elem_of_nil in Hb);
      vm_compute; congruence.
  - intros weaponType Hout. unfold WeaponTypes in Hout.
    repeat (apply not_elem_of_cons in Hout as [? Hout]).
    unfold getWeaponColor. by repeat (rewrite bool_decide_eq_false_2 by done).
Qed.

Lemma getWeaponColor_identifies_type_witness :
  getWeaponColor "hammer" = getWeaponColor "melee".
Proof.
  apply (proj2 getWeaponColor_identifies_type). by_computation.
Defined.

Lemma clamp01_mono (a b : Q) : (a <= b)%Q -> (clamp01 a <= clamp01 b)%Q.
Proof.
  intros Hle. unfold clamp01.
  apply Q.max_le_compat_l. by apply Q.min_le_compat_l.
Qed.

(** X21.  Farther is never better.  For an accuracy in [[0, 1]] and a
    positive maximum range the hit probability does not increase with
    the distance: it is 1 up to distance 1, and from there on it is the
    accuracy scaled down linearly to 0 at the maximum range. *)
Theorem calculateHitProbability_antitone (d1 d2 maxRange accuracy : Q) :
  (0 <= accuracy)%Q -> (accuracy <= 1)%Q -> (0 < maxRange)%Q ->
  (d1 <= d2)%Q ->
  exists p1 p2,
    calculateHitProbability d1 maxRange accuracy = Some p1
    /\ calculateHitProbability d2 maxRange accuracy = Some p2
    /\ (p2 <= p1)%Q.
Proof.
  intros Hlow Hhigh Hrange Hle. unfold calculateHitProbability.
  change (obj_get "melee" WeaponRangeConfig) with (Some (1, 1)%Q).
  cbn [mbind option_bind snd].
  pose proof (clamp01_bounds (d1 / maxRange)) as [Hc1 Hc1'].
  pose proof (clamp01_bounds (d2 / maxRange)) as [Hc2 Hc2'].
  assert (Hmono : (clamp01 (d1 / maxRange) <= clamp01 (d2 / maxRange))%Q).
  { apply clamp01_mono. unfold Qdiv. apply Qmult_le_compat_r; [done|].
    apply Qlt_le_weak, Qinv_lt_0_compat. done. }
  unfold clamp01 in *.
  destruct (Qle_bool d1 1) eqn:Hd1; destruct (Qle_bool d2 1) eqn:Hd2;
    eexists _, _; (split; [reflexivity|]); (split; [reflexivity|]).
  - lra.
  - nra.
  - apply Qle_bool_iff in Hd2.
    assert (Hd1' : ~ (d1 <= 1)%Q) by (intros ?%Qle_bool_iff; congruence).
    lra.
  - nra.
Qed.

Lemma calculateHitProbability_antitone_witness :
  exists p1 p2,
    calculateHitProbability 30 60 (8 # 10) = Some p1
    /\ calculateHitProbability 45 60 (8 # 10) = Some p2
    /\ (p2 <= p1)%Q.
Proof.
  apply (calculateHitProbability_antitone 30 45 60 (8 # 10)); vm_compute; congruence.
Defined.


(** ** RenderingSystem *)

Lemma addWeaponToEntity_enemyType (entityId : nat) (weaponType : string) (w w' : World) :
  addWeaponToEntity entityId weaponType w = Some w' ->
  enemyType (components w') = enemyType (components w).
Proof.
  intros Hrun.
  apply addWeaponToEntity_Some in Hrun as (ownerPosition & slots & _ & _ & ->).
  cbv zeta. destruct (WeaponSlotsComponent.addWeapon (nodeId w) slots).2;
    by destruct w as [? [] ? ? ? ? ?].
Qed.

Lemma addWeaponIfFree_enemyType (entityId : nat) (extra : bool) (weaponType : string)
    (w w' : World) :
  addWeaponIfFree entityId extra weaponType w = Some w' ->
  enemyType (components w') = enemyType (components w).
Proof.
  unfold addWeaponIfFree.
  destruct (hasNullSlot entityId w) as [free|]; simpl; [|done].
  destruct (free && extra); [|by intros [= <-]].
  apply addWeaponToEntity_enemyType.
Qed.

Lemma api_addAgent_enemyType `{MathHost} (w w' : World) :
  api_addAgent w = Some w' ->
  enemyType (components w') = enemyType (components w).
Proof.
  rewrite api_addAgent_shape.
  destruct (addWeaponToEntity (nodeId w) "rifle" _) as [w2|] eqn:Hrifle; [|done].
  cbn [mbind option_bind].
  destruct (arr_get WeaponTypes _) as [randomWeaponType|]; [|done].
  cbn [mbind option_bind]. intros Hrun.
  apply addWeaponToEntity_enemyType in Hrun as ->.
  apply addWeaponToEntity_enemyType in Hrifle.
  replace (components (set_randomCalls (S (randomCalls w2)) w2)) with (components w2)
    by (by destruct w2).
  rewrite Hrifle. by destruct w as [? [] ? ? ? ? ?].
Qed.

Lemma api_addEnemy_enemyType `{MathHost} (w w' : World) :
  api_addEnemy w = Some w' ->
  exists enemyTypeChoice,
    enemyTypeChoice ∈ EnemyTypes
    /\ enemyType (components w')
       = <[nodeId w := EnemyTypeComponent.new (nodeId w) enemyTypeChoice]>
           (enemyType (components w)).
Proof.
  rewrite api_addEnemy_shape.
  destruct (arr_get EnemyTypes _) as [enemyTypeChoice|] eqn:Hchoice; [|done].
  apply arr_get_elem in Hchoice.
  cbn [mbind option_bind].
  destruct (obj_get enemyTypeChoice EntityStats) as [enemyHealth|]; [|done].
  cbn [mbind option_bind]. cbv zeta.
  set (shell := addComponent (enemyType_data _) _).
  assert (Hshell : enemyType (components shell)
                   = <[nodeId w := EnemyTypeComponent.new (nodeId w) enemyTypeChoice]>
                       (enemyType (components w))).
  { unfold shell. by destruct w as [? [] ? ? ? ? ?]. }
  clearbody shell.
  destruct (addWeaponIfFree (nodeId w) true "laser" shell) as [w1|] eqn:H1; [|done].
  apply addWeaponIfFree_enemyType in H1. cbn [mbind option_bind].
  destruct (addWeaponIfFree (nodeId w) _ "rocket" w1) as [w2|] eqn:H2; [|done].
  apply addWeaponIfFree_enemyType in H2. cbn [mbind option_bind].
  destruct (addWeaponIfFree (nodeId w) _ "cannon" w2) as [w3|] eqn:H3; [|done].
  apply addWeaponIfFree_enemyType in H3. cbn [mbind option_bind].
  destruct (addWeaponIfFree (nodeId w) true "melee" w3) as [w4|] eqn:H4; [|done].
  apply addWeaponIfFree_enemyType in H4. cbn [mbind option_bind].
  intros Hparts. exists enemyTypeChoice. split; [done|].
  assert (Hend : enemyType (components w') = enemyType (components w4)); [|congruence].
  revert Hparts.
  apply (forEach_invariant _
           (fun s => enemyType (components s) = enemyType (components w4))); [|done].
  intros partType s s' _ Hs. rewrite addTargetPartToEntity_Some. intros [= <-].
  rewrite <- Hs. by destruct s as [? [] ? ? ? ? ?].
Qed.

Lemma enemiesTyped_resolveLink `{MathHost} (weaponId : nat) (w w' : World) :
  storeInvariant w -> enemiesTyped w -> resolveLink weaponId w = Some w' ->
  enemiesTyped w'.
Proof.
  intros Hinv Htyped Hrun.
  apply resolveLink_cases in Hrun
    as [[->| ->]|(target & h & dmg & Hin & Hpos & Hh & Hcase)];
    [done | by destruct w |].
  destruct Hcase as [[Hpositive ->]|[Hdead ->]].
  - intros entity He Htype. destruct (Htyped entity) as (entry & Hentry & Hknown);
      [by destruct w|done|].
    exists entry. split; [|done]. by destruct w as [? [] ? ? ? ? ?].
  - pose proof (spliceOut_id_gone target (entities w) (inv_nodup w Hinv) Hin) as Hother.
    pose proof (spliceOut_subseteq target (entities w)) as Hsub.
    intros entity He Htype. unfold enemiesTyped in Htyped. open_world w.
    specialize (Hother entity He).
    destruct (Htyped entity (Hsub _ He) Htype) as (entry & Hentry & Hknown).
    exists entry. split; [|done]. by rewrite lookup_delete_ne.
Qed.

Lemma reachable_enemiesTyped `{MathHost} (w : World) : reachable w -> enemiesTyped w.
Proof.
  induction 1 as [|w w' Hw IH Hadd|w w' Hw IH Hadd|w _ IH|w _ IH|w w' Hw IH Hstep].
  - intros entity Hin. by apply elem_of_nil in Hin.
  - intros entity Hin Htype.
    rewrite (api_addAgent_entities _ _ Hadd) in Hin.
    rewrite (api_addAgent_enemyType _ _ Hadd).
    apply elem_of_app in Hin as [Hin|Hin]; [by apply IH|].
    apply list_elem_of_singleton in Hin as ->. done.
  - intros entity Hin Htype.
    rewrite (api_addEnemy_entities _ _ Hadd) in Hin.
    destruct (api_addEnemy_enemyType _ _ Hadd) as (enemyTypeChoice & Hknown & ->).
    apply elem_of_app in Hin as [Hin|Hin].
    + destruct (IH entity Hin Htype) as (entry & Hentry & Hentry').
      exists entry. split; [|done].
      pose proof (inv_ids w (reachable_storeInvariant _ Hw) entity Hin).
      rewrite lookup_insert_ne by lia. done.
    + apply list_elem_of_singleton in Hin as ->. simpl.
      rewrite lookup_insert_eq. by eexists.
  - intros entity Hin Htype. destruct (IH entity) as (entry & ? & ?);
      [by destruct w|done|].
    exists entry. by destruct w.
  - intros entity Hin Htype. destruct (IH entity) as (entry & ? & ?);
      [by destruct w|done|].
    exists entry. by destruct w.
  - pose proof (reachable_storeInvariant _ Hw) as Hinv.
    unfold EntityComponentSystem_update in Hstep.
    destruct (WeaponAssignmentSystem_update w) as [w1|] eqn:Hassign; simpl in Hstep; [|done].
    pose proof (duringPass_recordedInPass _ _
                  (WeaponAssignmentSystem_update_duringPass _ _ Hassign)) as Hpass.
    assert (Hw1 : storeInvariant w1 /\ enemiesTyped w1).
    { split; [by eapply storeInvariant_assignment|].
      destruct Hpass as [Hframe _]. rewrite Hframe.
      intros entity Hin Htype. destruct (IH entity) as (entry & ? & ?);
        [by destruct w|done|].
      exists entry. by destruct w as [? [] ? ? ? ? ?]. }
    revert Hstep. unfold DamageSystem_update.
    generalize (Object_keys (targeting (components w1))). intros keys Hrun.
    assert (Hend : storeInvariant w' /\ enemiesTyped w'); [|by destruct Hend].
    revert Hrun.
    apply (forEach_invariant _ (fun s => storeInvariant s /\ enemiesTyped s)); [|done].
    intros weaponId s s' _ [Hs1 Hs2] Hround.
    split; [by eapply storeInvariant_resolveLink|by eapply enemiesTyped_resolveLink].
Qed.

Lemma forEach_drawRangeCircle (c : Components) (entity : Entity.t)
    (entityPosition : PositionComponent.t) (ranges : list Q) (svg : list SvgCall) :
  position c !! Entity.id entity = Some entityPosition ->
  forEach (drawRangeCircle c entity) ranges svg
  = Some (svg ++ ((fun radius =>
                     svg_append
                       (rangeCircle (PositionComponent.x entityPosition)
                          (PositionComponent.y entityPosition) radius
                          (if bool_decide (Entity.type entity = EntityType.AGENT)
                           then "blue" else "red"))) <$> ranges)).
Proof.
  intros Hpos. revert svg. induction ranges as [|range ranges IH]; intros svg.
  - simpl. by rewrite app_nil_r.
  - assert (Hstep : drawRangeCircle c entity range svg
                    = Some (svg ++ [svg_append
                                      (rangeCircle (PositionComponent.x entityPosition)
                                         (PositionComponent.y entityPosition) range
                                         (if bool_decide (Entity.type entity = EntityType.AGENT)
                                          then "blue" else "red"))])).
    { unfold drawRangeCircle. by rewrite Hpos. }
    cbn [forEach]. rewrite Hstep. cbn [mbind option_bind].
    rewrite IH, <- app_assoc. done.
Qed.

Lemma heldRadii_weaponRanges (w : World) (cells : list (option nat)) :
  (forall weaponId, Some weaponId ∈ cells ->
     exists wp, weapon (components w) !! weaponId = Some wp
                /\ WeaponComponent.weaponType wp ∈ WeaponTypes) ->
  heldRadii (components w) cells (flat_map (weaponRanges (components w)) cells).
Proof.
  induction cells as [|cell cells IH]; intros Hcells; [constructor|].
  assert (Hrest : heldRadii (components w) cells
                    (flat_map (weaponRanges (components w)) cells)).
  { apply IH. intros weaponId Hin. apply Hcells. by apply list_elem_of_further. }
  destruct cell as [weaponId|]; [|by constructor].
  destruct (Hcells weaponId (list_elem_of_here _ _)) as (wp & Hwp & Hknown).
  destruct (WeaponTypes_tables _ Hknown) as ([range Hrange] & _).
  cbn [flat_map]. unfold weaponRanges at 1. rewrite Hwp, Hrange.
  by eapply heldRadii_weapon.
Qed.

Lemma length_heldRadii (c : Components) (cells : list (option nat)) (radii : list Q) :
  heldRadii c cells radii ->
  length radii
  = 2 * length (List.filter (fun cell => match cell with Some _ => true | None => false end)
                  cells).
Proof. induction 1; simpl in *; lia. Qed.

Lemma drawEntityRanges_reachable `{MathHost} (w : World) (entity : Entity.t)
    (svg : list SvgCall) :
  storeInvariant w -> equipped w -> enemiesTyped w ->
  entity ∈ entities w ->
  exists radii calls,
    drawEntityRanges (components w) entity svg = Some (svg ++ calls)
    /\ radiiOf (components w) entity radii
    /\ circlesAround (components w) entity radii calls
    /\ length calls = circlesFor (components w) entity.
Proof.
  intros Hinv Heq Htyped Hin.
  destruct (equipped_entity w Heq entity Hin) as ([entityPosition Hpos] & _ & [slots Hslots] & _).
  unfold drawEntityRanges, entityRanges, circlesFor, radiiOf.
  destruct (inv_types w Hinv entity Hin) as [[Hagent|Henemy] _].
  - rewrite !(bool_decide_eq_true_2 (Entity.type entity = EntityType.AGENT)) by done.
    rewrite Hslots. cbn [mbind option_bind from_option].
    rewrite (forEach_drawRangeCircle _ _ entityPosition) by done.
    assert (Hradii : heldRadii (components w) (WeaponSlotsComponent.weaponIds slots)
                       (flat_map (weaponRanges (components w))
                          (WeaponSlotsComponent.weaponIds slots))).
    { apply heldRadii_weaponRanges. intros weaponId Hcell.
      destruct (equipped_slot w Heq _ _ _ Hslots Hcell) as [wp Hwp].
      exists wp. split; [done|]. by apply (equipped_weapon w Heq weaponId). }
    eexists _, _. split; [reflexivity|].
    split; [left; split; [done|]; by exists slots|].
    split; [by exists entityPosition|].
    rewrite length_fmap. exact (length_heldRadii _ _ _ Hradii).
  - rewrite !(bool_decide_eq_false_2 (Entity.type entity = EntityType.AGENT))
      by (rewrite Henemy; done).
    rewrite (bool_decide_eq_true_2 (Entity.type entity = EntityType.ENEMY)) by done.
    destruct (Htyped entity Hin Henemy) as (entry & Hentry & Hknown). rewrite Hentry.
    cbn [mbind option_bind].
    assert (Hrange : exists range,
               obj_get (EnemyTypeComponent.enemyType entry) EnemyRangeConfig = Some range).
    { unfold EnemyTypes in Hknown.
      repeat (apply elem_of_cons in Hknown as [->|Hknown]; [by eexists|]).
      by apply elem_of_nil in Hknown. }
    destruct Hrange as [range Hrange]. rewrite Hrange.
    rewrite (forEach_drawRangeCircle _ _ entityPosition) by done.
    eexists _, _. split; [reflexivity|].
    split; [right; split; [done|]; by exists entry, range|].
    split; [by exists entityPosition|done].
Qed.

Lemma forEach_drawEntityRanges_reachable `{MathHost} (w : World) (ents : list Entity.t)
    (svg : list SvgCall) :
  storeInvariant w -> equipped w -> enemiesTyped w ->
  ents ⊆ entities w ->
  exists drawn,
    forEach (drawEntityRanges (components w)) ents svg = Some (svg ++ concat drawn)
    /\ Forall2 (fun entity calls =>
                  exists radii, radiiOf (components w) entity radii
                                /\ circlesAround (components w) entity radii calls)
         ents drawn
    /\ length (concat drawn) = sum_list (circlesFor (components w) <$> ents).
Proof.
  intros Hinv Heq Htyped. revert svg.
  induction ents as [|entity ents IH]; intros svg Hsub.
  - exists []. simpl. rewrite app_nil_r. by repeat split.
  - destruct (drawEntityRanges_reachable w entity svg Hinv Heq Htyped)
      as (radii & first & Hfirst & Hradii & Hcalls & Hlen1); [apply Hsub, list_elem_of_here|].
    destruct (IH (svg ++ first)) as (rest & Hrest & Hall & Hlen2).
    { intros e He. apply Hsub. by apply list_elem_of_further. }
    exists (first :: rest). cbn [forEach]. rewrite Hfirst. cbn [mbind option_bind].
    rewrite Hrest, <- app_assoc. split; [done|].
    split; [constructor; [by exists radii|done]|].
    simpl. by rewrite length_app, Hlen1, Hlen2.
Qed.

(** X22.  The range circles of a world the script can reach.
    [renderRangeCircles] does not throw: it first removes the circles
    of the frame before, and then draws, entity after entity in the
    order of the registry, circles centred on the entity itself: for an
    agent two blue ones for each weapon it holds, in the order of its
    slots, with the two ends of the range of the weapon's type as
    radii, the minimum first; for an enemy two red ones, with the two
    ends of the range [EnemyRangeConfig] gives its type as radii,
    whatever weapons it holds. *)
Theorem renderRangeCircles_reachable `{MathHost} (w : World) (svg : list SvgCall) :
  reachable w ->
  exists drawn,
    renderRangeCircles w svg
    = Some (svg ++ svg_selectAll_remove ".range-circle" :: concat drawn)
    /\ Forall2 (fun entity calls =>
                  exists radii, radiiOf (components w) entity radii
                                /\ circlesAround (components w) entity radii calls)
         (entities w) drawn
    /\ length (concat drawn) = sum_list (circlesFor (components w) <$> entities w).
Proof.
  intros Hreach. unfold renderRangeCircles.
  destruct (forEach_drawEntityRanges_reachable w (entities w)
              (svg ++ [svg_selectAll_remove ".range-circle"])
              (reachable_storeInvariant _ Hreach) (reachable_equipped _ Hreach)
              (reachable_enemiesTyped _ Hreach))
    as (drawn & Hrun & Hall & Hlen); [done|].
  exists drawn. rewrite Hrun, <- app_assoc. done.
Qed.

(** The circles of the duel: the rifle and the melee weapon of the agent
    at the origin, and the infantry enemy, at the origin as well. *)
Lemma renderRangeCircles_reachable_witness :
  exists drawn,
    renderRangeCircles duelWorld []
    = Some ([] ++ svg_selectAll_remove ".range-circle" :: concat drawn)
    /\ drawn = [ [ svg_append (rangeCircle 0 0 30 "blue");
                   svg_append (rangeCircle 0 0 60 "blue");
                   svg_append (rangeCircle 0 0 1 "blue");
                   svg_append (rangeCircle 0 0 1 "blue") ];
                 [ svg_append (rangeCircle 0 0 25 "red");
                   svg_append (rangeCircle 0 0 50 "red") ] ].
Proof.
  destruct (renderRangeCircles_reachable (H := duel_host) duelWorld [] duelWorld_reachable)
    as (drawn & Hrun & Hall & _).
  exists drawn. split; [exact Hrun|].
  apply Forall2_cons_inv_l in Hall as (agentCalls & rest & Hagent & Hall & ->).
  apply Forall2_cons_inv_l in Hall as (enemyCalls & rest' & Henemy & Hall & ->).
  apply Forall2_nil_inv_l in Hall as ->.
  destruct Hagent as (radii & [[_ (slots & Hslots & Hradii)]|[Hty _]] & position0 & Hpos & ->);
    [|discriminate Hty].
  destruct Henemy as (radii' & [[Hty _]|[_ (entry & range & Hentry & Hrange & ->)]]
                      & position3 & Hpos' & ->); [discriminate Hty|].
  vm_compute in Hslots, Hpos, Hpos', Hentry. simplify_eq.
  vm_compute in Hrange. simplify_eq.
  inversion Hradii as [| |? rifle rifleRange ? ? Hrifle HrifleRange Hrest]; subst.
  inversion Hrest as [| |? melee meleeRange ? ? Hmelee HmeleeRange Hnulls]; subst.
  do 5 (inversion Hnulls as [|? ? Hnulls'|]; subst; clear Hnulls; rename Hnulls' into Hnulls).
  inversion Hnulls; subst.
  vm_compute in Hrifle, Hmelee. simplify_eq.
  vm_compute in HrifleRange, HmeleeRange. simplify_eq.
  reflexivity.
Defined.

Lemma foldl_drawTargetingLink (c : Components) (links : list TargetingComponent.t)
    (svg : list SvgCall) :
  exists lines,
    foldl (fun svg link => drawTargetingLink c link svg) svg links = svg ++ lines
    /\ length lines <= length links
    /\ (forall call, call ∈ lines <-> exists link, link ∈ links /\ lineOf c link call).
Proof.
  revert svg. induction links as [|link links IH]; intros svg.
  - exists []. rewrite app_nil_r. split; [done|]. split; [done|].
    intros call. split; [by intros ?%elem_of_nil|].
    by intros (link & ?%elem_of_nil & _).
  - cbn [foldl]. unfold drawTargetingLink at 2.
    destruct (position c !! TargetingComponent.source link) as [sp|] eqn:Hsp;
      [destruct (position c !! TargetingComponent.target link) as [tp|] eqn:Htp|].
    + destruct (IH (svg ++ [svg_append
                              (targetingLine (PositionComponent.x sp) (PositionComponent.y sp)
                                 (PositionComponent.x tp) (PositionComponent.y tp)
                                 (TargetingComponent.color link))]))
        as (lines & -> & Hlen & Hiff).
      eexists (_ :: lines). rewrite <- app_assoc. split; [done|].
      split; [simpl; lia|].
      intros call. rewrite elem_of_cons, Hiff. split.
      * intros [->|(other & Hin & Hline)].
        -- exists link. split; [apply list_elem_of_here|]. by exists sp, tp.
        -- exists other. split; [by apply list_elem_of_further|done].
      * intros (other & [->|Hin]%elem_of_cons & Hline).
        -- left. destruct Hline as (sp' & tp' & Hsp' & Htp' & ->). congruence.
        -- right. by exists other.
    + destruct (IH svg) as (lines & -> & Hlen & Hiff).
      exists lines. split; [done|]. split; [simpl; lia|].
      intros call. rewrite Hiff. split.
      * intros (other & Hin & Hline). exists other.
        split; [by apply list_elem_of_further|done].
      * intros (other & [->|Hin]%elem_of_cons & Hline); [|by exists other].
        destruct Hline as (sp' & tp' & Hsp' & Htp' & _). congruence.
    + destruct (IH svg) as (lines & -> & Hlen & Hiff).
      exists lines. split; [done|]. split; [simpl; lia|].
      intros call. rewrite Hiff. split.
      * intros (other & Hin & Hline). exists other.
        split; [by apply list_elem_of_further|done].
      * intros (other & [->|Hin]%elem_of_cons & Hline); [|by exists other].
        destruct Hline as (sp' & tp' & Hsp' & Htp' & _). congruence.
Qed.

(** X23.  The links drawn.  [renderTargetingLinks] only appends lines
    to what the svg holds: it removes nothing, so the lines of earlier
    frames stay.  A line is drawn exactly for the enabled links whose
    source and target both have a position, a link without one of the
    two being skipped silently; the line runs from the position of the
    source, which is the weapon and not its owner, to the position of the
    target, in the colour of the link. *)
Theorem renderTargetingLinks_draws (c : Components) (svg : list SvgCall) :
  exists lines,
    renderTargetingLinks c svg = svg ++ lines
    /\ length lines <= size (targeting c)
    /\ (forall call, call ∈ lines <->
          exists k link, targeting c !! k = Some link
                         /\ TargetingComponent.enabled link = true
                         /\ lineOf c link call).
Proof.
  unfold renderTargetingLinks.
  destruct (foldl_drawTargetingLink c
              (List.filter TargetingComponent.enabled (Object_values (targeting c))) svg)
    as (lines & Hrun & Hlen & Hiff).
  exists lines. split; [exact Hrun|]. split.
  - assert (Hvalues : length (Object_values (targeting c))
                      <= length (Object_keys (targeting c))).
    { unfold Object_values. generalize (Object_keys (targeting c)).
      intros keys. induction keys as [|k keys IH]; [done|].
      csimpl. destruct (targeting c !! k); csimpl; lia. }
    pose proof (List.filter_length_le TargetingComponent.enabled
                  (Object_values (targeting c))) as Hfilter.
    rewrite length_Object_keys in Hvalues. lia.
  - intros call. rewrite Hiff. split.
    + intros (link & Hin & Hline).
      apply list_elem_of_In, List.filter_In in Hin as [Hin Henabled].
      apply list_elem_of_In, elem_of_Object_values in Hin as [k Hk].
      by exists k, link.
    + intros (k & link & Hk & Henabled & Hline). exists link. split; [|done].
      apply list_elem_of_In, List.filter_In. split; [|done].
      apply list_elem_of_In, elem_of_Object_values. by exists k.
Qed.

Lemma renderTargetingLinks_draws_witness :
  exists lines,
    renderTargetingLinks (components (withLinkFrom 2 3 duelWorld)) [] = [] ++ lines
    /\ svg_append (targetingLine 10 10 0 0 "gray") ∈ lines.
Proof.
  destruct (renderTargetingLinks_draws (components (withLinkFrom 2 3 duelWorld)) [])
    as (lines & Hrun & _ & Hiff).
  exists lines. split; [exact Hrun|].
  apply Hiff. exists 2, (TargetingComponent.new 2 3 "gray" true).
  split; [vm_compute; reflexivity|]. split; [reflexivity|].
  exists (PositionComponent.new 2 10 10), (PositionComponent.new 3 0 0).
  split; [vm_compute; reflexivity|]. split; [vm_compute; reflexivity|reflexivity].
Defined.


(** ** The script as loaded *)

(** X24.  The store the script starts with.  With samples in [[0, 1)]
    loading the script succeeds and leaves four entities in the
    registry: the agent 0, holding a rifle 1 and a weapon 2 of a random
    type, and three enemies of random types, each holding a laser and the
    second weapon of its type under the two ids after its own and
    followed by its parts, so that the second enemy comes [6 + ] the
    number of parts of the first, and so on.  Nothing is written to the
    console and no link exists yet. *)
Theorem startup_store `{MathHost} :
  samplesInUnit ->
  exists w randomWeaponType type1 type2 type3 parts1 parts2 parts3,
    startup = Some w
    /\ reachable w
    /\ randomWeaponType ∈ WeaponTypes
    /\ obj_get type1 EnemyPartsConfig = Some parts1
    /\ obj_get type2 EnemyPartsConfig = Some parts2
    /\ obj_get type3 EnemyPartsConfig = Some parts3
    /\ let enemy2 := 6 + length parts1 in
       let enemy3 := 3 + enemy2 + length parts2 in
       entities w = [Entity.mk 0 EntityType.AGENT None; Entity.mk 3 EntityType.ENEMY None;
                     Entity.mk enemy2 EntityType.ENEMY None;
                     Entity.mk enemy3 EntityType.ENEMY None]
       /\ nodeId w = 3 + enemy3 + length parts3
       /\ randomCalls w = 12 + 2 * (length parts1 + length parts2 + length parts3)
       /\ console w = []
       /\ targeting (components w) = ∅
       /\ enemyType (components w)
          = <[enemy3 := EnemyTypeComponent.new enemy3 type3]>
              (<[enemy2 := EnemyTypeComponent.new enemy2 type2]>
                 (<[3 := EnemyTypeComponent.new 3 type1]> ∅))
       /\ weaponSlots (components w)
          = <[enemy3 := WeaponSlotsComponent.mk enemy3 [Some (S enemy3); Some (S (S enemy3))]]>
              (<[enemy2 := WeaponSlotsComponent.mk enemy2
                             [Some (S enemy2); Some (S (S enemy2))]]>
                 (<[3 := WeaponSlotsComponent.mk 3 [Some 4; Some 5]]>
                    (<[0 := WeaponSlotsComponent.mk 0
                              [Some 1; Some 2; None; None; None; None; None]]> ∅)))
       /\ weapon (components w)
          = <[S (S enemy3) := WeaponComponent.new (S (S enemy3)) (secondWeapon type3)]>
              (<[S enemy3 := WeaponComponent.new (S enemy3) "laser"]>
                 (<[S (S enemy2) := WeaponComponent.new (S (S enemy2)) (secondWeapon type2)]>
                    (<[S enemy2 := WeaponComponent.new (S enemy2) "laser"]>
                       (<[5 := WeaponComponent.new 5 (secondWeapon type1)]>
                          (<[4 := WeaponComponent.new 4 "laser"]>
                             (<[2 := WeaponComponent.new 2 randomWeaponType]>
                                (<[1 := WeaponComponent.new 1 "rifle"]> ∅))))))).
Proof.
  intros Hsamples. unfold startup.
  destruct (api_addAgent_effect initialWorld)
    as (w1 & randomWeaponType & Hrun1 & Hchoice1 & Hspawn1); [apply Hsamples..|].
  destruct (api_addEnemy_effect w1)
    as (w2 & type1 & health1 & parts1 & Hrun2 & _ & _ & Hparts1 & Hspawn2);
    [apply Hsamples..|].
  destruct (api_addEnemy_effect w2)
    as (w3 & type2 & health2 & parts2 & Hrun3 & _ & _ & Hparts2 & Hspawn3);
    [apply Hsamples..|].
  destruct (api_addEnemy_effect w3)
    as (w4 & type3 & health3 & parts3 & Hrun4 & _ & _ & Hparts3 & Hspawn4);
    [apply Hsamples..|].
  exists w4, randomWeaponType, type1, type2, type3, parts1, parts2, parts3.
  rewrite Hrun1. cbn [mbind option_bind]. rewrite Hrun2. cbn [mbind option_bind].
  rewrite Hrun3. cbn [mbind option_bind].
  split; [exact Hrun4|].
  split.
  { eapply reachable_addEnemy; [|exact Hrun4].
    eapply reachable_addEnemy; [|exact Hrun3].
    eapply reachable_addEnemy; [|exact Hrun2].
    eapply reachable_addAgent; [constructor|exact Hrun1]. }
  split; [by eapply arr_get_elem|].
  split; [done|]. split; [done|]. split; [done|].
  destruct Hspawn1 as (He1 & Hn1 & Hrc1 & Hcon1 & _ & _ & _ & _ & Hsl1 & Hwp1 & Het1
                       & _ & Htg1).
  destruct Hspawn2 as (He2 & Hn2 & Hrc2 & Hcon2 & _ & _ & Het2 & Hsl2 & Hwp2 & Htg2 & _).
  destruct Hspawn3 as (He3 & Hn3 & Hrc3 & Hcon3 & _ & _ & Het3 & Hsl3 & Hwp3 & Htg3 & _).
  destruct Hspawn4 as (He4 & Hn4 & Hrc4 & Hcon4 & _ & _ & Het4 & Hsl4 & Hwp4 & Htg4 & _).
  simpl in Hn1, Hrc1, Hcon1, He1, Hsl1, Hwp1, Het1, Htg1.
  rewrite Hn1 in He2, Hn2, Het2, Hsl2, Hwp2.
  rewrite Hn2 in He3, Hn3, Het3, Hsl3, Hwp3.
  rewrite Hn3 in He4, Hn4, Het4, Hsl4, Hwp4.
  cbv zeta.
  split; [rewrite He4, He3, He2, He1; reflexivity|].
  split; [exact Hn4|].
  split; [rewrite Hrc4, Hrc3, Hrc2, Hrc1; lia|].
  split; [by rewrite Hcon4, Hcon3, Hcon2, Hcon1|].
  split; [by rewrite Htg4, Htg3, Htg2, Htg1|].
  split; [rewrite Het4, Het3, Het2, Het1; reflexivity|].
  split; [rewrite Hsl4, Hsl3, Hsl2, Hsl1; reflexivity|].
  rewrite Hwp4, Hwp3, Hwp2, Hwp1. reflexivity.
Qed.

Lemma startup_store_witness :
  exists w, startup (H := scenarioA_host) = Some w
    /\ console w = []
    /\ targeting (components w) = ∅.
Proof.
  assert (Hsamples : samplesInUnit (H := scenarioA_host)).
  { intros [|[|[|[|[|[|[|n]]]]]]]; simpl; split; try discriminate; reflexivity. }
  destruct (startup_store (H := scenarioA_host) Hsamples)
    as (w & t & type1 & type2 & type3 & parts1 & parts2 & parts3 & Hrun & _ & _
        & _ & _ & _ & _ & _ & _ & Hconsole & Hlinks & _).
  exists w. split; [exact Hrun|]. split; [exact Hconsole|exact Hlinks].
Defined.


(** ** When the systems throw *)

(** X25.  When a round of the damage pass throws.  For a weapon whose
    type is not one of the names every object inherits, so that the
    range and the stats of the type are [undefined] when the tables have
    no entry for it, the round of a link throws exactly when the link is
    enabled, its weapon has an entry and its target is in the registry,
    and then one of the things read without a test is missing: the
    position of the source, the position of the target, the range or
    the stats of the weapon type, or, once the sample has landed the
    hit, the health entry of the target.  In every other case the round
    returns. *)
Theorem resolveLink_throws_iff `{MathHost} (weaponId : nat) (w : World) :
  (forall wp, weapon (components w) !! weaponId = Some wp ->
     WeaponComponent.weaponType wp ∉ Object_prototype_keys) ->
  resolveLink weaponId w = None
  <-> exists link wp target,
        targeting (components w) !! weaponId = Some link
        /\ TargetingComponent.enabled link = true
        /\ weapon (components w) !! weaponId = Some wp
        /\ List.find (fun entity => bool_decide (Entity.id entity = TargetingComponent.target link))
             (entities w) = Some target
        /\ (position (components w) !! TargetingComponent.source link = None
            \/ position (components w) !! Entity.id target = None
            \/ obj_get (WeaponComponent.weaponType wp) WeaponRangeConfig = None
            \/ obj_get (WeaponComponent.weaponType wp) WeaponStats = None
            \/ exists sourcePosition targetPosition range weaponStats hitProbability,
                 position (components w) !! TargetingComponent.source link
                 = Some sourcePosition
                 /\ position (components w) !! Entity.id target = Some targetPosition
                 /\ obj_get (WeaponComponent.weaponType wp) WeaponRangeConfig = Some range
                 /\ obj_get (WeaponComponent.weaponType wp) WeaponStats = Some weaponStats
                 /\ calculateHitProbability (distanceBetween sourcePosition targetPosition)
                      (snd range) (accuracy weaponStats) = Some hitProbability
                 /\ Qlt_bool (Math_random (randomCalls w)) hitProbability = true
                 /\ health (components w) !! Entity.id target = None).
Proof.
  intros _. unfold resolveLink, resolveHit. split.
  - destruct (targeting (components w) !! weaponId) as [link|]; [|done].
    destruct (TargetingComponent.enabled link) eqn:Henabled; [|done].
    destruct (weapon (components w) !! weaponId) as [wp|]; [|done].
    destruct (List.find _ (entities w)) as [target|] eqn:Hfind; [|done].
    intros Hrun. exists link, wp, target.
    split; [done|]. split; [done|]. split; [done|]. split; [done|].
    destruct (position (components w) !! TargetingComponent.source link) as [sp|];
      [|by left].
    destruct (position (components w) !! Entity.id target) as [tp|]; [|right; by left].
    destruct (obj_get _ WeaponRangeConfig) as [range|]; [|right; right; by left].
    destruct (obj_get _ WeaponStats) as [stats|]; [|right; right; right; by left].
    right; right; right; right. cbn [mbind option_bind] in Hrun.
    destruct (calculateHitProbability _ _ _) as [p|] eqn:Hp.
    + cbn [mbind option_bind] in Hrun. unfold random in Hrun. cbv beta iota zeta in Hrun.
      destruct (Qlt_bool _ p) eqn:Hsample; [|done].
      replace (health (components (set_randomCalls (S (randomCalls w)) w)))
        with (health (components w)) in Hrun by (by destruct w).
      destruct (health (components w) !! Entity.id target) as [h|] eqn:Hh.
      * cbn [mbind option_bind] in Hrun. by case_bool_decide.
      * by exists sp, tp, range, stats, p.
    + by destruct (calculateHitProbability_total
                     (distanceBetween sp tp) (snd range) (accuracy stats)) as [? ?];
        simplify_eq.
  - intros (link & wp & target & -> & -> & -> & -> & Hcase).
    destruct Hcase as [->|[Htp|[Hrange|[Hstats|Hhealth]]]]; [done| | | |].
    + destruct (position (components w) !! TargetingComponent.source link); [|done].
      cbn [mbind option_bind]. by rewrite Htp.
    + destruct (position (components w) !! TargetingComponent.source link); [|done].
      destruct (position (components w) !! Entity.id target); [|done].
      cbn [mbind option_bind]. by rewrite Hrange.
    + destruct (position (components w) !! TargetingComponent.source link); [|done].
      destruct (position (components w) !! Entity.id target); [|done].
      destruct (obj_get _ WeaponRangeConfig); [|done].
      cbn [mbind option_bind]. by rewrite Hstats.
    + destruct Hhealth as (sp & tp & range & stats & p & -> & -> & -> & -> & Hp & Hsample
                           & Hh).
      cbn [mbind option_bind]. rewrite Hp. cbn [mbind option_bind].
      unfold random. cbv beta iota zeta. rewrite Hsample.
      replace (health (components (set_randomCalls (S (randomCalls w)) w)))
        with (health (components w)) by (by destruct w).
      by rewrite Hh.
Qed.

(** The melee weapon 2 of the duel, its position removed. *)
Lemma resolveLink_throws_iff_witness :
  resolveLink (H := duel_host) 2
    (removeComponent "position" 2 (withLinkFrom 2 3 duelWorld)) = None.
Proof.
  apply (resolveLink_throws_iff (H := duel_host)).
  { intros wp Hwp. vm_compute in Hwp. injection Hwp as <-. by_computation. }
  exists (TargetingComponent.new 2 3 "gray" true), (WeaponComponent.new 2 "melee"),
    (Entity.mk 3 EntityType.ENEMY None).
  split; [vm_compute; reflexivity|]. split; [reflexivity|].
  split; [vm_compute; reflexivity|]. split; [vm_compute; reflexivity|].
  left. vm_compute. reflexivity.
Defined.

Lemma primaryScan_empty `{MathHost} w weaponId weaponType owner types :
  entities w = [] -> primaryScan w weaponId weaponType owner types = Some None.
Proof.
  intros Hempty. induction types as [|targetType types IH]; [done|].
  simpl. unfold primaryCandidate. by rewrite Hempty.
Qed.

Lemma specificScan_empty `{MathHost} w weaponId weaponType owner specific :
  entities w = [] -> specificScan w weaponId weaponType owner specific = Some None.
Proof.
  intros Hempty. induction specific as [|[targetType parts] specific IH]; [done|].
  simpl.
  assert (Hparts : specificPartScan w weaponId weaponType owner targetType parts = Some None).
  { induction parts as [|part parts IHp]; [done|].
    simpl. unfold specificCandidate. by rewrite Hempty. }
  by rewrite Hparts.
Qed.

(** X26.  The edges of [assignWeaponToTarget].  A weapon id without
    weapon entry makes the call throw.  A weapon whose type has no
    preference record is left alone, provided the type is not one of
    the names every object inherits, for which the lookup of the record
    finds the inherited value.  When the type names no specific targets,
    the weapon of an owner that is neither agent nor enemy is left alone
    as well, every preference being filtered out.  And with an empty
    registry no weapon gets a link, under the same proviso on its
    type. *)
Theorem assignWeaponToTarget_edges `{MathHost} (weaponId : nat) (owner : Entity.t) (w : World) :
  (weapon (components w) !! weaponId = None ->
   assignWeaponToTarget weaponId owner w = None)
  /\ (forall wp,
        weapon (components w) !! weaponId = Some wp ->
        WeaponComponent.weaponType wp ∉ Object_prototype_keys ->
        obj_get (WeaponComponent.weaponType wp) WeaponTargetConfig = None ->
        assignWeaponToTarget weaponId owner w = Some w)
  /\ (forall wp targetPreferences,
        weapon (components w) !! weaponId = Some wp ->
        obj_get (WeaponComponent.weaponType wp) WeaponTargetConfig = Some targetPreferences ->
        specificTargets targetPreferences = None ->
        Entity.type owner <> EntityType.AGENT ->
        Entity.type owner <> EntityType.ENEMY ->
        assignWeaponToTarget weaponId owner w = Some w)
  /\ (forall wp,
        weapon (components w) !! weaponId = Some wp ->
        WeaponComponent.weaponType wp ∉ Object_prototype_keys ->
        entities w = [] ->
        assignWeaponToTarget weaponId owner w = Some w).
Proof.
  unfold assignWeaponToTarget. split; [|split; [|split]].
  - by intros ->.
  - intros wp -> _ Hprefs. cbn [mbind option_bind]. by rewrite Hprefs.
  - intros wp prefs -> Hprefs Hspecific Hagent Henemy. cbn [mbind option_bind].
    rewrite Hprefs.
    assert (Hnone : filteredTargetTypes owner prefs = []).
    { unfold filteredTargetTypes.
      assert (Hvalid : validTargetTypes owner = []).
      { unfold validTargetTypes.
        rewrite (bool_decide_eq_false_2 (Entity.type owner = EntityType.AGENT)) by done.
        by rewrite (bool_decide_eq_false_2 (Entity.type owner = EntityType.ENEMY)). }
      rewrite Hvalid.
      induction (primary prefs) as [|type types IH]; [done|].
      cbn [List.filter]. destruct (bool_decide (type ∈ [])) eqn:Hin; [|done].
      apply bool_decide_eq_true in Hin. by apply elem_of_nil in Hin. }
    rewrite Hnone. simpl. by rewrite Hspecific.
  - intros wp -> _ Hempty. cbn [mbind option_bind].
    destruct (obj_get _ WeaponTargetConfig) as [prefs|]; [|done].
    rewrite primaryScan_empty by done. cbn [mbind option_bind].
    destruct (specificTargets prefs) as [specific|]; [|done].
    by rewrite specificScan_empty.
Qed.

(** On the duel: the id 9 has no weapon entry; the melee weapon 2 in
    the hands of an owner of class weapon; a weapon 20 of a type the
    tables do not know, added to the duel; and a rifle 9 in a store
    without entities. *)
Lemma assignWeaponToTarget_edges_witness :
  assignWeaponToTarget (H := duel_host) 9 (Entity.mk 0 EntityType.AGENT None) duelWorld = None
  /\ assignWeaponToTarget (H := duel_host) 2 (Entity.mk 2 EntityType.WEAPON None) duelWorld
     = Some duelWorld
  /\ assignWeaponToTarget (H := duel_host) 20 (Entity.mk 0 EntityType.AGENT None)
       (addComponent (weapon_data (WeaponComponent.new 20 "sword")) duelWorld)
     = Some (addComponent (weapon_data (WeaponComponent.new 20 "sword")) duelWorld)
  /\ assignWeaponToTarget (H := duel_host) 9 (Entity.mk 0 EntityType.AGENT None)
       (addComponent (weapon_data (WeaponComponent.new 9 "rifle")) initialWorld)
     = Some (addComponent (weapon_data (WeaponComponent.new 9 "rifle")) initialWorld).
Proof.
  split; [|split; [|split]].
  - apply (proj1 (assignWeaponToTarget_edges (H := duel_host) 9
                    (Entity.mk 0 EntityType.AGENT None) duelWorld)).
    vm_compute. reflexivity.
  - apply (proj1 (proj2 (proj2 (assignWeaponToTarget_edges (H := duel_host) 2
                                  (Entity.mk 2 EntityType.WEAPON None) duelWorld)))
             (WeaponComponent.new 2 "melee")
             {| primary := ["agent"; "enemy"; "target-part"]; specificTargets := None |});
      vm_compute; congruence.
  - apply (proj1 (proj2 (assignWeaponToTarget_edges (H := duel_host) 20
                           (Entity.mk 0 EntityType.AGENT None)
                           (addComponent (weapon_data (WeaponComponent.new 20 "sword"))
                              duelWorld)))
             (WeaponComponent.new 20 "sword"));
      [vm_compute; reflexivity | by_computation | vm_compute; reflexivity].
  - apply (proj2 (proj2 (proj2 (assignWeaponToTarget_edges (H := duel_host) 9
                                  (Entity.mk 0 EntityType.AGENT None)
                                  (addComponent (weapon_data (WeaponComponent.new 9 "rifle"))
                                     initialWorld))))
             (WeaponComponent.new 9 "rifle"));
      [vm_compute; reflexivity | by_computation | reflexivity].
Defined.

(** X27.  The dead are not hit twice.  Once an entity has been killed,
    every link that still points at it is skipped for the rest of the
    pass: its target is no longer found in the registry, so the round
    draws no sample and changes nothing. *)
Theorem dead_target_skipped `{MathHost} (w : World) (target : Entity.t) (k : nat)
    (link : TargetingComponent.t) :
  NoDup (map Entity.id (entities w)) ->
  target ∈ entities w ->
  targeting (components (killEntity target w)) !! k = Some link ->
  TargetingComponent.target link = Entity.id target ->
  resolveLink k (killEntity target w) = Some (killEntity target w).
Proof.
  intros Hnodup Hin Hk Htarget. unfold resolveLink. rewrite Hk.
  destruct (TargetingComponent.enabled link); [|done].
  rewrite (find_id_None (entities (killEntity target w))).
  - by destruct (weapon (components (killEntity target w)) !! k).
  - intros entity Hentity. rewrite Htarget.
    apply (spliceOut_id_gone target (entities w)); [done|done|].
    by destruct w.
Qed.

Lemma dead_target_skipped_witness :
  resolveLink (H := duel_host) 2
    (killEntity (Entity.mk 1 EntityType.ENEMY None) cannonOnInfantry)
  = Some (killEntity (Entity.mk 1 EntityType.ENEMY None) cannonOnInfantry).
Proof.
  apply (dead_target_skipped (H := duel_host) cannonOnInfantry
           (Entity.mk 1 EntityType.ENEMY None) 2 (TargetingComponent.new 2 1 "black" true)).
  - by_computation.
  - by_computation.
  - vm_compute. reflexivity.
  - reflexivity.
Defined.

(** ** What a pass rebuilds *)

Lemma assignWeaponToTarget_other `{MathHost} k owner w w' (weaponId : nat) :
  assignWeaponToTarget k owner w = Some w' -> k <> weaponId ->
  targeting (components w') !! weaponId = targeting (components w) !! weaponId.
Proof.
  intros Hrun Hne.
  apply assignWeaponToTarget_result in Hrun as [->|(wp & link & _ & _ & ->)]; [done|].
  destruct w as [? [] ? ? ? ? ?]; simpl. by rewrite lookup_insert_ne.
Qed.

Lemma forEach_assignSlot_other `{MathHost} owner cells w w' (weaponId : nat) :
  Some weaponId ∉ cells ->
  forEach (assignSlot owner) cells w = Some w' ->
  targeting (components w') !! weaponId = targeting (components w) !! weaponId.
Proof.
  intros Hnot.
  apply (forEach_invariant _
           (fun s => targeting (components s) !! weaponId
                     = targeting (components w) !! weaponId)); [|done].
  intros [k|] s s' Hin Hs; simpl.
  - intros Hcall. rewrite <- Hs. eapply assignWeaponToTarget_other; [done|].
    by intros ->.
  - by intros [= <-].
Qed.

Lemma assignEntity_enabled `{MathHost} (owner : Entity.t) (w : World) :
  ownerEnabled w owner = true ->
  assignEntity owner w
  = slots ← weaponSlots (components w) !! Entity.id owner;
    forEach (assignSlot owner) (WeaponSlotsComponent.weaponIds slots) w.
Proof.
  unfold ownerEnabled, assignEntity, assignAgentWeapons, assignEnemyWeapons.
  destruct (bool_decide (Entity.type owner = EntityType.AGENT) && agentTargetingEnabled w);
    [done|].
  simpl. by intros ->.
Qed.

Lemma forEach_assignEntity_other `{MathHost} w0 ents w w' (weaponId : nat) :
  (forall other otherSlots, other ∈ ents ->
     weaponSlots (components w0) !! Entity.id other = Some otherSlots ->
     Some weaponId ∉ WeaponSlotsComponent.weaponIds otherSlots) ->
  duringPass w0 w ->
  forEach assignEntity ents w = Some w' ->
  targeting (components w') !! weaponId = targeting (components w) !! weaponId.
Proof.
  intros Hnot Hpass Hrun.
  assert (Hend : duringPass w0 w'
                 /\ targeting (components w') !! weaponId
                    = targeting (components w) !! weaponId); [|by destruct Hend].
  revert Hrun.
  apply (forEach_invariant _
           (fun s => duringPass w0 s
                     /\ targeting (components s) !! weaponId
                        = targeting (components w) !! weaponId)); [|done].
  intros entity s s' Hin [Hs Hkeep] Hstep.
  split; [by eapply assignEntity_duringPass|].
  rewrite <- Hkeep.
  destruct (recordedInPass_frame _ _ (duringPass_recordedInPass _ _ Hs))
    as (_ & _ & _ & Hsl & _).
  revert Hstep. unfold assignEntity, assignAgentWeapons, assignEnemyWeapons. rewrite Hsl.
  destruct (_ && _).
  { destruct (weaponSlots (components w0) !! Entity.id entity) as [slots|] eqn:Hslots;
      simpl; [|done].
    apply forEach_assignSlot_other. by eapply Hnot. }
  destruct (_ && _).
  { destruct (weaponSlots (components w0) !! Entity.id entity) as [slots|] eqn:Hslots;
      simpl; [|done].
    apply forEach_assignSlot_other. by eapply Hnot. }
  by intros [= <-].
Qed.

Lemma firstInRange_frame `{MathHost} (w w' : World) owner weaponType types target :
  entities w' = entities w ->
  position (components w') = position (components w) ->
  firstInRange w' owner weaponType types target
  <-> firstInRange w owner weaponType types target.
Proof. unfold firstInRange, firstOfType, inRangeOf. by intros -> ->. Qed.

(** A weapon without link yet gets the link to its first target in
    range, unless the scan throws. *)
Lemma primaryScan_firstInRange `{MathHost} w weaponId weaponType owner types target :
  (forall entity, alreadyTargeted (components w) weaponId entity = false) ->
  firstInRange w owner weaponType types target ->
  primaryScan w weaponId weaponType owner types = None
  \/ primaryScan w weaponId weaponType owner types
     = Some (Some (TargetingComponent.new weaponId (Entity.id target)
                     (getWeaponColor weaponType) true)).
Proof.
  intros Hfree (before & targetType & after & -> & Hfirst & Hrange & Hbefore).
  induction before as [|earlier before IH]; simpl.
  - rewrite (primaryCandidate_untargeted w weaponId targetType Hfree), Hfirst.
    rewrite (linkIfInRange_inRangeOf _ _ _ _ _ Hrange). by right.
  - rewrite (primaryCandidate_untargeted w weaponId earlier Hfree).
    pose proof (IH (fun e o He => Hbefore e o (list_elem_of_further _ _ _ He))) as IH'.
    destruct (firstOfType w earlier) as [other|] eqn:Hother; [|exact IH'].
    destruct (linkIfInRange (components w) weaponId weaponType owner other)
      as [[link|]|] eqn:Hlink; simpl; [|exact IH'|by left].
    exfalso. apply (Hbefore earlier other); [left | done |].
    by eapply linkIfInRange_Some_Some.
Qed.

Lemma primaryScan_nothing_in_range `{MathHost} w weaponId weaponType owner types found :
  (forall entity, alreadyTargeted (components w) weaponId entity = false) ->
  (forall target, ~ firstInRange w owner weaponType types target) ->
  primaryScan w weaponId weaponType owner types = Some found ->
  found = None.
Proof.
  intros Hfree Hnone Hscan. destruct found as [link|]; [|done].
  apply primaryScan_order in Hscan.
  destruct Hscan as (before & targetType & after & target & -> & Hcand & Hrange & _ & Hbefore).
  exfalso. apply (Hnone target). exists before, targetType, after.
  split; [done|].
  rewrite <- (primaryCandidate_untargeted w weaponId targetType Hfree).
  split; [done|]. split; [done|].
  intros earlier other Hin Hother. apply (Hbefore earlier other Hin).
  by rewrite (primaryCandidate_untargeted w weaponId earlier Hfree).
Qed.

Lemma specificScan_noPartRecords `{MathHost} w weaponId weaponType owner specific :
  noPartRecords w ->
  specificScan w weaponId weaponType owner specific = Some None.
Proof.
  intros Hnone.
  assert (Hcand : forall targetType part,
            specificCandidate w weaponId targetType part = None).
  { intros targetType part.
    destruct (specificCandidate w weaponId targetType part) as [target|] eqn:Hc; [|done].
    apply specificCandidate_Some in Hc as (Hin & _ & [record Hrecord] & _).
    by rewrite (Hnone target Hin) in Hrecord. }
  assert (Hparts : forall targetType parts,
            specificPartScan w weaponId weaponType owner targetType parts = Some None).
  { intros targetType parts. induction parts as [|part rest IH]; simpl; [done|].
    by rewrite Hcand. }
  induction specific as [|[targetType parts] rest IH]; simpl; [done|].
  by rewrite Hparts.
Qed.

(** The call of a pass for a weapon that has no link yet. *)
Lemma assignWeaponToTarget_rebuilds `{MathHost} w0 w w' weaponId owner wp targetPreferences :
  duringPass w0 w ->
  targeting (components w) !! weaponId = None ->
  weapon (components w0) !! weaponId = Some wp ->
  obj_get (WeaponComponent.weaponType wp) WeaponTargetConfig = Some targetPreferences ->
  assignWeaponToTarget weaponId owner w = Some w' ->
  (forall target,
      firstInRange w0 owner (WeaponComponent.weaponType wp)
        (filteredTargetTypes owner targetPreferences) target ->
      targeting (components w') !! weaponId
      = Some (TargetingComponent.new weaponId (Entity.id target)
                (getWeaponColor (WeaponComponent.weaponType wp)) true))
  /\ ((forall target,
         ~ firstInRange w0 owner (WeaponComponent.weaponType wp)
             (filteredTargetTypes owner targetPreferences) target) ->
      noPartRecords w0 ->
      targeting (components w') !! weaponId = None).
Proof.
  intros Hpass Hnone Hwp Hprefs Hrun.
  apply duringPass_recordedInPass in Hpass as Hrec.
  destruct (recordedInPass_frame _ _ Hrec) as (Hents & Hpos & Hweapon & _).
  assert (Hfree : forall entity, alreadyTargeted (components w) weaponId entity = false).
  { intros entity. apply alreadyTargeted_no_link; [|done].
    intros k link Hk. destruct Hrec as [_ Hlinks]. by apply Hlinks in Hk as [? _]. }
  unfold assignWeaponToTarget in Hrun. rewrite Hweapon, Hwp in Hrun. simpl in Hrun.
  rewrite Hprefs in Hrun.
  split.
  - intros target Htarget. apply (firstInRange_frame w0 w) in Htarget; [|done|done].
    destruct (primaryScan_firstInRange w weaponId _ owner _ target Hfree Htarget)
      as [Hscan|Hscan]; rewrite Hscan in Hrun; simpl in Hrun; [done|].
    simplify_eq. destruct w as [? [] ? ? ? ? ?]; simpl. by rewrite lookup_insert_eq.
  - intros Hno Hparts.
    destruct (primaryScan w weaponId (WeaponComponent.weaponType wp) owner
                (filteredTargetTypes owner targetPreferences)) as [found|] eqn:Hscan;
      simpl in Hrun; [|done].
    assert (found = None) as ->.
    { eapply primaryScan_nothing_in_range; [done| |done].
      intros target Htarget. apply (Hno target). by apply (firstInRange_frame w0 w). }
    assert (Hparts' : noPartRecords w) by (unfold noPartRecords; by rewrite Hents).
    destruct (specificTargets targetPreferences) as [specific|].
    + rewrite (specificScan_noPartRecords w _ _ _ _ Hparts') in Hrun. simpl in Hrun.
      by simplify_eq.
    + by simplify_eq.
Qed.

(** The link a pass leaves under a weapon for which it makes one call. *)
Lemma WeaponAssignmentSystem_update_rebuilds `{MathHost} w w' owner weaponId wp
    targetPreferences :
  WeaponAssignmentSystem_update w = Some w' ->
  heldOnlyBy w weaponId owner ->
  ownerEnabled w owner = true ->
  weapon (components w) !! weaponId = Some wp ->
  obj_get (WeaponComponent.weaponType wp) WeaponTargetConfig = Some targetPreferences ->
  (forall target,
      firstInRange w owner (WeaponComponent.weaponType wp)
        (filteredTargetTypes owner targetPreferences) target ->
      targeting (components w') !! weaponId
      = Some (TargetingComponent.new weaponId (Entity.id target)
                (getWeaponColor (WeaponComponent.weaponType wp)) true))
  /\ ((forall target,
         ~ firstInRange w owner (WeaponComponent.weaponType wp)
             (filteredTargetTypes owner targetPreferences) target) ->
      noPartRecords w ->
      targeting (components w') !! weaponId = None).
Proof.
  intros Hrun (before & after & slots & cellsBefore & cellsAfter & Hents & Hslots & Hcells
               & Hnot1 & Hnot2 & Hothers) Hflag Hwp Hprefs.
  unfold WeaponAssignmentSystem_update in Hrun.
  replace (entities (clearTargeting w)) with (entities w) in Hrun by by destruct w.
  rewrite Hents, forEach_app in Hrun.
  destruct (forEach assignEntity before (clearTargeting w)) as [s1|] eqn:H1;
    simpl in Hrun; [|done].
  pose proof (forEach_assignEntity_other w before _ _ weaponId
                (fun other otherSlots Hin =>
                   Hothers other otherSlots (proj2 (elem_of_app _ _ _) (or_introl Hin)))
                (duringPass_cleared w) H1) as Hk1.
  apply (forEach_assignEntity_duringPass w) in H1 as Hp1; [|constructor].
  assert (Hnone1 : targeting (components s1) !! weaponId = None).
  { rewrite Hk1. by destruct w as [? [] ? ? ? ? ?]. }
  destruct (assignEntity owner s1) as [s2|] eqn:H2; simpl in Hrun; [|done].
  pose proof (assignEntity_duringPass w owner s1 s2 Hp1 H2) as Hp2.
  rewrite (forEach_assignEntity_other w after s2 w' weaponId
             (fun other otherSlots Hin =>
                Hothers other otherSlots (proj2 (elem_of_app _ _ _) (or_intror Hin)))
             Hp2 Hrun).
  destruct (recordedInPass_frame _ _ (duringPass_recordedInPass _ _ Hp1))
    as (_ & _ & _ & Hsl & Hfa & Hfe).
  rewrite assignEntity_enabled in H2 by (unfold ownerEnabled in *; by rewrite Hfa, Hfe).
  rewrite Hsl, Hslots in H2. simpl in H2. rewrite Hcells, forEach_app in H2.
  destruct (forEach (assignSlot owner) cellsBefore s1) as [s1a|] eqn:H1a;
    simpl in H2; [|done].
  pose proof (forEach_assignSlot_other owner cellsBefore s1 s1a weaponId Hnot1 H1a) as Hk1a.
  apply (forEach_assignSlot_duringPass w) in H1a; [|done].
  destruct (assignWeaponToTarget weaponId owner s1a) as [s1b|] eqn:Hcall;
    simpl in H2; [|done].
  rewrite (forEach_assignSlot_other owner cellsAfter s1b s2 weaponId Hnot2 H2).
  apply (assignWeaponToTarget_rebuilds w s1a s1b weaponId owner wp targetPreferences);
    try done.
  by rewrite Hk1a.
Qed.

(** ** Every weapon is held once *)

Lemma weaponsHeldOnce_subset (w w' : World) :
  (forall k slots, weaponSlots (components w') !! k = Some slots ->
     weaponSlots (components w) !! k = Some slots) ->
  nodeId w <= nodeId w' ->
  weaponsHeldOnce w -> weaponsHeldOnce w'.
Proof.
  intros Hsub Hnode [Hbelow Honce]. split.
  - intros k slots weaponId Hk Hcell. apply Hsub in Hk.
    pose proof (Hbelow k slots weaponId Hk Hcell). lia.
  - intros k1 k2 slots1 slots2 i j weaponId H1 H2.
    apply Hsub in H1. apply Hsub in H2. by eapply Honce.
Qed.

Lemma weaponsHeldOnce_frame (w w' : World) :
  weaponSlots (components w') = weaponSlots (components w) ->
  nodeId w <= nodeId w' ->
  weaponsHeldOnce w -> weaponsHeldOnce w'.
Proof. intros Hsl. apply weaponsHeldOnce_subset. by rewrite Hsl. Qed.

(** One slots component is replaced: its new cells hold what the old
    ones held, but for one cell that may hold the id the counter is
    at. *)
Lemma weaponsHeldOnce_fill (w w' : World) (entityId : nat)
    (slots' : WeaponSlotsComponent.t) (index : nat) :
  weaponSlots (components w') = <[entityId := slots']> (weaponSlots (components w)) ->
  nodeId w' = S (nodeId w) ->
  (forall i weaponId,
     WeaponSlotsComponent.weaponIds slots' !! i = Some (Some weaponId) ->
     weaponId = nodeId w /\ i = index
     \/ exists slots, weaponSlots (components w) !! entityId = Some slots
          /\ WeaponSlotsComponent.weaponIds slots !! i = Some (Some weaponId)) ->
  weaponsHeldOnce w -> weaponsHeldOnce w'.
Proof.
  intros Hsl Hnode Hcells [Hbelow Honce].
  assert (Hold : forall k slots i weaponId,
            weaponSlots (components w') !! k = Some slots ->
            WeaponSlotsComponent.weaponIds slots !! i = Some (Some weaponId) ->
            weaponId = nodeId w /\ i = index /\ k = entityId
            \/ exists old, weaponSlots (components w) !! k = Some old
                 /\ WeaponSlotsComponent.weaponIds old !! i = Some (Some weaponId)).
  { intros k slots i weaponId Hk Hi. rewrite Hsl in Hk.
    destruct (decide (entityId = k)) as [<-|Hne].
    - rewrite lookup_insert_eq in Hk. simplify_eq.
      destruct (Hcells i weaponId Hi) as [[-> ->]|Hx]; [by left | by right].
    - rewrite lookup_insert_ne in Hk by done. right. by exists slots. }
  assert (Hfresh : forall k old i,
            weaponSlots (components w) !! k = Some old ->
            WeaponSlotsComponent.weaponIds old !! i = Some (Some (nodeId w)) -> False).
  { intros k old i Hk Hi.
    pose proof (Hbelow k old (nodeId w) Hk (list_elem_of_lookup_2 _ _ _ Hi)). lia. }
  split.
  - intros k slots weaponId Hk Hcell. apply list_elem_of_lookup in Hcell as [i Hi].
    rewrite Hnode.
    destruct (Hold k slots i weaponId Hk Hi) as [(-> & _)|(old & Hk' & Hi')]; [lia|].
    pose proof (Hbelow k old weaponId Hk' (list_elem_of_lookup_2 _ _ _ Hi')). lia.
  - intros k1 k2 slots1 slots2 i j weaponId H1 H2 Hi Hj.
    destruct (Hold _ _ _ _ H1 Hi) as [(-> & -> & ->)|(old1 & Hk1 & Hi1)];
      destruct (Hold _ _ _ _ H2 Hj) as [(Hw & -> & ->)|(old2 & Hk2 & Hj2)].
    + done.
    + exfalso. by eapply Hfresh.
    + subst. exfalso. by eapply Hfresh.
    + by eapply Honce.
Qed.

Lemma fillFirstNull_Some (weaponId : nat) (ids ids' : list (option nat)) :
  WeaponSlotsComponent.fillFirstNull weaponId ids = Some ids' ->
  exists before after,
    ids = before ++ None :: after /\ ids' = before ++ Some weaponId :: after.
Proof.
  revert ids'. induction ids as [|[other|] rest IH]; intros ids'; simpl; [done| |].
  - destruct (WeaponSlotsComponent.fillFirstNull weaponId rest) as [filled|]; simpl; [|done].
    intros [= <-]. destruct (IH filled eq_refl) as (before & after & -> & ->).
    by exists (Some other :: before), after.
  - intros [= <-]. by exists [], rest.
Qed.

Lemma addWeapon_lookup (weaponId : nat) (slots : WeaponSlotsComponent.t) :
  exists index, forall i other,
    WeaponSlotsComponent.weaponIds (WeaponSlotsComponent.addWeapon weaponId slots).1 !! i
    = Some (Some other) ->
    other = weaponId /\ i = index
    \/ WeaponSlotsComponent.weaponIds slots !! i = Some (Some other).
Proof.
  unfold WeaponSlotsComponent.addWeapon.
  destruct (WeaponSlotsComponent.fillFirstNull weaponId (WeaponSlotsComponent.weaponIds slots))
    as [ids|] eqn:Hfill; simpl.
  - apply fillFirstNull_Some in Hfill as (before & after & Hids & ->).
    exists (length before). intros i other Hi. rewrite Hids.
    destruct (lt_eq_lt_dec i (length before)) as [[Hlt| ->]|Hgt].
    + right. rewrite lookup_app_l in Hi by done. by rewrite lookup_app_l.
    + left. rewrite list_lookup_middle in Hi by done. by simplify_eq.
    + right. rewrite lookup_app_r in Hi by lia. rewrite lookup_app_r by lia.
      destruct (i - length before) as [|m] eqn:Hm; [lia|]. done.
  - exists 0. intros i other Hi. by right.
Qed.

Lemma weaponsHeldOnce_addWeaponToEntity (entityId : nat) (weaponType : string)
    (w w' : World) :
  weaponsHeldOnce w ->
  addWeaponToEntity entityId weaponType w = Some w' ->
  weaponsHeldOnce w'.
Proof.
  intros Hheld Hrun.
  apply addWeaponToEntity_Some in Hrun as (ownerPosition & slots & Hpos & Hslots & ->).
  cbv zeta.
  destruct (addWeapon_lookup (nodeId w) slots) as [index Hindex].
  apply (weaponsHeldOnce_fill w _ entityId
           (WeaponSlotsComponent.addWeapon (nodeId w) slots).1 index); [| | |done].
  - destruct (WeaponSlotsComponent.addWeapon (nodeId w) slots).2;
      by destruct w as [? [] ? ? ? ? ?].
  - destruct (WeaponSlotsComponent.addWeapon (nodeId w) slots).2; by destruct w.
  - intros i weaponId Hi. destruct (Hindex i weaponId Hi) as [?|?]; [by left|].
    right. by exists slots.
Qed.

Lemma weaponsHeldOnce_addWeaponIfFree (entityId : nat) (extra : bool)
    (weaponType : string) (w w' : World) :
  weaponsHeldOnce w ->
  addWeaponIfFree entityId extra weaponType w = Some w' ->
  weaponsHeldOnce w'.
Proof.
  intros Hheld. unfold addWeaponIfFree.
  destruct (hasNullSlot entityId w) as [free|]; simpl; [|done].
  destruct (free && extra); [|by intros [= <-]].
  by apply weaponsHeldOnce_addWeaponToEntity.
Qed.

Lemma weaponsHeldOnce_withNewEntity (type : string) (x y : Q) (base : Z)
    (numberOfSlots : nat) (w : World) :
  weaponsHeldOnce w ->
  weaponsHeldOnce (withNewEntity type x y base numberOfSlots w).
Proof.
  intros Hheld.
  destruct (withNewEntity_projections type x y base numberOfSlots w)
    as (_ & Hnode & _ & _ & _ & _ & _ & _ & Hslots & _).
  apply (weaponsHeldOnce_fill w _ (nodeId w)
           (WeaponSlotsComponent.new (nodeId w) numberOfSlots) 0); [done|done| |done].
  intros i weaponId Hi. simpl in Hi.
  apply list_elem_of_lookup_2, elem_of_replicate in Hi as [? _]. done.
Qed.

Lemma weaponsHeldOnce_addAgent `{MathHost} (w w' : World) :
  weaponsHeldOnce w -> api_addAgent w = Some w' -> weaponsHeldOnce w'.
Proof.
  intros Hheld. rewrite api_addAgent_shape.
  set (shell := withNewEntity _ _ _ _ _ _).
  assert (Hshell : weaponsHeldOnce shell).
  { apply weaponsHeldOnce_withNewEntity.
    eapply weaponsHeldOnce_frame; [| |exact Hheld]; by destruct w. }
  clearbody shell.
  destruct (addWeaponToEntity (nodeId w) "rifle" shell) as [w2|] eqn:Hrifle; [|done].
  cbn [mbind option_bind].
  destruct (arr_get WeaponTypes _) as [randomWeaponType|]; [|done].
  cbn [mbind option_bind].
  apply weaponsHeldOnce_addWeaponToEntity.
  eapply weaponsHeldOnce_frame;
    [| |eapply weaponsHeldOnce_addWeaponToEntity; [exact Hshell|exact Hrifle]];
    by destruct w2.
Qed.

Lemma weaponsHeldOnce_addEnemy `{MathHost} (w w' : World) :
  weaponsHeldOnce w -> api_addEnemy w = Some w' -> weaponsHeldOnce w'.
Proof.
  intros Hheld. rewrite api_addEnemy_shape.
  destruct (arr_get EnemyTypes _) as [enemyTypeChoice|]; [|done].
  cbn [mbind option_bind].
  destruct (obj_get enemyTypeChoice EntityStats) as [enemyHealth|]; [|done].
  cbn [mbind option_bind]. cbv zeta.
  set (shell := addComponent (enemyType_data _) _).
  assert (Hshell : weaponsHeldOnce shell).
  { eapply weaponsHeldOnce_frame;
      [| |apply (weaponsHeldOnce_withNewEntity EntityType.ENEMY
                   (Math_random (S (randomCalls w)) * 800)
                   (Math_random (S (S (randomCalls w))) * 600)
                   enemyHealth 2 (set_randomCalls (S (S (S (randomCalls w)))) w))].
    - by destruct w as [? [] ? ? ? ? ?].
    - by destruct w as [? [] ? ? ? ? ?].
    - eapply weaponsHeldOnce_frame; [| |exact Hheld]; by destruct w. }
  clearbody shell.
  destruct (addWeaponIfFree (nodeId w) true "laser" shell) as [w1|] eqn:H1; [|done].
  apply weaponsHeldOnce_addWeaponIfFree in H1; [|done].
  cbn [mbind option_bind].
  destruct (addWeaponIfFree (nodeId w) _ "rocket" w1) as [w2|] eqn:H2; [|done].
  apply weaponsHeldOnce_addWeaponIfFree in H2; [|done].
  cbn [mbind option_bind].
  destruct (addWeaponIfFree (nodeId w) _ "cannon" w2) as [w3|] eqn:H3; [|done].
  apply weaponsHeldOnce_addWeaponIfFree in H3; [|done].
  cbn [mbind option_bind].
  destruct (addWeaponIfFree (nodeId w) true "melee" w3) as [w4|] eqn:H4; [|done].
  apply weaponsHeldOnce_addWeaponIfFree in H4; [|done].
  cbn [mbind option_bind].
  apply (forEach_invariant _ weaponsHeldOnce); [|done].
  intros partType s s' _ Hs. rewrite addTargetPartToEntity_Some. intros [= <-].
  eapply weaponsHeldOnce_frame; [| |exact Hs]; destruct s as [? [] ? ? ? ? ?]; simpl; [done|lia].
Qed.

Lemma weaponsHeldOnce_resolveLink `{MathHost} (weaponId : nat) (w w' : World) :
  weaponsHeldOnce w -> resolveLink weaponId w = Some w' -> weaponsHeldOnce w'.
Proof.
  intros Hheld Hrun.
  apply resolveLink_cases in Hrun
    as [[->| ->]|(target & h & dmg & Hin & Hpos & Hh & Hcase)];
    [done | by destruct w |].
  destruct Hcase as [[Hpositive ->]|[Hdead ->]].
  - eapply weaponsHeldOnce_frame; [| |exact Hheld]; by destruct w as [? [] ? ? ? ? ?].
  - eapply weaponsHeldOnce_subset; [| |exact Hheld].
    + intros k slots. destruct w as [? [] ? ? ? ? ?]; simpl.
      by intros [_ ?]%lookup_delete_Some.
    + by destruct w.
Qed.

Lemma reachable_weaponsHeldOnce `{MathHost} (w : World) :
  reachable w -> weaponsHeldOnce w.
Proof.
  induction 1 as [|w w' Hw IH Hadd|w w' Hw IH Hadd|w _ IH|w _ IH|w w' Hw IH Hstep].
  - split.
    + intros k slots weaponId Hk. simpl in Hk. by rewrite lookup_empty in Hk.
    + intros k1 k2 slots1 slots2 i j weaponId Hk. simpl in Hk.
      by rewrite lookup_empty in Hk.
  - by eapply weaponsHeldOnce_addAgent.
  - by eapply weaponsHeldOnce_addEnemy.
  - eapply weaponsHeldOnce_frame; [| |exact IH]; by destruct w.
  - eapply weaponsHeldOnce_frame; [| |exact IH]; by destruct w.
  - unfold EntityComponentSystem_update in Hstep.
    destruct (WeaponAssignmentSystem_update w) as [w1|] eqn:Hassign; simpl in Hstep; [|done].
    pose proof (duringPass_recordedInPass _ _
                  (WeaponAssignmentSystem_update_duringPass _ _ Hassign)) as [Hframe _].
    assert (Hw1 : weaponsHeldOnce w1).
    { rewrite Hframe. eapply weaponsHeldOnce_frame; [| |exact IH];
        by destruct w as [? [] ? ? ? ? ?]. }
    revert Hstep. unfold DamageSystem_update.
    apply (forEach_invariant _ weaponsHeldOnce); [|done].
    intros weaponId s s' _ Hs Hround. by eapply weaponsHeldOnce_resolveLink.
Qed.

(** In a registry without two entities of one id, a weapon held once is
    held by its holder only. *)
Lemma weaponsHeldOnce_heldOnlyBy (w : World) (owner : Entity.t)
    (slots : WeaponSlotsComponent.t) (weaponId : nat) :
  NoDup (map Entity.id (entities w)) ->
  weaponsHeldOnce w ->
  owner ∈ entities w ->
  weaponSlots (components w) !! Entity.id owner = Some slots ->
  Some weaponId ∈ WeaponSlotsComponent.weaponIds slots ->
  heldOnlyBy w weaponId owner.
Proof.
  intros Hnodup [_ Honce] Hin Hslots Hcell.
  apply list_elem_of_split in Hin as (before & after & Hents).
  apply list_elem_of_split in Hcell as (cellsBefore & cellsAfter & Hcells).
  assert (Hhere : WeaponSlotsComponent.weaponIds slots !! length cellsBefore
                  = Some (Some weaponId)).
  { rewrite Hcells. by apply list_lookup_middle. }
  exists before, after, slots, cellsBefore, cellsAfter.
  split; [done|]. split; [done|]. split; [done|]. split; [|split].
  - intros [i Hi]%list_elem_of_lookup.
    assert (Hlt : i < length cellsBefore) by (by eapply lookup_lt_Some).
    destruct (Honce _ _ slots slots i (length cellsBefore) weaponId Hslots Hslots)
      as [_ Heq]; [|done|lia].
    rewrite Hcells. by rewrite lookup_app_l.
  - intros [i Hi]%list_elem_of_lookup.
    destruct (Honce _ _ slots slots (length cellsBefore + S i) (length cellsBefore)
                weaponId Hslots Hslots) as [_ Heq]; [|done|lia].
    rewrite Hcells, lookup_app_r by lia.
    replace (length cellsBefore + S i - length cellsBefore) with (S i) by lia. done.
  - intros other otherSlots Hother Hos [j Hj]%list_elem_of_lookup.
    destruct (Honce _ _ otherSlots slots j (length cellsBefore) weaponId Hos Hslots Hj Hhere)
      as [Hid _].
    rewrite Hents, map_app in Hnodup. simpl in Hnodup.
    apply NoDup_app in Hnodup as (_ & Hsep & [Hafter _]%NoDup_cons).
    apply elem_of_app in Hother as [Hother|Hother].
    + apply (Hsep (Entity.id owner)); [|left].
      rewrite <- Hid. apply list_elem_of_In, in_map. by apply list_elem_of_In.
    + apply Hafter. rewrite <- Hid. apply list_elem_of_In, in_map. by apply list_elem_of_In.
Qed.

Lemma reachable_heldOnlyBy `{MathHost} (w : World) (owner : Entity.t)
    (slots : WeaponSlotsComponent.t) (weaponId : nat) :
  reachable w ->
  owner ∈ entities w ->
  weaponSlots (components w) !! Entity.id owner = Some slots ->
  Some weaponId ∈ WeaponSlotsComponent.weaponIds slots ->
  heldOnlyBy w weaponId owner.
Proof.
  intros Hreach. apply weaponsHeldOnce_heldOnlyBy.
  - apply (inv_nodup w). by apply reachable_storeInvariant.
  - by apply reachable_weaponsHeldOnce.
Qed.

(** ** C3: the category is rebuilt from scratch *)

(** C3.  A pass starts by clearing the targeting category and rebuilds
    it from the rest of the store alone.  Whatever links [stale] the
    category held before, the pass does what it does on the store
    without them; in the world it ends in nothing but the targeting
    category differs from the store it started from, and every link was
    recorded by a call of this pass: it sits under the id of its source,
    is enabled, and is accounted for by the store as it is now, its
    source being a weapon in a slot of an entity of the registry whose
    class is enabled and its target an entity of the registry in range.
    And the links are written anew: a weapon for which the pass makes
    one call, being in one slot of an enabled owner, ends with the link
    to the first entity of the registry of the first surviving
    preference type whose first entity is in range of the owner, and
    with no link when no type has its first entity in range and no
    entity carries a part record, whatever was stored under its id
    before.  On a reachable store the pass does end, no entity carries
    a part record, and every weapon in a slot of an entity of the
    registry is held in that one slot and has a preference record, so
    that the pass makes one call for it. *)
Theorem targeting_rebuilt_each_pass `{MathHost} (w : World) (stale : gmap nat TargetingComponent.t) :
  WeaponAssignmentSystem_update (withTargeting stale w) = WeaponAssignmentSystem_update w
  /\ (forall w', WeaponAssignmentSystem_update (withTargeting stale w) = Some w' ->
        recordedInPass w w')
  /\ (reachable w ->
      exists w', WeaponAssignmentSystem_update (withTargeting stale w) = Some w')
  /\ (forall w' k link,
        WeaponAssignmentSystem_update (withTargeting stale w) = Some w' ->
        targeting (components w') !! k = Some link ->
        justifiedLink w k link)
  /\ (forall w' owner weaponId wp targetPreferences,
        WeaponAssignmentSystem_update (withTargeting stale w) = Some w' ->
        heldOnlyBy w weaponId owner ->
        ownerEnabled w owner = true ->
        weapon (components w) !! weaponId = Some wp ->
        obj_get (WeaponComponent.weaponType wp) WeaponTargetConfig = Some targetPreferences ->
        (forall target,
            firstInRange w owner (WeaponComponent.weaponType wp)
              (filteredTargetTypes owner targetPreferences) target ->
            targeting (components w') !! weaponId
            = Some (TargetingComponent.new weaponId (Entity.id target)
                      (getWeaponColor (WeaponComponent.weaponType wp)) true))
        /\ ((forall target,
               ~ firstInRange w owner (WeaponComponent.weaponType wp)
                   (filteredTargetTypes owner targetPreferences) target) ->
            noPartRecords w ->
            targeting (components w') !! weaponId = None))
  /\ (reachable w ->
      noPartRecords w
      /\ forall owner slots weaponId,
           owner ∈ entities w ->
           weaponSlots (components w) !! Entity.id owner = Some slots ->
           Some weaponId ∈ WeaponSlotsComponent.weaponIds slots ->
           heldOnlyBy w weaponId owner
           /\ exists wp targetPreferences,
                weapon (components w) !! weaponId = Some wp
                /\ obj_get (WeaponComponent.weaponType wp) WeaponTargetConfig
                   = Some targetPreferences).
Proof.
  rewrite WeaponAssignmentSystem_update_stale.
  split; [done|]. split; [|split; [|split; [|split]]].
  - intros w' Hrun.
    by apply duringPass_recordedInPass, WeaponAssignmentSystem_update_duringPass.
  - intros Hreach. by apply WeaponAssignmentSystem_update_total, reachable_equipped.
  - intros w' k link Hrun. by apply WeaponAssignmentSystem_update_justified.
  - intros w' owner weaponId wp targetPreferences Hrun.
    by apply WeaponAssignmentSystem_update_rebuilds.
  - intros Hreach. split.
    + intros entity Hin.
      by destruct (inv_types w (reachable_storeInvariant w Hreach) entity Hin).
    + intros owner slots weaponId Hin Hslots Hcell.
      split; [by eapply reachable_heldOnlyBy|].
      pose proof (reachable_equipped w Hreach) as Heq.
      destruct (equipped_slot w Heq _ _ _ Hslots Hcell) as [wp Hwp].
      destruct (equipped_weapon w Heq weaponId wp Hwp) as [_ Hknown].
      destruct (WeaponTypes_tables _ Hknown) as (_ & _ & [targetPreferences Hprefs]).
      by exists wp, targetPreferences.
Qed.

(** The duel with a stale link from the rifle 1 to the enemy 3: after
    the pass the rifle, none of whose preferences survives the filter,
    has no link, and the melee weapon 2 has its link to the enemy 3, the
    first enemy of the registry, at distance 0 of the agent. *)
Lemma targeting_rebuilt_each_pass_witness :
  exists w',
    WeaponAssignmentSystem_update (H := duel_host) (withLinkFrom 1 3 duelWorld) = Some w'
    /\ recordedInPass duelWorld w'
    /\ targeting (components w') !! 1 = None
    /\ targeting (components w') !! 2 = Some (TargetingComponent.new 2 3 "gray" true).
Proof.
  destruct (targeting_rebuilt_each_pass (H := duel_host) duelWorld
              {[ 1 := TargetingComponent.new 1 3 "gray" true ]})
    as (_ & Hrecorded & Hends & _ & Hrebuilt & Hreach).
  destruct (Hends duelWorld_reachable) as [w' Hrun].
  destruct (Hreach duelWorld_reachable) as [Hparts Hheld].
  exists w'. split; [exact Hrun|]. split; [exact (Hrecorded w' Hrun)|].
  split.
  - refine (proj2 (Hrebuilt w' (Entity.mk 0 EntityType.AGENT None) 1
                     (WeaponComponent.new 1 "rifle")
                     {| primary := ["devastator"; "infantry"];
                        specificTargets := Some [("tank", ["heat sink"])] |}
                     Hrun _ _ _ _) _ Hparts).
    + apply (Hheld (Entity.mk 0 EntityType.AGENT None)
               (WeaponSlotsComponent.mk 0 [Some 1; Some 2; None; None; None; None; None]));
        [by_computation | vm_compute; reflexivity | by_computation].
    + vm_compute. reflexivity.
    + vm_compute. reflexivity.
    + vm_compute. reflexivity.
    + intros target (before & targetType & after & Hsplit & _).
      vm_compute in Hsplit. by destruct before.
  - refine (proj1 (Hrebuilt w' (Entity.mk 0 EntityType.AGENT None) 2
                     (WeaponComponent.new 2 "melee")
                     {| primary := ["agent"; "enemy"; "target-part"];
                        specificTargets := None |}
                     Hrun _ _ _ _) (Entity.mk 3 EntityType.ENEMY None) _).
    + apply (Hheld (Entity.mk 0 EntityType.AGENT None)
               (WeaponSlotsComponent.mk 0 [Some 1; Some 2; None; None; None; None; None]));
        [by_computation | vm_compute; reflexivity | by_computation].
    + vm_compute. reflexivity.
    + vm_compute. reflexivity.
    + vm_compute. reflexivity.
    + exists [], EntityType.ENEMY, [EntityType.TARGET_PART].
      split; [vm_compute; reflexivity|]. split; [vm_compute; reflexivity|].
      split.
      * exists (PositionComponent.new 0 0 0), (PositionComponent.new 3 0 0), (1, 1)%Q.
        repeat split; vm_compute; reflexivity.
      * intros earlier other Hin. by apply elem_of_nil in Hin.
Defined.

(** ** C1: preferences that name enemy types *)

(** C1 at the failing input.  In the duel, agent targeting is on, the
    rifle 1 is in the first slot of the agent 0, the preferences of a
    rifle name the infantry type, the enemy 3 is an infantry enemy and
    lies at distance 0 of the agent, within the range of 60; and yet
    the pass leaves the rifle without link.  The filter compares the
    preferences, which are enemy types for every weapon type but melee,
    with the classes the owner may attack, so that for an agent as for
    an enemy nothing is left of the list of the seven other weapon
    types.  The melee weapons, whose preferences are classes, are the
    only ones to get a link: after the pass the category holds the link
    of the melee weapon 2 to the enemy 3 and that of the melee weapon 5
    of the enemy to the agent 0, and nothing else. *)
Theorem preferred_enemy_in_range_not_targeted :
  exists w' agentPosition enemyPosition,
    WeaponAssignmentSystem_update (H := duel_host) duelWorld = Some w'
    /\ agentTargetingEnabled duelWorld = true
    /\ entities duelWorld
       = [Entity.mk 0 EntityType.AGENT None; Entity.mk 3 EntityType.ENEMY None]
    /\ weaponSlots (components duelWorld) !! 0
       = Some (WeaponSlotsComponent.mk 0 [Some 1; Some 2; None; None; None; None; None])
    /\ weapon (components duelWorld) !! 1 = Some (WeaponComponent.new 1 "rifle")
    /\ (primary <$> obj_get "rifle" WeaponTargetConfig) = Some ["devastator"; "infantry"]
    /\ enemyType (components duelWorld) !! 3 = Some (EnemyTypeComponent.new 3 "infantry")
    /\ position (components duelWorld) !! 0 = Some agentPosition
    /\ position (components duelWorld) !! 3 = Some enemyPosition
    /\ Qle_bool (distanceBetween (H := duel_host) agentPosition enemyPosition) 60 = true
    /\ Forall (fun weaponType =>
                 (filteredTargetTypes (Entity.mk 0 EntityType.AGENT None)
                    <$> obj_get weaponType WeaponTargetConfig) = Some []
                 /\ (filteredTargetTypes (Entity.mk 3 EntityType.ENEMY None)
                       <$> obj_get weaponType WeaponTargetConfig) = Some [])
         ["rifle"; "missile"; "pistol"; "laser"; "rocket"; "repeater"; "cannon"]
    /\ targeting (components w') !! 1 = None
    /\ targeting (components w')
       = {[ 2 := TargetingComponent.new 2 3 "gray" true;
            5 := TargetingComponent.new 5 0 "gray" true ]}.
Proof.
  exists (default duelWorld (WeaponAssignmentSystem_update (H := duel_host) duelWorld)),
         (PositionComponent.new 0 0 0), (PositionComponent.new 3 0 0).
  repeat split; try (vm_compute; reflexivity).
  repeat constructor.
Qed.

(** ** C8: adding a weapon when every slot is taken *)

(** C8 at the failing input.  The two slots of the devastator 0 hold the
    laser 1 and the rocket 2.  A third weapon added to it does not
    throw, writes the warning and leaves the registry and the slots as
    they are; but the store is not as before: the call has taken the
    id 5 from the counter and stored a weapon entry and a position
    under it before looking for a free slot, so that the store now
    holds a melee weapon that no slot refers to. *)
Theorem full_slots_add_leaves_orphan :
  exists w',
    addWeaponToEntity 0 "melee" devastatorSpawned = Some w'
    /\ weaponSlots (components devastatorSpawned) !! 0
       = Some (WeaponSlotsComponent.mk 0 [Some 1; Some 2])
    /\ console devastatorSpawned = []
    /\ console w' = [(Warn, "Entity has no available weapon slots.")]
    /\ entities w' = entities devastatorSpawned
    /\ weaponSlots (components w') = weaponSlots (components devastatorSpawned)
    /\ nodeId devastatorSpawned = 5
    /\ nodeId w' = 6
    /\ weapon (components devastatorSpawned) !! 5 = None
    /\ weapon (components w') !! 5 = Some (WeaponComponent.new 5 "melee")
    /\ position (components devastatorSpawned) !! 5 = None
    /\ position (components w') !! 5 = Some (PositionComponent.new 5 10 10)
    /\ components w' <> components devastatorSpawned.
Proof.
  exists (default devastatorSpawned (addWeaponToEntity 0 "melee" devastatorSpawned)).
  repeat split; try (vm_compute; reflexivity).
  intros Hsame. apply (f_equal (fun c => weapon c !! 5)) in Hsame.
  vm_compute in Hsame. discriminate.
Qed.

